(** * fwords-backend: spaced-repetition progress and derived statistics

    A shallow embedding of the progress engine of the repository
    ([users/models.py], [users/signals.py], [users/serializers.py],
    [users/views.py], [words/models.py], [languages/models.py]) and the
    properties of its specification.

    Conventions.
    - Python [int] is [Z]; a primary key (an [AutoField]) is a [positive].
    - Python [float] is IEEE-754 binary64, taken from [SpecFloat] with
      precision 53 and maximal exponent 1024.
    - Python [str] is [string]; [None]-able values are [option]s.
    - A database table is the list of its rows; a model instance is the
      record of its fields, a foreign key the primary key it refers to.
      The timestamps [created_at] and [updated_at] and the phrase
      counters of [LanguageProgress] are left out.  Every save rewrites
      [updated_at], which the serializers show and by which the lists
      are ordered: what is stated of a row is stated of the columns
      that are kept, and nothing is stated of the order of a list.
    - Code that may raise runs in the monad [M], which threads the
      tables and carries either a value or the exception raised.  A
      write outside a transaction is committed when it is made
      (Django's autocommit): what was written before an exception stays
      written.  Inside [transaction.atomic] the writes are kept or
      undone together when the block ends ([atomic] below).
    - Log records below the level of an error are left out. *)

From Stdlib Require Import ZArith List String Ascii Bool Lia Btauto.
From Stdlib Require Import DecimalString.
From Stdlib Require Import Floats.SpecFloat.
From Stdlib Require Import Permutation Sorted.
Import ListNotations.

Local Open Scope string_scope.
Local Open Scope Z_scope.

(** ** Python floats *)

Module PyFloat.

Definition prec : Z := 53.
Definition emax : Z := 1024.

Definition float : Type := spec_float.

(** The binary64 number nearest to [n / d] (ties to even), with sign
    [s]; [0 <= n], [0 < d]. *)
Definition of_ratio (s : bool) (n d : Z) : float :=
  let '(q, e, l) := SFdiv_core_binary prec emax n 0 d 0 in
  binary_round_aux prec emax s q e l.

(** [float(n)] for a Python int. *)
Definition of_int (n : Z) : float := binary_normalize prec emax n 0 false.

(** [a / b] on Python ints, [b <> 0]: the correctly rounded quotient.
    A quotient beyond the range of binary64, where Python raises
    [OverflowError], is an infinity here. *)
Definition int_truediv (a b : Z) : float :=
  of_ratio (xorb (a <? 0) (b <? 0)) (Z.abs a) (Z.abs b).

Definition mul : float -> float -> float := SFmul prec emax.
Definition ltb : float -> float -> bool := SFltb.
Definition leb : float -> float -> bool := SFleb.

(** Round-half-even of the rational [n / d] to an integer, [0 < d]. *)
Definition round_half_even (n d : Z) : Z :=
  let q := n / d in
  let r := n mod d in
  match 2 * r ?= d with
  | Lt => q
  | Gt => q + 1
  | Eq => if Z.even q then q else q + 1
  end.

(** The integer nearest to [|x| * 10^k] for a finite [x = m * 2^e]. *)
Definition scaled_magnitude (k : Z) (m : positive) (e : Z) : Z :=
  match e with
  | Zneg p => round_half_even (Zpos m * 10 ^ k) (2 ^ Zpos p)
  | _ => Zpos m * 2 ^ e * 10 ^ k
  end.

(** [round(x, ndigits)] for [0 <= ndigits]: the decimal with [ndigits]
    places nearest to the exact value of [x] (ties to even), converted
    back to the nearest binary64; infinities and NaN round to
    themselves. *)
Definition round (x : float) (ndigits : Z) : float :=
  match x with
  | S754_finite s m e =>
      of_ratio s (scaled_magnitude ndigits m e) (10 ^ ndigits)
  | _ => x
  end.

(** [min(a, b)]: the first argument unless the second is smaller. *)
Definition min (a b : float) : float := if ltb b a then b else a.

Definition zero : float := S754_zero false.
Definition hundred : float := Eval vm_compute in of_int 100.

(** The sign bit is clear and the value is a number. *)
Definition nonneg (x : float) : Prop :=
  match x with
  | S754_zero s | S754_infinity s | S754_finite s _ _ => s = false
  | S754_nan => False
  end.

End PyFloat.

(** ** Dates

    [datetime.date] is a triple of year, month and day, compared
    lexicographically. *)

Module PyDate.

Record date : Type := mkdate { year : Z; month : Z; day : Z }.

Definition eqb (a b : date) : bool :=
  (year a =? year b) && (month a =? month b) && (day a =? day b).

(** [a <= b] *)
Definition leb (a b : date) : bool :=
  (year a <? year b)
  || ((year a =? year b)
      && ((month a <? month b)
          || ((month a =? month b) && (day a <=? day b)))).

Definition is_leap (y : Z) : bool :=
  (y mod 4 =? 0) && (negb (y mod 100 =? 0) || (y mod 400 =? 0)).

Definition DAYS_IN_MONTH : list Z :=
  [31; 28; 31; 30; 31; 30; 31; 31; 30; 31; 30; 31].

Definition DAYS_BEFORE_MONTH : list Z :=
  [0; 31; 59; 90; 120; 151; 181; 212; 243; 273; 304; 334].

(** The days of month [m], and the days of the year before it, in a
    leap year or another. *)
Definition days_in_month_of (leap : bool) (m : Z) : Z :=
  if (m =? 2) && leap then 29
  else nth (Z.to_nat (m - 1)) DAYS_IN_MONTH 0.

Definition days_before_month_of (leap : bool) (m : Z) : Z :=
  nth (Z.to_nat (m - 1)) DAYS_BEFORE_MONTH 0
  + (if (2 <? m) && leap then 1 else 0).

Definition days_in_month (y m : Z) : Z := days_in_month_of (is_leap y) m.

Definition days_before_month (y m : Z) : Z :=
  days_before_month_of (is_leap y) m.

Definition days_before_year (y : Z) : Z :=
  let y' := y - 1 in
  y' * 365 + y' / 4 - y' / 100 + y' / 400.

(** The dates [datetime.date] can hold. *)
Definition valid (d : date) : Prop :=
  1 <= year d <= 9999 /\ 1 <= month d <= 12
  /\ 1 <= day d <= days_in_month (year d) (month d).

(** [date.toordinal()]: 0001-01-01 is day 1. *)
Definition toordinal (d : date) : Z :=
  days_before_year (year d) + days_before_month (year d) (month d) + day d.

(** Month and day of the day of the year with offset [n] (0 for
    January 1): an estimate of the month that is exact or one too
    large, then the correction. *)
Definition month_day (leapyear : bool) (n : Z) : Z * Z :=
  let m := Z.shiftr (n + 50) 5 in
  let preceding := days_before_month_of leapyear m in
  if n <? preceding then
    let m := m - 1 in
    let preceding := preceding - days_in_month_of leapyear m in
    (m, n - preceding + 1)
  else (m, n - preceding + 1).

(** [date.fromordinal(n)] *)
Definition fromordinal (n : Z) : date :=
  let n := n - 1 in
  let n400 := n / 146097 in
  let n := n mod 146097 in
  let y := n400 * 400 + 1 in
  let n100 := n / 36524 in
  let n := n mod 36524 in
  let n4 := n / 1461 in
  let n := n mod 1461 in
  let n1 := n / 365 in
  let n := n mod 365 in
  let y := y + n100 * 100 + n4 * 4 + n1 in
  if (n1 =? 4) || (n100 =? 4) then mkdate (y - 1) 12 31
  else
    let leapyear := (n1 =? 3) && (negb (n4 =? 24) || (n100 =? 3)) in
    let md := month_day leapyear n in
    mkdate y (fst md) (snd md).

(** [date.weekday()]: Monday is 0. *)
Definition weekday (d : date) : Z := (toordinal d + 6) mod 7.

Definition MAXORDINAL : Z := 3652059.

(** [d - timedelta(days=n)]; [None] stands for the [OverflowError] of
    a result outside [date.min .. date.max]. *)
Definition sub_days (d : date) (n : Z) : option date :=
  let o := toordinal d - n in
  if (1 <=? o) && (o <=? MAXORDINAL) then Some (fromordinal o) else None.

(** [d.replace(day=1)] and [d.replace(month=1, day=1)] *)
Definition replace_day (d : date) (dd : Z) : date :=
  mkdate (year d) (month d) dd.
Definition replace_month_day (d : date) (m dd : Z) : date :=
  mkdate (year d) m dd.

(** The dates of the proleptic Gregorian calendar from year 1 on. *)
Definition proper (d : date) : Prop :=
  1 <= year d /\ 1 <= month d <= 12
  /\ 1 <= day d <= days_in_month (year d) (month d).

Definition leap_day (y : Z) : Z := if is_leap y then 1 else 0.

(** [p] holds of the [fuel] integers from [k] on. *)
Fixpoint all_from (fuel : nat) (k : Z) (p : Z -> bool) : bool :=
  match fuel with
  | O => true
  | S f => p k && all_from f (k + 1) p
  end.

(** [month_day] is right at offset [n]. *)
Definition month_day_ok (leap : bool) (n : Z) : bool :=
  let md := month_day leap n in
  (1 <=? fst md) && (fst md <=? 12) && (1 <=? snd md)
  && (snd md <=? days_in_month_of leap (fst md))
  && (days_before_month_of leap (fst md) + snd md =? n + 1).

End PyDate.


(** ** Exceptions and the monad of database code *)

Inductive exn : Type :=
| DoesNotExist (model : string)
| AttributeError (cls attr : string)
| ValidationError (detail : string)
| IntegrityError (detail : string)
| OverflowError (detail : string)
| OperationalError (detail : string).

(** [str(e)] *)
Definition str (e : exn) : string :=
  match e with
  | DoesNotExist model => model ++ " matching query does not exist."
  | AttributeError cls attr =>
      "'" ++ cls ++ "' object has no attribute '" ++ attr ++ "'"
  | ValidationError d | IntegrityError d | OverflowError d
  | OperationalError d => d
  end%string.

Inductive result (A : Type) : Type :=
| Ok (a : A)
| Raise (e : exn).
Arguments Ok {A} a.
Arguments Raise {A} e.

(** ** The catalog: languages and words *)

Module Language.
Record t : Type := mk {
  id : positive;
  code : string;
  name_english : string;
  name_native : string;
  enabled : bool
}.
End Language.

Inductive DifficultyLevel : Type :=
| BEGINNER | ELEMENTARY | INTERMEDIATE | UPPER_INTERMEDIATE | ADVANCED
| PROFICIENT.

Definition DifficultyLevel_eqb (a b : DifficultyLevel) : bool :=
  match a, b with
  | BEGINNER, BEGINNER | ELEMENTARY, ELEMENTARY
  | INTERMEDIATE, INTERMEDIATE | UPPER_INTERMEDIATE, UPPER_INTERMEDIATE
  | ADVANCED, ADVANCED | PROFICIENT, PROFICIENT => true
  | _, _ => false
  end.

(** The value of a [TextChoices] member. *)
Definition DifficultyLevel_value (d : DifficultyLevel) : string :=
  match d with
  | BEGINNER => "beginner"
  | ELEMENTARY => "elementary"
  | INTERMEDIATE => "intermediate"
  | UPPER_INTERMEDIATE => "upper_intermediate"
  | ADVANCED => "advanced"
  | PROFICIENT => "proficient"
  end.

Module Word.
Record t : Type := mk {
  id : positive;
  word : string;
  language : positive;
  transcription : string;
  part_of_speech : positive;
  gender : option string;
  difficulty_level : DifficultyLevel;
  audio_url : string;
  active : bool
}.

(** What an attribute of a [Word] instance evaluates to. *)
Inductive attr : Type :=
| AInt (n : Z)
| AStr (s : string)
| ABool (b : bool)
| ANone
| ARelated (model : string) (pk : positive)
| AMethod (name : string).

(** The methods that [class Word] defines. *)
Definition METHODS : list string :=
  ["__str__"; "get_translations"; "get_translations_to_language";
   "get_translations_from_language"; "get_all_translations_dict"].

(** [getattr(w, name)] on the names that [class Word] declares: its
    fields, the primary key, the [_id] companions of its foreign keys
    and its methods.  The names that every model inherits from
    [django.db.models.Model] are left out (none of them is [text]); any
    other name raises [AttributeError]. *)
Definition getattr (w : t) (name : string) : result attr :=
  if String.eqb name "id" then Ok (AInt (Zpos (id w)))
  else if String.eqb name "pk" then Ok (AInt (Zpos (id w)))
  else if String.eqb name "word" then Ok (AStr (word w))
  else if String.eqb name "language"
       then Ok (ARelated "Language" (language w))
  else if String.eqb name "language_id" then Ok (AInt (Zpos (language w)))
  else if String.eqb name "transcription" then Ok (AStr (transcription w))
  else if String.eqb name "part_of_speech"
       then Ok (ARelated "PartOfSpeech" (part_of_speech w))
  else if String.eqb name "part_of_speech_id"
       then Ok (AInt (Zpos (part_of_speech w)))
  else if String.eqb name "gender"
       then Ok (match gender w with Some g => AStr g | None => ANone end)
  else if String.eqb name "difficulty_level"
       then Ok (AStr (DifficultyLevel_value (difficulty_level w)))
  else if String.eqb name "audio_url" then Ok (AStr (audio_url w))
  else if String.eqb name "active" then Ok (ABool (active w))
  else if existsb (String.eqb name) METHODS then Ok (AMethod name)
  else Raise (AttributeError "Word" name).
End Word.

(** ** Users and progress rows *)

Module User.
Record t : Type := mk {
  id : positive;
  email : string;
  native_language : option positive;
  active_language : option positive
}.
End User.

Module LanguageProgress.
Record t : Type := mk {
  id : positive;
  user : positive;
  language : positive;
  level : string;
  learned_words : PyFloat.float;
  learned_words_count : Z
}.
End LanguageProgress.

Definition datetime : Type := Z.

Module WordsProgress.
(** [pk] is [None] until the instance has been inserted. *)
Record t : Type := mk {
  pk : option positive;
  user : positive;
  word : positive;
  target_language : positive;
  status : string;
  interval : Z;
  next_review : option datetime;
  review_count : Z;
  correct_count : Z;
  date_learned : option PyDate.date
}.
End WordsProgress.

(** A record of [logger.error]: the function that logged and [str(e)].
    Records of lower levels are not kept. *)
Record LogRecord : Type := mkLog { funcName : string; message : string }.

(** The database tables, the error log, and [connection.needs_rollback]
    of the database connection (see [atomic] below). *)
Record World : Type := mkWorld {
  languages : list Language.t;
  words : list Word.t;
  language_progress : list LanguageProgress.t;
  words_progress : list WordsProgress.t;
  error_log : list LogRecord;
  needs_rollback : bool
}.

Definition set_language_progress (w : World) (t : list LanguageProgress.t)
  : World :=
  mkWorld (languages w) (words w) t (words_progress w) (error_log w)
    (needs_rollback w).

Definition set_words_progress (w : World) (t : list WordsProgress.t)
  : World :=
  mkWorld (languages w) (words w) (language_progress w) t (error_log w)
    (needs_rollback w).

Definition set_needs_rollback (w : World) (b : bool) : World :=
  mkWorld (languages w) (words w) (language_progress w) (words_progress w)
    (error_log w) b.

Definition M (A : Type) : Type := World -> result A * World.

Definition ret {A} (a : A) : M A := fun w => (Ok a, w).
Definition raise {A} (e : exn) : M A := fun w => (Raise e, w).
Definition bind {A B} (m : M A) (k : A -> M B) : M B :=
  fun w =>
    match m w with
    | (Ok a, w') => k a w'
    | (Raise e, w') => (Raise e, w')
    end.

(** [try: m] with [except Exception as e: h e] *)
Definition try_except {A} (m : M A) (h : exn -> M A) : M A :=
  fun w =>
    match m w with
    | (Ok a, w') => (Ok a, w')
    | (Raise e, w') => h e w'
    end.

Definition get_world : M World := fun w => (Ok w, w).

(** [logger.error(...)] *)
Definition logger_error_msg (func : string) (msg : string) : M unit :=
  fun w =>
    (Ok tt,
     mkWorld (languages w) (words w) (language_progress w) (words_progress w)
       (error_log w ++ [mkLog func msg]) (needs_rollback w)).

Definition logger_error (func : string) (e : exn) : M unit :=
  logger_error_msg func (str e).

Notation "x <- m ;; k" := (bind m (fun x => k))
  (at level 61, m at next level, right associativity).
Notation "m ;;; k" := (bind m (fun _ => k))
  (at level 61, right associativity).

(** ** Queries

    Every call of the ORM can fail for reasons of its own (a lost
    connection, a lock timeout, ...).  [fault] says which call sites do,
    and with what exception; [no_fault] is the run in which none does. *)

Inductive orm_call : Type :=
| Q_LanguageProgress_get_or_create
| Q_Word_count
| Q_WordsProgress_count
| Q_LanguageProgress_save
| Q_WordsProgress_get
| Q_WordsProgress_save
| Q_milestone_count
| Q_catalog.

Definition faults : Type := orm_call -> option exn.
Definition no_fault : faults := fun _ => None.

Definition orm {A} (fault : faults) (c : orm_call) (m : M A) : M A :=
  fun w =>
    match fault c with
    | Some e => (Raise e, w)
    | None => m w
    end.

(** ** Transactions

    [Model.save_base] runs the statement of a write inside
    [transaction.mark_for_rollback_on_error]: when the statement raises
    inside an atomic block, [connection.needs_rollback] is set before
    the exception goes on.  Outside a block Django leaves the flag
    alone; here it is set all the same, and nothing reads it before
    the next block clears it. *)
Definition mark_for_rollback_on_error {A} (m : M A) : M A :=
  fun w =>
    match m w with
    | (Ok a, w') => (Ok a, w')
    | (Raise e, w') => (Raise e, set_needs_rollback w' true)
    end.

(** [connection.rollback()]: the tables as they were at [saved].  The
    log is no part of the database. *)
Definition rollback (saved w : World) : World :=
  mkWorld (languages saved) (words saved) (language_progress saved)
    (words_progress saved) (error_log w) (needs_rollback w).

(** [with transaction.atomic(): m], as the outermost block, which the
    blocks of this code are under autocommit
    ([Atomic.__enter__] and [Atomic.__exit__]).  The flag is cleared on
    entry.  On exit the block is committed when no exception leaves it
    and the flag is not set; it is rolled back otherwise, also when the
    exception that set the flag was caught inside the block, and then
    nothing is raised.

    Not modelled: inside a block whose flag is set, Django refuses every
    further query with [TransactionManagementError].  In this code the
    only such query is the count of [log_word_milestone], whose
    exception that receiver logs; the tables end the same. *)
Definition atomic {A} (m : M A) : M A :=
  fun w =>
    match m (set_needs_rollback w false) with
    | (Ok a, w') =>
        if needs_rollback w'
        then (Ok a, set_needs_rollback (rollback w w') false)
        else (Ok a, w')
    | (Raise e, w') => (Raise e, set_needs_rollback (rollback w w') false)
    end.

Definition dict_get {V} (d : list (string * V)) (k : string) (default : V)
  : V :=
  match find (fun kv => String.eqb (fst kv) k) d with
  | Some kv => snd kv
  | None => default
  end.

Definition count {A} (p : A -> bool) (l : list A) : Z :=
  Z.of_nat (List.length (filter p l)).

Definition in_strings (s : string) (l : list string) : bool :=
  existsb (String.eqb s) l.

(** A primary key for a new row: one that no row of the table has.
    The embedding takes the least key above those present; the
    database takes the next value of the sequence of the table, which
    is above every key that was ever given, also those of deleted
    rows.  The properties say of a new key only that no row has it. *)
Definition next_pk (used : list positive) : positive :=
  fold_right (fun p acc => Pos.max (Pos.succ p) acc) 1%positive used.

(** ** [users/signals.py] *)

Definition DIFFICULTY_TO_LEVEL_MAP : list (string * list DifficultyLevel) :=
  [ ("A1", [BEGINNER]);
    ("A2", [BEGINNER; ELEMENTARY]);
    ("B1", [BEGINNER; ELEMENTARY; INTERMEDIATE]);
    ("B2", [BEGINNER; ELEMENTARY; INTERMEDIATE; UPPER_INTERMEDIATE]);
    ("C1", [BEGINNER; ELEMENTARY; INTERMEDIATE; UPPER_INTERMEDIATE;
            ADVANCED]);
    ("C2", [BEGINNER; ELEMENTARY; INTERMEDIATE; UPPER_INTERMEDIATE;
            ADVANCED; PROFICIENT]) ].

(** [difficulty_level__in=levels] *)
Definition difficulty_in (levels : list DifficultyLevel) (w : Word.t) : bool :=
  existsb (DifficultyLevel_eqb (Word.difficulty_level w)) levels.

(** The rows selected by
    [Word.objects.filter(language=, difficulty_level__in=, active=True)]. *)
Definition available_word (language : positive)
  (levels : list DifficultyLevel) (w : Word.t) : bool :=
  (Word.language w =? language)%positive && difficulty_in levels w
  && Word.active w.

(** The rows selected by
    [WordsProgress.objects.filter(user=, target_language=,
    status__in=['learned', 'mastered'])]. *)
Definition learned_or_mastered (user language : positive)
  (r : WordsProgress.t) : bool :=
  (WordsProgress.user r =? user)%positive
  && (WordsProgress.target_language r =? language)%positive
  && in_strings (WordsProgress.status r) ["learned"; "mastered"].

Definition lp_matches (user language : positive) (r : LanguageProgress.t)
  : bool :=
  (LanguageProgress.user r =? user)%positive
  && (LanguageProgress.language r =? language)%positive.

(** [UPDATE ... SET learned_words, learned_words_count WHERE id = pk] *)
Definition lp_update_stats (pk : positive) (learned_words : PyFloat.float)
  (learned_words_count : Z) (r : LanguageProgress.t) : LanguageProgress.t :=
  if (LanguageProgress.id r =? pk)%positive then
    LanguageProgress.mk (LanguageProgress.id r) (LanguageProgress.user r)
      (LanguageProgress.language r) (LanguageProgress.level r)
      learned_words learned_words_count
  else r.

Section Signals.

Variable fault : faults.

(** [LanguageProgress.objects.get_or_create(user=, language=,
    defaults={'level': level})].  The [post_save] receiver of the new
    row sees [created] and does nothing.  The insert runs in an atomic
    block of its own, a savepoint when a block is open: its failure
    undoes nothing else and leaves [needs_rollback] as it was. *)
Definition LanguageProgress_get_or_create (user language : positive)
  (level : string) : M (LanguageProgress.t * bool) :=
  orm fault Q_LanguageProgress_get_or_create (fun w =>
    match find (lp_matches user language) (language_progress w) with
    | Some r => (Ok (r, false), w)
    | None =>
        let r :=
          LanguageProgress.mk
            (next_pk (map LanguageProgress.id (language_progress w)))
            user language level PyFloat.zero 0 in
        (Ok (r, true),
         set_language_progress w (language_progress w ++ [r]))
    end).

Definition Word_filter_count (language : positive)
  (levels : list DifficultyLevel) : M Z :=
  orm fault Q_Word_count (fun w =>
    (Ok (count (available_word language levels) (words w)), w)).

Definition WordsProgress_filter_count (user language : positive) : M Z :=
  orm fault Q_WordsProgress_count (fun w =>
    (Ok (count (learned_or_mastered user language) (words_progress w)), w)).

(** [language_progress.save(update_fields=['learned_words',
    'learned_words_count', 'updated_at'])] with
    [_updating_from_signal] set: the [post_save] receiver of
    [LanguageProgress] returns at once.  The save also sets
    [updated_at] to the time of the call, a column that the embedding
    does not keep. *)
Definition LanguageProgress_save_stats (lp : LanguageProgress.t) : M unit :=
  mark_for_rollback_on_error
    (orm fault Q_LanguageProgress_save (fun w =>
       (Ok tt,
        set_language_progress w
          (map (lp_update_stats (LanguageProgress.id lp)
                  (LanguageProgress.learned_words lp)
                  (LanguageProgress.learned_words_count lp))
               (language_progress w))))).

Definition learned_percentage_of (learned_mastered_count
  total_available_words : Z) : PyFloat.float :=
  if 0 <? total_available_words then
    PyFloat.min PyFloat.hundred
      (PyFloat.round
         (PyFloat.mul
            (PyFloat.int_truediv learned_mastered_count
               total_available_words)
            PyFloat.hundred)
         2)
  else PyFloat.zero.

Definition update_language_progress (user target_language : positive)
  : M unit :=
  try_except
    (gc <- LanguageProgress_get_or_create user target_language "A1" ;;
     let language_progress := fst gc in
     let current_level := LanguageProgress.level language_progress in
     let available_difficulty_levels :=
       dict_get DIFFICULTY_TO_LEVEL_MAP current_level [BEGINNER] in
     total_available_words <-
       Word_filter_count target_language available_difficulty_levels ;;
     learned_mastered_count <-
       WordsProgress_filter_count user target_language ;;
     let learned_percentage :=
       learned_percentage_of learned_mastered_count total_available_words in
     LanguageProgress_save_stats
       (LanguageProgress.mk (LanguageProgress.id language_progress)
          (LanguageProgress.user language_progress)
          (LanguageProgress.language language_progress)
          (LanguageProgress.level language_progress)
          learned_percentage learned_mastered_count))
    (fun e => logger_error "update_language_progress" e).

(** [post_save] of [WordsProgress].  [user] and [target_language] are
    non-null foreign keys, so the guard of the source holds. *)
Definition words_progress_updated (instance : WordsProgress.t)
  (created : bool) : M unit :=
  try_except
    (update_language_progress (WordsProgress.user instance)
       (WordsProgress.target_language instance))
    (fun e => logger_error "words_progress_updated" e).

(** [post_delete] of [WordsProgress] *)
Definition words_progress_deleted (instance : WordsProgress.t) : M unit :=
  try_except
    (update_language_progress (WordsProgress.user instance)
       (WordsProgress.target_language instance))
    (fun e => logger_error "words_progress_deleted" e).

(** [post_save] of [LanguageProgress] *)
Definition language_progress_level_updated (instance : LanguageProgress.t)
  (created updating_from_signal : bool) : M unit :=
  try_except
    (if updating_from_signal then ret tt
     else if negb created then
       update_language_progress (LanguageProgress.user instance)
         (LanguageProgress.language instance)
     else ret tt)
    (fun e => logger_error "language_progress_level_updated" e).

End Signals.

(** ** Saving a [WordsProgress] instance *)

Definition with_date_learned (r : WordsProgress.t)
  (d : option PyDate.date) : WordsProgress.t :=
  WordsProgress.mk (WordsProgress.pk r) (WordsProgress.user r)
    (WordsProgress.word r) (WordsProgress.target_language r)
    (WordsProgress.status r) (WordsProgress.interval r)
    (WordsProgress.next_review r) (WordsProgress.review_count r)
    (WordsProgress.correct_count r) d.

Definition with_pk (r : WordsProgress.t) (pk : positive) : WordsProgress.t :=
  WordsProgress.mk (Some pk) (WordsProgress.user r)
    (WordsProgress.word r) (WordsProgress.target_language r)
    (WordsProgress.status r) (WordsProgress.interval r)
    (WordsProgress.next_review r) (WordsProgress.review_count r)
    (WordsProgress.correct_count r) (WordsProgress.date_learned r).

Definition has_pk (pk : positive) (r : WordsProgress.t) : bool :=
  match WordsProgress.pk r with
  | Some k => (k =? pk)%positive
  | None => false
  end.

Definition same_triple (a b : WordsProgress.t) : bool :=
  (WordsProgress.user a =? WordsProgress.user b)%positive
  && (WordsProgress.word a =? WordsProgress.word b)%positive
  && (WordsProgress.target_language a
      =? WordsProgress.target_language b)%positive.

(** The [CHECK (... >= 0)] constraints of the three
    [PositiveIntegerField] columns. *)
Definition positive_fields_ok (r : WordsProgress.t) : bool :=
  (0 <=? WordsProgress.interval r) && (0 <=? WordsProgress.review_count r)
  && (0 <=? WordsProgress.correct_count r).

(** [unique_together = ('user', 'word', 'target_language')]: no other row
    holds the triple of [r]. *)
Definition unique_together_ok (pk : positive) (r : WordsProgress.t)
  (rows : list WordsProgress.t) : bool :=
  negb (existsb (fun o => same_triple o r && negb (has_pk pk o)) rows).

Definition replace_row (pk : positive) (r o : WordsProgress.t)
  : WordsProgress.t :=
  if has_pk pk o then r else o.

Definition pks (rows : list WordsProgress.t) : list positive :=
  flat_map (fun r => match WordsProgress.pk r with
                     | Some k => [k]
                     | None => []
                     end) rows.

Section Saving.

Variable fault : faults.

(** [timezone.now().date()] *)
Variable today : PyDate.date.

(** [WordsProgress.objects.get(pk=pk)] *)
Definition WordsProgress_get (pk : positive) : M WordsProgress.t :=
  orm fault Q_WordsProgress_get (fun w =>
    match find (has_pk pk) (words_progress w) with
    | Some r => (Ok r, w)
    | None => (Raise (DoesNotExist "WordsProgress"), w)
    end).

(** [pre_save] of [WordsProgress].  Returns the instance as the
    receiver leaves it. The three branches of the source that assign
    [date_learned] assign the same value. *)
Definition set_date_learned (instance : WordsProgress.t)
  : M WordsProgress.t :=
  let stamped := with_date_learned instance (Some today) in
  try_except
    (match WordsProgress.pk instance with
     | None => ret stamped
     | Some pk =>
         try_except
           (old_instance <- WordsProgress_get pk ;; ret stamped)
           (fun e =>
              match e with
              | DoesNotExist _ => ret stamped
              | _ => raise e
              end)
     end)
    (fun e => logger_error "set_date_learned" e ;;; ret instance).

(** [post_save] of [WordsProgress], second receiver: it only logs. *)
Definition log_word_milestone (instance : WordsProgress.t)
  (created : bool) : M unit :=
  try_except
    (if in_strings (WordsProgress.status instance) ["learned"; "mastered"]
        && match WordsProgress.date_learned instance with
           | Some _ => true
           | None => false
           end
     then
       total_learned <-
         orm fault Q_milestone_count (fun w =>
           (Ok (count (learned_or_mastered (WordsProgress.user instance)
                         (WordsProgress.target_language instance))
                  (words_progress w)), w)) ;;
       ret tt
     else ret tt)
    (fun e => logger_error "log_word_milestone" e).

(** The [INSERT] or [UPDATE] of [Model.save]: an instance without
    primary key is inserted under the next key; one with a key updates
    its row, or is inserted when there is none.  The constraints of
    the table are checked. *)
Definition WordsProgress_write (instance : WordsProgress.t)
  : M (WordsProgress.t * bool) :=
  mark_for_rollback_on_error
    (orm fault Q_WordsProgress_save (fun w =>
       let rows := words_progress w in
       let pk :=
         match WordsProgress.pk instance with
         | Some k => k
         | None => next_pk (pks rows)
         end in
       let row := with_pk instance pk in
       if negb (positive_fields_ok row) then
         (Raise (IntegrityError "CHECK constraint failed"), w)
       else if negb (unique_together_ok pk row rows) then
         (Raise (IntegrityError "UNIQUE constraint failed"), w)
       else if existsb (has_pk pk) rows then
         (Ok (row, false),
          set_words_progress w (map (replace_row pk row) rows))
       else
         (Ok (row, true), set_words_progress w (rows ++ [row])))).

(** [instance.save()]: the [pre_save] receiver, the write, then the
    [post_save] receivers in the order in which the [@receiver]
    decorators of [users/signals.py] register them. *)
Definition WordsProgress_save (instance : WordsProgress.t)
  : M WordsProgress.t :=
  instance <- set_date_learned instance ;;
  wr <- WordsProgress_write instance ;;
  let instance := fst wr in
  let created := snd wr in
  words_progress_updated fault instance created ;;;
  log_word_milestone instance created ;;;
  ret instance.

End Saving.

(** ** [WordsProgressSerializer] ([users/serializers.py]) *)

(** The writable fields of the serializer as a request supplies them;
    [None] is a key that is absent. *)
Module Attrs.
Record t : Type := mk {
  word_id : option Z;
  target_language_id : option Z;
  status : option string;
  interval : option Z;
  next_review : option (option datetime);
  review_count : option Z;
  correct_count : option Z;
  date_learned : option (option PyDate.date)
}.
End Attrs.

Definition STATUS_CHOICES : list string :=
  ["new"; "learning"; "learned"; "mastered"].

Definition word_has_id (n : Z) (w : Word.t) : bool := Zpos (Word.id w) =? n.
Definition language_has_id (n : Z) (l : Language.t) : bool :=
  Zpos (Language.id l) =? n.

Definition option_eqb (a : option positive) (b : positive) : bool :=
  match a with
  | Some x => (x =? b)%positive
  | None => false
  end.

Definition is_some {A} (o : option A) : bool :=
  match o with Some _ => true | None => false end.

(** Truth value of an optional Python int. *)
Definition truthy (o : option Z) : bool :=
  match o with
  | Some n => negb (n =? 0)
  | None => false
  end.

Definition override {A} (new : option A) (old : A) : A :=
  match new with Some a => a | None => old end.

(** [for field, value in validated_data.items(): setattr(instance, field,
    value)] on the model fields of [validated_data]. *)
Definition setattrs (instance : WordsProgress.t) (validated_data : Attrs.t)
  : WordsProgress.t :=
  WordsProgress.mk (WordsProgress.pk instance) (WordsProgress.user instance)
    (WordsProgress.word instance) (WordsProgress.target_language instance)
    (override (Attrs.status validated_data) (WordsProgress.status instance))
    (override (Attrs.interval validated_data)
       (WordsProgress.interval instance))
    (override (Attrs.next_review validated_data)
       (WordsProgress.next_review instance))
    (override (Attrs.review_count validated_data)
       (WordsProgress.review_count instance))
    (override (Attrs.correct_count validated_data)
       (WordsProgress.correct_count instance))
    (override (Attrs.date_learned validated_data)
       (WordsProgress.date_learned instance)).

(** A new instance from the lookup of [get_or_create] and its
    [defaults]; fields left out take the defaults of the model. *)
Definition new_instance (user word target_language : positive)
  (defaults : Attrs.t) : WordsProgress.t :=
  setattrs
    (WordsProgress.mk None user word target_language "new" 1 None 0 0 None)
    defaults.

Definition with_word (r : WordsProgress.t) (word : positive)
  : WordsProgress.t :=
  WordsProgress.mk (WordsProgress.pk r) (WordsProgress.user r) word
    (WordsProgress.target_language r) (WordsProgress.status r)
    (WordsProgress.interval r) (WordsProgress.next_review r)
    (WordsProgress.review_count r) (WordsProgress.correct_count r)
    (WordsProgress.date_learned r).

Definition with_target_language (r : WordsProgress.t) (l : positive)
  : WordsProgress.t :=
  WordsProgress.mk (WordsProgress.pk r) (WordsProgress.user r)
    (WordsProgress.word r) l (WordsProgress.status r)
    (WordsProgress.interval r) (WordsProgress.next_review r)
    (WordsProgress.review_count r) (WordsProgress.correct_count r)
    (WordsProgress.date_learned r).

Definition triple_is (user word target_language : positive)
  (r : WordsProgress.t) : bool :=
  (WordsProgress.user r =? user)%positive
  && (WordsProgress.word r =? word)%positive
  && (WordsProgress.target_language r =? target_language)%positive.

Section Serializer.

Variable fault : faults.
Variable today : PyDate.date.

(** [self.context['request'].user] *)
Variable user : User.t.

(** [Word.objects.get(id=n)] and [Language.objects.get(id=n)] *)
Definition Word_get (n : Z) : M Word.t :=
  orm fault Q_catalog (fun w =>
    match find (word_has_id n) (words w) with
    | Some x => (Ok x, w)
    | None => (Raise (DoesNotExist "Word"), w)
    end).

Definition Language_get (n : Z) : M Language.t :=
  orm fault Q_catalog (fun w =>
    match find (language_has_id n) (languages w) with
    | Some x => (Ok x, w)
    | None => (Raise (DoesNotExist "Language"), w)
    end).

Definition validate_word_id (value : Z) : M Z :=
  try_except
    (orm fault Q_catalog (fun w =>
       match find (fun x => word_has_id value x && Word.active x)
               (words w) with
       | Some _ => (Ok value, w)
       | None => (Raise (DoesNotExist "Word"), w)
       end))
    (fun e =>
       match e with
       | DoesNotExist _ => raise (ValidationError "Invalid or inactive word")
       | _ => raise e
       end).

Definition validate_target_language_id (value : Z) : M Z :=
  try_except
    (orm fault Q_catalog (fun w =>
       match find (fun x => language_has_id value x && Language.enabled x)
               (languages w) with
       | Some _ => (Ok value, w)
       | None => (Raise (DoesNotExist "Language"), w)
       end))
    (fun e =>
       match e with
       | DoesNotExist _ =>
           raise (ValidationError "Invalid or disabled language")
       | _ => raise e
       end).

Definition validate (attrs : Attrs.t) : M Attrs.t :=
  let word_id := Attrs.word_id attrs in
  let target_language_id := Attrs.target_language_id attrs in
  if truthy word_id && truthy target_language_id then
    word <- Word_get (override word_id 0) ;;
    target_language <- Language_get (override target_language_id 0) ;;
    if negb (Word.language word =? Language.id target_language)%positive
    then
      raise (ValidationError
               "Active language must be equal to word language")
    else if is_some (User.active_language user)
            && option_eqb (User.native_language user) (Word.language word)
    then
      raise (ValidationError
               "Word and active language mustn't match your native language")
    else ret attrs
  else ret attrs.

(** The largest value of a [PositiveIntegerField] column, which
    [ModelSerializer] makes the [max_value] of the field of the
    serializer: [connection.ops.integer_field_range].  The settings of
    the project are not among the sources; the value is that of SQLite,
    the back end of a new Django project.  PostgreSQL and MySQL give
    2147483647. *)
Definition PositiveIntegerField_max : Z := 9223372036854775807.

(** The checks that the fields of the serializer make on their own
    values: a required field is present (unless the update is partial),
    [status] is one of the choices, the three [PositiveIntegerField]s
    are not negative and not above the maximum of the column; then the
    [validate_<field>] methods. The first failure is the one
    reported. *)
Definition min_value_ok (o : option Z) : bool :=
  match o with
  | Some n => 0 <=? n
  | None => true
  end.

Definition max_value_ok (o : option Z) : bool :=
  match o with
  | Some n => n <=? PositiveIntegerField_max
  | None => true
  end.

Definition validate_fields (partial : bool) (attrs : Attrs.t) : M Attrs.t :=
  if negb partial && negb (is_some (Attrs.word_id attrs)
                           && is_some (Attrs.target_language_id attrs))
  then raise (ValidationError "This field is required.")
  else if match Attrs.status attrs with
          | Some s => negb (in_strings s STATUS_CHOICES)
          | None => false
          end
  then raise (ValidationError "is not a valid choice.")
  else if negb (min_value_ok (Attrs.interval attrs)
                && min_value_ok (Attrs.review_count attrs)
                && min_value_ok (Attrs.correct_count attrs))
  then raise (ValidationError
                "Ensure this value is greater than or equal to 0.")
  else if negb (max_value_ok (Attrs.interval attrs)
                && max_value_ok (Attrs.review_count attrs)
                && max_value_ok (Attrs.correct_count attrs))
  then raise (ValidationError
                "Ensure this value is less than or equal to 9223372036854775807.")
  else
    match Attrs.word_id attrs with
    | Some n => validate_word_id n
    | None => ret 0
    end ;;;
    match Attrs.target_language_id attrs with
    | Some n => validate_target_language_id n
    | None => ret 0
    end ;;;
    ret attrs.

(** [serializer.is_valid(raise_exception=True)] *)
Definition is_valid (partial : bool) (attrs : Attrs.t) : M Attrs.t :=
  attrs <- validate_fields partial attrs ;;
  validate attrs.

(** [WordsProgress.objects.get_or_create(user=, word=,
    target_language=, defaults=)] ([QuerySet.get_or_create]): the
    lookup; when it finds no row, [create] inside
    [transaction.atomic], so that the receivers of the save run inside
    the block; an [IntegrityError] that leaves the block is answered
    with a second lookup, and raised again when that finds no row
    either. *)
Definition WordsProgress_get_or_create (word target_language : positive)
  (defaults : Attrs.t) : M (WordsProgress.t * bool) :=
  w <- get_world ;;
  match find (triple_is (User.id user) word target_language)
          (words_progress w) with
  | Some progress => ret (progress, false)
  | None =>
      try_except
        (atomic
           (progress <-
              WordsProgress_save fault today
                (new_instance (User.id user) word target_language
                   defaults) ;;
            ret (progress, true)))
        (fun e =>
           match e with
           | IntegrityError _ =>
               w <- get_world ;;
               match find (triple_is (User.id user) word target_language)
                       (words_progress w) with
               | Some progress => ret (progress, false)
               | None => raise e
               end
           | _ => raise e
           end)
  end.

Definition create (validated_data : Attrs.t) : M WordsProgress.t :=
  word <- Word_get (override (Attrs.word_id validated_data) 0) ;;
  target_language <-
    Language_get (override (Attrs.target_language_id validated_data) 0) ;;
  gc <-
    WordsProgress_get_or_create (Word.id word) (Language.id target_language)
      validated_data ;;
  let progress := fst gc in
  let created := snd gc in
  if negb created then
    WordsProgress_save fault today (setattrs progress validated_data)
  else ret progress.

Definition update (instance : WordsProgress.t) (validated_data : Attrs.t)
  : M WordsProgress.t :=
  instance <-
    match Attrs.word_id validated_data with
    | Some word_id =>
        word <- Word_get word_id ;; ret (with_word instance (Word.id word))
    | None => ret instance
    end ;;
  instance <-
    match Attrs.target_language_id validated_data with
    | Some target_language_id =>
        l <- Language_get target_language_id ;;
        ret (with_target_language instance (Language.id l))
    | None => ret instance
    end ;;
  WordsProgress_save fault today (setattrs instance validated_data).

(** [WordsProgressListCreateView.post] *)
Definition WordsProgressListCreateView_post (data : Attrs.t)
  : M WordsProgress.t :=
  validated_data <- is_valid false data ;;
  create validated_data.

(** [self.get_object()] over
    [WordsProgress.objects.filter(user=self.request.user)] *)
Definition get_object (pk : positive) : M WordsProgress.t :=
  orm fault Q_WordsProgress_get (fun w =>
    match find (fun r => has_pk pk r
                         && (WordsProgress.user r =? User.id user)%positive)
            (words_progress w) with
    | Some r => (Ok r, w)
    | None => (Raise (DoesNotExist "WordsProgress"), w)
    end).

(** [WordsProgressDetailView.patch] *)
Definition WordsProgressDetailView_patch (pk : positive) (data : Attrs.t)
  : M WordsProgress.t :=
  instance <- get_object pk ;;
  validated_data <- is_valid true data ;;
  update instance validated_data.

(** [WordsProgressDetailView.put] *)
Definition WordsProgressDetailView_put (pk : positive) (data : Attrs.t)
  : M WordsProgress.t :=
  instance <- get_object pk ;;
  validated_data <- is_valid false data ;;
  update instance validated_data.

End Serializer.

(** ** [WordsProgressBulkUpdateView] ([users/views.py]) *)

(** One entry of [updates], with the types of the request schema;
    [None] is a key that is absent (or [null]). *)
Module UpdateData.
Record t : Type := mk {
  id : option Z;
  correct : option bool;
  status : option string;
  interval : option Z;
  next_review : option string
}.
End UpdateData.

(** An element of [errors]; [data] is [None] when the entry has no
    ['data'] key. *)
Record ErrorEntry : Type := mkError {
  error : string;
  data : option UpdateData.t
}.

Inductive Outcome : Type :=
| Updated
| Failed (e : ErrorEntry).

Inductive BulkResponse : Type :=
| Bulk_400 (error : string)
| Bulk_200 (updated_count total_requested : Z) (errors : list ErrorEntry).

(** [str(n)] for a Python int *)
Definition string_of_Z (n : Z) : string := NilZero.string_of_int (Z.to_int n).

Definition with_counts (r : WordsProgress.t) (review_count correct_count : Z)
  : WordsProgress.t :=
  WordsProgress.mk (WordsProgress.pk r) (WordsProgress.user r)
    (WordsProgress.word r) (WordsProgress.target_language r)
    (WordsProgress.status r) (WordsProgress.interval r)
    (WordsProgress.next_review r) review_count correct_count
    (WordsProgress.date_learned r).

Definition with_schedule (r : WordsProgress.t) (status : string)
  (interval : Z) (next_review : option datetime) : WordsProgress.t :=
  WordsProgress.mk (WordsProgress.pk r) (WordsProgress.user r)
    (WordsProgress.word r) (WordsProgress.target_language r)
    status interval next_review (WordsProgress.review_count r)
    (WordsProgress.correct_count r) (WordsProgress.date_learned r).

(** The rows selected by [filter(id=n, user=user)]. *)
Definition owned_by (user : User.t) (n : Z) (r : WordsProgress.t) : bool :=
  match WordsProgress.pk r with
  | Some k => Zpos k =? n
  | None => false
  end
  && (WordsProgress.user r =? User.id user)%positive.

Section BulkUpdate.

Variable fault : faults.
Variable today : PyDate.date.

(** [request.user] *)
Variable user : User.t.

(** [django.utils.dateparse.parse_datetime]: [None] for a string that
    is not a datetime, [ValueError] for one that is ill-formed. *)
Variable parse_datetime : string -> result (option datetime).

(** [WordsProgress.objects.get(id=progress_id, user=request.user)] *)
Definition WordsProgress_get_owned (progress_id : Z) : M WordsProgress.t :=
  orm fault Q_WordsProgress_get (fun w =>
    match find (owned_by user progress_id) (words_progress w) with
    | Some r => (Ok r, w)
    | None => (Raise (DoesNotExist "WordsProgress"), w)
    end).

(** [progress.word]: the related object *)
Definition related_word (progress : WordsProgress.t) : M Word.t :=
  orm fault Q_catalog (fun w =>
    match find (fun x => (Word.id x =? WordsProgress.word progress)%positive)
            (words w) with
    | Some x => (Ok x, w)
    | None => (Raise (DoesNotExist "Word"), w)
    end).

(** The body of the loop over [updates]. *)
Definition process_update (update_data : UpdateData.t) : M Outcome :=
  try_except
    (let progress_id := UpdateData.id update_data in
     if negb (truthy progress_id) then
       ret (Failed (mkError "Missing id in update data" (Some update_data)))
     else
       let progress_id := override progress_id 0 in
       found <-
         try_except
           (progress <- WordsProgress_get_owned progress_id ;;
            word <- related_word progress ;;
            word_text <- (fun w => (Word.getattr word "text", w)) ;;
            ret (Some progress))
           (fun e =>
              match e with
              | DoesNotExist model =>
                  if String.eqb model "WordsProgress" then ret None
                  else raise e
              | _ => raise e
              end) ;;
       match found with
       | None =>
           ret (Failed
                  (mkError ("Words progress with id "
                            ++ string_of_Z progress_id ++ " not found")
                     None))
       | Some progress =>
           let progress :=
             with_counts progress (WordsProgress.review_count progress + 1)
               (WordsProgress.correct_count progress) in
           let is_correct := override (UpdateData.correct update_data) false in
           let progress :=
             if is_correct then
               with_counts progress (WordsProgress.review_count progress)
                 (WordsProgress.correct_count progress + 1)
             else progress in
           let progress :=
             with_schedule progress
               (override (UpdateData.status update_data)
                  (WordsProgress.status progress))
               (override (UpdateData.interval update_data)
                  (WordsProgress.interval progress))
               (WordsProgress.next_review progress) in
           progress <-
             match UpdateData.next_review update_data with
             | Some s =>
                 next_review <- (fun w => (parse_datetime s, w)) ;;
                 match next_review with
                 | Some t =>
                     ret (with_schedule progress
                            (WordsProgress.status progress)
                            (WordsProgress.interval progress) (Some t))
                 | None => ret progress
                 end
             | None => ret progress
             end ;;
           let progress :=
             if in_strings (WordsProgress.status progress)
                  ["learned"; "mastered"]
                && negb (is_some (WordsProgress.date_learned progress))
             then with_date_learned progress (Some today)
             else progress in
           WordsProgress_save fault today progress ;;;
           ret Updated
       end)
    (fun e =>
       logger_error "log_progress_request" e ;;;
       ret (Failed (mkError (str e) (Some update_data)))).

(** The loop, with its two accumulators. *)
Fixpoint process_updates (updates : list UpdateData.t) (updated_count : Z)
  (errors : list ErrorEntry) : M (Z * list ErrorEntry) :=
  match updates with
  | [] => ret (updated_count, errors)
  | update_data :: rest =>
      o <- process_update update_data ;;
      match o with
      | Updated => process_updates rest (updated_count + 1) errors
      | Failed e => process_updates rest updated_count (errors ++ [e])
      end
  end.

Definition WordsProgressBulkUpdateView_post (updates : list UpdateData.t)
  : M BulkResponse :=
  match updates with
  | [] =>
      logger_error_msg "log_progress_request" "No updates provided" ;;;
      ret (Bulk_400 "No updates provided")
  | _ =>
      r <- process_updates updates 0 [] ;;
      ret (Bulk_200 (fst r) (Z.of_nat (List.length updates)) (snd r))
  end.

End BulkUpdate.

(** ** [WordsLearnedStatsView] ([users/views.py]) *)

Module DailyStat.
Record t : Type := mk {
  date : PyDate.date;
  new : Z;
  learning : Z;
  learned : Z;
  mastered : Z;
  total : Z
}.
End DailyStat.

Module LanguageStat.
Record t : Type := mk {
  language_code : string;
  language_name : string;
  new_count : Z;
  learning_count : Z;
  learned_count : Z;
  mastered_count : Z;
  total_count : Z
}.
End LanguageStat.

Module Stats.
Record t : Type := mk {
  period : string;
  start_date : option PyDate.date;
  end_date : PyDate.date;
  words_new : Z;
  words_learning : Z;
  words_learned : Z;
  words_mastered : Z;
  total_words : Z;
  daily_breakdown : list DailyStat.t;
  language_breakdown : list LanguageStat.t
}.
End Stats.

Inductive StatsResponse : Type :=
| Stats_200 (body : Stats.t)
| Stats_400 (error : string)
| Stats_500 (error : string).

Definition has_status (s : string) (r : WordsProgress.t) : bool :=
  String.eqb (WordsProgress.status r) s.

(** [date_learned__gte=d] and [date_learned__lte=d]; a row without date
    satisfies neither. *)
Definition date_learned_gte (d : PyDate.date) (r : WordsProgress.t) : bool :=
  match WordsProgress.date_learned r with
  | Some x => PyDate.leb d x
  | None => false
  end.

Definition date_learned_lte (d : PyDate.date) (r : WordsProgress.t) : bool :=
  match WordsProgress.date_learned r with
  | Some x => PyDate.leb x d
  | None => false
  end.

(** The language that [target_language] joins to. *)
Definition target_language_of (ls : list Language.t) (r : WordsProgress.t)
  : option Language.t :=
  find (fun l => (Language.id l =? WordsProgress.target_language r)%positive)
    ls.

(** [target_language__code=code] *)
Definition target_language_code_is (ls : list Language.t) (code : string)
  (r : WordsProgress.t) : bool :=
  match target_language_of ls r with
  | Some l => String.eqb (Language.code l) code
  | None => false
  end.

(** The first occurrence of every element, in order. *)
Fixpoint distinct {A} (eqb : A -> A -> bool) (l : list A) : list A :=
  match l with
  | [] => []
  | x :: rest => x :: filter (fun y => negb (eqb x y)) (distinct eqb rest)
  end.

(** Stable insertion sort; [le a b] says that [a] may stand before [b]. *)
Fixpoint insert_sorted {A} (le : A -> A -> bool) (x : A) (l : list A)
  : list A :=
  match l with
  | [] => [x]
  | y :: rest => if le x y then x :: l else y :: insert_sorted le x rest
  end.

Definition sort {A} (le : A -> A -> bool) (l : list A) : list A :=
  fold_right (insert_sorted le) [] l.

(** [queryset.values('date_learned').annotate(...).order_by('date_learned')] *)
Definition daily_stats (rows : list WordsProgress.t) : list DailyStat.t :=
  let dates :=
    sort PyDate.leb
      (distinct PyDate.eqb
         (flat_map (fun r => match WordsProgress.date_learned r with
                             | Some d => [d]
                             | None => []
                             end) rows)) in
  map (fun d =>
         let group :=
           filter (fun r => match WordsProgress.date_learned r with
                            | Some x => PyDate.eqb x d
                            | None => false
                            end) rows in
         DailyStat.mk d (count (has_status "new") group)
           (count (has_status "learning") group)
           (count (has_status "learned") group)
           (count (has_status "mastered") group)
           (count (fun _ => true) group))
      dates.

Definition same_language (a b : string * string) : bool :=
  String.eqb (fst a) (fst b) && String.eqb (snd a) (snd b).

(** [queryset.values('target_language__code',
    'target_language__name_english').annotate(...).order_by('-total_count')];
    groups of equal size keep the order of their first rows. *)
Definition language_stats (ls : list Language.t) (rows : list WordsProgress.t)
  : list LanguageStat.t :=
  let key r :=
    match target_language_of ls r with
    | Some l => [(Language.code l, Language.name_english l)]
    | None => []
    end in
  let groups :=
    map (fun k =>
           let group :=
             filter (fun r => existsb (same_language k) (key r)) rows in
           LanguageStat.mk (fst k) (snd k)
             (count (has_status "new") group)
             (count (has_status "learning") group)
             (count (has_status "learned") group)
             (count (has_status "mastered") group)
             (count (fun _ => true) group))
        (distinct same_language (flat_map key rows)) in
  sort (fun a b => LanguageStat.total_count b <=? LanguageStat.total_count a)
    groups.

Definition nonempty (s : option string) : bool :=
  match s with
  | Some EmptyString | None => false
  | Some _ => true
  end.

Section Stats.

Variable fault : faults.
Variable today : PyDate.date.

(** [str.lower] *)
Variable lower : string -> string.

(** [request.user] *)
Variable user : positive.

(** The date range of a period: [None] for a period that is not
    supported, otherwise [start_date] and [end_date]. *)
Definition date_range (period : string)
  : M (option (option PyDate.date * PyDate.date)) :=
  if String.eqb period "today" then ret (Some (Some today, today))
  else if String.eqb period "week" then
    match PyDate.sub_days today (PyDate.weekday today) with
    | Some start_date => ret (Some (Some start_date, today))
    | None => raise (OverflowError "date value out of range")
    end
  else if String.eqb period "month" then
    ret (Some (Some (PyDate.replace_day today 1), today))
  else if String.eqb period "year" then
    ret (Some (Some (PyDate.replace_month_day today 1 1), today))
  else if String.eqb period "all" then ret (Some (None, today))
  else ret None.

(** The rows of the queryset after the date and language filters. *)
Definition stats_queryset (start_date : option PyDate.date)
  (end_date : PyDate.date) (language_filter : option string) (w : World)
  : list WordsProgress.t :=
  let queryset :=
    filter (fun r => (WordsProgress.user r =? user)%positive
                     && is_some (WordsProgress.date_learned r))
      (words_progress w) in
  let queryset :=
    match start_date with
    | Some d => filter (date_learned_gte d) queryset
    | None => queryset
    end in
  let queryset := filter (date_learned_lte end_date) queryset in
  if nonempty language_filter then
    filter (target_language_code_is (languages w)
              (override language_filter "")) queryset
  else queryset.

(** The body of [get] once [period] is known. *)
Definition stats_response (period : string)
  (language_filter : option string) : M StatsResponse :=
  try_except
    (range <- date_range period ;;
     match range with
     | None =>
         ret (Stats_400
                "Invalid period. Use: today, week, month, year, or all")
     | Some (start_date, end_date) =>
         orm fault Q_WordsProgress_count (fun w =>
           let queryset :=
             stats_queryset start_date end_date language_filter w in
           let new_count := count (has_status "new") queryset in
           let learning_count := count (has_status "learning") queryset in
           let learned_count := count (has_status "learned") queryset in
           let mastered_count := count (has_status "mastered") queryset in
           let total_count := learned_count + mastered_count in
           let daily_breakdown :=
             if in_strings period ["today"; "week"; "month"]
                || (String.eqb period "year" && is_some start_date)
             then daily_stats queryset
             else [] in
           let language_breakdown :=
             filter (fun s => 0 <? LanguageStat.total_count s)
               (language_stats (languages w) queryset) in
           (Ok (Stats_200
                  (Stats.mk period start_date end_date new_count
                     learning_count learned_count mastered_count
                     total_count daily_breakdown language_breakdown)),
            w))
     end)
    (fun e =>
       logger_error "log_progress_request" e ;;;
       ret (Stats_500 "Failed to retrieve statistics")).

(** [get]: [period_param] and [language_filter] are the query
    parameters ['period'] and ['language']. *)
Definition WordsLearnedStatsView_get (period_param : option string)
  (language_filter : option string) : M StatsResponse :=
  let period := lower (override period_param "today") in
  stats_response period language_filter.

End Stats.

(** ** The public progress operations *)

Inductive Request : Type :=
| POST_words (user : User.t) (data : Attrs.t)
| PATCH_words (user : User.t) (pk : positive) (data : Attrs.t)
| PUT_words (user : User.t) (pk : positive) (data : Attrs.t)
| POST_bulk_update (user : User.t) (updates : list UpdateData.t).

Section Requests.

Variable fault : faults.
Variable today : PyDate.date.
Variable parse_datetime : string -> result (option datetime).

(** The row a request answers with, if it answers with one.  An
    exception that leaves the view is an error response. *)
Definition handle (req : Request) : M (option WordsProgress.t) :=
  match req with
  | POST_words user data =>
      r <- WordsProgressListCreateView_post fault today user data ;;
      ret (Some r)
  | PATCH_words user pk data =>
      r <- WordsProgressDetailView_patch fault today user pk data ;;
      ret (Some r)
  | PUT_words user pk data =>
      r <- WordsProgressDetailView_put fault today user pk data ;;
      ret (Some r)
  | POST_bulk_update user updates =>
      WordsProgressBulkUpdateView_post fault today user parse_datetime
        updates ;;;
      ret None
  end.

Definition step (w : World) (req : Request) : World := snd (handle req w).


End Requests.

(** The payload of a request on one row, and whether it sets a counter. *)
Definition payload (req : Request) : option Attrs.t :=
  match req with
  | POST_words _ data | PATCH_words _ _ data | PUT_words _ _ data => Some data
  | POST_bulk_update _ _ => None
  end.



(** ** Levels *)

(** [LanguageProgress.LEVEL_CHOICES], in their order. *)
Inductive Level : Type := A1 | A2 | B1 | B2 | C1 | C2.

Definition Level_value (l : Level) : string :=
  match l with
  | A1 => "A1" | A2 => "A2" | B1 => "B1" | B2 => "B2" | C1 => "C1"
  | C2 => "C2"
  end.

Definition Level_rank (l : Level) : nat :=
  match l with
  | A1 => 0 | A2 => 1 | B1 => 2 | B2 => 3 | C1 => 4 | C2 => 5
  end%nat.

Definition ALL_TIERS : list DifficultyLevel :=
  [BEGINNER; ELEMENTARY; INTERMEDIATE; UPPER_INTERMEDIATE; ADVANCED;
   PROFICIENT].

(** The tiers that the recalculation takes for a level. *)
Definition eligible_tiers (level : string) : list DifficultyLevel :=
  dict_get DIFFICULTY_TO_LEVEL_MAP level [BEGINNER].

(** ** The quantities of the recalculation, read off a state *)

Definition current_level (w : World) (user language : positive) : string :=
  match find (lp_matches user language) (language_progress w) with
  | Some lp => LanguageProgress.level lp
  | None => "A1"
  end.

Definition total_available_words (w : World) (user language : positive) : Z :=
  count (available_word language (eligible_tiers (current_level w user language)))
    (words w).

Definition learned_mastered_count (w : World) (user language : positive) : Z :=
  count (learned_or_mastered user language) (words_progress w).

(** The catalog with the difficulty tier of every word replaced. *)
Definition retier (f : Word.t -> DifficultyLevel) (x : Word.t) : Word.t :=
  Word.mk (Word.id x) (Word.word x) (Word.language x) (Word.transcription x)
    (Word.part_of_speech x) (Word.gender x) (f x) (Word.audio_url x)
    (Word.active x).

Definition set_words (w : World) (t : list Word.t) : World :=
  mkWorld (languages w) t (language_progress w) (words_progress w)
    (error_log w) (needs_rollback w).

(** ** The vocabulary of the properties *)

Definition recalculation_calls : list orm_call :=
  [Q_LanguageProgress_get_or_create; Q_Word_count; Q_WordsProgress_count;
   Q_LanguageProgress_save].

(** The recalculation reaches [language_progress.save] and the save
    raises: the three queries before it succeed, the save does not. *)
Definition recalculation_save_fails (fault : faults) : bool :=
  match fault Q_LanguageProgress_get_or_create, fault Q_Word_count,
        fault Q_WordsProgress_count, fault Q_LanguageProgress_save with
  | None, None, None, Some _ => true
  | _, _, _, _ => false
  end.

(** The four tables are those of [w]. *)
Definition same_tables (w w' : World) : Prop :=
  languages w' = languages w /\ words w' = words w
  /\ language_progress w' = language_progress w
  /\ words_progress w' = words_progress w.

(** What a step leaves of the state: the catalog and the progress rows. *)
Definition same_rows (w w' : World) : Prop :=
  languages w' = languages w /\ words w' = words w
  /\ words_progress w' = words_progress w.

Definition not_found_error (n : Z) : ErrorEntry :=
  mkError ("Words progress with id " ++ string_of_Z n ++ " not found") None.

(** The forms an error entry for [update_data] can take: that of a
    missing id, with the entry as [data]; with an id, that of a row not
    found, without [data], or the text of an exception, with the entry
    as [data]. *)
Definition entry_shape (update_data : UpdateData.t) (o : Outcome) : Prop :=
  match o with
  | Updated => truthy (UpdateData.id update_data) = true
  | Failed e =>
      if truthy (UpdateData.id update_data)
      then (exists n, UpdateData.id update_data = Some n
                      /\ e = not_found_error n)
           \/ (exists ex, e = mkError (str ex) (Some update_data))
      else e = mkError "Missing id in update data" (Some update_data)
  end.

Definition failures (os : list Outcome) : list ErrorEntry :=
  flat_map (fun o => match o with Failed e => [e] | Updated => [] end) os.

Definition count_updated (os : list Outcome) : Z :=
  count (fun o => match o with Updated => true | Failed _ => false end) os.

Definition is_failed (o : Outcome) : Prop :=
  match o with Failed _ => True | Updated => False end.

Definition is_validation_error (e : exn) : Prop :=
  match e with ValidationError _ => True | _ => False end.

(** Where the instance that a request saves comes from: a stored row,
    whose key and counters it keeps, or the defaults of the model. *)
Definition based_on (w : World) (base : WordsProgress.t) : Prop :=
  (exists r, In r (words_progress w)
             /\ WordsProgress.pk base = WordsProgress.pk r
             /\ WordsProgress.review_count base = WordsProgress.review_count r
             /\ WordsProgress.correct_count base = WordsProgress.correct_count r)
  \/ (WordsProgress.pk base = None
      /\ WordsProgress.review_count base = 0
      /\ WordsProgress.correct_count base = 0).

(** The keys of a table after a write under [pk] of an instance that
    came with the key [key]: every row of before has a row of its key,
    and the key given to an instance that came without one is one that
    no row had. *)
Definition keys_kept (key : option positive) (pk : positive)
  (w w' : World) : Prop :=
  (forall r, In r (words_progress w) ->
             exists r1, In r1 (words_progress w')
                        /\ WordsProgress.pk r1 = WordsProgress.pk r)
  /\ (key = None ->
      forall r, In r (words_progress w) -> WordsProgress.pk r <> Some pk).

(** What a request that saves a row leaves behind. *)
Definition saved (fault : faults) (today : PyDate.date) (data : Attrs.t)
  (w : World) (row : WordsProgress.t) (w' : World) : Prop :=
  exists base pk d,
    row = with_pk (with_date_learned (setattrs base data) d) pk
    /\ based_on w base
    /\ (forall k, WordsProgress.pk base = Some k -> pk = k)
    /\ (fault Q_WordsProgress_get = None -> d = Some today)
    /\ positive_fields_ok row = true
    /\ In row (words_progress w')
    /\ (forall r, In r (words_progress w') ->
                  r = row \/ In r (words_progress w))
    /\ languages w' = languages w /\ words w' = words w
    /\ keys_kept (WordsProgress.pk base) pk w w'.

Definition field_values_valid (attrs : Attrs.t) : Prop :=
  (forall s, Attrs.status attrs = Some s -> in_strings s STATUS_CHOICES = true)
  /\ min_value_ok (Attrs.interval attrs) = true
  /\ min_value_ok (Attrs.review_count attrs) = true
  /\ min_value_ok (Attrs.correct_count attrs) = true
  /\ max_value_ok (Attrs.interval attrs) = true
  /\ max_value_ok (Attrs.review_count attrs) = true
  /\ max_value_ok (Attrs.correct_count attrs) = true.






Definition PERIODS : list string := ["today"; "week"; "month"; "year"; "all"].

(** [d] lies in the window [start_date .. end_date], both included;
    without [start_date] there is no lower bound. *)
Definition in_window (start_date : option PyDate.date)
  (end_date d : PyDate.date) : bool :=
  match start_date with
  | Some s => PyDate.leb s d
  | None => true
  end
  && PyDate.leb d end_date.

(** The rows that count as learned in a window: owned by [user], dated
    within the window, of status ['learned'], and of the language asked
    for, if one is. *)
Definition learned_in_window (ls : list Language.t) (user : positive)
  (start_date : option PyDate.date) (end_date : PyDate.date)
  (language_filter : option string) (r : WordsProgress.t) : bool :=
  (WordsProgress.user r =? user)%positive
  && match WordsProgress.date_learned r with
     | Some d => in_window start_date end_date d
     | None => false
     end
  && String.eqb (WordsProgress.status r) "learned"
  && (if nonempty language_filter
      then target_language_code_is ls (override language_filter "") r
      else true).

Definition words_learned_of (r : result StatsResponse * World) : option Z :=
  match fst r with
  | Ok (Stats_200 body) => Some (Stats.words_learned body)
  | _ => None
  end.

Definition INVALID_PERIOD : string :=
  "Invalid period. Use: today, week, month, year, or all".

(** Three rows of status ['learned'], dated [today], three days and forty
    days before, are the rows of [user]. *)
Definition three_learned_words (today : PyDate.date) (user : positive)
  (w : World) : Prop :=
  exists r0 r3 r40,
    filter (fun r => (WordsProgress.user r =? user)%positive)
      (words_progress w) = [r0; r3; r40]
    /\ WordsProgress.date_learned r0 = Some today
    /\ WordsProgress.date_learned r3 = PyDate.sub_days today 3
    /\ WordsProgress.date_learned r40 = PyDate.sub_days today 40
    /\ WordsProgress.date_learned r3 <> None
    /\ WordsProgress.date_learned r40 <> None
    /\ WordsProgress.status r0 = "learned"
    /\ WordsProgress.status r3 = "learned"
    /\ WordsProgress.status r40 = "learned".

Definition b2z (b : bool) : Z := if b then 1 else 0.

(** ** Examples *)

(** A catalog of two languages and three words, and one learner. *)
Module Example.
Definition english : Language.t :=
  Language.mk 1 "en" "English" "English" true.
Definition russian : Language.t :=
  Language.mk 2 "ru" "Russian" "Russkij" true.
Definition cat : Word.t := Word.mk 1 "cat" 1 "" 1 None BEGINNER "" true.
Definition theorem_ : Word.t :=
  Word.mk 2 "theorem" 1 "" 1 None ADVANCED "" true.
Definition kot : Word.t := Word.mk 3 "kot" 2 "" 1 None BEGINNER "" true.
(** A Russian speaker who learns English. *)
Definition learner : User.t :=
  User.mk 7 "learner@example.org" (Some 2%positive) (Some 1%positive).
Definition today : PyDate.date := PyDate.mkdate 2025 5 1.
Definition parse_datetime (s : string) : result (option datetime) := Ok None.
Definition empty : World :=
  mkWorld [english; russian] [cat; theorem_; kot] [] [] [] false.
Definition row1 : WordsProgress.t :=
  WordsProgress.mk (Some 1%positive) 7 1 1 "new" 1 None 0 0 None.
Definition one_row : World :=
  mkWorld [english; russian] [cat; theorem_; kot] [] [row1] [] false.
Definition review (id : Z) (correct : bool) : UpdateData.t :=
  UpdateData.mk (Some id) (Some correct) None None None.
Definition counters (word_id review_count correct_count : Z) : Attrs.t :=
  Attrs.mk (Some word_id) (Some 1) None None None (Some review_count)
    (Some correct_count) None.
Definition only_status (s : string) : Attrs.t :=
  Attrs.mk None None (Some s) None None None None None.
(** The save of the recalculation fails, and no other query. *)
Definition save_down : faults :=
  fun c =>
    match c with
    | Q_LanguageProgress_save =>
        Some (OperationalError "database is locked")
    | _ => None
    end.
(** Every query of the recalculation fails. *)
Definition database_down : faults :=
  fun c =>
    match c with
    | Q_LanguageProgress_get_or_create | Q_Word_count
    | Q_WordsProgress_count | Q_LanguageProgress_save | Q_milestone_count =>
        Some (OperationalError "server closed the connection unexpectedly")
    | _ => None
    end.
End Example.

Module Persons.
(** An English speaker who has picked Russian. *)
Definition english_speaker : User.t :=
  User.mk 8 "speaker@example.org" (Some 1%positive) (Some 2%positive).
Definition cat_in_english : Attrs.t :=
  Attrs.mk (Some 1) (Some 1) None None None None None None.
Definition first_review : WordsProgress.t :=
  new_instance 7 1 1 (Example.only_status "learned").
(** Two learned words above the level of the learner, one word within. *)
Definition two_learned : World :=
  mkWorld [Example.english; Example.russian]
    [Example.cat; Example.theorem_; Example.kot] []
    [WordsProgress.mk (Some 1%positive) 7 2 1 "learned" 1 None 1 1 None;
     WordsProgress.mk (Some 2%positive) 7 1 1 "mastered" 1 None 1 1 None]
    [] false.
End Persons.

(** Thursday 2025-05-01, with words learned that day, three and forty
    days before. *)
Module Scenario.
Definition today : PyDate.date := PyDate.mkdate 2025 5 1.
Definition learned_on (pk : positive) (d : PyDate.date) : WordsProgress.t :=
  WordsProgress.mk (Some pk) 7 pk 1 "learned" 1 None 1 1 (Some d).
Definition world : World :=
  mkWorld [Example.english; Example.russian]
    [Example.cat; Example.theorem_; Example.kot] []
    [learned_on 1 today;
     learned_on 2 (PyDate.mkdate 2025 4 28);
     learned_on 3 (PyDate.mkdate 2025 3 22)]
    [] false.
End Scenario.

(** * The rest of the progress engine, and what surrounds it *)

(** ** [WordsProgressDetailView.delete] ([users/views.py]) *)

(** [DELETE FROM users_wordsprogress WHERE id = pk]: no model refers to
    [WordsProgress], so nothing cascades.  The statement is taken to
    succeed. *)
Definition WordsProgress_delete (pk : positive) : M unit :=
  fun w =>
    (Ok tt,
     set_words_progress w
       (filter (fun r => negb (has_pk pk r)) (words_progress w))).

Section Deleting.

Variable fault : faults.

(** [request.user] *)
Variable user : User.t.

(** The text that the view logs for the word: the bare [except:] turns
    every failure of the lookup into ['Unknown']. *)
Definition delete_word_text (pk : positive) : M Word.attr :=
  try_except
    (progress <- get_object fault user pk ;;
     word <- related_word fault progress ;;
     fun w => (Word.getattr word "text", w))
    (fun _ => ret (Word.AStr "Unknown")).

(** [delete]: the lookup for the log, then [destroy] of the framework:
    [get_object] and [instance.delete()].  The model has receivers, so
    [Collector.delete] takes no fast path: the statement and the
    [post_delete] receiver run inside [transaction.atomic]. *)
Definition WordsProgressDetailView_delete (pk : positive) : M unit :=
  word_text <- delete_word_text pk ;;
  instance <- get_object fault user pk ;;
  atomic
    (WordsProgress_delete pk ;;;
     words_progress_deleted fault instance).

End Deleting.

(** ** [WordsProgressListCreateView.get_queryset] ([users/views.py]) *)

(** The query parameters that the view reads; [None] is a parameter
    that is absent. *)
Module ListParams.
Record t : Type := mk {
  status : option string;
  target_language : option string;
  word_language : option string;
  due_for_review : option string
}.
End ListParams.

(** [word__language__code=code] *)
Definition word_language_code_is (ws : list Word.t) (ls : list Language.t)
  (code : string) (r : WordsProgress.t) : bool :=
  match find (fun x => (Word.id x =? WordsProgress.word r)%positive) ws with
  | Some x =>
      match find (fun l => (Language.id l =? Word.language x)%positive) ls with
      | Some l => String.eqb (Language.code l) code
      | None => false
      end
  | None => false
  end.

(** [next_review__lte=now]; a row without [next_review] does not
    satisfy it. *)
Definition next_review_lte (now : datetime) (r : WordsProgress.t) : bool :=
  match WordsProgress.next_review r with
  | Some t => t <=? now
  | None => false
  end.

Section Listing.

(** [str.lower] and [timezone.now()] *)
Variable lower : string -> string.
Variable now : datetime.

(** [request.user] *)
Variable user : User.t.

(** The rows of the queryset; the order in which the view returns them
    ([-updated_at]) is not a part of the embedding. *)
Definition WordsProgressListCreateView_get_queryset (params : ListParams.t)
  (w : World) : list WordsProgress.t :=
  let queryset :=
    filter (fun r => (WordsProgress.user r =? User.id user)%positive)
      (words_progress w) in
  let status_filter := ListParams.status params in
  let queryset :=
    if nonempty status_filter
    then filter (has_status (override status_filter "")) queryset
    else queryset in
  let target_language := ListParams.target_language params in
  let queryset :=
    if nonempty target_language
    then filter (target_language_code_is (languages w)
                   (override target_language "")) queryset
    else queryset in
  let word_language := ListParams.word_language params in
  let queryset :=
    if nonempty word_language
    then filter (word_language_code_is (words w) (languages w)
                   (override word_language "")) queryset
    else queryset in
  let due_for_review := ListParams.due_for_review params in
  if nonempty due_for_review
     && String.eqb (lower (override due_for_review "")) "true"
  then filter (fun r => next_review_lte now r
                        && in_strings (WordsProgress.status r)
                             ["new"; "learning"]) queryset
  else queryset.

End Listing.

(** ** Operations on progress rows, with the deletion *)

Inductive Operation : Type :=
| Write (req : Request)
| DELETE_words (user : User.t) (pk : positive).

(** [request.user] *)
Definition requester (op : Operation) : User.t :=
  match op with
  | Write (POST_words user _) | Write (PATCH_words user _ _)
  | Write (PUT_words user _ _) | Write (POST_bulk_update user _)
  | DELETE_words user _ => user
  end.

Section Operations.

Variable fault : faults.
Variable today : PyDate.date.
Variable parse_datetime : string -> result (option datetime).

Definition perform (w : World) (op : Operation) : World :=
  match op with
  | Write req => step fault today parse_datetime w req
  | DELETE_words user pk => snd (WordsProgressDetailView_delete fault user pk w)
  end.

Definition perform_all (ops : list Operation) (w : World) : World :=
  fold_left perform ops w.

End Operations.

(** ** Constraints of the [WordsProgress] table *)

(** The primary key: two rows with the same key are the same row. *)
Definition pk_unique (rows : list WordsProgress.t) : Prop :=
  forall r1 r2 k,
    In r1 rows -> In r2 rows ->
    WordsProgress.pk r1 = Some k -> WordsProgress.pk r2 = Some k -> r1 = r2.

(** [unique_together]: two rows with the same user, word and target
    language are the same row. *)
Definition triple_unique (rows : list WordsProgress.t) : Prop :=
  forall r1 r2,
    In r1 rows -> In r2 rows -> same_triple r1 r2 = true -> r1 = r2.

(** The payload of a request that names a word and nothing else. *)
Definition only_word (word_id : Z) : Attrs.t :=
  Attrs.mk (Some word_id) None None None None None None None.

(** The instance that a request saves: of the user [u], and new or
    with the key of a row of [w] that [u] owns. *)
Definition instance_of (u : positive) (w : World) (inst : WordsProgress.t)
  : Prop :=
  WordsProgress.user inst = u
  /\ (WordsProgress.pk inst = None
      \/ exists o, In o (words_progress w) /\ WordsProgress.user o = u
                   /\ WordsProgress.pk inst = WordsProgress.pk o).


(** A query parameter that is present and not empty. *)
Definition given (param : option string) (value : string) : Prop :=
  param = Some value /\ value <> "".

(** Two users with a row each: the learner's row for an English word,
    and the English speaker's row for a Russian word. *)
Module Others.
Definition kot_row : WordsProgress.t :=
  WordsProgress.mk (Some 2%positive) 8 3 2 "new" 1 None 0 0 None.
Definition two_users : World :=
  mkWorld [Example.english; Example.russian]
    [Example.cat; Example.theorem_; Example.kot] []
    [Example.row1; kot_row] [] false.
End Others.

(** ** [WordsLearnedTodayView] ([users/views.py]) *)

(** ["%0<width>d" % n] *)
Fixpoint zeros (k : nat) : string :=
  match k with
  | O => ""
  | S k' => String "0" (zeros k')
  end.

Definition zero_padded (width : nat) (n : Z) : string :=
  let digits := string_of_Z (Z.abs n) in
  if n <? 0 then
    "-" ++ zeros (width - 1 - String.length digits) ++ digits
  else zeros (width - String.length digits) ++ digits.

(** [date.isoformat()] *)
Definition isoformat (d : PyDate.date) : string :=
  zero_padded 4 (PyDate.year d) ++ "-" ++ zero_padded 2 (PyDate.month d)
  ++ "-" ++ zero_padded 2 (PyDate.day d).

Module TodayStats.
Record t : Type := mk {
  date : string;
  words_learned_today : Z;
  words_mastered_today : Z;
  total_learned_today : Z;
  breakdown_by_language : list LanguageStat.t
}.
End TodayStats.

Inductive TodayResponse : Type :=
| Today_200 (body : TodayStats.t)
| Today_500 (error : string).

(** [date_learned=d] *)
Definition date_learned_is (d : PyDate.date) (r : WordsProgress.t) : bool :=
  match WordsProgress.date_learned r with
  | Some x => PyDate.eqb x d
  | None => false
  end.

Section Today.

Variable fault : faults.
Variable today : PyDate.date.

(** [request.user] *)
Variable user : positive.

(** The rows of [words_learned_today]. *)
Definition learned_today_queryset (w : World) : list WordsProgress.t :=
  filter (fun r => (WordsProgress.user r =? user)%positive
                   && date_learned_is today r
                   && in_strings (WordsProgress.status r)
                        ["learned"; "mastered"])
    (words_progress w).

(** [get]; the counts of ['nes'] and ['learning'] are taken and not
    used. *)
Definition WordsLearnedTodayView_get : M TodayResponse :=
  try_except
    (orm fault Q_WordsProgress_count (fun w =>
       let words_learned_today := learned_today_queryset w in
       let new_count := count (has_status "nes") words_learned_today in
       let learning_count :=
         count (has_status "learning") words_learned_today in
       let learned_count :=
         count (has_status "learned") words_learned_today in
       let mastered_count :=
         count (has_status "mastered") words_learned_today in
       let total_count := learned_count + mastered_count in
       let language_breakdown :=
         filter (fun s => 0 <? LanguageStat.total_count s)
           (language_stats (languages w) words_learned_today) in
       (Ok (Today_200
              (TodayStats.mk (isoformat today) learned_count mastered_count
                 total_count language_breakdown)),
        w)))
    (fun e =>
       logger_error "log_progress_request" e ;;;
       ret (Today_500 "Failed to retrieve statistics")).

End Today.

(** ** Sums over the entries of a breakdown *)

Definition total {A} (f : A -> Z) (l : list A) : Z :=
  fold_right (fun x acc => f x + acc) 0 l.

(** Every row joins to a language of the catalog. *)
Definition languages_joined (w : World) : Prop :=
  forall r, In r (words_progress w) ->
            target_language_of (languages w) r <> None.

(** [a < b] on dates *)
Definition date_before (a b : PyDate.date) : Prop :=
  PyDate.leb a b = true /\ a <> b.

(** The dates of the rows, once each, in ascending order. *)
Definition days_of (rows : list WordsProgress.t) : list PyDate.date :=
  sort PyDate.leb
    (distinct PyDate.eqb
       (flat_map (fun r => match WordsProgress.date_learned r with
                           | Some d => [d]
                           | None => []
                           end) rows)).

(** The key of a row in the breakdown by language. *)
Definition language_key (ls : list Language.t) (r : WordsProgress.t)
  : option (string * string) :=
  match target_language_of ls r with
  | Some l => Some (Language.code l, Language.name_english l)
  | None => None
  end.

Definition LanguageStat_key (s : LanguageStat.t) : string * string :=
  (LanguageStat.language_code s, LanguageStat.language_name s).

Definition option_eqb_with {K} (eqb : K -> K -> bool) (a b : option K)
  : bool :=
  match a, b with
  | Some x, Some y => eqb x y
  | None, None => true
  | _, _ => false
  end.

(** The rows of the group of [k] in the breakdown by language. *)
Definition language_group (ls : list Language.t) (k : string * string)
  (rows : list WordsProgress.t) : list WordsProgress.t :=
  filter (fun r => option_eqb_with same_language (Some k) (language_key ls r))
    rows.

(** The keys of the groups, once each, in the order of their first
    rows. *)
Definition language_keys (ls : list Language.t) (rows : list WordsProgress.t)
  : list (string * string) :=
  distinct same_language
    (flat_map (fun r => match language_key ls r with
                        | Some k => [k]
                        | None => []
                        end) rows).

Definition more_rows (a b : LanguageStat.t) : Prop :=
  LanguageStat.total_count b <= LanguageStat.total_count a.

(** ** Quizzes ([users/models.py], [users/serializers.py],
    [users/views.py])

    The table of [QuizProgress] is not a part of [World]: the code below
    takes it as an argument and returns it when it changes it.  Its
    queries are taken to succeed; the lookups of languages fail as
    [fault] says. *)

Module QuizProgress.
Record t : Type := mk {
  id : positive;
  user : positive;
  language : positive;
  total_questions : Z;
  correct_answers : Z
}.

(** The property [accuracy_percentage]. *)
Definition accuracy_percentage (self : t) : PyFloat.float :=
  if total_questions self =? 0 then PyFloat.zero
  else
    PyFloat.round
      (PyFloat.mul
         (PyFloat.int_truediv (correct_answers self) (total_questions self))
         PyFloat.hundred)
      2.
End QuizProgress.

(** The writable fields of [QuizProgressSerializer]; [None] is a key
    that is absent. *)
Module QuizAttrs.
Record t : Type := mk {
  language_id : option Z;
  total_questions : option Z;
  correct_answers : option Z
}.
End QuizAttrs.

Module QuizProgressSerializer.
Section Serializer.

Variable fault : faults.

(** [self.context['request'].user] *)
Variable user : positive.

Definition validate_language_id (value : Z) : M Z :=
  try_except
    (orm fault Q_catalog (fun w =>
       match find (fun x => language_has_id value x && Language.enabled x)
               (languages w) with
       | Some _ => (Ok value, w)
       | None => (Raise (DoesNotExist "Language"), w)
       end))
    (fun e =>
       match e with
       | DoesNotExist _ =>
           raise (ValidationError "Invalid or disabled language")
       | _ => raise e
       end).

Definition validate (attrs : QuizAttrs.t) : M QuizAttrs.t :=
  let total_questions := override (QuizAttrs.total_questions attrs) 0 in
  let correct_answers := override (QuizAttrs.correct_answers attrs) 0 in
  if total_questions <=? 0 then
    raise (ValidationError "Total questions must be greater than 0")
  else if correct_answers <? 0 then
    raise (ValidationError "Correct answers cannot be negative")
  else if total_questions <? correct_answers then
    raise (ValidationError "Correct answers cannot exceed total questions")
  else ret attrs.

(** The checks of the fields on a create: the three fields are
    required, the two [PositiveIntegerField]s are not negative; then
    [validate_language_id].  The first failure is the one reported. *)
Definition validate_fields (attrs : QuizAttrs.t) : M QuizAttrs.t :=
  match QuizAttrs.language_id attrs, QuizAttrs.total_questions attrs,
        QuizAttrs.correct_answers attrs with
  | Some language_id, Some total_questions, Some correct_answers =>
      if negb ((0 <=? total_questions) && (0 <=? correct_answers)) then
        raise (ValidationError
                 "Ensure this value is greater than or equal to 0.")
      else validate_language_id language_id ;;; ret attrs
  | _, _, _ => raise (ValidationError "This field is required.")
  end.

(** [serializer.is_valid(raise_exception=True)] *)
Definition is_valid (attrs : QuizAttrs.t) : M QuizAttrs.t :=
  attrs <- validate_fields attrs ;;
  validate attrs.

(** [create]: the row that [QuizProgress.objects.create] inserts, and
    the table with it. *)
Definition create (validated_data : QuizAttrs.t)
  (quizzes : list QuizProgress.t)
  : M (QuizProgress.t * list QuizProgress.t) :=
  language <-
    Language_get fault (override (QuizAttrs.language_id validated_data) 0) ;;
  let row :=
    QuizProgress.mk (next_pk (map QuizProgress.id quizzes)) user
      (Language.id language)
      (override (QuizAttrs.total_questions validated_data) 0)
      (override (QuizAttrs.correct_answers validated_data) 0) in
  ret (row, (quizzes ++ [row])%list).

End Serializer.
End QuizProgressSerializer.

(** [QuizProgressListCreateView.post] *)
Definition QuizProgressListCreateView_post (fault : faults) (user : positive)
  (data : QuizAttrs.t) (quizzes : list QuizProgress.t)
  : M (QuizProgress.t * list QuizProgress.t) :=
  validated_data <- QuizProgressSerializer.is_valid fault data ;;
  QuizProgressSerializer.create fault user validated_data quizzes.

(** An element of the answer of [QuizStatsView]; [language] stands for
    [LanguageSerializer(language).data]. *)
Module QuizStat.
Record t : Type := mk {
  language : Language.t;
  total_questions : Z;
  average_accuracy : PyFloat.float;
  quiz_count : Z
}.
End QuizStat.

Inductive QuizStatsResponse : Type :=
| QuizStats_200 (data : list QuizStat.t)
| QuizStats_500 (error : string).

(** A row of [queryset.values('language').annotate(...)]. *)
Module QuizGroup.
Record t : Type := mk {
  language : positive;
  total_questions : Z;
  total_correct : Z;
  quiz_count : Z
}.
End QuizGroup.

(** [language__code=code] *)
Definition quiz_language_code_is (ls : list Language.t) (code : string)
  (q : QuizProgress.t) : bool :=
  match find (fun l => (Language.id l =? QuizProgress.language q)%positive)
          ls with
  | Some l => String.eqb (Language.code l) code
  | None => false
  end.

(** [Sum(field)] over the rows of a group. *)
Definition Sum {A} (field : A -> Z) (rows : list A) : Z :=
  fold_right (fun r acc => field r + acc) 0 rows.

(** [queryset.values('language').annotate(total_questions=Sum(...),
    total_correct=Sum(...), quiz_count=Count('id'))
    .order_by('-total_questions')]; groups with the same sum keep the
    order of their first rows. *)
Definition quiz_groups (rows : list QuizProgress.t) : list QuizGroup.t :=
  let groups :=
    map (fun k =>
           let group :=
             filter (fun q => (QuizProgress.language q =? k)%positive) rows in
           QuizGroup.mk k (Sum QuizProgress.total_questions group)
             (Sum QuizProgress.correct_answers group)
             (count (fun _ => true) group))
        (distinct Pos.eqb (map QuizProgress.language rows)) in
  sort (fun a b => QuizGroup.total_questions b <=? QuizGroup.total_questions a)
    groups.

Section QuizStats.

Variable fault : faults.

(** [request.user] *)
Variable user : positive.

(** The body of the loop over [stats]. *)
Definition quiz_stat (stat : QuizGroup.t) : M QuizStat.t :=
  let average_accuracy :=
    if 0 <? QuizGroup.total_questions stat then
      PyFloat.round
        (PyFloat.mul
           (PyFloat.int_truediv (QuizGroup.total_correct stat)
              (QuizGroup.total_questions stat))
           PyFloat.hundred)
        2
    else PyFloat.zero in
  language <- Language_get fault (Zpos (QuizGroup.language stat)) ;;
  ret (QuizStat.mk language (QuizGroup.total_questions stat)
         average_accuracy (QuizGroup.quiz_count stat)).

Fixpoint quiz_stats (stats : list QuizGroup.t) (response_data : list QuizStat.t)
  : M (list QuizStat.t) :=
  match stats with
  | [] => ret response_data
  | stat :: rest =>
      entry <- quiz_stat stat ;;
      quiz_stats rest (response_data ++ [entry])
  end.

(** [get]; [language_filter] is the query parameter ['language']. *)
Definition QuizStatsView_get (language_filter : option string)
  (quizzes : list QuizProgress.t) : M QuizStatsResponse :=
  try_except
    (w <- get_world ;;
     let queryset :=
       filter (fun q => (QuizProgress.user q =? user)%positive) quizzes in
     let queryset :=
       if nonempty language_filter
       then filter (quiz_language_code_is (languages w)
                      (override language_filter "")) queryset
       else queryset in
     response_data <- quiz_stats (quiz_groups queryset) [] ;;
     ret (QuizStats_200 response_data))
    (fun e =>
       logger_error "log_progress_request" e ;;;
       ret (QuizStats_500 "Failed to retrieve quiz statistics")).

End QuizStats.

(** What the checks of a quiz leave of a row. *)
Definition quiz_row_ok (q : QuizProgress.t) : Prop :=
  0 < QuizProgress.total_questions q
  /\ 0 <= QuizProgress.correct_answers q <= QuizProgress.total_questions q.

(** The table after a sequence of posts; a post that is refused leaves
    it as it is. *)
Definition quiz_post (fault : faults) (w : World)
  (quizzes : list QuizProgress.t) (request : positive * QuizAttrs.t)
  : list QuizProgress.t :=
  match fst (QuizProgressListCreateView_post fault (fst request)
               (snd request) quizzes w) with
  | Ok (_, quizzes') => quizzes'
  | Raise _ => quizzes
  end.

Definition quiz_posts (fault : faults) (w : World)
  (requests : list (positive * QuizAttrs.t)) (quizzes : list QuizProgress.t)
  : list QuizProgress.t :=
  fold_left (quiz_post fault w) requests quizzes.

(** Every quiz refers to a language of the catalog. *)
Definition quizzes_joined (w : World) (quizzes : list QuizProgress.t) : Prop :=
  forall q, In q quizzes ->
            exists l, find (language_has_id (Zpos (QuizProgress.language q)))
                        (languages w) = Some l.

Definition more_questions (a b : QuizStat.t) : Prop :=
  QuizStat.total_questions b <= QuizStat.total_questions a.

(** The rows that [QuizStatsView] groups. *)
Definition quiz_queryset (user : positive) (language_filter : option string)
  (w : World) (quizzes : list QuizProgress.t) : list QuizProgress.t :=
  let queryset :=
    filter (fun q => (QuizProgress.user q =? user)%positive) quizzes in
  if nonempty language_filter
  then filter (quiz_language_code_is (languages w)
                 (override language_filter "")) queryset
  else queryset.

(** The entry of the answer for a group. *)
Definition quiz_entry_of (stat : QuizGroup.t) (s : QuizStat.t) : Prop :=
  Language.id (QuizStat.language s) = QuizGroup.language stat
  /\ QuizStat.total_questions s = QuizGroup.total_questions stat
  /\ QuizStat.quiz_count s = QuizGroup.quiz_count stat
  /\ QuizStat.average_accuracy s
     = (if 0 <? QuizGroup.total_questions stat then
          PyFloat.round
            (PyFloat.mul
               (PyFloat.int_truediv (QuizGroup.total_correct stat)
                  (QuizGroup.total_questions stat))
               PyFloat.hundred)
            2
        else PyFloat.zero).

(** ** Activation of an account ([users/models.py], [users/views.py],
    [users/serializers.py])

    A [datetime] is a number of microseconds; a UUID is the integer of
    its 128 bits.  The two tables of the flow are threaded as [AuthDB];
    their queries are taken to succeed. *)

(** The fields of [User] that the flow reads and writes. *)
Module Account.
Record t : Type := mk {
  id : positive;
  email : string;
  is_active : bool;
  is_email_verified : bool
}.
End Account.

Definition UUID : Type := Z.

(** [timedelta(hours=h)] for an integer [h] *)
Definition timedelta_hours (h : Z) : Z := h * 3600 * 1000000.

Module EmailActivationToken.
Record t : Type := mk {
  id : positive;
  user : positive;
  token : UUID;
  created_at : datetime;
  is_used : bool
}.

Section Expiry.

(** [settings.ACTIVATION_TOKEN_EXPIRY_HOURS], if the settings define it,
    and [timezone.now()]. *)
Variable ACTIVATION_TOKEN_EXPIRY_HOURS : option Z.
Variable now : datetime.

Definition is_expired (self : t) : bool :=
  let expiry_time :=
    created_at self
    + timedelta_hours (override ACTIVATION_TOKEN_EXPIRY_HOURS 24) in
  expiry_time <? now.

End Expiry.
End EmailActivationToken.

Record AuthDB : Type := mkAuthDB {
  accounts : list Account.t;
  activation_tokens : list EmailActivationToken.t
}.

Inductive ActivationResponse : Type :=
| Activation_200 (message : string)
| Activation_400 (error : string).

(** [user.is_active = True; user.is_email_verified = True; user.save()] *)
Definition activate_account (pk : positive) (a : Account.t) : Account.t :=
  if (Account.id a =? pk)%positive
  then Account.mk (Account.id a) (Account.email a) true true
  else a.

(** [activation_token.is_used = True; activation_token.save()] *)
Definition use_token (pk : positive) (t : EmailActivationToken.t)
  : EmailActivationToken.t :=
  if (EmailActivationToken.id t =? pk)%positive
  then EmailActivationToken.mk (EmailActivationToken.id t)
         (EmailActivationToken.user t) (EmailActivationToken.token t)
         (EmailActivationToken.created_at t) true
  else t.

(** The rows selected by [filter(token=token, is_used=False)]. *)
Definition unused_token (token : UUID) (t : EmailActivationToken.t) : bool :=
  (EmailActivationToken.token t =? token)
  && negb (EmailActivationToken.is_used t).

Section Activation.

Variable ACTIVATION_TOKEN_EXPIRY_HOURS : option Z.
Variable now : datetime.

(** [activate_email]; [token] is unique in its table, so [get] finds at
    most one row.  The user of a token that the table of users does not
    hold raises [User.DoesNotExist], which the view does not catch. *)
Definition activate_email (token : UUID) (db : AuthDB)
  : result ActivationResponse * AuthDB :=
  match find (unused_token token) (activation_tokens db) with
  | Some activation_token =>
      if EmailActivationToken.is_expired ACTIVATION_TOKEN_EXPIRY_HOURS now
           activation_token
      then (Ok (Activation_400 "Activation token has expired"), db)
      else
        match find (fun a => (Account.id a
                              =? EmailActivationToken.user activation_token
                             )%positive) (accounts db) with
        | Some user =>
            (Ok (Activation_200
                   "Email activated successfully. You can now login."),
             mkAuthDB
               (map (activate_account (Account.id user)) (accounts db))
               (map (use_token (EmailActivationToken.id activation_token))
                  (activation_tokens db)))
        | None => (Raise (DoesNotExist "User"), db)
        end
  | None => (Ok (Activation_400 "Invalid or expired activation token"), db)
  end.

End Activation.

(** ** Sending the activation link again *)

Inductive ResendResponse : Type :=
| Resend_200 (message : string)
| Resend_400 (errors : string).

Section Resend.

(** [EmailField] accepts the address; [uuid.uuid4()]; [timezone.now()] *)
Variable EmailField_valid : string -> bool.
Variable uuid4 : UUID.
Variable now : datetime.

(** [ResendActivationSerializer.validate_email] *)
Definition validate_email (value : string) (db : AuthDB) : result string :=
  match find (fun a => String.eqb (Account.email a) value) (accounts db) with
  | Some user =>
      if Account.is_email_verified user
      then Raise (ValidationError "Email is already verified")
      else Ok value
  | None => Raise (ValidationError "User with this email does not exist")
  end.

(** [serializer.is_valid()]: [email] is required and an address, then
    [validate_email]. *)
Definition ResendActivationSerializer_is_valid (email : option string)
  (db : AuthDB) : result string :=
  match email with
  | None => Raise (ValidationError "This field is required.")
  | Some value =>
      if EmailField_valid value then validate_email value db
      else Raise (ValidationError "Enter a valid email address.")
  end.

(** [EmailActivationToken.objects.create(user=user)] *)
Definition EmailActivationToken_create (user : positive) (db : AuthDB)
  : result EmailActivationToken.t * AuthDB :=
  if existsb (fun t => EmailActivationToken.token t =? uuid4)
       (activation_tokens db)
  then (Raise (IntegrityError "UNIQUE constraint failed"), db)
  else
    let t :=
      EmailActivationToken.mk
        (next_pk (map EmailActivationToken.id (activation_tokens db)))
        user uuid4 now false in
    (Ok t, mkAuthDB (accounts db) (activation_tokens db ++ [t])).

(** [ResendActivationView.post]; the email is sent outside, and a
    failure to send it is caught. *)
Definition ResendActivationView_post (email : option string) (db : AuthDB)
  : result ResendResponse * AuthDB :=
  match ResendActivationSerializer_is_valid email db with
  | Ok email =>
      match find (fun a => String.eqb (Account.email a) email)
              (accounts db) with
      | Some user =>
          match EmailActivationToken_create (Account.id user) db with
          | (Ok activation_token, db') =>
              (Ok (Resend_200 "Activation email sent successfully"), db')
          | (Raise e, db') => (Raise e, db')
          end
      | None => (Raise (DoesNotExist "User"), db)
      end
  | Raise (ValidationError errors) => (Ok (Resend_400 errors), db)
  | Raise e => (Raise e, db)
  end.

End Resend.

(** The constraints of the two tables: primary keys and tokens are
    unique. *)
Definition auth_keys_unique (db : AuthDB) : Prop :=
  NoDup (map Account.id (accounts db))
  /\ NoDup (map EmailActivationToken.id (activation_tokens db))
  /\ NoDup (map EmailActivationToken.token (activation_tokens db)).

(** An account that waits for its activation, with the token sent to
    it at time 0. *)
Module Pending.
Definition account : Account.t :=
  Account.mk 7 "learner@example.org" false false.
Definition sent : EmailActivationToken.t :=
  EmailActivationToken.mk 1 7 1234 0 false.
Definition db : AuthDB := mkAuthDB [account] [sent].
Definition any_address (s : string) : bool := true.
End Pending.

(** ** What the views log ([users/views.py])

    The values of [request.META] are strings of code points below 256,
    which is what a [string] holds. *)

(** [c.isspace()] for a code point below 256 *)
Definition isspace (c : ascii) : bool :=
  let n := N_of_ascii c in
  ((9 <=? n) && (n <=? 13) || (28 <=? n) && (n <=? 32)
   || (n =? 133) || (n =? 160))%N.

(** [s.lstrip()], [s.rstrip()] and [s.strip()] *)
Fixpoint lstrip (s : string) : string :=
  match s with
  | String c rest => if isspace c then lstrip rest else s
  | EmptyString => EmptyString
  end.

Fixpoint rstrip (s : string) : string :=
  match s with
  | String c rest =>
      match rstrip rest with
      | EmptyString => if isspace c then EmptyString else String c EmptyString
      | kept => String c kept
      end
  | EmptyString => EmptyString
  end.

Definition strip (s : string) : string := lstrip (rstrip s).

(** [s.split(',')[0]] *)
Fixpoint before_comma (s : string) : string :=
  match s with
  | String c rest =>
      if Ascii.eqb c "," then EmptyString else String c (before_comma rest)
  | EmptyString => EmptyString
  end.

(** [get_client_ip] of [UserProfileView] and of [ProgressLoggingMixin];
    the arguments are [request.META.get('HTTP_X_FORWARDED_FOR')] and
    [request.META.get('REMOTE_ADDR')]. *)
Definition get_client_ip (x_forwarded_for remote_addr : option string)
  : string :=
  if nonempty x_forwarded_for
  then strip (before_comma (override x_forwarded_for ""))
  else override remote_addr "Unknown".

(** A value of [request.data]: a [str], or another object, of which
    the embedding keeps how it prints. *)
Inductive pyobj : Type :=
| PStr (s : string)
| PObj (printed : string).

(** [f"{value}"] *)
Definition printed (value : pyobj) : string :=
  match value with
  | PStr s => s
  | PObj p => p
  end.



Section ProfileLog.

(** [str.lower] *)
Variable lower : string -> string.




End ProfileLog.

(** The last character of a string, if it has one. *)
Fixpoint last_char (s : string) : option ascii :=
  match s with
  | EmptyString => None
  | String c EmptyString => Some c
  | String _ rest => last_char rest
  end.

Definition first_char (s : string) : option ascii :=
  match s with
  | EmptyString => None
  | String c _ => Some c
  end.

(** [c in s] for a character. *)
Fixpoint has_char (c : ascii) (s : string) : bool :=
  match s with
  | EmptyString => false
  | String x rest => Ascii.eqb x c || has_char c rest
  end.

Definition no_space (c : option ascii) : Prop :=
  forall x, c = Some x -> isspace x = false.



(** Every character of [s] is white space. *)
Fixpoint all_space (s : string) : bool :=
  match s with
  | EmptyString => true
  | String c rest => isspace c && all_space rest
  end.

(** ** The actions of [WordsProgressAdmin] ([users/admin.py])

    The queryset of an action holds the rows that the administrator
    ticked; [selected] are their primary keys.  The queries of the
    actions themselves are taken to succeed; those of [save] and of
    the receivers can fail as before. *)

Definition ticked (selected : list positive) (r : WordsProgress.t) : bool :=
  existsb (fun pk => has_pk pk r) selected.

Definition with_status (r : WordsProgress.t) (status : string)
  : WordsProgress.t :=
  WordsProgress.mk (WordsProgress.pk r) (WordsProgress.user r)
    (WordsProgress.word r) (WordsProgress.target_language r)
    status (WordsProgress.interval r)
    (WordsProgress.next_review r) (WordsProgress.review_count r)
    (WordsProgress.correct_count r) (WordsProgress.date_learned r).

(** [queryset.update(...)]: one [UPDATE] of the ticked rows.  [save]
    is not called and no signal is sent.  The result is the number of
    rows matched. *)
Definition queryset_update (selected : list positive)
  (assign : WordsProgress.t -> WordsProgress.t) : M Z :=
  fun w =>
    (Ok (count (ticked selected) (words_progress w)),
     set_words_progress w
       (map (fun r => if ticked selected r then assign r else r)
          (words_progress w))).

Definition mark_as_new (selected : list positive) : M Z :=
  queryset_update selected (fun r => with_status r "new").

Definition mark_as_learning (selected : list positive) : M Z :=
  queryset_update selected (fun r => with_status r "learning").

Definition reset_progress (selected : list positive) : M Z :=
  queryset_update selected
    (fun r =>
       WordsProgress.mk (WordsProgress.pk r) (WordsProgress.user r)
         (WordsProgress.word r) (WordsProgress.target_language r)
         "new" 1 None 0 0 None).

Section Admin.

Variable fault : faults.

(** [timezone.now().date()] *)
Variable today : PyDate.date.

(** The loop of [mark_as_learned] and [mark_as_mastered] over the rows
    that the queryset fetched. *)
Fixpoint mark_each (status : string) (queryset : list WordsProgress.t)
  (updated : Z) : M Z :=
  match queryset with
  | [] => ret updated
  | progress :: rest =>
      let progress := with_status progress status in
      let progress :=
        match WordsProgress.date_learned progress with
        | None => with_date_learned progress (Some today)
        | Some _ => progress
        end in
      WordsProgress_save fault today progress ;;;
      mark_each status rest (updated + 1)
  end.

Definition mark_as_learned (selected : list positive) : M Z :=
  fun w =>
    mark_each "learned" (filter (ticked selected) (words_progress w)) 0 w.

Definition mark_as_mastered (selected : list positive) : M Z :=
  fun w =>
    mark_each "mastered" (filter (ticked selected) (words_progress w)) 0 w.

End Admin.

(** The [LanguageProgress] row of the pair is there and holds the
    count and the percentage that a recalculation would store. *)
Definition counters_current (w : World) (user language : positive) : Prop :=
  exists lp,
    find (lp_matches user language) (language_progress w) = Some lp
    /\ LanguageProgress.learned_words_count lp
       = learned_mastered_count w user language
    /\ LanguageProgress.learned_words lp
       = learned_percentage_of (learned_mastered_count w user language)
           (total_available_words w user language).

(** The constraints of the two progress tables. *)
Definition tables_consistent (w : World) : Prop :=
  pk_unique (words_progress w)
  /\ triple_unique (words_progress w)
  /\ Forall (fun r => positive_fields_ok r = true) (words_progress w)
  /\ NoDup (map LanguageProgress.id (language_progress w)).
(** A row as [mark_as_learned] or [mark_as_mastered] leaves it, and
    the table with the ticked rows so marked. *)
Definition marked (today : PyDate.date) (status : string)
  (r : WordsProgress.t) : WordsProgress.t :=
  with_date_learned (with_status r status) (Some today).

Definition mark_ticked (today : PyDate.date) (status : string)
  (selected : list positive) (r : WordsProgress.t) : WordsProgress.t :=
  if ticked selected r then marked today status r else r.

(** ** Saving a [LanguageProgress] row outside the receivers

    [instance.save()] as the serializer and the admin call it:
    [_updating_from_signal] is not set on the instance. *)

Definition lp_has_id (id : positive) (r : LanguageProgress.t) : bool :=
  (LanguageProgress.id r =? id)%positive.

Section SavingLanguageProgress.

Variable fault : faults.

(** The error with which the database refuses a row next to the rows
    of the table, if it does: the [CHECK] of a [PositiveIntegerField],
    [unique_together], the precision of a [DecimalField]. *)
Variable refused :
  LanguageProgress.t -> list LanguageProgress.t -> option exn.

(** The [UPDATE] of the row with the key of the instance, or the
    [INSERT] when there is none; the result is [created]. *)
Definition LanguageProgress_write (instance : LanguageProgress.t)
  : M bool :=
  mark_for_rollback_on_error
    (orm fault Q_LanguageProgress_save (fun w =>
       let rows := language_progress w in
       match refused instance rows with
       | Some e => (Raise e, w)
       | None =>
           if existsb (lp_has_id (LanguageProgress.id instance)) rows then
             (Ok false,
              set_language_progress w
                (map (fun o =>
                        if lp_has_id (LanguageProgress.id instance) o
                        then instance else o) rows))
           else (Ok true, set_language_progress w (rows ++ [instance]))
       end)).

(** [instance.save()]: the write, then the [post_save] receiver. *)
Definition LanguageProgress_save (instance : LanguageProgress.t)
  : M unit :=
  created <- LanguageProgress_write instance ;;
  language_progress_level_updated fault instance created false.

End SavingLanguageProgress.

(** A database that refuses nothing. *)
Definition accepts_all (r : LanguageProgress.t)
  (rows : list LanguageProgress.t) : option exn := None.

(** The learner's row after a recalculation, and the same row as a
    client sends it back: another level, and counters of its own. *)
Module Levels.
Definition recalculated : World :=
  snd (update_language_progress no_fault 7 1 Persons.two_learned).
Definition sent : LanguageProgress.t :=
  LanguageProgress.mk 1 7 1 "C1" PyFloat.hundred 99.
End Levels.

(** ** [WordTranslation] ([words/models.py])

    The table of translations is passed along.  The two words of a
    row are taken to exist, and a query fails on the unique constraint
    of the table alone. *)

Module WordTranslation.
(** [pk] is [None] until the instance has been inserted. *)
Record t : Type := mk {
  pk : option positive;
  source_word : positive;
  target_word : positive;
  confidence : PyFloat.float;
  notes : string
}.
End WordTranslation.

Definition translation_has_pk (pk : positive) (r : WordTranslation.t)
  : bool :=
  match WordTranslation.pk r with
  | Some k => (k =? pk)%positive
  | None => false
  end.

Definition translation_with_pk (r : WordTranslation.t) (pk : positive)
  : WordTranslation.t :=
  WordTranslation.mk (Some pk) (WordTranslation.source_word r)
    (WordTranslation.target_word r) (WordTranslation.confidence r)
    (WordTranslation.notes r).

Definition translation_pks (rows : list WordTranslation.t)
  : list positive :=
  flat_map (fun r => match WordTranslation.pk r with
                     | Some k => [k]
                     | None => []
                     end) rows.

(** The rows of [filter(source_word=, target_word=)] *)
Definition translates (source_word target_word : positive)
  (r : WordTranslation.t) : bool :=
  (WordTranslation.source_word r =? source_word)%positive
  && (WordTranslation.target_word r =? target_word)%positive.

(** [WordTranslation.objects.filter(source_word=,
    target_word=).exists()] *)
Definition has_translation (source_word target_word : positive)
  (rows : list WordTranslation.t) : bool :=
  existsb (translates source_word target_word) rows.

(** [super().save()]: an instance without primary key is inserted
    under the next key; one with a key updates its row, or is inserted
    when there is none.  [unique_together = ['source_word',
    'target_word']] is checked. *)
Definition WordTranslation_write (instance : WordTranslation.t)
  (rows : list WordTranslation.t)
  : result WordTranslation.t * list WordTranslation.t :=
  let pk :=
    match WordTranslation.pk instance with
    | Some k => k
    | None => next_pk (translation_pks rows)
    end in
  let row := translation_with_pk instance pk in
  if existsb (fun o =>
                translates (WordTranslation.source_word row)
                  (WordTranslation.target_word row) o
                && negb (translation_has_pk pk o)) rows
  then (Raise (IntegrityError "UNIQUE constraint failed"), rows)
  else if existsb (translation_has_pk pk) rows
  then (Ok row,
        map (fun o => if translation_has_pk pk o then row else o) rows)
  else (Ok row, (rows ++ [row])%list).

(** [WordTranslation.save(create_reverse=...)].  The inner
    [reverse_translation.save(create_reverse=False)] is the write
    alone. *)
Definition WordTranslation_save (create_reverse : bool)
  (self : WordTranslation.t) (rows : list WordTranslation.t)
  : result WordTranslation.t * list WordTranslation.t :=
  match WordTranslation_write self rows with
  | (Ok self, rows) =>
      if create_reverse then
        let reverse_translation_exists :=
          has_translation (WordTranslation.target_word self)
            (WordTranslation.source_word self) rows in
        if negb reverse_translation_exists then
          let reverse_translation :=
            WordTranslation.mk None (WordTranslation.target_word self)
              (WordTranslation.source_word self)
              (WordTranslation.confidence self)
              (WordTranslation.notes self) in
          match WordTranslation_write reverse_translation rows with
          | (Ok _, rows) => (Ok self, rows)
          | (Raise e, rows) => (Raise e, rows)
          end
        else (Ok self, rows)
      else (Ok self, rows)
  | (Raise e, rows) => (Raise e, rows)
  end.

(** [unique_together]: two rows with the same words are the same row. *)
Definition pairs_unique (rows : list WordTranslation.t) : Prop :=
  forall a b,
    In a rows -> In b rows ->
    WordTranslation.source_word a = WordTranslation.source_word b ->
    WordTranslation.target_word a = WordTranslation.target_word b ->
    a = b.

(** Every translation of the table has its reverse in the table. *)
Definition both_ways (rows : list WordTranslation.t) : Prop :=
  forall r,
    In r rows ->
    has_translation (WordTranslation.target_word r)
      (WordTranslation.source_word r) rows = true.

(** A translation of the word 1 by the word 3, and its reverse. *)
Module Translations.
Definition cat_kot : WordTranslation.t :=
  WordTranslation.mk (Some 1%positive) 1 3 PyFloat.hundred "".
Definition kot_cat : WordTranslation.t :=
  WordTranslation.mk (Some 2%positive) 3 1 PyFloat.zero "noun".
Definition theorem_kot : WordTranslation.t :=
  WordTranslation.mk None 2 3 PyFloat.zero "".
End Translations.

(** * Properties *)

(** * Floats: sign and range *)

Lemma shr_1_nonneg mrs : 0 <= shr_m mrs -> 0 <= shr_m (shr_1 mrs).
Proof.
  destruct mrs as [m r s]; simpl.
  destruct m as [|p|p]; simpl; try lia; destruct p; simpl; lia.
Qed.

Lemma iter_pos_shr_1_nonneg p : forall mrs,
  0 <= shr_m mrs -> 0 <= shr_m (iter_pos shr_1 p mrs).
Proof.
  induction p as [p IH|p IH|]; intros mrs H; simpl.
  - apply IH, IH, shr_1_nonneg, H.
  - apply IH, IH, H.
  - apply shr_1_nonneg, H.
Qed.

Lemma shr_nonneg mrs e n : 0 <= shr_m mrs -> 0 <= shr_m (fst (shr mrs e n)).
Proof.
  intros H; destruct n; simpl; auto using iter_pos_shr_1_nonneg.
Qed.

Lemma shr_fexp_nonneg m e l :
  0 <= m -> 0 <= shr_m (fst (shr_fexp PyFloat.prec PyFloat.emax m e l)).
Proof.
  intros H; unfold shr_fexp; apply shr_nonneg.
  destruct l as [|[]]; simpl; exact H.
Qed.

Lemma round_nearest_even_nonneg m l : 0 <= m -> 0 <= round_nearest_even m l.
Proof.
  intros H; destruct l as [|[]]; simpl; try lia.
  destruct (Z.even m); lia.
Qed.

Lemma binary_round_aux_nonneg m e l :
  0 <= m -> PyFloat.nonneg (binary_round_aux PyFloat.prec PyFloat.emax false m e l).
Proof.
  intros H; unfold binary_round_aux.
  pose proof (shr_fexp_nonneg m e l H) as H1.
  destruct (shr_fexp PyFloat.prec PyFloat.emax m e l) as [mrs' e']; simpl in H1.
  pose proof (shr_fexp_nonneg _ e' loc_Exact
                (round_nearest_even_nonneg _ (loc_of_shr_record mrs') H1)) as H2.
  destruct (shr_fexp PyFloat.prec PyFloat.emax _ e' loc_Exact) as [mrs'' e''].
  simpl in H2.
  destruct (shr_m mrs'') as [|p|p]; simpl; try reflexivity; try lia.
  destruct (e'' <=? _); reflexivity.
Qed.

Lemma of_ratio_nonneg n d : 0 <= n -> 0 < d -> PyFloat.nonneg (PyFloat.of_ratio false n d).
Proof.
  intros Hn Hd; unfold PyFloat.of_ratio, SFdiv_core_binary.
  set (s := _ - _ : Z).
  set (m' := match s with Z0 => n | Zpos _ => Z.shiftl n s | Zneg _ => 0 end).
  assert (Hm : 0 <= m').
  { unfold m'; destruct s; try lia. apply Z.shiftl_nonneg; lia. }
  pose proof (Z.div_pos m' d Hm Hd) as Hq.
  unfold Z.div in Hq.
  destruct (Z.div_eucl m' d) as [q r]; simpl in Hq.
  apply binary_round_aux_nonneg, Hq.
Qed.

Lemma int_truediv_nonneg c t :
  0 <= c -> 0 < t -> PyFloat.nonneg (PyFloat.int_truediv c t).
Proof.
  intros Hc Ht; unfold PyFloat.int_truediv.
  replace (c <? 0) with false by (symmetry; apply Z.ltb_ge; lia).
  replace (t <? 0) with false by (symmetry; apply Z.ltb_ge; lia).
  simpl; apply of_ratio_nonneg; lia.
Qed.

Lemma mul_hundred_nonneg x :
  PyFloat.nonneg x -> PyFloat.nonneg (PyFloat.mul x PyFloat.hundred).
Proof.
  destruct x as [s|s| |s m e]; simpl; intros H; subst; try reflexivity;
    try contradiction.
  apply binary_round_aux_nonneg; lia.
Qed.

Lemma round_half_even_nonneg n d : 0 <= n -> 0 < d -> 0 <= PyFloat.round_half_even n d.
Proof.
  intros Hn Hd; unfold PyFloat.round_half_even.
  pose proof (Z.div_pos n d Hn Hd).
  destruct (2 * (n mod d) ?= d); try lia.
  destruct (Z.even (n / d)); lia.
Qed.

Lemma scaled_magnitude_nonneg k m e : 0 <= k -> 0 <= PyFloat.scaled_magnitude k m e.
Proof.
  intros Hk; unfold PyFloat.scaled_magnitude.
  assert (0 < 10 ^ k) by (apply Z.pow_pos_nonneg; lia).
  destruct e as [|p|p].
  - lia.
  - assert (0 < 2 ^ Z.pos p) by (apply Z.pow_pos_nonneg; lia). nia.
  - apply round_half_even_nonneg; [nia|].
    apply Z.pow_pos_nonneg; lia.
Qed.

Lemma round_nonneg x : PyFloat.nonneg x -> PyFloat.nonneg (PyFloat.round x 2).
Proof.
  destruct x as [s|s| |s m e]; simpl; intros H; subst; try reflexivity;
    try contradiction.
  apply of_ratio_nonneg; [apply scaled_magnitude_nonneg|]; lia.
Qed.

Lemma leb_zero_nonneg x : PyFloat.nonneg x -> PyFloat.leb PyFloat.zero x = true.
Proof.
  destruct x as [s|s| |s m e]; simpl; intros H; subst; try reflexivity;
    contradiction.
Qed.

Lemma min_hundred_range x :
  PyFloat.nonneg x ->
  PyFloat.leb PyFloat.zero (PyFloat.min PyFloat.hundred x) = true
  /\ PyFloat.leb (PyFloat.min PyFloat.hundred x) PyFloat.hundred = true.
Proof.
  intros H; unfold PyFloat.min.
  destruct (PyFloat.ltb x PyFloat.hundred) eqn:E.
  - split; [apply leb_zero_nonneg, H|].
    unfold PyFloat.ltb, SFltb in E; unfold PyFloat.leb, SFleb.
    destruct (SFcompare x PyFloat.hundred) as [[]|]; congruence.
  - split; reflexivity.
Qed.

Lemma learned_percentage_range c t :
  0 <= c ->
  PyFloat.leb PyFloat.zero (learned_percentage_of c t) = true
  /\ PyFloat.leb (learned_percentage_of c t) PyFloat.hundred = true.
Proof.
  intros Hc; unfold learned_percentage_of.
  destruct (0 <? t) eqn:E.
  - apply Z.ltb_lt in E.
    apply min_hundred_range, round_nonneg, mul_hundred_nonneg,
      int_truediv_nonneg; assumption.
  - split; reflexivity.
Qed.

Lemma count_nonneg {A} (p : A -> bool) l : 0 <= count p l.
Proof. unfold count; lia. Qed.

(** * The recalculation on a state *)

Lemma lp_matches_update_stats u l pk p c r :
  lp_matches u l (lp_update_stats pk p c r) = lp_matches u l r.
Proof.
  unfold lp_update_stats; destruct (_ =? _)%positive; reflexivity.
Qed.

Lemma find_map_preserved {A} (p : A -> bool) (f : A -> A) l :
  (forall x, p (f x) = p x) ->
  find p (map f l) = option_map f (find p l).
Proof.
  intros H; induction l as [|x l IH]; simpl; [reflexivity|].
  rewrite H; destruct (p x); [reflexivity|exact IH].
Qed.

Lemma find_app_none {A} (p : A -> bool) l x :
  find p l = None -> p x = true -> find p (l ++ [x]) = Some x.
Proof.
  induction l as [|y l IH]; simpl; intros H Hx.
  - rewrite Hx; reflexivity.
  - destruct (p y); [discriminate|auto].
Qed.

Lemma find_some_holds {A} (p : A -> bool) l x : find p l = Some x -> p x = true.
Proof. intros H; apply find_some in H; tauto. Qed.

Lemma lp_matches_new u l pk lev p c :
  lp_matches u l (LanguageProgress.mk pk u l lev p c) = true.
Proof. unfold lp_matches; simpl; rewrite !Pos.eqb_refl; reflexivity. Qed.

Lemma recalculated_row u l w :
  exists lp,
    find (lp_matches u l)
      (language_progress (snd (update_language_progress no_fault u l w)))
    = Some lp
    /\ LanguageProgress.learned_words lp
       = learned_percentage_of (learned_mastered_count w u l)
           (total_available_words w u l)
    /\ LanguageProgress.learned_words_count lp = learned_mastered_count w u l
    /\ LanguageProgress.level lp = current_level w u l.
Proof.
  unfold update_language_progress, try_except, bind,
    LanguageProgress_get_or_create, Word_filter_count,
    WordsProgress_filter_count, LanguageProgress_save_stats,
    mark_for_rollback_on_error, orm, no_fault,
    total_available_words, learned_mastered_count, current_level,
    eligible_tiers.
  destruct (find (lp_matches u l) (language_progress w)) as [r|] eqn:F;
    cbn [fst snd language_progress set_language_progress words words_progress
           LanguageProgress.id LanguageProgress.level].
  - rewrite find_map_preserved by (intros; apply lp_matches_update_stats).
    rewrite F; cbn [option_map].
    eexists; split; [reflexivity|].
    unfold lp_update_stats; rewrite Pos.eqb_refl.
    cbn; auto.
  - rewrite find_map_preserved by (intros; apply lp_matches_update_stats).
    rewrite (find_app_none _ _ _ F (lp_matches_new _ _ _ _ _ _)).
    cbn [option_map].
    eexists; split; [reflexivity|].
    unfold lp_update_stats; cbn [LanguageProgress.id]; rewrite Pos.eqb_refl.
    cbn; auto.
Qed.

(** C1.  After [update_language_progress] has run for a user and a
    language, the [LanguageProgress] row of the pair exists and its
    [learned_words] is [min(100.0, round(c / t * 100, 2))] when the
    number [t] of available words is positive and [0.0] when it is zero,
    where [c] is the number of learned or mastered rows; in either case
    it lies between [0.0] and [100.0], whatever [c] and [t] are, so also
    when [c] exceeds [t]. *)
Theorem learned_words_after_recalculation (user language : positive)
  (w : World) :
  let c := learned_mastered_count w user language in
  let t := total_available_words w user language in
  exists lp,
    find (lp_matches user language)
      (language_progress
         (snd (update_language_progress no_fault user language w)))
    = Some lp
    /\ LanguageProgress.learned_words lp
       = (if 0 <? t then
            PyFloat.min PyFloat.hundred
              (PyFloat.round
                 (PyFloat.mul (PyFloat.int_truediv c t) PyFloat.hundred) 2)
          else PyFloat.zero)
    /\ PyFloat.leb PyFloat.zero (LanguageProgress.learned_words lp) = true
    /\ PyFloat.leb (LanguageProgress.learned_words lp) PyFloat.hundred = true.
Proof.
  intros c t.
  destruct (recalculated_row user language w) as (lp & F & P & _).
  exists lp; split; [exact F|]; split; [exact P|].
  rewrite P; apply learned_percentage_range, count_nonneg.
Qed.

(** C4.  The count that the recalculation stores in
    [learned_words_count] is the number of all rows of the user for the
    language whose status is ['learned'] or ['mastered']; replacing the
    difficulty tier of every word of the catalog leaves it unchanged.
    The denominator of the percentage counts the active words of the
    language whose tier is eligible at the level of the row. *)
Theorem learned_count_ignores_tiers (user language : positive) (w : World) :
  exists lp,
    find (lp_matches user language)
      (language_progress
         (snd (update_language_progress no_fault user language w)))
    = Some lp
    /\ LanguageProgress.learned_words_count lp
       = count (fun r =>
                  (WordsProgress.user r =? user)%positive
                  && (WordsProgress.target_language r =? language)%positive
                  && (String.eqb (WordsProgress.status r) "learned"
                      || String.eqb (WordsProgress.status r) "mastered"))
           (words_progress w)
    /\ LanguageProgress.learned_words lp
       = learned_percentage_of (LanguageProgress.learned_words_count lp)
           (count (fun x =>
                     (Word.language x =? language)%positive
                     && existsb (DifficultyLevel_eqb (Word.difficulty_level x))
                          (eligible_tiers (LanguageProgress.level lp))
                     && Word.active x)
              (words w))
    /\ forall f : Word.t -> DifficultyLevel,
         exists lp',
           find (lp_matches user language)
             (language_progress
                (snd (update_language_progress no_fault user language
                        (set_words w (map (retier f) (words w))))))
           = Some lp'
           /\ LanguageProgress.learned_words_count lp'
              = LanguageProgress.learned_words_count lp.
Proof.
  destruct (recalculated_row user language w) as (lp & F & P & C & L).
  exists lp; split; [exact F|].
  assert (E : learned_mastered_count w user language
              = count (fun r =>
                  (WordsProgress.user r =? user)%positive
                  && (WordsProgress.target_language r =? language)%positive
                  && (String.eqb (WordsProgress.status r) "learned"
                      || String.eqb (WordsProgress.status r) "mastered"))
                  (words_progress w)).
  { unfold learned_mastered_count, count; do 2 f_equal.
    apply filter_ext; intros r; unfold learned_or_mastered, in_strings; simpl.
    rewrite orb_false_r; reflexivity. }
  split; [rewrite C; exact E|].
  split.
  - rewrite P, C, L; reflexivity.
  - intros f.
    destruct (recalculated_row user language
                (set_words w (map (retier f) (words w))))
      as (lp' & F' & _ & C' & _).
    exists lp'; split; [exact F'|].
    rewrite C', C; reflexivity.
Qed.

(** * Levels and tiers *)

Lemma count_monotone {A} (p q : A -> bool) l :
  (forall x, p x = true -> q x = true) -> count p l <= count q l.
Proof.
  intros H; unfold count; apply inj_le.
  induction l as [|x l IH]; simpl; [lia|].
  destruct (p x) eqn:Px.
  - rewrite (H x Px); simpl; lia.
  - destruct (q x); simpl; lia.
Qed.

Lemma available_word_monotone language t1 t2 x :
  incl t1 t2 ->
  available_word language t1 x = true -> available_word language t2 x = true.
Proof.
  intros I; unfold available_word, difficulty_in.
  rewrite !andb_true_iff, !existsb_exists.
  intros [[L (d & D & E)] A]; repeat split; auto.
  exists d; auto.
Qed.

Lemma eligible_tiers_incl l1 l2 :
  (Level_rank l1 <= Level_rank l2)%nat ->
  incl (eligible_tiers (Level_value l1)) (eligible_tiers (Level_value l2)).
Proof.
  destruct l1, l2; simpl; intros H; try lia; intros x Hx;
    cbv in Hx |- *; tauto.
Qed.

(** C9.  The tiers of a level are the first tiers up to its own, the
    tiers of a level are among those of every higher level, and with the
    same catalog the number of available words at the lower level is at
    most that at the higher one. *)
Theorem eligible_tiers_cumulative_monotone (l1 l2 : Level)
  (H : (Level_rank l1 <= Level_rank l2)%nat) :
  eligible_tiers (Level_value l1) = firstn (S (Level_rank l1)) ALL_TIERS
  /\ incl (eligible_tiers (Level_value l1)) (eligible_tiers (Level_value l2))
  /\ forall (w1 w2 : World) (user language : positive),
       words w1 = words w2 ->
       current_level w1 user language = Level_value l1 ->
       current_level w2 user language = Level_value l2 ->
       total_available_words w1 user language
       <= total_available_words w2 user language.
Proof.
  split; [destruct l1; reflexivity|].
  split; [apply eligible_tiers_incl, H|].
  intros w1 w2 user language W L1 L2.
  unfold total_available_words; rewrite W, L1, L2.
  apply count_monotone; intros x.
  apply available_word_monotone, eligible_tiers_incl, H.
Qed.

Lemma eligible_tiers_cumulative_monotone_witness :
  (Level_rank A1 <= Level_rank B1)%nat
  /\ incl (eligible_tiers (Level_value A1)) (eligible_tiers (Level_value B1)).
Proof.
  assert (H : (Level_rank A1 <= Level_rank B1)%nat) by (simpl; lia).
  split; [exact H|].
  exact (proj1 (proj2 (eligible_tiers_cumulative_monotone A1 B1 H))).
Defined.


Lemma same_rows_refl w : same_rows w w.
Proof. repeat split. Qed.

Lemma same_rows_trans w1 w2 w3 :
  same_rows w1 w2 -> same_rows w2 w3 -> same_rows w1 w3.
Proof. unfold same_rows; intuition congruence. Qed.

Lemma update_language_progress_contained fault u l w :
  exists w',
    update_language_progress fault u l w = (Ok tt, w')
    /\ same_rows w w'
    /\ ((exists c e, In c recalculation_calls /\ fault c = Some e) ->
        exists e,
          error_log w'
          = (error_log w ++ [mkLog "update_language_progress" (str e)])%list).
Proof.
  unfold update_language_progress, try_except, bind,
    LanguageProgress_get_or_create, Word_filter_count,
    WordsProgress_filter_count, LanguageProgress_save_stats,
    mark_for_rollback_on_error, orm,
    logger_error, logger_error_msg.
  destruct (fault Q_LanguageProgress_get_or_create) as [e1|] eqn:F1.
  { eexists; split; [reflexivity|]; split; [repeat split|].
    intros _; exists e1; reflexivity. }
  destruct (find (lp_matches u l) (language_progress w)) as [r|];
    cbn [fst snd];
    (destruct (fault Q_Word_count) as [e2|] eqn:F2;
     [ eexists; split; [reflexivity|]; split; [repeat split|];
       intros _; exists e2; reflexivity | ]);
    (destruct (fault Q_WordsProgress_count) as [e3|] eqn:F3;
     [ eexists; split; [reflexivity|]; split; [repeat split|];
       intros _; exists e3; reflexivity | ]);
    (destruct (fault Q_LanguageProgress_save) as [e4|] eqn:F4;
     [ eexists; split; [reflexivity|]; split; [repeat split|];
       intros _; exists e4; reflexivity | ]);
    (eexists; split; [reflexivity|]; split; [repeat split|];
     intros (c & e & I & Fc); exfalso;
     simpl in I; intuition (subst; congruence)).
Qed.

Lemma words_progress_updated_contained fault instance created w :
  exists w',
    words_progress_updated fault instance created w = (Ok tt, w')
    /\ same_rows w w'.
Proof.
  unfold words_progress_updated, try_except.
  destruct (update_language_progress_contained fault
              (WordsProgress.user instance)
              (WordsProgress.target_language instance) w)
    as (w' & E & S & _).
  rewrite E; eauto.
Qed.

Lemma log_word_milestone_contained fault instance created w :
  exists w',
    log_word_milestone fault instance created w = (Ok tt, w')
    /\ same_rows w w'.
Proof.
  unfold log_word_milestone, try_except, bind, orm, ret, logger_error,
    logger_error_msg.
  destruct (_ && _); [|eexists; split; [reflexivity|repeat split]].
  destruct (fault Q_milestone_count);
    eexists; (split; [reflexivity|repeat split]).
Qed.

Lemma with_date_learned_same instance :
  with_date_learned instance (WordsProgress.date_learned instance) = instance.
Proof. destruct instance; reflexivity. Qed.

Lemma set_date_learned_contained fault today instance w :
  exists d w',
    set_date_learned fault today instance w
    = (Ok (with_date_learned instance d), w')
    /\ same_rows w w'
    /\ (fault Q_WordsProgress_get = None -> d = Some today).
Proof.
  unfold set_date_learned, try_except, bind, WordsProgress_get, orm, ret,
    raise, logger_error, logger_error_msg.
  destruct (WordsProgress.pk instance) as [pk|].
  - destruct (fault Q_WordsProgress_get) as [e|].
    + destruct e;
        try (exists (Some today); eexists; split; [reflexivity|];
             split; [repeat split|discriminate]);
        (exists (WordsProgress.date_learned instance); eexists;
         rewrite with_date_learned_same; split; [reflexivity|];
         split; [repeat split|discriminate]).
    + destruct (find (has_pk pk) (words_progress w));
        exists (Some today); eexists; (split; [reflexivity|]);
        (split; [repeat split|auto]).
  - exists (Some today); eexists; split; [reflexivity|];
      split; [repeat split|auto].
Qed.

(** ** The flag of the connection *)

Lemma update_language_progress_flag fault u l w :
  needs_rollback (snd (update_language_progress fault u l w))
  = if recalculation_save_fails fault then true else needs_rollback w.
Proof.
  unfold update_language_progress, try_except, bind,
    LanguageProgress_get_or_create, Word_filter_count,
    WordsProgress_filter_count, LanguageProgress_save_stats,
    mark_for_rollback_on_error, orm, logger_error, logger_error_msg,
    recalculation_save_fails.
  destruct (fault Q_LanguageProgress_get_or_create); [reflexivity|].
  destruct (find (lp_matches u l) (language_progress w)); cbn [fst snd];
    (destruct (fault Q_Word_count); [reflexivity|]);
    (destruct (fault Q_WordsProgress_count); [reflexivity|]);
    (destruct (fault Q_LanguageProgress_save); reflexivity).
Qed.

Lemma words_progress_updated_flag fault instance created w :
  needs_rollback (snd (words_progress_updated fault instance created w))
  = if recalculation_save_fails fault then true else needs_rollback w.
Proof.
  unfold words_progress_updated, try_except.
  pose proof (update_language_progress_flag fault
                (WordsProgress.user instance)
                (WordsProgress.target_language instance) w) as F.
  destruct (update_language_progress_contained fault
              (WordsProgress.user instance)
              (WordsProgress.target_language instance) w)
    as (w' & E & _).
  rewrite E in *; exact F.
Qed.

Lemma words_progress_deleted_flag fault instance w :
  needs_rollback (snd (words_progress_deleted fault instance w))
  = if recalculation_save_fails fault then true else needs_rollback w.
Proof.
  unfold words_progress_deleted, try_except.
  pose proof (update_language_progress_flag fault
                (WordsProgress.user instance)
                (WordsProgress.target_language instance) w) as F.
  destruct (update_language_progress_contained fault
              (WordsProgress.user instance)
              (WordsProgress.target_language instance) w)
    as (w' & E & _).
  rewrite E in *; exact F.
Qed.

Lemma log_word_milestone_flag fault instance created w :
  needs_rollback (snd (log_word_milestone fault instance created w))
  = needs_rollback w.
Proof.
  unfold log_word_milestone, try_except, bind, orm, ret, logger_error,
    logger_error_msg.
  destruct (_ && _); [|reflexivity].
  destruct (fault Q_milestone_count); reflexivity.
Qed.

Lemma set_date_learned_flag fault today instance w :
  needs_rollback (snd (set_date_learned fault today instance w))
  = needs_rollback w.
Proof.
  unfold set_date_learned, try_except, bind, WordsProgress_get, orm, ret,
    raise, logger_error, logger_error_msg.
  destruct (WordsProgress.pk instance) as [pk|]; [|reflexivity].
  destruct (fault Q_WordsProgress_get) as [e|].
  - destruct e; reflexivity.
  - destruct (find (has_pk pk) (words_progress w)); reflexivity.
Qed.

(** * Saving *)

Lemma in_map_replace_row pk row rows r :
  In r (map (replace_row pk row) rows) -> r = row \/ In r rows.
Proof.
  rewrite in_map_iff; intros (o & E & I); unfold replace_row in E.
  destruct (has_pk pk o); subst; auto.
Qed.

Lemma replaced_row_in pk row rows :
  existsb (has_pk pk) rows = true -> In row (map (replace_row pk row) rows).
Proof.
  rewrite existsb_exists; intros (o & I & H).
  apply in_map_iff; exists o; split; [|exact I].
  unfold replace_row; rewrite H; reflexivity.
Qed.

Lemma next_pk_above used p : In p used -> (p < next_pk used)%positive.
Proof.
  induction used as [|q used IH]; simpl; [tauto|].
  intros [->|I]; [lia|]. specialize (IH I); lia.
Qed.

Lemma next_pk_fresh used : ~ In (next_pk used) used.
Proof. intros I; apply next_pk_above in I; lia. Qed.

Lemma has_pk_iff pk r : has_pk pk r = true <-> WordsProgress.pk r = Some pk.
Proof.
  unfold has_pk; destruct (WordsProgress.pk r) as [k|].
  - rewrite Pos.eqb_eq; split; congruence.
  - split; discriminate.
Qed.

Lemma pk_in_pks rows r k :
  In r rows -> WordsProgress.pk r = Some k -> In k (pks rows).
Proof.
  intros I E; unfold pks; apply in_flat_map; exists r; split; [exact I|].
  rewrite E; left; reflexivity.
Qed.

Lemma replaced_row_pk pk row o :
  WordsProgress.pk row = Some pk ->
  WordsProgress.pk (replace_row pk row o) = WordsProgress.pk o.
Proof.
  intros E; unfold replace_row; destruct (has_pk pk o) eqn:H; [|reflexivity].
  apply has_pk_iff in H; congruence.
Qed.

Lemma WordsProgress_write_cases fault inst w :
  (exists e,
     WordsProgress_write fault inst w = (Raise e, set_needs_rollback w true))
  \/ exists pk created w',
       WordsProgress_write fault inst w = (Ok (with_pk inst pk, created), w')
       /\ languages w' = languages w /\ words w' = words w
       /\ positive_fields_ok (with_pk inst pk) = true
       /\ (forall k, WordsProgress.pk inst = Some k -> pk = k)
       /\ In (with_pk inst pk) (words_progress w')
       /\ (forall r, In r (words_progress w') ->
                     r = with_pk inst pk \/ In r (words_progress w))
       /\ keys_kept (WordsProgress.pk inst) pk w w'.
Proof.
  unfold WordsProgress_write, mark_for_rollback_on_error, orm.
  destruct (fault Q_WordsProgress_save); [left; eauto|].
  set (pk := match WordsProgress.pk inst with
             | Some k => k
             | None => next_pk (pks (words_progress w))
             end).
  assert (K : forall k, WordsProgress.pk inst = Some k -> pk = k).
  { intros k E; unfold pk; rewrite E; reflexivity. }
  destruct (positive_fields_ok (with_pk inst pk)) eqn:P; cbn [negb];
    [|left; eexists; reflexivity].
  destruct (unique_together_ok pk (with_pk inst pk) (words_progress w));
    cbn [negb]; [|left; eexists; reflexivity].
  assert (N : WordsProgress.pk inst = None ->
              forall r, In r (words_progress w) ->
                        WordsProgress.pk r <> Some pk).
  { intros E r I Pk; unfold pk in Pk; rewrite E in Pk.
    eapply next_pk_fresh, pk_in_pks; eassumption. }
  right; exists pk.
  destruct (existsb (has_pk pk) (words_progress w)) eqn:X.
  - do 2 eexists; split; [reflexivity|]; cbn.
    repeat split; auto using replaced_row_in.
    + intros r; apply in_map_replace_row.
    + intros r I; exists (replace_row pk (with_pk inst pk) r).
      split; [apply in_map; exact I|apply replaced_row_pk; reflexivity].
  - do 2 eexists; split; [reflexivity|]; cbn.
    repeat split; auto.
    + apply in_or_app; right; left; reflexivity.
    + intros r I; apply in_app_or in I; destruct I as [I|[I|[]]]; auto.
    + intros r I; exists r; split; [apply in_or_app; left; exact I|].
      reflexivity.
Qed.

Lemma WordsProgress_save_cases fault today instance w :
  (exists e w',
     WordsProgress_save fault today instance w = (Raise e, w')
     /\ same_rows w w')
  \/ exists pk d w',
       let row := with_pk (with_date_learned instance d) pk in
       WordsProgress_save fault today instance w = (Ok row, w')
       /\ languages w' = languages w /\ words w' = words w
       /\ positive_fields_ok row = true
       /\ (forall k, WordsProgress.pk instance = Some k -> pk = k)
       /\ (fault Q_WordsProgress_get = None -> d = Some today)
       /\ In row (words_progress w')
       /\ (forall r, In r (words_progress w') ->
                     r = row \/ In r (words_progress w))
       /\ keys_kept (WordsProgress.pk instance) pk w w'.
Proof.
  unfold WordsProgress_save, bind.
  destruct (set_date_learned_contained fault today instance w)
    as (d & w1 & E1 & S1 & Dd).
  rewrite E1.
  destruct (WordsProgress_write_cases fault (with_date_learned instance d) w1)
    as [(e & E2)
       |(pk & created & w2 & E2 & L2 & W2 & P2 & K2 & I2 & R2 & Kp & Kf)];
    rewrite E2.
  - left; eauto.
  - right; cbn [fst snd].
    destruct (words_progress_updated_contained fault
                (with_pk (with_date_learned instance d) pk) created w2)
      as (wa & Ea & La & Wa & Sa).
    rewrite Ea.
    destruct (log_word_milestone_contained fault
                (with_pk (with_date_learned instance d) pk) created wa)
      as (wb & Eb & Lb & Wb & Sb).
    rewrite Eb; unfold ret.
    destruct S1 as (L1 & W1 & T1).
    exists pk, d, wb; cbn zeta.
    split; [reflexivity|].
    unfold keys_kept.
    rewrite Sb, Sa, Lb, La, Wb, Wa, L2, W2, L1, W1.
    repeat split; auto.
    + intros r I; rewrite <- T1; auto.
    + intros r I; rewrite <- T1 in I; auto.
    + intros N r I; rewrite <- T1 in I; auto.
Qed.


(** * The bulk update *)

Lemma Word_getattr_text x :
  Word.getattr x "text" = Raise (AttributeError "Word" "text").
Proof. reflexivity. Qed.

Lemma process_update_fails fault today user parse update_data w :
  exists e w',
    process_update fault today user parse update_data w = (Ok (Failed e), w')
    /\ same_rows w w'
    /\ language_progress w' = language_progress w
    /\ entry_shape update_data (Failed e)
    /\ (forall n, UpdateData.id update_data = Some n -> n <> 0 ->
        fault Q_WordsProgress_get = None ->
        find (owned_by user n) (words_progress w) = None ->
        e = not_found_error n /\ w' = w)
    /\ (forall n r x, UpdateData.id update_data = Some n -> n <> 0 ->
        fault Q_WordsProgress_get = None -> fault Q_catalog = None ->
        find (owned_by user n) (words_progress w) = Some r ->
        find (fun x => (Word.id x =? WordsProgress.word r)%positive)
          (words w) = Some x ->
        e = mkError (str (AttributeError "Word" "text")) (Some update_data)).
Proof.
  unfold process_update, try_except, bind, WordsProgress_get_owned,
    related_word, orm, ret, raise, logger_error, logger_error_msg,
    entry_shape.
  destruct (UpdateData.id update_data) as [n|] eqn:I; cbn [truthy override].
  2:{ cbn [negb]. do 2 eexists; split; [reflexivity|].
      split; [apply same_rows_refl|]. split; [reflexivity|].
      split; [reflexivity|]. split; discriminate. }
  destruct (n =? 0) eqn:N; cbn [negb].
  { do 2 eexists; split; [reflexivity|].
    split; [apply same_rows_refl|]. split; [reflexivity|].
    split; [reflexivity|].
    split; intros ? ; intros; apply Z.eqb_eq in N; congruence. }
  destruct (fault Q_WordsProgress_get) as [e|] eqn:F.
  { destruct e as [model| | | | |];
      try (do 2 eexists; split; [reflexivity|];
           split; [repeat split|]; split; [reflexivity|];
           split; [right; eexists; reflexivity|];
           split; intros; discriminate).
    destruct (String.eqb model "WordsProgress");
      do 2 eexists; (split; [reflexivity|]);
      (split; [repeat split|]); (split; [reflexivity|]);
      (split; [first [left; eexists; split; reflexivity
                     |right; eexists; reflexivity]|]);
      split; intros; discriminate. }
  destruct (find (owned_by user n) (words_progress w)) as [progress|] eqn:G.
  2:{ cbn. do 2 eexists; split; [reflexivity|].
      split; [apply same_rows_refl|]. split; [reflexivity|].
      split; [left; exists n; auto|].
      split; [intros ? [= <-]; auto|].
      intros ? ? ? [= <-]; intros; congruence. }
  destruct (fault Q_catalog) as [e|] eqn:Fc.
  { destruct e as [model| | | | |];
      try (do 2 eexists; split; [reflexivity|];
           split; [repeat split|]; split; [reflexivity|];
           split; [right; eexists; reflexivity|];
           split; [intros ? [= <-]; congruence|intros; discriminate]).
    destruct (String.eqb model "WordsProgress");
      do 2 eexists; (split; [reflexivity|]);
      (split; [repeat split|]); (split; [reflexivity|]);
      (split; [first [left; eexists; split; reflexivity
                     |right; eexists; reflexivity]|]);
      (split; [intros ? [= <-]; congruence|intros; discriminate]). }
  destruct (find _ (words w)) as [x|] eqn:Gw.
  - rewrite Word_getattr_text; cbn.
    do 2 eexists; split; [reflexivity|].
    split; [repeat split|]. split; [reflexivity|].
    split; [right; exists (AttributeError "Word" "text"); reflexivity|].
    split; [intros ? [= <-]; congruence|reflexivity].
  - cbn.
    do 2 eexists; split; [reflexivity|].
    split; [repeat split|]. split; [reflexivity|].
    split; [right; exists (DoesNotExist "Word"); reflexivity|].
    split; [intros ? [= <-]; congruence|].
    intros ? ? ? [= <-] ? ? ? Hr Hx; rewrite G in Hr; injection Hr as <-.
    rewrite Gw in Hx; discriminate.
Qed.

Lemma count_updated_failed os : Forall is_failed os -> count_updated os = 0.
Proof.
  unfold count_updated, count; induction 1 as [|o os H _ IH]; [reflexivity|].
  destruct o; [contradiction|exact IH].
Qed.


Lemma process_updates_spec fault today user parse updates :
  forall n errs w,
  exists outcomes w',
    process_updates fault today user parse updates n errs w
    = (Ok (n + count_updated outcomes, (errs ++ failures outcomes)%list), w')
    /\ Forall2 entry_shape updates outcomes
    /\ Forall is_failed outcomes
    /\ same_rows w w'
    /\ language_progress w' = language_progress w
    /\ (forall u k, In u updates -> UpdateData.id u = Some k -> k <> 0 ->
        fault Q_WordsProgress_get = None ->
        find (owned_by user k) (words_progress w) = None ->
        In (not_found_error k) (failures outcomes))
    /\ (forall u k r x, In u updates -> UpdateData.id u = Some k -> k <> 0 ->
        fault Q_WordsProgress_get = None -> fault Q_catalog = None ->
        find (owned_by user k) (words_progress w) = Some r ->
        find (fun x => (Word.id x =? WordsProgress.word r)%positive)
          (words w) = Some x ->
        In (mkError (str (AttributeError "Word" "text")) (Some u))
          (failures outcomes)).
Proof.
  induction updates as [|u rest IH]; intros n errs w.
  - exists [], w; cbn. rewrite app_nil_r, Z.add_0_r.
    repeat split; auto; try constructor; intros ? ? [].
  - cbn [process_updates]; unfold bind.
    destruct (process_update_fails fault today user parse u w)
      as (e & w1 & E & S & L & Sh & NF & FD).
    rewrite E.
    destruct (IH n (errs ++ [e])%list w1)
      as (os & w2 & E2 & F2 & A2 & S2 & L2 & NF2 & FD2).
    rewrite E2.
    exists (Failed e :: os), w2.
    split.
    { cbn [failures flat_map]. rewrite <- app_assoc.
      unfold count_updated, count; cbn [filter]. reflexivity. }
    split; [constructor; assumption|].
    split; [constructor; [exact I|assumption]|].
    split; [eapply same_rows_trans; eassumption|].
    split; [congruence|].
    split.
    + intros u' k [<-|I] Hi Hk Hf Hn.
      * destruct (NF k Hi Hk Hf Hn) as [-> _]. left; reflexivity.
      * cbn [failures flat_map]. apply in_or_app; right.
        apply (NF2 u' k I Hi Hk Hf).
        destruct S as (_ & _ & ->). exact Hn.
    + intros u' k r x [<-|I] Hi Hk Hf Hc Hr Hx.
      * rewrite (FD k r x Hi Hk Hf Hc Hr Hx). left; reflexivity.
      * cbn [failures flat_map]. apply in_or_app; right.
        apply (FD2 u' k r x I Hi Hk Hf Hc).
        -- destruct S as (_ & _ & ->). exact Hr.
        -- destruct S as (_ & -> & _). exact Hx.
Qed.


(** * Validation reads, and does not write *)

Lemma validate_word_id_readonly fault n w :
  exists r, validate_word_id fault n w = (r, w).
Proof.
  unfold validate_word_id, try_except, orm, raise.
  destruct (fault Q_catalog) as [[]|]; eauto.
  destruct (find _ (words w)); eauto.
Qed.

Lemma validate_target_language_id_readonly fault n w :
  exists r, validate_target_language_id fault n w = (r, w).
Proof.
  unfold validate_target_language_id, try_except, orm, raise.
  destruct (fault Q_catalog) as [[]|]; eauto.
  destruct (find _ (languages w)); eauto.
Qed.

Lemma validate_fields_readonly fault partial attrs w :
  (exists e, validate_fields fault partial attrs w = (Raise e, w))
  \/ validate_fields fault partial attrs w = (Ok attrs, w).
Proof.
  unfold validate_fields.
  destruct (negb partial && _); [left; unfold raise; eauto|].
  destruct (match Attrs.status attrs with Some _ => _ | None => _ end);
    [left; unfold raise; eauto|].
  destruct (negb (min_value_ok _ && _ && _)); [left; unfold raise; eauto|].
  destruct (negb (max_value_ok _ && _ && _)); [left; unfold raise; eauto|].
  unfold bind, ret.
  destruct (Attrs.word_id attrs) as [n|].
  - destruct (validate_word_id_readonly fault n w) as ([|e] & ->);
      [|left; eauto].
    destruct (Attrs.target_language_id attrs) as [m|]; [|right; reflexivity].
    destruct (validate_target_language_id_readonly fault m w) as ([|e] & ->);
      [right; reflexivity|left; eauto].
  - destruct (Attrs.target_language_id attrs) as [m|]; [|right; reflexivity].
    destruct (validate_target_language_id_readonly fault m w) as ([|e] & ->);
      [right; reflexivity|left; eauto].
Qed.

Lemma validate_readonly fault user attrs w :
  (exists e, validate fault user attrs w = (Raise e, w))
  \/ validate fault user attrs w = (Ok attrs, w).
Proof.
  unfold validate, bind, Word_get, Language_get, orm, raise, ret.
  destruct (truthy _ && truthy _); [|right; reflexivity].
  destruct (fault Q_catalog); [left; eauto|].
  destruct (find _ (words w)); [|left; eauto].
  destruct (find _ (languages w)); [|left; eauto].
  destruct (negb _); [left; eauto|].
  destruct (_ && _); [left; eauto|right; reflexivity].
Qed.

Lemma is_valid_readonly fault user partial attrs w :
  (exists e, is_valid fault user partial attrs w = (Raise e, w))
  \/ is_valid fault user partial attrs w = (Ok attrs, w).
Proof.
  unfold is_valid, bind.
  destruct (validate_fields_readonly fault partial attrs w) as [(e & ->)| ->];
    [left; eauto|].
  apply validate_readonly.
Qed.

(** * Creation and the native language *)

Lemma find_weaken {A} (p q : A -> bool) l x :
  find p l = Some x -> q x = true ->
  exists y, find (fun z => p z && q z) l = Some y.
Proof.
  induction l as [|z l IH]; simpl; [discriminate|].
  destruct (p z) eqn:P.
  - intros [= ->] Q; simpl; rewrite Q; eauto.
  - intros F Q; simpl; auto.
Qed.

Lemma find_strengthen {A} (p q : A -> bool) l y :
  find (fun z => p z && q z) l = Some y -> exists x, find p l = Some x.
Proof.
  induction l as [|z l IH]; simpl; [discriminate|].
  destruct (p z); simpl; eauto.
Qed.

Lemma word_has_id_truthy n x : word_has_id n x = true -> truthy (Some n) = true.
Proof.
  unfold word_has_id, truthy; intros H; apply Z.eqb_eq in H; subst; reflexivity.
Qed.

Lemma language_has_id_truthy n x :
  language_has_id n x = true -> truthy (Some n) = true.
Proof.
  unfold language_has_id, truthy; intros H; apply Z.eqb_eq in H; subst;
    reflexivity.
Qed.

Lemma is_valid_rejects_native fault user data w n word
  (Hid : Attrs.word_id data = Some n)
  (Hword : find (word_has_id n) (words w) = Some word)
  (Hactive : is_some (User.active_language user) = true)
  (Hnative : User.native_language user = Some (Word.language word)) :
  exists e,
    is_valid fault user false data w = (Raise e, w)
    /\ (fault Q_catalog = None -> is_validation_error e).
Proof.
  unfold is_valid, bind, validate_fields.
  destruct (negb false && _) eqn:Req;
    [unfold raise; eexists; split; [reflexivity|simpl; auto]|].
  destruct (match Attrs.status data with Some _ => _ | None => _ end);
    [unfold raise; eexists; split; [reflexivity|simpl; auto]|].
  destruct (negb (min_value_ok _ && _ && _));
    [unfold raise; eexists; split; [reflexivity|simpl; auto]|].
  destruct (negb (max_value_ok _ && _ && _));
    [unfold raise; eexists; split; [reflexivity|simpl; auto]|].
  cbn [negb andb] in Req; apply negb_false_iff, andb_true_iff in Req.
  destruct Req as [_ Req].
  destruct (Attrs.target_language_id data) as [m|] eqn:Tid; [|discriminate].
  rewrite Hid.
  unfold bind, validate_word_id, validate_target_language_id, try_except,
    orm, raise, ret.
  destruct (fault Q_catalog) as [e0|] eqn:F.
  { destruct e0; eexists; (split; [reflexivity|discriminate]). }
  destruct (find (fun x => word_has_id n x && Word.active x) (words w));
    [|eexists; split; [reflexivity|simpl; auto]].
  destruct (find (fun x => language_has_id m x && Language.enabled x)
              (languages w)) as [l0|] eqn:FL;
    [|eexists; split; [reflexivity|simpl; auto]].
  destruct (find_strengthen _ _ _ _ FL) as (tl & Ftl).
  unfold validate, bind, Word_get, Language_get, orm, raise, ret.
  rewrite Hid, Tid, F.
  rewrite (word_has_id_truthy n word (find_some_holds _ _ _ Hword)).
  rewrite (language_has_id_truthy m tl (find_some_holds _ _ _ Ftl)).
  cbn [andb override]. rewrite Hword, Ftl.
  destruct (negb _); [eexists; split; [reflexivity|simpl; auto]|].
  rewrite Hactive, Hnative; cbn [option_eqb andb]; rewrite Pos.eqb_refl.
  eexists; split; [reflexivity|simpl; auto].
Qed.


(** * Requests *)

Lemma save_saved fault today data w0 w base :
  same_rows w0 w -> based_on w0 base ->
  (exists e w',
     WordsProgress_save fault today (setattrs base data) w = (Raise e, w')
     /\ same_rows w0 w')
  \/ exists row w',
       WordsProgress_save fault today (setattrs base data) w = (Ok row, w')
       /\ saved fault today data w0 row w'.
Proof.
  intros (L & W & T) B.
  destruct (WordsProgress_save_cases fault today (setattrs base data) w)
    as [(e & w' & E & S)
       |(pk & d & w' & E & L' & W' & P & K & D & I & R & Kp & Kf)].
  - left; exists e, w'; split; [exact E|].
    eapply same_rows_trans; [|exact S]; repeat split; assumption.
  - right; eexists; exists w'; split; [exact E|].
    exists base, pk, d; repeat split; auto; try congruence.
    + intros r Hr; rewrite <- T; auto.
    + intros r Hr; rewrite <- T in Hr; auto.
    + intros N r Hr; rewrite <- T in Hr; apply Kf; [|exact Hr].
      destruct base; exact N.
Qed.

Lemma based_on_stored w r : In r (words_progress w) -> based_on w r.
Proof. intros I; left; exists r; auto. Qed.

Lemma WordsProgress_write_flag fault inst w r w' :
  WordsProgress_write fault inst w = (Ok r, w') ->
  needs_rollback w' = needs_rollback w.
Proof.
  unfold WordsProgress_write, mark_for_rollback_on_error, orm.
  destruct (fault Q_WordsProgress_save); [discriminate|].
  destruct (negb (positive_fields_ok _)); [discriminate|].
  destruct (negb (unique_together_ok _ _ _)); [discriminate|].
  destruct (existsb _ _); intros [= _ <-]; reflexivity.
Qed.

(** A save that returns leaves the flag set exactly when the
    recalculation of its receiver failed at its own save. *)
Lemma WordsProgress_save_flag fault today instance w row w' :
  WordsProgress_save fault today instance w = (Ok row, w') ->
  needs_rollback w'
  = if recalculation_save_fails fault then true else needs_rollback w.
Proof.
  unfold WordsProgress_save, bind.
  pose proof (set_date_learned_flag fault today instance w) as F1.
  destruct (set_date_learned fault today instance w) as [[i1|e1] w1];
    [|discriminate].
  cbn [snd] in F1.
  destruct (WordsProgress_write fault i1 w1) as [[[r created]|e2] w2] eqn:E2;
    [|discriminate].
  apply WordsProgress_write_flag in E2; cbn [fst snd].
  pose proof (words_progress_updated_flag fault r created w2) as F3.
  destruct (words_progress_updated fault r created w2) as [[[]|e3] w3];
    [|discriminate].
  cbn [snd] in F3.
  pose proof (log_word_milestone_flag fault r created w3) as F4.
  destruct (log_word_milestone fault r created w3) as [[[]|e4] w4];
    [|discriminate].
  cbn [snd] in F4; unfold ret; intros [= _ <-].
  rewrite F4, F3, E2, F1; reflexivity.
Qed.

Lemma same_tables_rows w w' : same_tables w w' -> same_rows w w'.
Proof. unfold same_tables, same_rows; tauto. Qed.

Lemma rollback_same_tables w w0 b :
  same_tables w (set_needs_rollback (rollback w w0) b).
Proof. repeat split. Qed.

(** The block of [get_or_create] around the save of a new row: it
    raises with the tables as they were; or the save returns and the
    block is committed; or the save returns, the recalculation failed
    at its own save, and the block is rolled back without a word. *)
Lemma atomic_save_cases fault today instance w :
  (exists e w',
     atomic (progress <- WordsProgress_save fault today instance ;;
             ret (progress, true)) w = (Raise e, w')
     /\ same_tables w w')
  \/ (exists row w',
        atomic (progress <- WordsProgress_save fault today instance ;;
                ret (progress, true)) w = (Ok (row, true), w')
        /\ WordsProgress_save fault today instance
             (set_needs_rollback w false) = (Ok row, w')
        /\ recalculation_save_fails fault = false)
  \/ (exists row w0,
        atomic (progress <- WordsProgress_save fault today instance ;;
                ret (progress, true)) w
        = (Ok (row, true), set_needs_rollback (rollback w w0) false)
        /\ WordsProgress_save fault today instance
             (set_needs_rollback w false) = (Ok row, w0)
        /\ recalculation_save_fails fault = true).
Proof.
  unfold atomic, bind, ret.
  destruct (WordsProgress_save fault today instance
              (set_needs_rollback w false)) as [[row|e] w0] eqn:E.
  - pose proof (WordsProgress_save_flag _ _ _ _ _ _ E) as F.
    cbn [needs_rollback set_needs_rollback] in F.
    destruct (recalculation_save_fails fault) eqn:R; rewrite F.
    + right; right; exists row, w0; auto.
    + right; left; exists row, w0; auto.
  - left; do 2 eexists; split; [reflexivity|apply rollback_same_tables].
Qed.

(** A create raises and leaves the rows as they are, or saves a row
    and answers with it, or answers with a row that the rollback of
    the block has undone. *)
Lemma create_cases fault today user data w :
  (exists e w',
     create fault today user data w = (Raise e, w') /\ same_rows w w')
  \/ (exists row w',
        create fault today user data w = (Ok row, w')
        /\ saved fault today data w row w')
  \/ (exists row w',
        create fault today user data w = (Ok row, w')
        /\ same_tables w w'
        /\ recalculation_save_fails fault = true).
Proof.
  unfold create, bind, Word_get, Language_get, orm.
  destruct (fault Q_catalog);
    [left; do 2 eexists; split; [reflexivity|apply same_rows_refl]|].
  destruct (find _ (words w)) as [word|];
    [|left; do 2 eexists; split; [reflexivity|apply same_rows_refl]].
  destruct (find _ (languages w)) as [tl|];
    [|left; do 2 eexists; split; [reflexivity|apply same_rows_refl]].
  unfold WordsProgress_get_or_create, bind, get_world, try_except, ret.
  destruct (find _ (words_progress w)) as [progress|] eqn:F;
    cbn [fst snd negb].
  - destruct (save_saved fault today data w w progress (same_rows_refl w))
      as [H|H]; [|left; exact H|right; left; exact H].
    apply based_on_stored; apply find_some in F; tauto.
  - pose proof (atomic_save_cases fault today
                  (new_instance (User.id user) (Word.id word)
                     (Language.id tl) data) w) as H.
    unfold bind, ret in H.
    destruct H
      as [(e & w' & -> & S)|[(row & w' & -> & E & R)|(row & w0 & -> & E & R)]].
    + left; exists e.
      assert (T : words_progress w' = words_progress w) by apply S.
      destruct e; unfold raise; try rewrite T, F;
        eexists; (split; [reflexivity|apply same_tables_rows, S]).
    + right; left; cbn [fst snd negb]; exists row, w'; split; [reflexivity|].
      unfold new_instance in E.
      destruct (save_saved fault today data w (set_needs_rollback w false)
                  (WordsProgress.mk None (User.id user) (Word.id word)
                     (Language.id tl) "new" 1 None 0 0 None))
        as [(e' & w'' & E' & _)|(row' & w'' & E' & S)];
        [repeat split|right; repeat split| |]; rewrite E' in E.
      * discriminate.
      * injection E as <- <-; exact S.
    + right; right; cbn [fst snd negb]; do 2 eexists.
      split; [reflexivity|]; split; [apply rollback_same_tables|exact R].
Qed.

Lemma update_cases fault today data w instance :
  In instance (words_progress w) ->
  (exists e w',
     update fault today instance data w = (Raise e, w') /\ same_rows w w')
  \/ exists row w',
       update fault today instance data w = (Ok row, w')
       /\ saved fault today data w row w'.
Proof.
  intros I; unfold update, bind, Word_get, Language_get, orm, ret.
  assert (B : forall b,
             WordsProgress.pk b = WordsProgress.pk instance ->
             WordsProgress.review_count b = WordsProgress.review_count instance ->
             WordsProgress.correct_count b
             = WordsProgress.correct_count instance ->
             based_on w b).
  { intros b H1 H2 H3; left; exists instance; auto. }
  destruct (Attrs.word_id data) as [n|];
    destruct (Attrs.target_language_id data) as [m|];
    try (destruct (fault Q_catalog);
         [left; do 2 eexists; split; [reflexivity|apply same_rows_refl]|]);
    try (destruct (find _ (words w)) as [word|];
         [|left; do 2 eexists; split; [reflexivity|apply same_rows_refl]]);
    try (destruct (find _ (languages w)) as [tl|];
         [|left; do 2 eexists; split; [reflexivity|apply same_rows_refl]]);
    (apply save_saved; [apply same_rows_refl|apply B; reflexivity]).
Qed.

Lemma get_object_cases fault user pk w :
  (exists e, get_object fault user pk w = (Raise e, w))
  \/ exists r, get_object fault user pk w = (Ok r, w)
               /\ In r (words_progress w).
Proof.
  unfold get_object, orm.
  destruct (fault Q_WordsProgress_get); [left; eauto|].
  destruct (find _ (words_progress w)) as [r|] eqn:F; [|left; eauto].
  right; exists r; split; [reflexivity|]. apply find_some in F; tauto.
Qed.

(** A request on one row fails and leaves the rows as they are, or
    saves one row, or answers with a row of a block that was rolled
    back. *)
Lemma handle_row_cases fault today parse req data w :
  payload req = Some data ->
  (exists e w', handle fault today parse req w = (Raise e, w')
                /\ same_rows w w')
  \/ (exists row w',
        handle fault today parse req w = (Ok (Some row), w')
        /\ saved fault today data w row w')
  \/ (exists row w',
        handle fault today parse req w = (Ok (Some row), w')
        /\ same_tables w w'
        /\ recalculation_save_fails fault = true).
Proof.
  destruct req as [user d|user pk d|user pk d|user updates];
    intros [= ->]; cbn [handle]; unfold bind, ret.
  - unfold WordsProgressListCreateView_post, bind.
    destruct (is_valid_readonly fault user false data w) as [(e & ->)| ->];
      [left; do 2 eexists; split; [reflexivity|apply same_rows_refl]|].
    destruct (create_cases fault today user data w)
      as [(e & w' & -> & S)|[(row & w' & -> & S)|(row & w' & -> & S)]];
      eauto 6.
  - unfold WordsProgressDetailView_patch, bind.
    destruct (get_object_cases fault user pk w) as [(e & ->)|(r & -> & I)];
      [left; do 2 eexists; split; [reflexivity|apply same_rows_refl]|].
    destruct (is_valid_readonly fault user true data w) as [(e & ->)| ->];
      [left; do 2 eexists; split; [reflexivity|apply same_rows_refl]|].
    destruct (update_cases fault today data w r I)
      as [(e & w' & -> & S)|(row & w' & -> & S)]; [eauto|right; eauto].
  - unfold WordsProgressDetailView_put, bind.
    destruct (get_object_cases fault user pk w) as [(e & ->)|(r & -> & I)];
      [left; do 2 eexists; split; [reflexivity|apply same_rows_refl]|].
    destruct (is_valid_readonly fault user false data w) as [(e & ->)| ->];
      [left; do 2 eexists; split; [reflexivity|apply same_rows_refl]|].
    destruct (update_cases fault today data w r I)
      as [(e & w' & -> & S)|(row & w' & -> & S)]; [eauto|right; eauto].
Qed.

Lemma bulk_update_never_saves fault today user parse updates w :
  exists resp w',
    WordsProgressBulkUpdateView_post fault today user parse updates w
    = (Ok resp, w')
    /\ same_rows w w'
    /\ match resp with
       | Bulk_200 n _ _ => n = 0
       | Bulk_400 _ => updates = []
       end.
Proof.
  destruct updates as [|u rest].
  - cbn; unfold bind, logger_error_msg, ret.
    do 2 eexists; split; [reflexivity|]; split; [repeat split|reflexivity].
  - unfold WordsProgressBulkUpdateView_post, bind, ret.
    destruct (process_updates_spec fault today user parse (u :: rest) 0 [] w)
      as (os & w' & E & _ & A & S & _).
    rewrite E; do 2 eexists; split; [reflexivity|]; split; [exact S|].
    cbn [fst]; rewrite (count_updated_failed os A); reflexivity.
Qed.

Lemma handle_bulk_cases fault today parse user updates w :
  exists w',
    handle fault today parse (POST_bulk_update user updates) w = (Ok None, w')
    /\ same_rows w w'.
Proof.
  cbn [handle]; unfold bind, ret.
  destruct (bulk_update_never_saves fault today user parse updates w)
    as (resp & w' & -> & S & _).
  eauto.
Qed.


(** C10.  When the user has an active language and the word of the
    request is in the native language of the user, creation raises and
    the state is unchanged: no row is created.  The exception is a
    validation error unless a query of the catalog failed; it is the
    native-language one when the word is active, the target language is
    enabled and is the language of the word, and the other fields are
    valid. *)
Theorem create_rejects_native_language_word (fault : faults)
  (today : PyDate.date) (user : User.t) (data : Attrs.t) (w : World)
  (n : Z) (word : Word.t)
  (Hid : Attrs.word_id data = Some n)
  (Hword : find (word_has_id n) (words w) = Some word)
  (Hactive : User.active_language user <> None)
  (Hnative : User.native_language user = Some (Word.language word)) :
  (exists e,
     WordsProgressListCreateView_post fault today user data w = (Raise e, w)
     /\ (fault Q_catalog = None -> exists detail, e = ValidationError detail))
  /\ forall (m : Z) (target_language : Language.t),
       fault Q_catalog = None ->
       Attrs.target_language_id data = Some m ->
       find (language_has_id m) (languages w) = Some target_language ->
       Language.enabled target_language = true ->
       Word.active word = true ->
       Language.id target_language = Word.language word ->
       field_values_valid data ->
       WordsProgressListCreateView_post fault today user data w
       = (Raise (ValidationError
                   "Word and active language mustn't match your native language"),
          w).
Proof.
  assert (Ha : is_some (User.active_language user) = true)
    by (destruct (User.active_language user); [reflexivity|congruence]).
  split.
  - destruct (is_valid_rejects_native fault user data w n word Hid Hword Ha
                Hnative) as (e & E & V).
    exists e; split.
    + unfold WordsProgressListCreateView_post, bind; rewrite E; reflexivity.
    + intros F; specialize (V F); destruct e; try contradiction; eauto.
  - intros m tl F Tid Ftl En Ac Same (Vs & Vi & Vr & Vc & Xi & Xr & Xc).
    unfold WordsProgressListCreateView_post, is_valid, validate_fields, bind.
    rewrite Hid, Tid; cbn [is_some andb negb].
    replace (match Attrs.status data with
             | Some s => negb (in_strings s STATUS_CHOICES)
             | None => false
             end) with false
      by (destruct (Attrs.status data) as [s|]; [rewrite (Vs s eq_refl)|];
          reflexivity).
    rewrite Vi, Vr, Vc, Xi, Xr, Xc; cbn [andb negb].
    unfold validate_word_id, validate_target_language_id, try_except, orm,
      bind, ret; rewrite F.
    destruct (find_weaken _ Word.active _ _ Hword Ac) as (y & ->).
    destruct (find_weaken _ Language.enabled _ _ Ftl En) as (z & ->).
    unfold validate, bind, Word_get, Language_get, orm, raise.
    rewrite Hid, Tid, F.
    rewrite (word_has_id_truthy n word (find_some_holds _ _ _ Hword)).
    rewrite (language_has_id_truthy m tl (find_some_holds _ _ _ Ftl)).
    cbn [andb override]. rewrite Hword, Ftl, Same, Pos.eqb_refl, Ha, Hnative.
    cbn [negb option_eqb andb]. rewrite Pos.eqb_refl. reflexivity.
Qed.

(** When no query fails, no block is rolled back. *)
Lemma handle_row_cases_no_fault today parse req data w :
  payload req = Some data ->
  (exists e w', handle no_fault today parse req w = (Raise e, w')
                /\ same_rows w w')
  \/ exists row w',
       handle no_fault today parse req w = (Ok (Some row), w')
       /\ saved no_fault today data w row w'.
Proof.
  intros P.
  destruct (handle_row_cases no_fault today parse req data w P)
    as [H|[H|(row & w' & _ & _ & R)]]; [left; exact H|right; exact H|].
  discriminate.
Qed.

Lemma saved_date_learned today data w row w' :
  saved no_fault today data w row w' ->
  WordsProgress.date_learned row = Some today.
Proof.
  intros (base & pk & d & -> & _ & _ & D & _); cbn; auto.
Qed.

(** C3.  The row that a create or an update answers with is stored
    and carries today's date in [date_learned]; every row of the table
    after a request was there before or carries today's date; and every
    save that succeeds stores its row with today's date, whatever the
    status of the row and the date it came with. *)
Theorem date_learned_is_last_touched (today : PyDate.date)
  (parse_datetime : string -> result (option datetime)) (req : Request)
  (w : World) :
  let res := fst (handle no_fault today parse_datetime req w) in
  let w' := snd (handle no_fault today parse_datetime req w) in
  (forall row, res = Ok (Some row) ->
     In row (words_progress w')
     /\ WordsProgress.date_learned row = Some today)
  /\ (forall r, In r (words_progress w') ->
        In r (words_progress w) \/ WordsProgress.date_learned r = Some today)
  /\ forall instance w0 row w1,
       WordsProgress_save no_fault today instance w0 = (Ok row, w1) ->
       In row (words_progress w1)
       /\ WordsProgress.date_learned row = Some today.
Proof.
  cbn zeta; split; [|split].
  - destruct (payload req) as [data|] eqn:P.
    + destruct (handle_row_cases_no_fault today parse_datetime req data w P)
        as [(e & w' & -> & _)|(row & w' & -> & S)]; cbn [fst snd].
      * discriminate.
      * intros ? [= <-]; split; [|eapply saved_date_learned; eassumption].
        destruct S as (base & pk & d & _ & _ & _ & _ & _ & I & _); exact I.
    + destruct req; try discriminate.
      destruct (handle_bulk_cases no_fault today parse_datetime user updates w)
        as (w' & -> & _); discriminate.
  - destruct (payload req) as [data|] eqn:P.
    + destruct (handle_row_cases_no_fault today parse_datetime req data w P)
        as [(e & w' & -> & (_ & _ & T))|(row & w' & -> & S)]; cbn [fst snd].
      * rewrite T; auto.
      * intros r I.
        pose proof (saved_date_learned _ _ _ _ _ S) as D.
        destruct S as (base & pk & d & _ & _ & _ & _ & _ & _ & R & _).
        destruct (R r I) as [->|]; auto.
    + destruct req; try discriminate.
      destruct (handle_bulk_cases no_fault today parse_datetime user updates w)
        as (w' & -> & (_ & _ & T)); cbn [snd]; rewrite T; auto.
  - intros instance w0 row w1 E.
    destruct (WordsProgress_save_cases no_fault today instance w0)
      as [(e & w' & E' & _)|(pk & d & w' & E' & _ & _ & _ & _ & D & I & _)];
      rewrite E' in E; [discriminate|].
    injection E as <- <-; split; [exact I|].
    cbn; auto.
Qed.


(** C2, at the failing input.  One correct review of the stored row 1
    is answered with [updated_count = 0] and the error of the attribute
    [text], which [Word] does not have; the row keeps [review_count = 0]. *)
Theorem bulk_update_leaves_review_count :
  let r :=
    WordsProgressBulkUpdateView_post no_fault Example.today Example.learner
      Example.parse_datetime [Example.review 1 true] Example.one_row in
  fst r
  = Ok (Bulk_200 0 1
          [mkError "'Word' object has no attribute 'text'"
             (Some (Example.review 1 true))])
  /\ words_progress (snd r) = [Example.row1]
  /\ WordsProgress.review_count Example.row1 = 0.
Proof. repeat split. Qed.

(** The error entry of an id that does not exist has no [data]. *)
Lemma bulk_update_not_found_entry_has_no_data :
  fst (WordsProgressBulkUpdateView_post no_fault Example.today Example.learner
         Example.parse_datetime [Example.review 999999 false] Example.empty)
  = Ok (Bulk_200 0 1
          [mkError "Words progress with id 999999 not found" None])
  /\ data (mkError "Words progress with id 999999 not found" None) = None.
Proof. split; reflexivity. Qed.









Example learned_words_is_capped :
  language_progress
    (snd (update_language_progress no_fault 7 1 Persons.two_learned))
  = [LanguageProgress.mk 1 7 1 "A1" PyFloat.hundred 2]
  /\ total_available_words Persons.two_learned 7 1 = 1.
Proof. split; reflexivity. Qed.

Lemma create_rejects_native_language_word_witness :
  User.active_language Persons.english_speaker <> None
  /\ WordsProgressListCreateView_post no_fault Example.today
       Persons.english_speaker Persons.cat_in_english Example.empty
     = (Raise (ValidationError
                 "Word and active language mustn't match your native language"),
        Example.empty).
Proof.
  assert (A : User.active_language Persons.english_speaker <> None)
    by discriminate.
  split; [exact A|].
  refine (proj2 (create_rejects_native_language_word no_fault Example.today
                   Persons.english_speaker Persons.cat_in_english
                   Example.empty 1 Example.cat eq_refl eq_refl A eq_refl)
            1 Example.english eq_refl eq_refl eq_refl eq_refl eq_refl
            eq_refl _).
  repeat split; discriminate.
Defined.


(** * Windows *)

Lemma filter_filter {A} (p q : A -> bool) l :
  filter p (filter q l) = filter (fun x => q x && p x) l.
Proof.
  induction l as [|x l IH]; simpl; [reflexivity|].
  destruct (q x); simpl; [destruct (p x)|]; rewrite IH; reflexivity.
Qed.

Lemma count_filter {A} (p q : A -> bool) l :
  count p (filter q l) = count (fun x => q x && p x) l.
Proof. unfold count; rewrite filter_filter; reflexivity. Qed.

Lemma count_ext {A} (p q : A -> bool) l :
  (forall x, p x = q x) -> count p l = count q l.
Proof. intros H; unfold count; rewrite (filter_ext _ _ H); reflexivity. Qed.

Lemma words_learned_count user start_date end_date language_filter w :
  count (has_status "learned")
    (stats_queryset user start_date end_date language_filter w)
  = count (learned_in_window (languages w) user start_date end_date
             language_filter)
      (words_progress w).
Proof.
  unfold stats_queryset.
  destruct (nonempty language_filter) eqn:N, start_date as [s|];
    rewrite ?count_filter, ?filter_filter, ?count_filter;
    apply count_ext; intros r;
    unfold learned_in_window, in_window, date_learned_gte, date_learned_lte,
      has_status;
    rewrite N;
    destruct (WordsProgress.date_learned r) as [d|];
    cbn [is_some]; btauto.
Qed.

(** * The calendar *)

Section Calendar.
Import PyDate.

Lemma valid_proper d : valid d -> proper d.
Proof. unfold valid, proper; tauto. Qed.

Lemma all_from_spec fuel : forall k p,
  all_from fuel k p = true ->
  forall i, k <= i < k + Z.of_nat fuel -> p i = true.
Proof.
  induction fuel as [|f IH]; intros k p H i Hi; [lia|].
  cbn [all_from] in H; apply andb_true_iff in H; destruct H as [H0 H1].
  destruct (Z.eq_dec i k) as [->|N]; [exact H0|].
  apply (IH (k + 1) p H1); lia.
Qed.

Lemma month_day_checked leap :
  all_from 365 0 (month_day_ok leap) = true.
Proof. destruct leap; vm_compute; reflexivity. Qed.

Lemma month_day_spec leap n :
  0 <= n < 365 ->
  1 <= fst (month_day leap n) <= 12
  /\ 1 <= snd (month_day leap n)
       <= days_in_month_of leap (fst (month_day leap n))
  /\ days_before_month_of leap (fst (month_day leap n))
     + snd (month_day leap n) = n + 1.
Proof.
  intros H.
  pose proof (all_from_spec _ _ _ (month_day_checked leap) n ltac:(lia)) as C.
  unfold month_day_ok in C; cbn zeta in C.
  rewrite !andb_true_iff, !Z.leb_le, Z.eqb_eq in C; lia.
Qed.

Lemma is_leap_true y :
  y mod 4 = 0 -> (y mod 100 <> 0 \/ y mod 400 = 0) -> is_leap y = true.
Proof.
  intros H4 H; unfold is_leap.
  apply andb_true_iff; split; [apply Z.eqb_eq, H4|].
  apply orb_true_iff; destruct H as [H|H];
    [left; apply negb_true_iff, Z.eqb_neq, H|right; apply Z.eqb_eq, H].
Qed.

Lemma is_leap_false y :
  (y mod 4 <> 0 \/ (y mod 100 = 0 /\ y mod 400 <> 0)) -> is_leap y = false.
Proof.
  intros H; unfold is_leap.
  destruct H as [H|[H1 H2]].
  - apply andb_false_iff; left; apply Z.eqb_neq, H.
  - apply andb_false_iff; right. apply orb_false_iff; split.
    + apply negb_false_iff, Z.eqb_eq, H1.
    + apply Z.eqb_neq, H2.
Qed.

(** The split of a day number into years, on a day that is not the last
    of a leap year. *)
Lemma year_split_ordinary n0 :
  0 <= n0 ->
  let n400 := n0 / 146097 in let r1 := n0 mod 146097 in
  let n100 := r1 / 36524 in let r2 := r1 mod 36524 in
  let n4 := r2 / 1461 in let r3 := r2 mod 1461 in
  let n1 := r3 / 365 in let r4 := r3 mod 365 in
  let y := n400 * 400 + 1 + n100 * 100 + n4 * 4 + n1 in
  (n1 =? 4) || (n100 =? 4) = false ->
  1 <= y /\ 0 <= r4 < 365
  /\ days_before_year y + r4 = n0
  /\ is_leap y = (n1 =? 3) && (negb (n4 =? 24) || (n100 =? 3)).
Proof.
  intros H n400 r1 n100 r2 n4 r3 n1 r4 y C.
  apply orb_false_iff in C; destruct C as [C1 C2].
  apply Z.eqb_neq in C1, C2.
  assert (B : 0 <= n400 /\ 0 <= n100 <= 3 /\ 0 <= n4 <= 24 /\ 0 <= n1 <= 3
              /\ 0 <= r4 < 365
              /\ n0 = 146097 * n400 + 36524 * n100 + 1461 * n4 + 365 * n1
                      + r4).
  { subst n400 r1 n100 r2 n4 r3 n1 r4. Z.div_mod_to_equations. lia. }
  destruct B as (B400 & B100 & B4 & B1 & B & E).
  split; [subst y; lia|]. split; [exact B|]. split.
  - unfold days_before_year; cbn zeta.
    replace (y - 1) with (400 * n400 + 100 * n100 + 4 * n4 + n1)
      by (subst y; lia).
    clearbody n400 n100 n4 n1 r4. clear - B400 B100 B4 B1 B E.
    Z.div_mod_to_equations. lia.
  - clearbody n400 n100 n4 n1 r4.
    destruct (Z.eqb_spec n1 3) as [N1|N1]; cbn [andb].
    + destruct (Z.eqb_spec n4 24) as [N4|N4]; cbn [negb orb].
      * destruct (Z.eqb_spec n100 3) as [N100|N100].
        -- apply is_leap_true; subst y; clear - N1 N4 N100;
             Z.div_mod_to_equations; lia.
        -- apply is_leap_false; right; subst y; clear - N1 N4 N100 B100;
             Z.div_mod_to_equations; lia.
      * apply is_leap_true;
          [subst y; clear - N1; Z.div_mod_to_equations; lia|].
        left; subst y; clear - N1 N4 B4 B100; Z.div_mod_to_equations; lia.
    + apply is_leap_false; left; subst y; clear - N1 B1;
        Z.div_mod_to_equations; lia.
Qed.

(** The split on the last day of a leap year. *)
Lemma year_split_last_day n0 :
  0 <= n0 ->
  let n400 := n0 / 146097 in let r1 := n0 mod 146097 in
  let n100 := r1 / 36524 in let r2 := r1 mod 36524 in
  let n4 := r2 / 1461 in let r3 := r2 mod 1461 in
  let n1 := r3 / 365 in
  let y := n400 * 400 + 1 + n100 * 100 + n4 * 4 + n1 in
  (n1 =? 4) || (n100 =? 4) = true ->
  1 <= y - 1 /\ is_leap (y - 1) = true
  /\ days_before_year (y - 1) + 365 = n0.
Proof.
  intros H n400 r1 n100 r2 n4 r3 n1 y C.
  apply orb_true_iff in C.
  assert (B : 0 <= n400
              /\ ((n100 = 4 /\ n4 = 0 /\ n1 = 0
                   /\ n0 = 146097 * n400 + 146096)
                  \/ (0 <= n100 <= 3 /\ 0 <= n4 <= 23 /\ n1 = 4
                      /\ n0 = 146097 * n400 + 36524 * n100 + 1461 * n4
                              + 1460))).
  { destruct C as [C|C]; apply Z.eqb_eq in C;
      subst n400 r1 n100 r2 n4 r3 n1; Z.div_mod_to_equations; lia. }
  destruct B as (B400 & B).
  assert (Y : y - 1 = 400 * n400 + 100 * n100 + 4 * n4 + n1)
    by (subst y; lia).
  rewrite Y; clearbody n400 n100 n4 n1; clear - H B400 B.
  split; [lia|]. split.
  - apply is_leap_true.
    + destruct B as [(-> & -> & -> & _)|(_ & _ & -> & _)];
        Z.div_mod_to_equations; lia.
    + destruct B as [(-> & -> & -> & _)|(B100 & B4 & -> & _)];
        [right|left]; Z.div_mod_to_equations; lia.
  - unfold days_before_year; cbn zeta.
    destruct B as [(-> & -> & -> & ->)|(B100 & B4 & -> & ->)];
      Z.div_mod_to_equations; lia.
Qed.

Lemma fromordinal_spec n :
  1 <= n -> toordinal (fromordinal n) = n /\ proper (fromordinal n).
Proof.
  intros H; unfold fromordinal; cbn zeta.
  assert (H0 : 0 <= n - 1) by lia.
  pose proof (year_split_ordinary (n - 1) H0) as O.
  pose proof (year_split_last_day (n - 1) H0) as L.
  cbn zeta in O, L.
  destruct ((_ =? 4) || (_ =? 4)).
  - destruct (L eq_refl) as (Y & Lp & D).
    unfold toordinal, proper, days_before_month, days_in_month;
      cbn [year month day]; rewrite Lp.
    change (days_before_month_of true 12) with 335.
    change (days_in_month_of true 12) with 31.
    lia.
  - destruct (O eq_refl) as (Y & R & D & Lp).
    set (leapyear := (_ =? 3) && _) in *.
    destruct (month_day_spec leapyear _ R) as (M & Dd & E).
    unfold toordinal, proper, days_before_month, days_in_month;
      cbn [year month day]; rewrite Lp.
    lia.
Qed.

Lemma toordinal_fromordinal n : 1 <= n -> toordinal (fromordinal n) = n.
Proof. intros H; apply fromordinal_spec, H. Qed.

Lemma fromordinal_proper n : 1 <= n -> proper (fromordinal n).
Proof. intros H; apply fromordinal_spec, H. Qed.


Lemma month_cases m :
  1 <= m <= 12 ->
  m = 1 \/ m = 2 \/ m = 3 \/ m = 4 \/ m = 5 \/ m = 6 \/ m = 7 \/ m = 8
  \/ m = 9 \/ m = 10 \/ m = 11 \/ m = 12.
Proof. lia. Qed.

Ltac each_month H :=
  destruct (month_cases _ H) as
    [->|[->|[->|[->|[->|[->|[->|[->|[->|[->|[->| ->]]]]]]]]]]].

Ltac tables :=
  cbn [Z.eqb Z.ltb Z.compare Pos.compare Pos.compare_cont Pos.eqb andb orb];
  repeat match goal with
         | |- context [nth ?i ?l ?d] =>
             let v := eval vm_compute in (nth i l d) in
             change (nth i l d) with v
         end.

Lemma year_length y :
  days_before_year (y + 1) = days_before_year y + 365 + leap_day y.
Proof.
  unfold days_before_year, leap_day, is_leap; cbn zeta.
  replace (y + 1 - 1) with y by lia.
  destruct (Z.eqb_spec (y mod 4) 0), (Z.eqb_spec (y mod 100) 0),
    (Z.eqb_spec (y mod 400) 0); cbn [andb orb negb];
    Z.div_mod_to_equations; lia.
Qed.

Lemma days_before_year_monotone y1 y2 :
  y1 <= y2 -> days_before_year y1 <= days_before_year y2.
Proof.
  unfold days_before_year; cbn zeta; intros H.
  Z.div_mod_to_equations; lia.
Qed.

Lemma leap_day_range y : 0 <= leap_day y <= 1.
Proof. unfold leap_day; destruct (is_leap y); lia. Qed.

Lemma day_of_year_range d :
  1 <= month d <= 12 -> 1 <= day d <= days_in_month (year d) (month d) ->
  1 <= days_before_month (year d) (month d) + day d
    <= 365 + leap_day (year d).
Proof.
  destruct d as [y m dd]; cbn [year month day]; intros Hm.
  unfold days_in_month, days_before_month, days_in_month_of,
    days_before_month_of, leap_day.
  each_month Hm; destruct (is_leap y); tables; lia.
Qed.

Lemma month_order y m1 m2 d1 d2 :
  1 <= m1 -> m1 < m2 -> m2 <= 12 ->
  d1 <= days_in_month y m1 -> 1 <= d2 ->
  days_before_month y m1 + d1 < days_before_month y m2 + d2.
Proof.
  intros H1 H12 H2.
  assert (Hm1 : 1 <= m1 <= 12) by lia.
  assert (Hm2 : 1 <= m2 <= 12) by lia.
  unfold days_in_month, days_before_month, days_in_month_of,
    days_before_month_of.
  each_month Hm1; each_month Hm2; try lia; destruct (is_leap y); tables; lia.
Qed.

Lemma toordinal_year_order a b :
  proper a -> proper b -> year a < year b -> toordinal a < toordinal b.
Proof.
  intros (Ya & Ma & Da) (Yb & Mb & Db) H; unfold toordinal.
  pose proof (day_of_year_range a Ma Da).
  pose proof (day_of_year_range b Mb Db).
  pose proof (year_length (year a)).
  pose proof (days_before_year_monotone (year a + 1) (year b) ltac:(lia)).
  lia.
Qed.

Lemma toordinal_order a b :
  proper a -> proper b -> leb a b = (toordinal a <=? toordinal b).
Proof.
  intros Pa Pb; unfold leb.
  destruct (Z.ltb_spec (year a) (year b)) as [Y|Y]; cbn [orb].
  { pose proof (toordinal_year_order a b Pa Pb Y).
    symmetry; apply Z.leb_le; lia. }
  destruct (Z.eqb_spec (year a) (year b)) as [E|N]; cbn [andb].
  2:{ pose proof (toordinal_year_order b a Pb Pa ltac:(lia)).
      symmetry; apply Z.leb_gt; lia. }
  destruct Pa as (Ya & Ma & Da), Pb as (Yb & Mb & Db).
  unfold toordinal; rewrite E in *.
  destruct (Z.ltb_spec (month a) (month b)) as [M|M]; cbn [orb].
  { pose proof (month_order (year b) (month a) (month b) (day a) (day b)
                  ltac:(lia) M ltac:(lia) ltac:(lia) ltac:(lia)).
    symmetry; apply Z.leb_le; lia. }
  destruct (Z.eqb_spec (month a) (month b)) as [E'|N']; cbn [andb].
  2:{ pose proof (month_order (year b) (month b) (month a) (day b) (day a)
                    ltac:(lia) ltac:(lia) ltac:(lia) ltac:(lia) ltac:(lia)).
      symmetry; apply Z.leb_gt; lia. }
  rewrite E'.
  destruct (Z.leb_spec (day a) (day b)); symmetry;
    [apply Z.leb_le|apply Z.leb_gt]; lia.
Qed.


Lemma days_before_year_nonneg y : 1 <= y -> 0 <= days_before_year y.
Proof.
  intros H; change 0 with (days_before_year 1).
  apply days_before_year_monotone, H.
Qed.

Lemma toordinal_range d : valid d -> 1 <= toordinal d <= MAXORDINAL.
Proof.
  intros (Y & M & D); unfold toordinal.
  pose proof (day_of_year_range d M D).
  pose proof (days_before_year_nonneg (year d) ltac:(lia)).
  pose proof (year_length (year d)).
  pose proof (days_before_year_monotone (year d + 1) 10000 ltac:(lia)) as X.
  change (days_before_year 10000) with MAXORDINAL in X.
  lia.
Qed.

Lemma weekday_range d : 0 <= weekday d <= 6.
Proof.
  unfold weekday; pose proof (Z.mod_pos_bound (toordinal d + 6) 7); lia.
Qed.

Lemma sub_days_some d n x :
  sub_days d n = Some x ->
  x = fromordinal (toordinal d - n) /\ 1 <= toordinal d - n
  /\ proper x /\ toordinal x = toordinal d - n.
Proof.
  unfold sub_days; cbn zeta.
  destruct (Z.leb_spec 1 (toordinal d - n)); cbn [andb]; [|discriminate].
  destruct (_ <=? MAXORDINAL); [|discriminate].
  intros [= <-].
  split; [reflexivity|]. split; [assumption|].
  split; [apply fromordinal_proper|apply toordinal_fromordinal]; assumption.
Qed.

Lemma week_start today :
  valid today ->
  exists monday,
    sub_days today (weekday today) = Some monday
    /\ weekday monday = 0
    /\ proper monday
    /\ toordinal monday = toordinal today - weekday today.
Proof.
  intros V; pose proof (toordinal_range today V) as R.
  pose proof (weekday_range today) as W.
  assert (L : 1 <= toordinal today - weekday today).
  { unfold weekday in *; Z.div_mod_to_equations; lia. }
  exists (fromordinal (toordinal today - weekday today)).
  split.
  - unfold sub_days; cbn zeta.
    replace (1 <=? _) with true by (symmetry; apply Z.leb_le; lia).
    replace (_ <=? MAXORDINAL) with true by (symmetry; apply Z.leb_le; lia).
    reflexivity.
  - split; [|split; [apply fromordinal_proper, L
                    |apply toordinal_fromordinal, L]].
    unfold weekday at 1; rewrite toordinal_fromordinal by exact L.
    unfold weekday; Z.div_mod_to_equations; lia.
Qed.

Lemma days_in_month_range y m : 1 <= m <= 12 -> 28 <= days_in_month y m <= 31.
Proof.
  intros H; unfold days_in_month, days_in_month_of.
  each_month H; destruct (is_leap y); tables; lia.
Qed.

Lemma first_of_month today :
  proper today ->
  proper (replace_day today 1)
  /\ toordinal (replace_day today 1) = toordinal today - (day today - 1).
Proof.
  intros (Y & M & D); unfold proper, replace_day, toordinal;
    cbn [year month day].
  pose proof (days_in_month_range (year today) (month today) M).
  repeat split; lia.
Qed.

Lemma first_of_year today :
  proper today ->
  proper (replace_month_day today 1 1)
  /\ toordinal (replace_month_day today 1 1) <= toordinal today.
Proof.
  intros (Y & M & D); unfold proper, replace_month_day, toordinal;
    cbn [year month day].
  pose proof (day_of_year_range today M D).
  pose proof (days_in_month_range (year today) 1 ltac:(lia)).
  assert (E : days_before_month (year today) 1 = 0) by reflexivity.
  rewrite E; repeat split; lia.
Qed.

Lemma leb_refl d : leb d d = true.
Proof.
  unfold leb; rewrite !Z.eqb_refl, Z.leb_refl; cbn.
  rewrite !orb_true_r; reflexivity.
Qed.

End Calendar.

(** * The statistics view *)

Lemma stats_response_counts today user period language_filter start_date
  end_date w :
  date_range today period w = (Ok (Some (start_date, end_date)), w) ->
  exists body,
    stats_response no_fault today user period language_filter w
    = (Ok (Stats_200 body), w)
    /\ Stats.period body = period
    /\ Stats.start_date body = start_date
    /\ Stats.end_date body = end_date
    /\ Stats.words_learned body
       = count (learned_in_window (languages w) user start_date end_date
                  language_filter)
           (words_progress w).
Proof.
  intros H; unfold stats_response, try_except, bind; rewrite H.
  unfold orm, no_fault; cbn zeta.
  eexists; split; [reflexivity|]; cbn [Stats.period Stats.start_date
    Stats.end_date Stats.words_learned].
  repeat split; apply words_learned_count.
Qed.

Lemma date_range_periods today period w :
  PyDate.valid today -> In period PERIODS ->
  exists start_date,
    date_range today period w = (Ok (Some (start_date, today)), w).
Proof.
  intros V [<-|[<-|[<-|[<-|[<-|[]]]]]]; unfold date_range; cbn;
    try (eexists; reflexivity).
  destruct (week_start today V) as (monday & -> & _); eexists; reflexivity.
Qed.

Lemma date_range_unsupported today period w :
  ~ In period PERIODS -> date_range today period w = (Ok None, w).
Proof.
  intros N; unfold date_range.
  destruct (String.eqb_spec period "today") as [->|_];
    [exfalso; apply N; simpl; tauto|].
  destruct (String.eqb_spec period "week") as [->|_];
    [exfalso; apply N; simpl; tauto|].
  destruct (String.eqb_spec period "month") as [->|_];
    [exfalso; apply N; simpl; tauto|].
  destruct (String.eqb_spec period "year") as [->|_];
    [exfalso; apply N; simpl; tauto|].
  destruct (String.eqb_spec period "all") as [->|_];
    [exfalso; apply N; simpl; tauto|].
  reflexivity.
Qed.

Lemma stats_response_unsupported fault today user period language_filter w :
  ~ In period PERIODS ->
  stats_response fault today user period language_filter w
  = (Ok (Stats_400 INVALID_PERIOD), w).
Proof.
  intros N; unfold stats_response, try_except, bind.
  rewrite (date_range_unsupported today period w N); reflexivity.
Qed.

(** * The scenario of three learned words *)

Lemma count_three {A} (p : A -> bool) a b c :
  count p [a; b; c] = b2z (p a) + b2z (p b) + b2z (p c).
Proof.
  unfold count; cbn [filter].
  destruct (p a), (p b), (p c); reflexivity.
Qed.

Lemma learned_in_window_scenario today user w start_date :
  three_learned_words today user w ->
  exists d3 d40,
    PyDate.sub_days today 3 = Some d3
    /\ PyDate.sub_days today 40 = Some d40
    /\ count (learned_in_window (languages w) user start_date today None)
         (words_progress w)
       = b2z (in_window start_date today today)
         + b2z (in_window start_date today d3)
         + b2z (in_window start_date today d40).
Proof.
  intros (r0 & r3 & r40 & F & D0 & D3 & D40 & N3 & N40 & S0 & S3 & S40).
  destruct (PyDate.sub_days today 3) as [d3|] eqn:E3; [|congruence].
  destruct (PyDate.sub_days today 40) as [d40|] eqn:E40; [|congruence].
  exists d3, d40; split; [reflexivity|]; split; [reflexivity|].
  rewrite (count_ext _
             (fun r => (WordsProgress.user r =? user)%positive
                       && (match WordsProgress.date_learned r with
                           | Some d => in_window start_date today d
                           | None => false
                           end
                           && String.eqb (WordsProgress.status r) "learned")))
    by (intros r; unfold learned_in_window; cbn [nonempty]; btauto).
  rewrite <- count_filter, F, count_three.
  rewrite D0, D3, D40, S0, S3, S40; cbn [String.eqb Ascii.eqb Bool.eqb].
  rewrite !andb_true_r; reflexivity.
Qed.

Section Scenario.
Import PyDate.

Variable today : date.
Variable d3 d40 : date.
Hypothesis Hvalid : valid today.
Hypothesis H3 : sub_days today 3 = Some d3.
Hypothesis H40 : sub_days today 40 = Some d40.

Let Ptoday : proper today := valid_proper today Hvalid.

Ltac ordinals :=
  unfold in_window;
  rewrite ?toordinal_order by
      (first [exact Ptoday | apply (sub_days_some _ _ _ H3)
             | apply (sub_days_some _ _ _ H40) | assumption]);
  rewrite ?(proj2 (proj2 (proj2 (sub_days_some _ _ _ H3)))),
    ?(proj2 (proj2 (proj2 (sub_days_some _ _ _ H40))));
  repeat match goal with
         | |- context [?a <=? ?b] => destruct (Z.leb_spec a b)
         end;
  cbn [andb b2z Z.add]; try reflexivity; try lia.

Lemma scenario_today :
  b2z (in_window (Some today) today today)
  + b2z (in_window (Some today) today d3)
  + b2z (in_window (Some today) today d40) = 1.
Proof. ordinals. Qed.

Lemma scenario_all :
  b2z (in_window None today today) + b2z (in_window None today d3)
  + b2z (in_window None today d40) = 3.
Proof. ordinals. Qed.

Lemma scenario_week monday :
  proper monday -> toordinal monday = toordinal today - weekday today ->
  b2z (in_window (Some monday) today today)
  + b2z (in_window (Some monday) today d3)
  + b2z (in_window (Some monday) today d40)
  = if 3 <=? weekday today then 2 else 1.
Proof.
  intros P E; pose proof (weekday_range today).
  unfold in_window.
  rewrite !(toordinal_order monday) by
      (first [exact P | exact Ptoday | apply (sub_days_some _ _ _ H3)
             | apply (sub_days_some _ _ _ H40)]).
  rewrite E; ordinals.
Qed.

Lemma scenario_month :
  b2z (in_window (Some (replace_day today 1)) today today)
  + b2z (in_window (Some (replace_day today 1)) today d3)
  + b2z (in_window (Some (replace_day today 1)) today d40)
  = if 4 <=? day today then 2 else 1.
Proof.
  destruct (first_of_month today Ptoday) as [P E].
  destruct Ptoday as (_ & M & D).
  pose proof (days_in_month_range (year today) (month today) M).
  unfold in_window.
  rewrite !(toordinal_order (replace_day today 1)) by
      (first [exact P | exact Ptoday | apply (sub_days_some _ _ _ H3)
             | apply (sub_days_some _ _ _ H40)]).
  rewrite E; ordinals.
Qed.

End Scenario.


(** C6, counterexample.  On Thursday 2025-05-01 the three words were
    learned today, on Monday 04-28 and on 03-22: the week holds two of
    them, the month only one. *)
Lemma month_window_can_hold_one_word :
  three_learned_words Scenario.today 7 Scenario.world
  /\ PyDate.weekday Scenario.today = 3
  /\ words_learned_of
       (stats_response no_fault Scenario.today 7 "week" None Scenario.world)
     = Some 2
  /\ words_learned_of
       (stats_response no_fault Scenario.today 7 "month" None Scenario.world)
     = Some 1.
Proof.
  split; [|repeat split].
  do 3 eexists; split; [reflexivity|].
  repeat split; discriminate.
Qed.

(** C6, amended.  For a valid [today]: the windows of the five
    periods are [today .. today], [Monday of the week .. today], [first
    of the month .. today], [January 1 .. today] and [.. today]; for a
    period that is one of the five once lowercased, [words_learned] is
    the number of rows of the user dated within the window, of status
    ['learned'] (and of the language asked for); any other period is
    answered with 400 whatever queries would fail, the state untouched;
    and of three words learned today, three and forty days ago, the
    periods today, week, month and all count 1, 2 from Thursday on
    (else 1), 2 from the 4th of the month on (else 1), and 3. *)
Theorem words_learned_by_period (today : PyDate.date) (user : positive)
  (w : World) (Hvalid : PyDate.valid today) :
  (date_range today "today" w = (Ok (Some (Some today, today)), w)
   /\ (exists monday,
         date_range today "week" w = (Ok (Some (Some monday, today)), w)
         /\ PyDate.weekday monday = 0
         /\ PyDate.toordinal monday
            = PyDate.toordinal today - PyDate.weekday today
         /\ 0 <= PyDate.weekday today <= 6)
   /\ date_range today "month" w
      = (Ok (Some (Some (PyDate.mkdate (PyDate.year today)
                           (PyDate.month today) 1), today)), w)
   /\ date_range today "year" w
      = (Ok (Some (Some (PyDate.mkdate (PyDate.year today) 1 1), today)), w)
   /\ date_range today "all" w = (Ok (Some (None, today)), w))
  /\ (forall lower period_param language_filter,
        let period := lower (override period_param "today") in
        In period PERIODS ->
        exists start_date body,
          date_range today period w = (Ok (Some (start_date, today)), w)
          /\ WordsLearnedStatsView_get no_fault today lower user period_param
               language_filter w
             = (Ok (Stats_200 body), w)
          /\ Stats.start_date body = start_date
          /\ Stats.end_date body = today
          /\ Stats.words_learned body
             = count (learned_in_window (languages w) user start_date today
                        language_filter)
                 (words_progress w))
  /\ (forall fault lower period_param language_filter,
        ~ In (lower (override period_param "today")) PERIODS ->
        WordsLearnedStatsView_get fault today lower user period_param
          language_filter w
        = (Ok (Stats_400 INVALID_PERIOD), w))
  /\ (three_learned_words today user w ->
      let learned period :=
        words_learned_of (stats_response no_fault today user period None w) in
      learned "today" = Some 1
      /\ learned "week" = Some (if 3 <=? PyDate.weekday today then 2 else 1)
      /\ learned "month" = Some (if 4 <=? PyDate.day today then 2 else 1)
      /\ learned "all" = Some 3).
Proof.
  destruct (week_start today Hvalid) as (monday & Wk & W0 & Pm & Om).
  assert (Rw : date_range today "week" w
               = (Ok (Some (Some monday, today)), w))
    by (unfold date_range; cbn; rewrite Wk; reflexivity).
  split; [|split; [|split]].
  - split; [reflexivity|]. split.
    + exists monday; repeat split; auto; apply weekday_range.
    + repeat split.
  - intros lower period_param language_filter period I.
    destruct (date_range_periods today period w Hvalid I) as (start_date & R).
    destruct (stats_response_counts today user period language_filter _ _ w R)
      as (body & E & _ & S & En & C).
    exists start_date, body; auto.
  - intros fault lower period_param language_filter N.
    apply stats_response_unsupported, N.
  - intros Sc; cbn zeta.
    assert (L : forall period start_date,
               date_range today period w
               = (Ok (Some (start_date, today)), w) ->
               exists d3 d40,
                 PyDate.sub_days today 3 = Some d3
                 /\ PyDate.sub_days today 40 = Some d40
                 /\ words_learned_of
                      (stats_response no_fault today user period None w)
                    = Some (b2z (in_window start_date today today)
                            + b2z (in_window start_date today d3)
                            + b2z (in_window start_date today d40))).
    { intros period start_date R.
      destruct (learned_in_window_scenario today user w start_date Sc)
        as (d3 & d40 & E3 & E40 & C).
      destruct (stats_response_counts today user period None _ _ w R)
        as (body & E & _ & _ & _ & Cb).
      exists d3, d40; split; [exact E3|]; split; [exact E40|].
      unfold words_learned_of; rewrite E; cbn [fst]; congruence. }
    split; [|split; [|split]].
    + destruct (L "today" (Some today) eq_refl) as (d3 & d40 & E3 & E40 & ->).
      f_equal; apply scenario_today; assumption.
    + destruct (L "week" (Some monday) Rw) as (d3 & d40 & E3 & E40 & ->).
      f_equal; apply scenario_week; assumption.
    + destruct (L "month" (Some (PyDate.replace_day today 1)) eq_refl)
        as (d3 & d40 & E3 & E40 & ->).
      f_equal; apply scenario_month; assumption.
    + destruct (L "all" None eq_refl) as (d3 & d40 & E3 & E40 & ->).
      f_equal; apply scenario_all with (d3 := d3) (d40 := d40); assumption.
Qed.

Lemma words_learned_by_period_witness :
  PyDate.valid Scenario.today
  /\ words_learned_of
       (stats_response no_fault Scenario.today 7 "month" None Scenario.world)
     = Some (if 4 <=? PyDate.day Scenario.today then 2 else 1).
Proof.
  assert (V : PyDate.valid Scenario.today) by (cbv; intuition discriminate).
  split; [exact V|].
  refine (proj1 (proj2 (proj2 (proj2 (proj2 (proj2
    (words_learned_by_period Scenario.today 7 Scenario.world V))) _)))).
  do 3 eexists; split; [reflexivity|].
  repeat split; discriminate.
Defined.

(** * The recalculation, run again *)

Lemma update_language_progress_no_fault u l w :
  exists r,
    (find (lp_matches u l) (language_progress w) = Some r
     \/ (find (lp_matches u l) (language_progress w) = None
         /\ r = LanguageProgress.mk
                  (next_pk (map LanguageProgress.id (language_progress w)))
                  u l "A1" PyFloat.zero 0))
    /\ update_language_progress no_fault u l w
       = (Ok tt,
          set_language_progress w
            (map (lp_update_stats (LanguageProgress.id r)
                    (learned_percentage_of (learned_mastered_count w u l)
                       (total_available_words w u l))
                    (learned_mastered_count w u l))
               (match find (lp_matches u l) (language_progress w) with
                | Some _ => language_progress w
                | None => (language_progress w ++ [r])%list
                end))).
Proof.
  unfold update_language_progress, try_except, bind,
    LanguageProgress_get_or_create, Word_filter_count,
    WordsProgress_filter_count, LanguageProgress_save_stats,
    mark_for_rollback_on_error, orm, no_fault,
    total_available_words, learned_mastered_count, current_level,
    eligible_tiers.
  destruct (find (lp_matches u l) (language_progress w)) as [r|] eqn:F.
  - exists r; split; [left; reflexivity|reflexivity].
  - eexists; split; [right; split; reflexivity|reflexivity].
Qed.

Lemma map_lp_update_stats_twice pk p c rows :
  map (lp_update_stats pk p c) (map (lp_update_stats pk p c) rows)
  = map (lp_update_stats pk p c) rows.
Proof.
  rewrite map_map; apply map_ext; intros r; unfold lp_update_stats.
  destruct (LanguageProgress.id r =? pk)%positive eqn:E;
    cbn [LanguageProgress.id]; rewrite E; reflexivity.
Qed.

Lemma lp_update_stats_id pk p c r :
  LanguageProgress.id (lp_update_stats pk p c r) = LanguageProgress.id r.
Proof. unfold lp_update_stats; destruct (_ =? _)%positive; reflexivity. Qed.

Lemma lp_update_stats_level pk p c r :
  LanguageProgress.level (lp_update_stats pk p c r) = LanguageProgress.level r.
Proof. unfold lp_update_stats; destruct (_ =? _)%positive; reflexivity. Qed.

(** A second recalculation stores what the first has stored: in the
    columns that are kept, the rows after it are those before it.  With
    primary keys that are unique, a run changes the row of its pair
    alone. *)
Lemma recalculation_twice u l w :
  let w1 := snd (update_language_progress no_fault u l w) in
  update_language_progress no_fault u l w1 = (Ok tt, w1).
Proof.
  cbn zeta.
  destruct (update_language_progress_no_fault u l w) as (r & Hr & E).
  rewrite E; cbn [snd].
  set (p := learned_percentage_of _ _) in *.
  set (c := learned_mastered_count w u l) in *.
  set (rows := match find (lp_matches u l) (language_progress w) with
               | Some _ => language_progress w
               | None => (language_progress w ++ [r])%list
               end) in *.
  set (w1 := set_language_progress w _).
  assert (F : find (lp_matches u l) rows = Some r).
  { unfold rows; destruct Hr as [F|[F ->]]; rewrite F; [exact F|].
    apply find_app_none; [exact F|apply lp_matches_new]. }
  assert (F1 : find (lp_matches u l) (language_progress w1)
               = Some (lp_update_stats (LanguageProgress.id r) p c r)).
  { unfold w1; cbn [language_progress set_language_progress].
    rewrite find_map_preserved by (intros; apply lp_matches_update_stats).
    rewrite F; reflexivity. }
  destruct (update_language_progress_no_fault u l w1) as (r1 & Hr1 & E1).
  rewrite E1; f_equal.
  destruct Hr1 as [G|[G _]]; [|congruence].
  rewrite F1 in G; injection G as <-.
  rewrite F1.
  assert (L : current_level w1 u l = current_level w u l).
  { unfold current_level; rewrite F1, lp_update_stats_level.
    destruct Hr as [G| [G ->]]; rewrite G; reflexivity. }
  assert (C : learned_mastered_count w1 u l = c) by reflexivity.
  assert (T : total_available_words w1 u l = total_available_words w u l).
  { unfold total_available_words; rewrite L; reflexivity. }
  rewrite C, T, lp_update_stats_id; fold p.
  unfold w1; cbn [language_progress set_language_progress].
  rewrite map_lp_update_stats_twice; reflexivity.
Qed.

Lemma NoDup_map_injective {A B} (f : A -> B) l a b :
  NoDup (map f l) -> In a l -> In b l -> f a = f b -> a = b.
Proof.
  induction l as [|x l IH]; simpl; [tauto|].
  intros N; inversion N as [|y ys Nx Nl]; subst.
  intros [->|Ia] [->|Ib] E; auto.
  - exfalso; apply Nx; rewrite E; apply in_map, Ib.
  - exfalso; apply Nx; rewrite <- E; apply in_map, Ia.
Qed.

(** X1.  [update_language_progress], run without a failing query: a
    second run right after the first returns normally and leaves the
    row of the pair with the key, the [learned_words], the
    [learned_words_count] and the level that the first run left; when
    the primary keys of [LanguageProgress] are unique, a run leaves
    every row of another user or language as it was, adds no such row,
    keeps the level of the row of its pair, leaves the catalog and the
    [WordsProgress] table untouched and logs no error.  Nothing is
    said of [updated_at], which every run rewrites. *)
Theorem recalculation_idempotent_and_local (user language : positive)
  (w : World)
  (Hpk : NoDup (map LanguageProgress.id (language_progress w))) :
  let w1 := snd (update_language_progress no_fault user language w) in
  let w2 := snd (update_language_progress no_fault user language w1) in
  fst (update_language_progress no_fault user language w1) = Ok tt
  /\ (exists r1 r2,
        find (lp_matches user language) (language_progress w1) = Some r1
        /\ find (lp_matches user language) (language_progress w2) = Some r2
        /\ LanguageProgress.id r2 = LanguageProgress.id r1
        /\ LanguageProgress.learned_words r2
           = LanguageProgress.learned_words r1
        /\ LanguageProgress.learned_words_count r2
           = LanguageProgress.learned_words_count r1
        /\ LanguageProgress.level r2 = LanguageProgress.level r1)
  /\ (forall r, lp_matches user language r = false ->
        (In r (language_progress w1) <-> In r (language_progress w)))
  /\ current_level w1 user language = current_level w user language
  /\ languages w1 = languages w /\ words w1 = words w
  /\ words_progress w1 = words_progress w /\ error_log w1 = error_log w.
Proof.
  cbn zeta; split; [rewrite recalculation_twice; reflexivity|].
  split.
  { destruct (recalculated_row user language w) as (r1 & F1 & _).
    exists r1, r1; rewrite recalculation_twice; cbn [snd].
    repeat split; auto. }
  destruct (update_language_progress_no_fault user language w)
    as (r & Hr & E).
  rewrite E; cbn [snd].
  set (p := learned_percentage_of _ _) in *.
  set (c := learned_mastered_count w user language) in *.
  assert (M : lp_matches user language r = true).
  { destruct Hr as [F|[_ ->]];
      [eapply find_some_holds; eassumption|apply lp_matches_new]. }
  assert (U : forall o, In o (language_progress w) ->
                        LanguageProgress.id o = LanguageProgress.id r ->
                        o = r).
  { intros o Io Eo; destruct Hr as [F|[_ ->]].
    - apply find_some in F; destruct F as [Ir _].
      eapply NoDup_map_injective; eassumption.
    - exfalso; cbn [LanguageProgress.id] in Eo.
      apply (next_pk_fresh (map LanguageProgress.id (language_progress w))).
      rewrite <- Eo; apply in_map, Io. }
  split; [|split; [|repeat split]].
  - intros x Nx; cbn [language_progress set_language_progress].
    rewrite in_map_iff; split.
    + intros (o & <- & Io).
      assert (Io' : In o (language_progress w) \/ o = r).
      { destruct Hr as [F|[F _]]; rewrite F in Io; [auto|].
        apply in_app_or in Io; destruct Io as [|[<-|[]]]; auto. }
      rewrite lp_matches_update_stats in Nx.
      unfold lp_update_stats.
      destruct (LanguageProgress.id o =? LanguageProgress.id r)%positive
        eqn:Eo.
      * apply Pos.eqb_eq in Eo.
        destruct Io' as [Io'| ->]; [|congruence].
        rewrite (U o Io' Eo) in Nx; congruence.
      * destruct Io' as [Io'| ->]; [exact Io'|congruence].
    + intros Ix; exists x; split.
      * unfold lp_update_stats.
        destruct (LanguageProgress.id x =? LanguageProgress.id r)%positive
          eqn:Ex; [|reflexivity].
        apply Pos.eqb_eq in Ex; rewrite (U x Ix Ex) in Nx; congruence.
      * destruct Hr as [F|[F _]]; rewrite F; [exact Ix|].
        apply in_or_app; left; exact Ix.
  - unfold current_level; cbn [language_progress set_language_progress].
    rewrite find_map_preserved by (intros; apply lp_matches_update_stats).
    destruct Hr as [F|[F ->]]; rewrite F.
    + rewrite F; cbn [option_map]; apply lp_update_stats_level.
    + rewrite (find_app_none _ _ _ F (lp_matches_new _ _ _ _ _ _)).
      cbn [option_map]; rewrite lp_update_stats_level; reflexivity.
Qed.

(** X1, on an example.  The learner of two words: the second run
    leaves the percentage and the count of the first. *)
Lemma recalculation_idempotent_and_local_witness :
  NoDup (map LanguageProgress.id (language_progress Persons.two_learned))
  /\ exists r1 r2,
       find (lp_matches 7 1)
         (language_progress
            (snd (update_language_progress no_fault 7 1 Persons.two_learned)))
       = Some r1
       /\ find (lp_matches 7 1)
            (language_progress
               (snd (update_language_progress no_fault 7 1
                       (snd (update_language_progress no_fault 7 1
                               Persons.two_learned)))))
          = Some r2
       /\ LanguageProgress.learned_words r2
          = LanguageProgress.learned_words r1
       /\ LanguageProgress.learned_words_count r2
          = LanguageProgress.learned_words_count r1.
Proof.
  assert (H : NoDup (map LanguageProgress.id
                       (language_progress Persons.two_learned)))
    by constructor.
  split; [exact H|].
  destruct (proj1 (proj2 (recalculation_idempotent_and_local 7 1
                            Persons.two_learned H)))
    as (r1 & r2 & F1 & F2 & _ & A & B & _).
  exists r1, r2; auto.
Defined.

(** * What a save does to the table *)

(** The table after the write of [row] under the key [pk]. *)
Lemma WordsProgress_write_rows fault inst w row created w' :
  WordsProgress_write fault inst w = (Ok (row, created), w') ->
  exists pk,
    row = with_pk inst pk
    /\ (forall k, WordsProgress.pk inst = Some k -> pk = k)
    /\ (WordsProgress.pk inst = None -> pk = next_pk (pks (words_progress w)))
    /\ positive_fields_ok row = true
    /\ unique_together_ok pk row (words_progress w) = true
    /\ created = negb (existsb (has_pk pk) (words_progress w))
    /\ words_progress w'
       = (if existsb (has_pk pk) (words_progress w)
          then map (replace_row pk row) (words_progress w)
          else words_progress w ++ [row])%list
    /\ languages w' = languages w /\ words w' = words w
    /\ language_progress w' = language_progress w.
Proof.
  unfold WordsProgress_write, mark_for_rollback_on_error, orm.
  destruct (fault Q_WordsProgress_save); [discriminate|].
  set (pk := match WordsProgress.pk inst with
             | Some k => k
             | None => next_pk (pks (words_progress w))
             end).
  destruct (positive_fields_ok (with_pk inst pk)) eqn:P; cbn [negb];
    [|discriminate].
  destruct (unique_together_ok pk (with_pk inst pk) (words_progress w))
    eqn:U; cbn [negb]; [|discriminate].
  destruct (existsb (has_pk pk) (words_progress w)) eqn:X;
    intros [= <- <- <-]; exists pk; rewrite ?X;
    (repeat split; auto; unfold pk;
     [intros k ->; reflexivity|intros ->; reflexivity]).
Qed.

Lemma WordsProgress_save_rows fault today instance w row w' :
  WordsProgress_save fault today instance w = (Ok row, w') ->
  exists pk d,
    row = with_pk (with_date_learned instance d) pk
    /\ (fault Q_WordsProgress_get = None -> d = Some today)
    /\ (forall k, WordsProgress.pk instance = Some k -> pk = k)
    /\ (WordsProgress.pk instance = None ->
        pk = next_pk (pks (words_progress w)))
    /\ positive_fields_ok row = true
    /\ unique_together_ok pk row (words_progress w) = true
    /\ words_progress w'
       = (if existsb (has_pk pk) (words_progress w)
          then map (replace_row pk row) (words_progress w)
          else words_progress w ++ [row])%list
    /\ languages w' = languages w /\ words w' = words w.
Proof.
  unfold WordsProgress_save, bind.
  destruct (set_date_learned_contained fault today instance w)
    as (d & w1 & E1 & (L1 & W1 & T1) & Dd).
  rewrite E1.
  destruct (WordsProgress_write fault (with_date_learned instance d) w1)
    as [[[r created]|e] w2] eqn:E2; [|discriminate].
  destruct (WordsProgress_write_rows _ _ _ _ _ _ E2)
    as (pk & -> & K & N & P & U & _ & T2 & L2 & W2 & _).
  cbn [fst snd].
  destruct (words_progress_updated_contained fault
              (with_pk (with_date_learned instance d) pk) created w2)
    as (wa & Ea & La & Wa & Sa).
  rewrite Ea.
  destruct (log_word_milestone_contained fault
              (with_pk (with_date_learned instance d) pk) created wa)
    as (wb & Eb & Lb & Wb & Sb).
  rewrite Eb; unfold ret; intros [= <- <-].
  exists pk, d; rewrite T1 in *.
  repeat split; auto; congruence.
Qed.

Lemma set_date_learned_no_fault today instance w :
  set_date_learned no_fault today instance w
  = (Ok (with_date_learned instance (Some today)), w).
Proof.
  unfold set_date_learned, try_except, bind, WordsProgress_get, orm,
    no_fault, ret, raise.
  destruct (WordsProgress.pk instance) as [k|]; [|reflexivity].
  destruct (find (has_pk k) (words_progress w)); reflexivity.
Qed.

(** A save that meets the constraints of the table succeeds. *)
Lemma WordsProgress_save_succeeds today instance w :
  let pk := match WordsProgress.pk instance with
            | Some k => k
            | None => next_pk (pks (words_progress w))
            end in
  let row := with_pk (with_date_learned instance (Some today)) pk in
  positive_fields_ok instance = true ->
  unique_together_ok pk row (words_progress w) = true ->
  exists w',
    WordsProgress_save no_fault today instance w = (Ok row, w')
    /\ words_progress w'
       = (if existsb (has_pk pk) (words_progress w)
          then map (replace_row pk row) (words_progress w)
          else words_progress w ++ [row])%list
    /\ languages w' = languages w /\ words w' = words w.
Proof.
  cbn zeta; intros P U.
  set (pk := match WordsProgress.pk instance with
             | Some k => k
             | None => next_pk (pks (words_progress w))
             end) in *.
  set (row := with_pk (with_date_learned instance (Some today)) pk) in *.
  assert (E2 : exists created w2,
             WordsProgress_write no_fault
               (with_date_learned instance (Some today)) w
             = (Ok (row, created), w2)
             /\ words_progress w2
                = (if existsb (has_pk pk) (words_progress w)
                   then map (replace_row pk row) (words_progress w)
                   else words_progress w ++ [row])%list
             /\ languages w2 = languages w /\ words w2 = words w).
  { unfold WordsProgress_write, mark_for_rollback_on_error, orm, no_fault.
    cbn [WordsProgress.pk with_date_learned]; fold pk; fold row.
    replace (positive_fields_ok row) with true by (symmetry; exact P).
    cbn [negb]; rewrite U; cbn [negb].
    destruct (existsb (has_pk pk) (words_progress w));
      do 2 eexists; (split; [reflexivity|]); cbn; auto. }
  destruct E2 as (created & w2 & E2 & T2 & L2 & W2).
  unfold WordsProgress_save, bind.
  rewrite set_date_learned_no_fault, E2; cbn [fst snd].
  destruct (words_progress_updated_contained no_fault row created w2)
    as (wa & -> & La & Wa & Sa).
  destruct (log_word_milestone_contained no_fault row created wa)
    as (wb & -> & Lb & Wb & Sb).
  unfold ret; exists wb; split; [reflexivity|].
  repeat split; congruence.
Qed.

(** * Deleting a row *)

Lemma delete_word_text_readonly fault user pk w :
  exists a, delete_word_text fault user pk w = (Ok a, w).
Proof.
  unfold delete_word_text, try_except, bind, ret.
  destruct (get_object_cases fault user pk w) as [(e & ->)|(r & -> & _)];
    [eauto|].
  unfold related_word, orm.
  destruct (fault Q_catalog); [eauto|].
  destruct (find _ (words w)) as [x|]; [|eauto].
  rewrite Word_getattr_text; eauto.
Qed.

Lemma words_progress_deleted_contained fault instance w :
  exists w',
    words_progress_deleted fault instance w = (Ok tt, w')
    /\ same_rows w w'.
Proof.
  unfold words_progress_deleted, try_except.
  destruct (update_language_progress_contained fault
              (WordsProgress.user instance)
              (WordsProgress.target_language instance) w)
    as (w' & E & S & _).
  rewrite E; eauto.
Qed.

(** A deletion raises at the lookup; or the block of the deletion is
    committed; or the recalculation of the receiver failed at its own
    save, the block is rolled back, and the view answers all the
    same. *)
Lemma delete_cases fault user pk w :
  (exists e, WordsProgressDetailView_delete fault user pk w = (Raise e, w)
             /\ get_object fault user pk w = (Raise e, w))
  \/ (exists r w',
        get_object fault user pk w = (Ok r, w)
        /\ WordsProgressDetailView_delete fault user pk w = (Ok tt, w')
        /\ recalculation_save_fails fault = false
        /\ words_progress w'
           = filter (fun x => negb (has_pk pk x)) (words_progress w)
        /\ languages w' = languages w /\ words w' = words w
        /\ w' = snd (words_progress_deleted fault r
                       (snd (WordsProgress_delete pk
                               (set_needs_rollback w false)))))
  \/ (exists r w',
        get_object fault user pk w = (Ok r, w)
        /\ WordsProgressDetailView_delete fault user pk w = (Ok tt, w')
        /\ recalculation_save_fails fault = true
        /\ same_tables w w').
Proof.
  unfold WordsProgressDetailView_delete, bind.
  destruct (delete_word_text_readonly fault user pk w) as (a & ->).
  destruct (get_object fault user pk w) as [[r|e] w0] eqn:G.
  - destruct (get_object_cases fault user pk w) as [(e & G')|(r' & G' & _)];
      rewrite G' in G; [discriminate|injection G as -> <-].
    right; unfold atomic, bind, WordsProgress_delete.
    set (w1 := set_words_progress (set_needs_rollback w false)
                 (filter (fun x => negb (has_pk pk x))
                    (words_progress (set_needs_rollback w false)))).
    pose proof (words_progress_deleted_flag fault r w1) as F.
    destruct (words_progress_deleted_contained fault r w1)
      as (w' & E & L & W & T).
    rewrite E in *; cbn [snd] in F.
    change (needs_rollback w1) with false in F.
    destruct (recalculation_save_fails fault) eqn:R; rewrite F.
    + right; exists r; eexists; split; [reflexivity|].
      split; [reflexivity|]; split; [reflexivity|].
      apply rollback_same_tables.
    + left; exists r, w'; repeat split; auto.
      cbn [snd]; rewrite E; reflexivity.
  - destruct (get_object_cases fault user pk w) as [(e' & G')|(r' & G' & _)];
      rewrite G' in G; [injection G as <- <-|discriminate].
    left; eauto.
Qed.

(** * A recalculation that fails *)

Lemma update_language_progress_save_failed fault u l w :
  recalculation_save_fails fault = true ->
  exists e,
    fault Q_LanguageProgress_save = Some e
    /\ error_log (snd (update_language_progress fault u l w))
       = (error_log w ++ [mkLog "update_language_progress" (str e)])%list.
Proof.
  unfold recalculation_save_fails, update_language_progress, try_except,
    bind, LanguageProgress_get_or_create, Word_filter_count,
    WordsProgress_filter_count, LanguageProgress_save_stats,
    mark_for_rollback_on_error, orm, logger_error, logger_error_msg.
  destruct (fault Q_LanguageProgress_get_or_create); [discriminate|].
  destruct (fault Q_Word_count); [discriminate|].
  destruct (fault Q_WordsProgress_count); [discriminate|].
  destruct (fault Q_LanguageProgress_save) as [e|]; [|discriminate].
  intros _; exists e; split; [reflexivity|].
  destruct (find (lp_matches u l) (language_progress w)); reflexivity.
Qed.

Lemma log_word_milestone_log fault instance created w :
  exists l,
    error_log (snd (log_word_milestone fault instance created w))
    = (error_log w ++ l)%list.
Proof.
  unfold log_word_milestone, try_except, bind, orm, ret, logger_error,
    logger_error_msg.
  destruct (_ && _); [|exists []; symmetry; apply app_nil_r].
  destruct (fault Q_milestone_count);
    [eexists; reflexivity|exists []; symmetry; apply app_nil_r].
Qed.

(** A save that returns after the recalculation failed at its own
    save has logged that failure. *)
Lemma WordsProgress_save_logged fault today instance w row w' :
  recalculation_save_fails fault = true ->
  WordsProgress_save fault today instance w = (Ok row, w') ->
  exists e,
    fault Q_LanguageProgress_save = Some e
    /\ In (mkLog "update_language_progress" (str e)) (error_log w').
Proof.
  intros R; unfold WordsProgress_save, bind.
  destruct (set_date_learned fault today instance w) as [[i1|e1] w1];
    [|discriminate].
  destruct (WordsProgress_write fault i1 w1) as [[[r created]|e2] w2];
    [|discriminate].
  cbn [fst snd].
  destruct (update_language_progress_save_failed fault
              (WordsProgress.user r) (WordsProgress.target_language r) w2 R)
    as (e & Fe & L).
  destruct (words_progress_updated_contained fault r created w2)
    as (w3 & E3 & _).
  assert (L3 : error_log w3
               = (error_log w2
                  ++ [mkLog "update_language_progress" (str e)])%list).
  { unfold words_progress_updated, try_except in E3.
    destruct (update_language_progress_contained fault
                (WordsProgress.user r) (WordsProgress.target_language r) w2)
      as (wx & Ex & _).
    rewrite Ex in E3, L; injection E3 as <-; exact L. }
  rewrite E3.
  destruct (log_word_milestone_log fault r created w3) as (l & L4).
  destruct (log_word_milestone_contained fault r created w3)
    as (w4 & E4 & _).
  rewrite E4 in *; cbn [snd] in L4; unfold ret; intros [= _ <-].
  exists e; split; [exact Fe|].
  rewrite L4, L3; apply in_or_app; left; apply in_or_app; right.
  left; reflexivity.
Qed.

Lemma rollback_error_log w w0 b :
  error_log (set_needs_rollback (rollback w w0) b) = error_log w0.
Proof. reflexivity. Qed.

(** The triple of the row that a save answers with is that of the
    instance. *)
Lemma WordsProgress_save_triple fault today instance w row w' :
  WordsProgress_save fault today instance w = (Ok row, w') ->
  WordsProgress.user row = WordsProgress.user instance
  /\ WordsProgress.word row = WordsProgress.word instance
  /\ WordsProgress.target_language row
     = WordsProgress.target_language instance
  /\ In row (words_progress w').
Proof.
  intros E.
  destruct (WordsProgress_save_cases fault today instance w)
    as [(e & w1 & E1 & _)|(pk & dl & w1 & E1 & _ & _ & _ & _ & _ & I & _)];
    rewrite E1 in E; [discriminate|].
  injection E as <- <-; repeat split; auto.
Qed.

(** What a create leaves when the recalculation fails at its own
    save: the update of a row that was there is kept; the row that was
    to be created is answered with and not stored. *)
Lemma create_under_failing_save fault today user data w row w' :
  recalculation_save_fails fault = true ->
  create fault today user data w = (Ok row, w') ->
  (exists e,
     fault Q_LanguageProgress_save = Some e
     /\ In (mkLog "update_language_progress" (str e)) (error_log w'))
  /\ match find (triple_is (User.id user) (WordsProgress.word row)
                   (WordsProgress.target_language row))
             (words_progress w) with
     | Some _ => In row (words_progress w')
     | None => same_tables w w' /\ ~ In row (words_progress w')
     end.
Proof.
  intros R; unfold create, bind, Word_get, Language_get, orm.
  destruct (fault Q_catalog); [discriminate|].
  destruct (find _ (words w)) as [word|]; [|discriminate].
  destruct (find _ (languages w)) as [tl|]; [|discriminate].
  unfold WordsProgress_get_or_create, bind, get_world, try_except, ret.
  destruct (find (triple_is (User.id user) (Word.id word) (Language.id tl))
              (words_progress w)) as [progress|] eqn:F; cbn [fst snd negb].
  - intros E.
    destruct (WordsProgress_save_triple _ _ _ _ _ _ E) as (Tu & Tw & Tl & I).
    pose proof (find_some _ _ F) as [_ T].
    unfold triple_is in T; rewrite !andb_true_iff, !Pos.eqb_eq in T.
    destruct T as [[_ Pw] Pl].
    cbn [setattrs WordsProgress.word WordsProgress.target_language]
      in Tw, Tl.
    split; [eapply WordsProgress_save_logged; eassumption|].
    rewrite Tw, Tl, Pw, Pl, F; exact I.
  - pose proof (atomic_save_cases fault today
                  (new_instance (User.id user) (Word.id word)
                     (Language.id tl) data) w) as H.
    unfold bind, ret in H.
    destruct H
      as [(e & w1 & -> & S)|[(r & w1 & -> & E & R')|(r & w0 & -> & E & _)]].
    + assert (T : words_progress w1 = words_progress w) by apply S.
      destruct e; unfold raise; try rewrite T, F; discriminate.
    + congruence.
    + cbn [fst snd negb]; intros [= <- <-].
      destruct (WordsProgress_save_triple _ _ _ _ _ _ E) as (Tu & Tw & Tl & _).
      unfold new_instance in Tw, Tl.
      cbn [setattrs WordsProgress.word WordsProgress.target_language]
        in Tw, Tl.
      split.
      { rewrite rollback_error_log.
        eapply WordsProgress_save_logged; eassumption. }
      rewrite Tw, Tl, F; split; [apply rollback_same_tables|].
      cbn [words_progress set_needs_rollback rollback]; intros I.
      pose proof (find_none _ _ F _ I) as N.
      unfold triple_is in N; rewrite Tu, Tw, Tl in N.
      unfold new_instance in N.
      cbn [setattrs WordsProgress.user] in N.
      rewrite !Pos.eqb_refl in N; discriminate.
Qed.

(** C7.  Whatever queries fail, [update_language_progress] returns
    normally, leaves the [WordsProgress] table as it was and logs the
    error when one of its queries failed; and a save outside a
    transaction whose write succeeded returns the written row, with the
    table as the write left it.  Not so inside the blocks of
    [get_or_create] and of [delete]: when the recalculation fails at its
    own save, the error is logged and the view answers as if nothing
    had happened, but the row that was to be created is not stored, and
    the row that was to be deleted is still there.  The update of a row
    that was there is saved outside a block, and kept. *)
Theorem recalculation_failure_contained (fault : faults)
  (today : PyDate.date) :
  (forall (user language : positive) (w0 : World),
     exists w',
       update_language_progress fault user language w0 = (Ok tt, w')
       /\ words_progress w' = words_progress w0
       /\ ((exists c e, In c recalculation_calls /\ fault c = Some e) ->
           exists e,
             error_log w'
             = (error_log w0
                ++ [mkLog "update_language_progress" (str e)])%list))
  /\ (forall (instance inst1 row : WordsProgress.t) (created : bool)
             (w w1 w2 : World),
        set_date_learned fault today instance w = (Ok inst1, w1) ->
        WordsProgress_write fault inst1 w1 = (Ok (row, created), w2) ->
        exists w3,
          WordsProgress_save fault today instance w = (Ok row, w3)
          /\ words_progress w3 = words_progress w2)
  /\ (recalculation_save_fails fault = true ->
      (forall (user : User.t) (data : Attrs.t) (w : World)
              (row : WordsProgress.t) (w' : World),
         create fault today user data w = (Ok row, w') ->
         (exists e,
            fault Q_LanguageProgress_save = Some e
            /\ In (mkLog "update_language_progress" (str e))
                 (error_log w'))
         /\ match find (triple_is (User.id user) (WordsProgress.word row)
                          (WordsProgress.target_language row))
                    (words_progress w) with
            | Some _ => In row (words_progress w')
            | None => same_tables w w' /\ ~ In row (words_progress w')
            end)
      /\ (forall (user : User.t) (pk : positive) (w : World)
                 (r : WordsProgress.t),
            get_object fault user pk w = (Ok r, w) ->
            exists w',
              WordsProgressDetailView_delete fault user pk w = (Ok tt, w')
              /\ same_tables w w'
              /\ In r (words_progress w'))).
Proof.
  split; [|split].
  - intros user language w0.
    destruct (update_language_progress_contained fault user language w0)
      as (w' & E & (_ & _ & S) & L).
    exists w'; auto.
  - intros instance inst1 row created w w1 w2 H1 H2.
    unfold WordsProgress_save, bind; rewrite H1, H2; cbn [fst snd].
    destruct (words_progress_updated_contained fault row created w2)
      as (wa & Ea & Sa).
    rewrite Ea.
    destruct (log_word_milestone_contained fault row created wa)
      as (wb & Eb & Sb).
    rewrite Eb; unfold ret.
    exists wb; split; [reflexivity|].
    destruct Sa as (_ & _ & Sa), Sb as (_ & _ & Sb); congruence.
  - intros R; split.
    + intros user data w row w' E.
      exact (create_under_failing_save fault today user data w row w' R E).
    + intros user pk w r G.
      destruct (delete_cases fault user pk w)
        as [(e & _ & G')
           |[(r' & w' & _ & _ & R' & _)|(r' & w' & _ & E & _ & S)]].
      * rewrite G in G'; discriminate.
      * congruence.
      * exists w'; split; [exact E|]; split; [exact S|].
        destruct S as (_ & _ & _ & ->).
        unfold get_object, orm in G.
        destruct (fault Q_WordsProgress_get); [discriminate|].
        destruct (find _ (words_progress w)) as [x|] eqn:F; [|discriminate].
        injection G as ->; exact (proj1 (find_some _ _ F)).
Qed.

(** C7, at the failing input.  The learner posts a first progress row
    while the save of the recalculation fails: the view has a row to
    answer with, under the key 1, and the table is as empty as
    before. *)
Lemma recalculation_failure_contained_witness :
  recalculation_save_fails Example.save_down = true
  /\ fst (create Example.save_down Example.today Example.learner
            Persons.cat_in_english Example.empty)
     = Ok (WordsProgress.mk (Some 1%positive) 7 1 1 "new" 1 None 0 0
             (Some Example.today))
  /\ words_progress
       (snd (create Example.save_down Example.today Example.learner
               Persons.cat_in_english Example.empty))
     = [].
Proof.
  split; [reflexivity|]. split; [reflexivity|].
  assert (E : create Example.save_down Example.today Example.learner
                Persons.cat_in_english Example.empty
              = (Ok (WordsProgress.mk (Some 1%positive) 7 1 1 "new" 1 None 0
                       0 (Some Example.today)),
                 snd (create Example.save_down Example.today Example.learner
                        Persons.cat_in_english Example.empty)))
    by reflexivity.
  pose proof (proj2 (proj1 (proj2 (proj2 (recalculation_failure_contained
                                            Example.save_down Example.today))
                             eq_refl)
                       Example.learner Persons.cat_in_english Example.empty
                       _ _ E)) as H.
  cbn [find Example.empty words_progress] in H.
  destruct H as ((_ & _ & _ & T) & _); exact T.
Defined.

(** X2.  [DELETE] of a row that the user owns answers normally, although
    the lookup of [progress.word.text] for the log fails: the table
    loses the rows of that key and no other, the catalog is unchanged,
    and the [LanguageProgress] row of the pair of the deleted row then
    counts the learned and mastered rows that are left, with the
    percentage of that count.  [DELETE] of a key that no row of the
    user has raises [DoesNotExist] and changes nothing. *)
Theorem delete_removes_and_recalculates (user : User.t) (pk : positive)
  (w : World) :
  (forall r,
     find (fun r => has_pk pk r
                    && (WordsProgress.user r =? User.id user)%positive)
       (words_progress w) = Some r ->
     exists w' lp,
       WordsProgressDetailView_delete no_fault user pk w = (Ok tt, w')
       /\ words_progress w'
          = filter (fun x => negb (has_pk pk x)) (words_progress w)
       /\ languages w' = languages w /\ words w' = words w
       /\ find (lp_matches (WordsProgress.user r)
                  (WordsProgress.target_language r)) (language_progress w')
          = Some lp
       /\ LanguageProgress.learned_words_count lp
          = count (learned_or_mastered (WordsProgress.user r)
                     (WordsProgress.target_language r)) (words_progress w')
       /\ LanguageProgress.learned_words lp
          = learned_percentage_of (LanguageProgress.learned_words_count lp)
              (count (available_word (WordsProgress.target_language r)
                        (eligible_tiers (LanguageProgress.level lp)))
                 (words w)))
  /\ (find (fun r => has_pk pk r
                     && (WordsProgress.user r =? User.id user)%positive)
        (words_progress w) = None ->
      WordsProgressDetailView_delete no_fault user pk w
      = (Raise (DoesNotExist "WordsProgress"), w)).
Proof.
  split.
  - intros r F.
    assert (G : get_object no_fault user pk w = (Ok r, w))
      by (unfold get_object, orm, no_fault; rewrite F; reflexivity).
    destruct (delete_cases no_fault user pk w)
      as [(e & _ & G')
         |[(r' & w' & G' & E & _ & T & L & W & Ew)
          |(r' & w' & _ & _ & R & _)]];
      [rewrite G in G'; discriminate| |discriminate].
    rewrite G in G'; injection G' as <-.
    set (w2 := snd (WordsProgress_delete pk (set_needs_rollback w false)))
      in *.
    destruct (recalculated_row (WordsProgress.user r)
                (WordsProgress.target_language r) w2)
      as (lp & Fl & P & C & Lv).
    assert (Ew' : w' = snd (update_language_progress no_fault
                              (WordsProgress.user r)
                              (WordsProgress.target_language r) w2)).
    { rewrite Ew; unfold words_progress_deleted, try_except.
      destruct (update_language_progress_contained no_fault
                  (WordsProgress.user r) (WordsProgress.target_language r)
                  w2) as (w3 & -> & _); reflexivity. }
    exists w', lp; rewrite <- Ew' in Fl.
    repeat split; auto.
    + rewrite C, T; reflexivity.
    + rewrite P, C, Lv; unfold total_available_words, learned_mastered_count.
      reflexivity.
  - intros F; unfold WordsProgressDetailView_delete, bind.
    destruct (delete_word_text_readonly no_fault user pk w) as (a & ->).
    unfold get_object, orm, no_fault; rewrite F; reflexivity.
Qed.

(** * Requests and the rows of other users *)

Lemma save_or_same fault today inst w :
  (exists e w', WordsProgress_save fault today inst w = (Raise e, w')
                /\ words_progress w' = words_progress w)
  \/ exists row w', WordsProgress_save fault today inst w = (Ok row, w').
Proof.
  destruct (WordsProgress_save_cases fault today inst w)
    as [(e & w' & E & _ & _ & T)|(pk & d & w' & E & _)]; eauto.
Qed.

Lemma save_of_instance fault today u w inst :
  instance_of u w inst ->
  (exists e w', WordsProgress_save fault today inst w = (Raise e, w')
                /\ words_progress w' = words_progress w)
  \/ exists i row w',
       WordsProgress_save fault today inst w = (Ok row, w')
       /\ WordsProgress_save fault today i w = (Ok row, w')
       /\ instance_of u w i.
Proof.
  intros H.
  destruct (save_or_same fault today inst w)
    as [(e & w' & E & T)|(row & w' & E)].
  - left; eauto.
  - right; exists inst, row, w'; auto.
Qed.

(** A create leaves the table as it is (it raises, or its block is
    rolled back), or it is the save of an instance of the requester,
    made on the rows of [w]. *)
Lemma create_saves fault today user data w :
  (exists res w', create fault today user data w = (res, w')
                  /\ words_progress w' = words_progress w)
  \/ exists i row w0 w',
       create fault today user data w = (Ok row, w')
       /\ WordsProgress_save fault today i w0 = (Ok row, w')
       /\ words_progress w0 = words_progress w
       /\ instance_of (User.id user) w i.
Proof.
  unfold create, bind, Word_get, Language_get, orm.
  destruct (fault Q_catalog); [left; eauto|].
  destruct (find _ (words w)) as [word|]; [|left; eauto].
  destruct (find _ (languages w)) as [tl|]; [|left; eauto].
  unfold WordsProgress_get_or_create, bind, get_world, try_except, ret.
  destruct (find _ (words_progress w)) as [progress|] eqn:F;
    cbn [fst snd negb].
  - apply find_some in F; destruct F as [I T].
    unfold triple_is in T; rewrite !andb_true_iff in T.
    destruct T as [[T _] _]; apply Pos.eqb_eq in T.
    destruct (save_of_instance fault today (User.id user) w
                (setattrs progress data))
      as [(e & w' & E & S)|(i & row & w' & E & Ei & H)].
    + split; cbn; [exact T|right; exists progress; auto].
    + left; eauto.
    + right; exists i, row, w, w'; auto.
  - pose proof (atomic_save_cases fault today
                  (new_instance (User.id user) (Word.id word)
                     (Language.id tl) data) w) as H.
    unfold bind, ret in H.
    destruct H
      as [(e & w' & -> & S)|[(row & w' & -> & E & R)|(row & w0 & -> & E & R)]].
    + left.
      assert (T : words_progress w' = words_progress w) by apply S.
      destruct e; unfold raise; try rewrite T, F; eauto.
    + right; cbn [fst snd negb].
      exists (new_instance (User.id user) (Word.id word) (Language.id tl)
                data), row, (set_needs_rollback w false), w'.
      repeat split; auto.
    + left; cbn [fst snd negb]; eauto.
Qed.

Lemma update_saves fault today u data w instance :
  In instance (words_progress w) -> WordsProgress.user instance = u ->
  (exists e w', update fault today instance data w = (Raise e, w')
                /\ words_progress w' = words_progress w)
  \/ exists i row w',
       update fault today instance data w = (Ok row, w')
       /\ WordsProgress_save fault today i w = (Ok row, w')
       /\ instance_of u w i.
Proof.
  intros I T; unfold update, bind, Word_get, Language_get, orm, ret.
  destruct (Attrs.word_id data) as [n|];
    destruct (Attrs.target_language_id data) as [m|];
    try (destruct (fault Q_catalog);
         [left; do 2 eexists; split; reflexivity|]);
    try (destruct (find _ (words w)) as [word|];
         [|left; do 2 eexists; split; reflexivity]);
    try (destruct (find _ (languages w)) as [tl|];
         [|left; do 2 eexists; split; reflexivity]);
    (apply save_of_instance; split; cbn;
     [exact T|right; exists instance; auto]).
Qed.

Lemma get_object_owned fault user pk w r w0 :
  get_object fault user pk w = (Ok r, w0) ->
  w0 = w /\ In r (words_progress w)
  /\ WordsProgress.user r = User.id user /\ has_pk pk r = true.
Proof.
  unfold get_object, orm.
  destruct (fault Q_WordsProgress_get); [discriminate|].
  destruct (find _ (words_progress w)) eqn:F; [|discriminate].
  intros [= <- <-]; apply find_some in F; destruct F as [I T].
  apply andb_true_iff in T; destruct T as [K T]; apply Pos.eqb_eq in T.
  auto.
Qed.

(** A request on one row fails and leaves the table as it is, or is
    the save of an instance of the requester: a new one, or one that
    carries the key of a row that the requester owns. *)
Lemma handle_saves fault today parse req data w :
  payload req = Some data ->
  (exists res w', handle fault today parse req w = (res, w')
                  /\ words_progress w' = words_progress w)
  \/ exists i row w0 w',
       handle fault today parse req w = (Ok (Some row), w')
       /\ WordsProgress_save fault today i w0 = (Ok row, w')
       /\ words_progress w0 = words_progress w
       /\ instance_of (User.id (requester (Write req))) w i.
Proof.
  destruct req as [user d|user pk d|user pk d|user updates];
    intros [= ->]; cbn [handle requester] in *.
  - unfold WordsProgressListCreateView_post, bind.
    destruct (is_valid_readonly fault user false data w) as [(e & ->)| ->];
      [left; eauto|].
    destruct (create_saves fault today user data w)
      as [(res & w' & -> & T)|(i & row & w0 & w' & -> & E & T & H)].
    + left; destruct res; unfold ret; eauto.
    + right; exists i, row, w0, w'; auto.
  - unfold WordsProgressDetailView_patch, bind.
    destruct (get_object fault user pk w) as [[r|e] w0] eqn:G.
    + apply get_object_owned in G; destruct G as (-> & I & T & _).
      destruct (is_valid_readonly fault user true data w) as [(e & ->)| ->];
        [left; eauto|].
      destruct (update_saves fault today (User.id user) data w r I T)
        as [(e & w' & -> & T')|(i & row & w' & -> & E & H)];
        [left; eauto|right; exists i, row, w, w'; auto].
    + destruct (get_object_cases fault user pk w) as [(e' & G')|(r' & G' & _)];
        rewrite G' in G; [injection G as <- <-|discriminate].
      left; eauto.
  - unfold WordsProgressDetailView_put, bind.
    destruct (get_object fault user pk w) as [[r|e] w0] eqn:G.
    + apply get_object_owned in G; destruct G as (-> & I & T & _).
      destruct (is_valid_readonly fault user false data w) as [(e & ->)| ->];
        [left; eauto|].
      destruct (update_saves fault today (User.id user) data w r I T)
        as [(e & w' & -> & T')|(i & row & w' & -> & E & H)];
        [left; eauto|right; exists i, row, w, w'; auto].
    + destruct (get_object_cases fault user pk w) as [(e' & G')|(r' & G' & _)];
        rewrite G' in G; [injection G as <- <-|discriminate].
      left; eauto.
Qed.

Lemma existsb_has_pk_false pk rows r :
  existsb (has_pk pk) rows = false -> In r rows ->
  WordsProgress.pk r <> Some pk.
Proof.
  intros X I E; apply has_pk_iff in E.
  assert (existsb (has_pk pk) rows = true)
    by (apply existsb_exists; eauto).
  congruence.
Qed.

(** The table after a write under [pk]: keys stay unique, and a row
    that does not carry [pk] is in the table after the write exactly
    when it was before, unless it is the row written. *)
Lemma written_table rows rows' pk row :
  rows' = (if existsb (has_pk pk) rows
           then map (replace_row pk row) rows
           else rows ++ [row])%list ->
  WordsProgress.pk row = Some pk ->
  pk_unique rows ->
  pk_unique rows'
  /\ In row rows'
  /\ forall x, x <> row -> WordsProgress.pk x <> Some pk ->
               (In x rows' <-> In x rows).
Proof.
  intros -> Pr U.
  destruct (existsb (has_pk pk) rows) eqn:X.
  - split; [|split].
    + intros r1 r2 k I1 I2 E1 E2.
      apply in_map_iff in I1; destruct I1 as (o1 & <- & I1).
      apply in_map_iff in I2; destruct I2 as (o2 & <- & I2).
      unfold replace_row in *.
      destruct (has_pk pk o1) eqn:H1, (has_pk pk o2) eqn:H2; auto.
      * rewrite Pr in E1; injection E1 as <-.
        apply has_pk_iff in E2; congruence.
      * rewrite Pr in E2; injection E2 as <-.
        apply has_pk_iff in E1; congruence.
      * eapply U; eassumption.
    + apply replaced_row_in, X.
    + intros x Nx Px; rewrite in_map_iff; split.
      * intros (o & <- & I); unfold replace_row in *.
        destruct (has_pk pk o); [congruence|exact I].
      * intros I; exists x; split; [|exact I].
        unfold replace_row; destruct (has_pk pk x) eqn:H; [|reflexivity].
        apply has_pk_iff in H; congruence.
  - split; [|split].
    + intros r1 r2 k I1 I2 E1 E2.
      apply in_app_or in I1; apply in_app_or in I2.
      destruct I1 as [I1|[<-|[]]], I2 as [I2|[<-|[]]]; auto.
      * eapply U; eassumption.
      * exfalso; apply (existsb_has_pk_false pk rows r1 X I1); congruence.
      * exfalso; apply (existsb_has_pk_false pk rows r2 X I2); congruence.
    + apply in_or_app; right; left; reflexivity.
    + intros x Nx Px; rewrite in_app_iff; split; [|auto].
      intros [I|[E|[]]]; [exact I|congruence].
Qed.

Lemma save_keeps_others fault today u i w row w' :
  WordsProgress_save fault today i w = (Ok row, w') ->
  instance_of u w i ->
  pk_unique (words_progress w) ->
  pk_unique (words_progress w')
  /\ WordsProgress.user row = u
  /\ forall x, WordsProgress.user x <> u ->
               (In x (words_progress w') <-> In x (words_progress w)).
Proof.
  intros E (Ui & Ki) U.
  destruct (WordsProgress_save_rows _ _ _ _ _ _ E)
    as (pk & d & -> & _ & K & N & _ & _ & T & _).
  destruct (written_table _ _ pk _ T eq_refl U) as (U' & Ir & R).
  split; [exact U'|]. split; [exact Ui|].
  intros x Nx.
  assert (Nr : x <> with_pk (with_date_learned i d) pk)
    by (intros ->; apply Nx; exact Ui).
  destruct (has_pk pk x) eqn:H.
  - apply has_pk_iff in H; split; intros I; exfalso.
    + apply Nr; eapply U'; [exact I|exact Ir|exact H|reflexivity].
    + destruct (WordsProgress.pk i) as [k|] eqn:Pi.
      * destruct Ki as [Ki|(o & Io & Uo & Po)]; [discriminate|].
        rewrite <- (K k eq_refl) in Po.
        apply Nx; rewrite <- Uo; f_equal.
        eapply U; [exact I|exact Io|exact H|auto].
      * rewrite (N eq_refl) in H.
        eapply next_pk_fresh, pk_in_pks; eassumption.
  - apply R; [exact Nr|].
    intros Px; apply has_pk_iff in Px; congruence.
Qed.

(** One operation keeps the keys unique and the rows of every other
    user. *)
Lemma perform_keeps_others fault today parse op w :
  pk_unique (words_progress w) ->
  pk_unique (words_progress (perform fault today parse w op))
  /\ forall x, WordsProgress.user x <> User.id (requester op) ->
               (In x (words_progress (perform fault today parse w op))
                <-> In x (words_progress w)).
Proof.
  intros U; destruct op as [req|user pk]; cbn [perform].
  - unfold step; destruct (payload req) as [data|] eqn:P.
    + destruct (handle_saves fault today parse req data w P)
        as [(e & w' & -> & T)|(i & row & w0 & w' & -> & E & T & H)];
        cbn [snd].
      * rewrite T; split; [exact U|tauto].
      * assert (H0 : instance_of (User.id (requester (Write req))) w0 i).
        { destruct H as (Hu & Hk); split; [exact Hu|].
          rewrite T; exact Hk. }
        rewrite <- T in U.
        destruct (save_keeps_others _ _ _ _ _ _ _ E H0 U) as (U' & _ & R).
        rewrite <- T; auto.
    + destruct req; try discriminate.
      destruct (handle_bulk_cases fault today parse user updates w)
        as (w' & -> & (_ & _ & T)); cbn [snd]; rewrite T.
      split; [exact U|tauto].
  - destruct (delete_cases fault user pk w)
      as [(e & -> & _)
         |[(r & w' & G & -> & _ & T & _)
          |(r & w' & _ & -> & _ & (_ & _ & _ & T))]]; cbn [snd requester].
    + split; [exact U|tauto].
    + apply get_object_owned in G; destruct G as (_ & I & Ur & Kr).
      rewrite T; split.
      * intros r1 r2 k I1 I2; apply filter_In in I1, I2.
        apply U; tauto.
      * intros x Nx; rewrite filter_In; split; [tauto|].
        intros Ix; split; [exact Ix|].
        destruct (has_pk pk x) eqn:H; [|reflexivity].
        exfalso; apply Nx; rewrite <- Ur; f_equal.
        apply has_pk_iff in H, Kr; eapply U; eassumption.
    + rewrite T; split; [exact U|tauto].
Qed.

(** X3.  Whatever fails, the creates, updates, bulk updates and
    deletions that users other than [b] request neither add, change nor
    remove a [WordsProgress] row of [b], given that the primary keys of
    the table are unique at the start; and they are unique at the end. *)
Theorem requests_keep_rows_of_others (fault : faults) (today : PyDate.date)
  (parse_datetime : string -> result (option datetime))
  (ops : list Operation) (w : World) (b : positive)
  (Hpk : pk_unique (words_progress w))
  (Hops : Forall (fun op => User.id (requester op) <> b) ops) :
  pk_unique (words_progress (perform_all fault today parse_datetime ops w))
  /\ forall r, WordsProgress.user r = b ->
               (In r (words_progress
                        (perform_all fault today parse_datetime ops w))
                <-> In r (words_progress w)).
Proof.
  revert w Hpk; induction Hops as [|op ops Hop Hops IH]; intros w U.
  - cbn; split; [exact U|tauto].
  - cbn [perform_all fold_left].
    destruct (perform_keeps_others fault today parse_datetime op w U)
      as (U' & R).
    destruct (IH _ U') as (U'' & R'); fold (perform_all fault today
      parse_datetime ops (perform fault today parse_datetime w op)) in *.
    split; [exact U''|].
    intros r Hr; rewrite R' by exact Hr.
    apply R; congruence.
Qed.

(** * Creating twice, and updating one field *)

Lemma setattrs_positive_fields_ok base data :
  positive_fields_ok base = true ->
  min_value_ok (Attrs.interval data) = true ->
  min_value_ok (Attrs.review_count data) = true ->
  min_value_ok (Attrs.correct_count data) = true ->
  positive_fields_ok (setattrs base data) = true.
Proof.
  unfold positive_fields_ok, min_value_ok; cbn.
  rewrite !andb_true_iff; intros [[Hi Hr] Hc] Di Dr Dc.
  destruct (Attrs.interval data), (Attrs.review_count data),
    (Attrs.correct_count data); cbn; auto.
Qed.

Lemma same_triple_triple_is o u x l r :
  WordsProgress.user r = u -> WordsProgress.word r = x ->
  WordsProgress.target_language r = l ->
  same_triple o r = triple_is u x l o.
Proof. intros <- <- <-; reflexivity. Qed.

Lemma existsb_false {A} (p : A -> bool) l :
  (forall x, In x l -> p x = false) -> existsb p l = false.
Proof.
  intros H; apply not_true_iff_false; intros E.
  apply existsb_exists in E; destruct E as (x & I & P).
  rewrite (H x I) in P; discriminate.
Qed.

Lemma triple_is_iff u x l r :
  triple_is u x l r = true
  <-> WordsProgress.user r = u /\ WordsProgress.word r = x
      /\ WordsProgress.target_language r = l.
Proof.
  unfold triple_is; rewrite !andb_true_iff, !Pos.eqb_eq; tauto.
Qed.

(** When no query fails, the block around a save that returns is
    committed. *)
Lemma atomic_save_no_fault today instance w row w' :
  WordsProgress_save no_fault today instance (set_needs_rollback w false)
  = (Ok row, w') ->
  atomic (progress <- WordsProgress_save no_fault today instance ;;
          ret (progress, true)) w
  = (Ok (row, true), w').
Proof.
  intros E; unfold atomic, bind, ret; rewrite E.
  rewrite (WordsProgress_save_flag _ _ _ _ _ _ E); reflexivity.
Qed.

(** X4.  [WordsProgressSerializer.create] is an insert-or-update on the
    triple of user, word and target language.  On a table that meets
    its constraints, with validated data: when a row of the triple
    exists, that row is overwritten under its key with the fields of
    the payload and today's date, and the table keeps its length; when
    none exists, one row with the defaults of the model, the fields of
    the payload and today's date is appended under a key that no row
    of the table has. *)
Theorem create_inserts_or_updates (today : PyDate.date) (user : User.t)
  (data : Attrs.t) (w : World) (n m : Z) (word : Word.t) (tl : Language.t)
  (Hn : Attrs.word_id data = Some n)
  (Hm : Attrs.target_language_id data = Some m)
  (Hword : find (word_has_id n) (words w) = Some word)
  (Htl : find (language_has_id m) (languages w) = Some tl)
  (Hi : min_value_ok (Attrs.interval data) = true)
  (Hr : min_value_ok (Attrs.review_count data) = true)
  (Hc : min_value_ok (Attrs.correct_count data) = true)
  (Hpos : forall r, In r (words_progress w) -> positive_fields_ok r = true)
  (Hkeys : forall r, In r (words_progress w) -> WordsProgress.pk r <> None)
  (Htriple : triple_unique (words_progress w)) :
  match find (triple_is (User.id user) (Word.id word) (Language.id tl))
          (words_progress w) with
  | Some progress =>
      exists k w',
        let row :=
          with_pk (with_date_learned (setattrs progress data) (Some today))
            k in
        WordsProgress.pk progress = Some k
        /\ create no_fault today user data w = (Ok row, w')
        /\ words_progress w' = map (replace_row k row) (words_progress w)
        /\ In row (words_progress w')
        /\ List.length (words_progress w') = List.length (words_progress w)
  | None =>
      exists k w',
        let row :=
          with_pk
            (with_date_learned
               (new_instance (User.id user) (Word.id word) (Language.id tl)
                  data) (Some today))
            k in
        (forall r, In r (words_progress w) -> WordsProgress.pk r <> Some k)
        /\ create no_fault today user data w = (Ok row, w')
        /\ words_progress w' = (words_progress w ++ [row])%list
  end.
Proof.
  unfold create, bind, Word_get, Language_get, orm, get_world.
  change (no_fault Q_catalog) with (@None exn).
  rewrite Hn, Hm; cbn [override]; rewrite Hword, Htl.
  unfold WordsProgress_get_or_create, bind, get_world, try_except.
  destruct (find _ (words_progress w)) as [progress|] eqn:F;
    unfold ret; cbn [fst snd negb].
  - pose proof (find_some _ _ F) as [I T].
    destruct (WordsProgress.pk progress) as [k|] eqn:Pk;
      [|exfalso; exact (Hkeys _ I Pk)].
    apply triple_is_iff in T; destruct T as (Tu & Tw & Tl).
    assert (X : existsb (has_pk k) (words_progress w) = true).
    { apply existsb_exists; exists progress; split; [exact I|].
      apply has_pk_iff, Pk. }
    destruct (WordsProgress_save_succeeds today (setattrs progress data) w)
      as (w' & E & T & _).
    + apply setattrs_positive_fields_ok; auto.
    + cbn [setattrs WordsProgress.pk]; rewrite Pk.
      unfold unique_together_ok; apply negb_true_iff, existsb_false.
      intros o Io.
      destruct (same_triple o _) eqn:S; [|reflexivity]; cbn [andb].
      apply negb_false_iff.
      replace o with progress; [apply has_pk_iff, Pk|].
      apply Htriple; auto.
      unfold same_triple in *; cbn in S.
      rewrite !andb_true_iff, !Pos.eqb_eq in *.
      intuition congruence.
    + cbn [setattrs WordsProgress.pk] in E, T; rewrite Pk in E, T.
      rewrite X in T.
      exists k, w'; cbn zeta; repeat split; auto.
      * rewrite T; apply replaced_row_in, X.
      * rewrite T; apply length_map.
  - assert (N : forall o, In o (words_progress w) ->
                          triple_is (User.id user) (Word.id word)
                            (Language.id tl) o = false).
    { intros o Io; apply not_true_iff_false; intros T.
      eapply find_none in F; [|exact Io]; congruence. }
    assert (Fr : forall r, In r (words_progress w) ->
                           WordsProgress.pk r
                           <> Some (next_pk (pks (words_progress w)))).
    { intros o Io H.
      eapply next_pk_fresh, pk_in_pks; eassumption. }
    destruct (WordsProgress_save_succeeds today
                (new_instance (User.id user) (Word.id word) (Language.id tl)
                   data) (set_needs_rollback w false)) as (w' & E & T & _).
    + unfold new_instance; apply setattrs_positive_fields_ok; auto.
    + unfold unique_together_ok; apply negb_true_iff, existsb_false.
      intros o Io.
      rewrite (same_triple_triple_is o (User.id user) (Word.id word)
                 (Language.id tl)) by reflexivity.
      rewrite (N o Io); reflexivity.
    + pose proof (atomic_save_no_fault today _ w _ _ E) as A.
      unfold bind, ret in A; rewrite A; cbn [fst snd negb].
      cbn [new_instance setattrs WordsProgress.pk words_progress
             set_needs_rollback] in T.
      replace (existsb _ _) with false in T.
      * exists (next_pk (pks (words_progress w))), w'; cbn zeta.
        split; [exact Fr|]; split; [reflexivity|exact T].
      * symmetry; apply existsb_false; intros o Io.
        apply not_true_iff_false; intros H; apply has_pk_iff in H.
        exact (Fr o Io H).
Qed.

Lemma setattrs_only_word r n : setattrs r (only_word n) = r.
Proof. destruct r; reflexivity. Qed.

Lemma with_pk_same r k : WordsProgress.pk r = Some k -> with_pk r k = r.
Proof. destruct r; cbn; intros ->; reflexivity. Qed.

(** X5.  A [PATCH] that names a word and no target language is not
    checked against the languages: when the word exists and is active,
    and no other row holds the resulting triple, the row is saved with
    the new word and its old target language, whatever the language of
    the word is, be it another than the target language of the row or
    the native language of the user. *)
Theorem patch_word_alone_skips_language_checks (today : PyDate.date)
  (user : User.t) (pk : positive) (n : Z) (w : World) (r : WordsProgress.t)
  (word : Word.t)
  (Hrow : find (fun r => has_pk pk r
                         && (WordsProgress.user r =? User.id user)%positive)
            (words_progress w) = Some r)
  (Hword : find (word_has_id n) (words w) = Some word)
  (Hactive : Word.active word = true)
  (Hpos : positive_fields_ok r = true)
  (Hfree : forall o, In o (words_progress w) ->
                     same_triple o (with_word r (Word.id word)) = true ->
                     has_pk pk o = true) :
  exists w',
    let row := with_date_learned (with_word r (Word.id word)) (Some today) in
    WordsProgressDetailView_patch no_fault today user pk (only_word n) w
    = (Ok row, w')
    /\ In row (words_progress w')
    /\ WordsProgress.word row = Word.id word
    /\ WordsProgress.target_language row = WordsProgress.target_language r.
Proof.
  pose proof (find_some _ _ Hrow) as [I T].
  apply andb_true_iff in T; destruct T as [K _].
  pose proof (proj1 (has_pk_iff pk r) K) as Pk.
  destruct (find_weaken _ Word.active _ _ Hword Hactive) as (y & Fy).
  assert (G : get_object no_fault user pk w = (Ok r, w))
    by (unfold get_object, orm, no_fault; rewrite Hrow; reflexivity).
  assert (Wg : Word_get no_fault n w = (Ok word, w))
    by (unfold Word_get, orm, no_fault; rewrite Hword; reflexivity).
  assert (V : is_valid no_fault user true (only_word n) w
              = (Ok (only_word n), w)).
  { unfold is_valid, validate_fields, bind, validate_word_id, try_except,
      orm, no_fault, ret; cbn -[word_has_id find].
    rewrite Fy; unfold validate.
    cbn [only_word Attrs.word_id Attrs.target_language_id truthy].
    rewrite andb_false_r; reflexivity. }
  unfold WordsProgressDetailView_patch, bind; rewrite G, V.
  unfold update, bind, ret.
  cbn [only_word Attrs.word_id Attrs.target_language_id].
  rewrite Wg; fold (only_word n); rewrite setattrs_only_word.
  destruct (WordsProgress_save_succeeds today (with_word r (Word.id word)) w)
    as (w' & E & Tw & _).
  - destruct r; exact Hpos.
  - cbn [with_word WordsProgress.pk]; rewrite Pk.
    unfold unique_together_ok; apply negb_true_iff, existsb_false.
    intros o Io.
    destruct (same_triple o _) eqn:S; [|reflexivity]; cbn [andb].
    apply negb_false_iff, Hfree; [exact Io|].
    destruct r; exact S.
  - cbn [with_word WordsProgress.pk] in E, Tw; rewrite Pk in E, Tw.
    rewrite with_pk_same in E, Tw by (destruct r; exact Pk).
    rewrite E; exists w'; cbn zeta; split; [reflexivity|].
    split; [|destruct r; split; reflexivity].
    rewrite Tw.
    replace (existsb (has_pk pk) (words_progress w)) with true.
    + apply replaced_row_in, existsb_exists; eauto.
    + symmetry; apply existsb_exists; eauto.
Qed.

Lemma patch_word_alone_skips_language_checks_witness :
  User.native_language Persons.english_speaker
  = Some (Word.language Example.cat)
  /\ WordsProgress.target_language Others.kot_row <> Word.language Example.cat
  /\ exists w',
       WordsProgressDetailView_patch no_fault Example.today
         Persons.english_speaker 2 (only_word 1) Others.two_users
       = (Ok (with_date_learned (with_word Others.kot_row 1)
                (Some Example.today)), w').
Proof.
  split; [reflexivity|]. split; [discriminate|].
  destruct (patch_word_alone_skips_language_checks Example.today
              Persons.english_speaker 2 1 Others.two_users Others.kot_row
              Example.cat eq_refl eq_refl eq_refl eq_refl) as (w' & E & _).
  - intros o [<-|[<-|[]]]; [discriminate|reflexivity].
  - exists w'; exact E.
Defined.

Lemma create_inserts_or_updates_witness :
  exists row w',
    create no_fault Example.today Example.learner (Example.counters 1 7 0)
      Example.one_row = (Ok row, w')
    /\ WordsProgress.pk row = Some 1%positive
    /\ WordsProgress.review_count row = 7
    /\ List.length (words_progress w') = 1%nat.
Proof.
  assert (Hpos : forall r, In r (words_progress Example.one_row) ->
                           positive_fields_ok r = true)
    by (intros r [<-|[]]; reflexivity).
  assert (Hkeys : forall r, In r (words_progress Example.one_row) ->
                            WordsProgress.pk r <> None)
    by (intros r [<-|[]]; discriminate).
  assert (Htriple : triple_unique (words_progress Example.one_row))
    by (intros r1 r2 [<-|[]] [<-|[]] _; reflexivity).
  pose proof (create_inserts_or_updates Example.today Example.learner
                (Example.counters 1 7 0) Example.one_row 1 1 Example.cat
                Example.english eq_refl eq_refl eq_refl eq_refl eq_refl
                eq_refl eq_refl Hpos Hkeys Htriple) as H.
  cbn in H; destruct H as (k & w' & Pk & E & _ & _ & L).
  injection Pk as <-.
  do 2 eexists; split; [exact E|]; repeat split; exact L.
Defined.

(** * The counters *)












Lemma requests_keep_rows_of_others_witness :
  pk_unique (words_progress Others.two_users)
  /\ In Example.row1
       (words_progress
          (perform_all no_fault Example.today Example.parse_datetime
             [DELETE_words Persons.english_speaker 1;
              Write (PATCH_words Persons.english_speaker 2
                       (Example.only_status "learned"))]
             Others.two_users)).
Proof.
  assert (U : pk_unique (words_progress Others.two_users)).
  { intros r1 r2 k [<-|[<-|[]]] [<-|[<-|[]]]; cbn; congruence. }
  assert (O : Forall (fun op => User.id (requester op) <> 7%positive)
                [DELETE_words Persons.english_speaker 1;
                 Write (PATCH_words Persons.english_speaker 2
                          (Example.only_status "learned"))])
    by (repeat constructor; discriminate).
  split; [exact U|].
  apply (proj2 (requests_keep_rows_of_others no_fault Example.today
                  Example.parse_datetime _ Others.two_users 7 U O)
           Example.row1 eq_refl).
  left; reflexivity.
Defined.

(** * The list of progress rows *)

Lemma nonempty_given param :
  nonempty param = true <-> exists value, given param value.
Proof.
  unfold given; destruct param as [[|a s]|]; cbn; split.
  - discriminate.
  - intros (v & E & N); congruence.
  - intros _; eexists; split; [reflexivity|discriminate].
  - reflexivity.
  - discriminate.
  - intros (v & E & N); discriminate.
Qed.

Lemma In_filter_if {A} (b : bool) (p : A -> bool) l x :
  In x (if b then filter p l else l) <-> In x l /\ (b = true -> p x = true).
Proof.
  destruct b; [rewrite filter_In|]; intuition discriminate.
Qed.

(** X6.  The rows that the list of progress entries selects: a row of
    the table is selected exactly when the requester owns it and it
    meets every parameter that is given and not empty: its status is
    [status], the code of its target language [target_language], the
    code of the language of its word [word_language], and, when
    [due_for_review] is ['true'] in any case of letters, its status is
    ['new'] or ['learning'] and its [next_review] is set and not after
    now.  So no row of another user is listed, and no learned or
    mastered row is listed as due. *)
Theorem list_selects_own_rows_by_filters (lower : string -> string)
  (now : datetime) (user : User.t) (params : ListParams.t) (w : World)
  (r : WordsProgress.t) :
  (In r (WordsProgressListCreateView_get_queryset lower now user params w)
   <-> In r (words_progress w)
       /\ WordsProgress.user r = User.id user
       /\ (forall s, given (ListParams.status params) s ->
                     WordsProgress.status r = s)
       /\ (forall c, given (ListParams.target_language params) c ->
                     exists l, target_language_of (languages w) r = Some l
                               /\ Language.code l = c)
       /\ (forall c, given (ListParams.word_language params) c ->
                     word_language_code_is (words w) (languages w) c r = true)
       /\ (forall d, given (ListParams.due_for_review params) d ->
                     lower d = "true" ->
                     (exists t, WordsProgress.next_review r = Some t
                                /\ t <= now)
                     /\ (WordsProgress.status r = "new"
                         \/ WordsProgress.status r = "learning")))
  /\ (In r (WordsProgressListCreateView_get_queryset lower now user params w)
      -> forall d, given (ListParams.due_for_review params) d ->
                   lower d = "true" ->
                   WordsProgress.status r <> "learned"
                   /\ WordsProgress.status r <> "mastered").
Proof.
  assert (Q : In r (WordsProgressListCreateView_get_queryset lower now user
                      params w)
              <-> In r (words_progress w)
       /\ WordsProgress.user r = User.id user
       /\ (forall s, given (ListParams.status params) s ->
                     WordsProgress.status r = s)
       /\ (forall c, given (ListParams.target_language params) c ->
                     exists l, target_language_of (languages w) r = Some l
                               /\ Language.code l = c)
       /\ (forall c, given (ListParams.word_language params) c ->
                     word_language_code_is (words w) (languages w) c r = true)
       /\ (forall d, given (ListParams.due_for_review params) d ->
                     lower d = "true" ->
                     (exists t, WordsProgress.next_review r = Some t
                                /\ t <= now)
                     /\ (WordsProgress.status r = "new"
                         \/ WordsProgress.status r = "learning"))).
  { unfold WordsProgressListCreateView_get_queryset; cbn zeta.
    rewrite !In_filter_if, filter_In, Pos.eqb_eq.
    rewrite andb_true_iff, String.eqb_eq, !nonempty_given.
    unfold has_status, target_language_code_is, next_review_lte, in_strings,
      given; cbn [existsb].
    rewrite orb_false_r.
    split.
    - intros [[[[[I U] S] T] Wl] D].
      split; [exact I|]. split; [exact U|].
      split; [|split; [|split]].
      + intros s [E N]; rewrite E in S; cbn in S.
        apply String.eqb_eq, S; eauto.
      + intros c [E N]; rewrite E in T; cbn in T.
        destruct (target_language_of (languages w) r) as [l|].
        * exists l; split; [reflexivity|]. apply String.eqb_eq, T; eauto.
        * discriminate T; eauto.
      + intros c [E N]; rewrite E in Wl; cbn in Wl; apply Wl; eauto.
      + intros d [E N] L; rewrite E in D; cbn in D.
        assert (D' := D (conj (ex_intro _ d (conj eq_refl N)) L)).
        apply andb_true_iff in D'; destruct D' as [D1 D2].
        split.
        * destruct (WordsProgress.next_review r) as [t|]; [|discriminate].
          exists t; split; [reflexivity|apply Z.leb_le, D1].
        * apply orb_true_iff in D2; rewrite !String.eqb_eq in D2; exact D2.
    - intros (I & U & S & T & Wl & D).
      split; [split; [split; [split; [split|]|]|]|]; auto.
      + intros (v & E & N); rewrite E; cbn.
        apply String.eqb_eq, S; split; auto.
      + intros (v & E & N); rewrite E; cbn.
        destruct (T v (conj E N)) as (l & -> & <-); apply String.eqb_refl.
      + intros (v & E & N); rewrite E; cbn; apply Wl; split; auto.
      + intros [(v & E & N) L]; rewrite E in L; cbn in L.
        destruct (D v (conj E N) L) as ((t & -> & Ht) & St).
        apply andb_true_iff; split; [apply Z.leb_le, Ht|].
        apply orb_true_iff; rewrite !String.eqb_eq; exact St. }
  split; [exact Q|].
  intros I d G L; apply Q in I.
  destruct I as (_ & _ & _ & _ & _ & D).
  destruct (D d G L) as (_ & [->| ->]); split; discriminate.
Qed.

(** * Sorting and grouping *)

Lemma insert_sorted_permutation {A} (le : A -> A -> bool) x l :
  Permutation (insert_sorted le x l) (x :: l).
Proof.
  induction l as [|y l IH]; simpl; [reflexivity|].
  destruct (le x y); [reflexivity|].
  rewrite IH; apply perm_swap.
Qed.

Lemma sort_permutation {A} (le : A -> A -> bool) l :
  Permutation (sort le l) l.
Proof.
  induction l as [|x l IH]; simpl; [reflexivity|].
  unfold sort in *; simpl.
  rewrite insert_sorted_permutation; auto.
Qed.

Lemma sort_in {A} (le : A -> A -> bool) l x : In x (sort le l) <-> In x l.
Proof.
  split; apply Permutation_in;
    [|apply Permutation_sym]; apply sort_permutation.
Qed.

Section Orders.

Context {A : Type} (le : A -> A -> bool).
Hypothesis le_total : forall a b, le a b = false -> le b a = true.
Hypothesis le_trans :
  forall a b c, le a b = true -> le b c = true -> le a c = true.

Lemma insert_sorted_sorted x l :
  StronglySorted (fun a b => le a b = true) l ->
  StronglySorted (fun a b => le a b = true) (insert_sorted le x l).
Proof.
  induction 1 as [|y l S IH F]; simpl.
  - repeat constructor.
  - destruct (le x y) eqn:E.
    + constructor; [constructor; assumption|].
      constructor; [exact E|].
      eapply Forall_impl; [|exact F]; intros z; apply le_trans, E.
    + constructor; [exact IH|].
      apply (Permutation_Forall
               (Permutation_sym (insert_sorted_permutation le x l))).
      constructor; [apply le_total, E|exact F].
Qed.

Lemma sort_sorted l : StronglySorted (fun a b => le a b = true) (sort le l).
Proof.
  induction l as [|x l IH]; [constructor|].
  apply insert_sorted_sorted, IH.
Qed.

End Orders.

Lemma StronglySorted_weaken {A} (R R' : A -> A -> Prop) l :
  (forall a b, R a b -> R' a b) -> StronglySorted R l -> StronglySorted R' l.
Proof.
  intros H; induction 1 as [|x l S IH F]; constructor; [exact IH|].
  eapply Forall_impl; [|exact F]; intros y; apply H.
Qed.

Lemma StronglySorted_map {A B} (R : B -> B -> Prop) (f : A -> B) l :
  StronglySorted (fun a b => R (f a) (f b)) l -> StronglySorted R (map f l).
Proof.
  induction 1 as [|x l S IH F]; simpl; constructor; [exact IH|].
  apply Forall_map, F.
Qed.

Section Distinct.

Context {A : Type} (eqb : A -> A -> bool).
Hypothesis eqb_eq : forall a b, eqb a b = true <-> a = b.

Lemma distinct_In x l : In x (distinct eqb l) <-> In x l.
Proof.
  induction l as [|y l IH]; simpl; [tauto|].
  rewrite filter_In, IH; split.
  - intros [E|[I _]]; auto.
  - intros [E|I]; [auto|].
    destruct (eqb y x) eqn:E; [left; apply eqb_eq, E|right].
    split; [exact I|reflexivity].
Qed.

Lemma distinct_NoDup l : NoDup (distinct eqb l).
Proof.
  induction l as [|y l IH]; simpl; constructor.
  - rewrite filter_In; intros [_ N].
    rewrite (proj2 (eqb_eq y y) eq_refl) in N; discriminate.
  - apply NoDup_filter, IH.
Qed.

End Distinct.

Lemma total_permutation {A} (f : A -> Z) l l' :
  Permutation l l' -> total f l = total f l'.
Proof. induction 1; simpl; lia. Qed.

Lemma total_map {A B} (f : B -> Z) (g : A -> B) l :
  total f (map g l) = total (fun x => f (g x)) l.
Proof. induction l as [|x l IH]; simpl; congruence. Qed.

Lemma total_ext {A} (f g : A -> Z) l :
  (forall x, In x l -> f x = g x) -> total f l = total g l.
Proof.
  induction l as [|x l IH]; simpl; intros H; [reflexivity|].
  rewrite H, IH; auto.
Qed.

Lemma count_cons {A} (p : A -> bool) x l :
  count p (x :: l) = b2z (p x) + count p l.
Proof.
  unfold count; simpl; destruct (p x); cbn [b2z List.length]; lia.
Qed.

(** Each row counts in the group of its key, and in no other. *)
Lemma total_of_groups {A K} (eqb : K -> K -> bool) (key : A -> K)
  (p : A -> bool) (keys : list K) (rows : list A) :
  (forall a b, eqb a b = true <-> a = b) ->
  NoDup keys -> (forall r, In r rows -> In (key r) keys) ->
  total (fun k => count (fun r => eqb k (key r) && p r) rows) keys
  = count p rows.
Proof.
  intros E N; induction rows as [|r rows IH]; intros H.
  - clear; induction keys as [|k keys IH]; simpl; auto.
  - rewrite count_cons, <- IH by (intros; apply H; right; assumption).
    assert (S : forall ks,
               total (fun k => count (fun r => eqb k (key r) && p r)
                                 (r :: rows)) ks
               = total (fun k => b2z (eqb k (key r) && p r)) ks
                 + total (fun k => count (fun r => eqb k (key r) && p r)
                                     rows) ks).
    { induction ks as [|k ks IHk]; simpl; [reflexivity|].
      rewrite IHk, count_cons; lia. }
    rewrite S; f_equal.
    assert (I : In (key r) keys) by (apply H; left; reflexivity).
    clear - E N I; induction keys as [|k keys IH]; [contradiction|].
    inversion N as [|k' ks Nk Nks]; subst; simpl.
    destruct I as [->|I].
    + rewrite (proj2 (E (key r) (key r)) eq_refl); cbn [andb].
      replace (total _ keys) with 0; [lia|].
      symmetry; clear - E Nk; induction keys as [|k keys IH]; simpl; auto.
      rewrite <- IH by (intros I; apply Nk; right; exact I).
      destruct (eqb k (key r)) eqn:X; [|reflexivity].
      apply E in X; subst; exfalso; apply Nk; left; reflexivity.
    + rewrite (IH Nks I).
      destruct (eqb k (key r)) eqn:X; [|reflexivity].
      apply E in X; subst; contradiction.
Qed.

(** * Dates as keys *)

Lemma PyDate_eqb_eq a b : PyDate.eqb a b = true <-> a = b.
Proof.
  unfold PyDate.eqb; rewrite !andb_true_iff, !Z.eqb_eq.
  destruct a, b; cbn; split; [intros [[-> ->] ->]; reflexivity|].
  intros [= -> -> ->]; auto.
Qed.

Lemma PyDate_leb_total a b : PyDate.leb a b = false -> PyDate.leb b a = true.
Proof.
  unfold PyDate.leb; destruct a as [y1 m1 d1], b as [y2 m2 d2]; cbn.
  destruct (Z.ltb_spec y1 y2), (Z.ltb_spec y2 y1), (Z.eqb_spec y1 y2),
    (Z.eqb_spec y2 y1), (Z.ltb_spec m1 m2), (Z.ltb_spec m2 m1),
    (Z.eqb_spec m1 m2), (Z.eqb_spec m2 m1), (Z.leb_spec d1 d2),
    (Z.leb_spec d2 d1); cbn; intros; try reflexivity; try discriminate; lia.
Qed.

Lemma PyDate_leb_trans a b c :
  PyDate.leb a b = true -> PyDate.leb b c = true -> PyDate.leb a c = true.
Proof.
  unfold PyDate.leb; destruct a as [y1 m1 d1], b as [y2 m2 d2],
    c as [y3 m3 d3]; cbn.
  destruct (Z.ltb_spec y1 y2), (Z.ltb_spec y2 y3), (Z.ltb_spec y1 y3),
    (Z.eqb_spec y1 y2), (Z.eqb_spec y2 y3), (Z.eqb_spec y1 y3); cbn;
    intros; try reflexivity; try discriminate; try lia;
    destruct (Z.ltb_spec m1 m2), (Z.ltb_spec m2 m3), (Z.ltb_spec m1 m3),
      (Z.eqb_spec m1 m2), (Z.eqb_spec m2 m3), (Z.eqb_spec m1 m3); cbn in *;
    try reflexivity; try discriminate; try lia;
    destruct (Z.leb_spec d1 d2), (Z.leb_spec d2 d3), (Z.leb_spec d1 d3);
    try reflexivity; try discriminate; lia.
Qed.

Lemma PyDate_leb_antisym a b :
  PyDate.leb a b && PyDate.leb b a = PyDate.eqb a b.
Proof.
  unfold PyDate.leb, PyDate.eqb; destruct a as [y1 m1 d1], b as [y2 m2 d2].
  cbn.
  destruct (Z.ltb_spec y1 y2), (Z.ltb_spec y2 y1), (Z.eqb_spec y1 y2),
    (Z.eqb_spec y2 y1), (Z.ltb_spec m1 m2), (Z.ltb_spec m2 m1),
    (Z.eqb_spec m1 m2), (Z.eqb_spec m2 m1), (Z.leb_spec d1 d2),
    (Z.leb_spec d2 d1), (Z.eqb_spec d1 d2); cbn; try reflexivity; lia.
Qed.

Lemma StronglySorted_NoDup_strict {A} (R : A -> A -> Prop) l :
  StronglySorted R l -> NoDup l ->
  StronglySorted (fun a b => R a b /\ a <> b) l.
Proof.
  induction 1 as [|x l S IH F]; intros N; constructor;
    inversion N as [|y ys Nx Nl]; subst; auto.
  apply Forall_forall; intros y Iy; split.
  - eapply Forall_forall in F; eassumption.
  - intros ->; contradiction.
Qed.


Lemma option_eqb_with_eq {K} (eqb : K -> K -> bool) :
  (forall a b, eqb a b = true <-> a = b) ->
  forall a b, option_eqb_with eqb a b = true <-> a = b.
Proof.
  intros E [x|] [y|]; cbn; rewrite ?E; split; congruence.
Qed.

Lemma daily_stats_dates rows :
  map DailyStat.date (daily_stats rows) = days_of rows.
Proof.
  unfold daily_stats, days_of; rewrite map_map; cbn [DailyStat.date].
  apply map_id.
Qed.

Lemma days_of_In rows d :
  In d (days_of rows)
  <-> exists r, In r rows /\ WordsProgress.date_learned r = Some d.
Proof.
  unfold days_of.
  rewrite (sort_in PyDate.leb), (distinct_In _ PyDate_eqb_eq), in_flat_map.
  split; intros (r & I & H); exists r; split; auto.
  - destruct (WordsProgress.date_learned r); [|contradiction].
    destruct H as [->|[]]; reflexivity.
  - rewrite H; left; reflexivity.
Qed.

Lemma days_of_NoDup rows : NoDup (days_of rows).
Proof.
  unfold days_of.
  eapply Permutation_NoDup;
    [apply Permutation_sym, sort_permutation
    |apply (distinct_NoDup _ PyDate_eqb_eq)].
Qed.

Lemma days_of_sorted rows : StronglySorted date_before (days_of rows).
Proof.
  apply StronglySorted_NoDup_strict; [|apply days_of_NoDup].
  unfold days_of.
  apply (sort_sorted PyDate.leb PyDate_leb_total PyDate_leb_trans).
Qed.

Lemma NoDup_map_Some {K} (l : list K) : NoDup l -> NoDup (map Some l).
Proof.
  induction 1 as [|x l N _ IH]; simpl; constructor; [|exact IH].
  rewrite in_map_iff; intros (y & [= ->] & I); contradiction.
Qed.

Lemma daily_stats_entry rows s :
  In s (daily_stats rows)
  <-> exists d,
        In d (days_of rows)
        /\ s = let group := filter (date_learned_is d) rows in
               DailyStat.mk d
                 (count (has_status "new") group)
                 (count (has_status "learning") group)
                 (count (has_status "learned") group)
                 (count (has_status "mastered") group)
                 (count (fun _ => true) group).
Proof.
  unfold daily_stats; fold (days_of rows).
  rewrite in_map_iff; split; intros (d & H1 & H2); exists d; auto.
Qed.

Lemma daily_stats_count (p : WordsProgress.t -> bool) rows :
  (forall r, In r rows -> WordsProgress.date_learned r <> None) ->
  total (fun d => count p (filter (date_learned_is d) rows)) (days_of rows)
  = count p rows.
Proof.
  intros H.
  rewrite <- (total_of_groups (option_eqb_with PyDate.eqb)
                WordsProgress.date_learned p (map Some (days_of rows)) rows
                (option_eqb_with_eq _ PyDate_eqb_eq)).
  - rewrite total_map; apply total_ext; intros d _.
    rewrite count_filter; apply count_ext; intros r.
    unfold date_learned_is; cbn.
    destruct (WordsProgress.date_learned r) as [x|]; [|reflexivity].
    f_equal; destruct (PyDate.eqb x d) eqn:E.
    + apply PyDate_eqb_eq in E; subst; symmetry; apply PyDate_eqb_eq.
      reflexivity.
    + symmetry; apply not_true_iff_false; intros E'.
      apply PyDate_eqb_eq in E'; subst.
      rewrite (proj2 (PyDate_eqb_eq x x) eq_refl) in E; discriminate.
  - apply NoDup_map_Some, days_of_NoDup.
  - intros r I; specialize (H r I).
    destruct (WordsProgress.date_learned r) as [d|] eqn:E; [|congruence].
    apply in_map, days_of_In; eauto.
Qed.

Lemma daily_stats_totals rows :
  (forall r, In r rows -> WordsProgress.date_learned r <> None) ->
  total DailyStat.new (daily_stats rows) = count (has_status "new") rows
  /\ total DailyStat.learning (daily_stats rows)
     = count (has_status "learning") rows
  /\ total DailyStat.learned (daily_stats rows)
     = count (has_status "learned") rows
  /\ total DailyStat.mastered (daily_stats rows)
     = count (has_status "mastered") rows
  /\ total DailyStat.total (daily_stats rows) = Z.of_nat (List.length rows).
Proof.
  intros H.
  assert (T : forall (f : DailyStat.t -> Z) p,
             (forall d n l ld m t,
                In (DailyStat.mk d n l ld m t) (daily_stats rows) ->
                f (DailyStat.mk d n l ld m t)
                = count p (filter (date_learned_is d) rows)) ->
             total f (daily_stats rows) = count p rows).
  { intros f p Hf; rewrite <- (daily_stats_count p rows H).
    rewrite <- daily_stats_dates, total_map.
    apply total_ext; intros [d n l ld m t] I; apply Hf, I. }
  assert (E : forall d n l ld m t,
             In (DailyStat.mk d n l ld m t) (daily_stats rows) ->
             n = count (has_status "new") (filter (date_learned_is d) rows)
             /\ l = count (has_status "learning")
                      (filter (date_learned_is d) rows)
             /\ ld = count (has_status "learned")
                       (filter (date_learned_is d) rows)
             /\ m = count (has_status "mastered")
                      (filter (date_learned_is d) rows)
             /\ t = count (fun _ => true) (filter (date_learned_is d) rows)).
  { intros d n l ld m t I; apply daily_stats_entry in I.
    destruct I as (d' & _ & I); cbn in I.
    injection I as -> -> -> -> -> ->; auto. }
  repeat split.
  - apply T; intros; cbn; eapply E; eassumption.
  - apply T; intros; cbn; eapply E; eassumption.
  - apply T; intros; cbn; eapply E; eassumption.
  - apply T; intros; cbn; eapply E; eassumption.
  - rewrite (T DailyStat.total (fun _ => true)).
    + unfold count; f_equal; f_equal.
      clear; induction rows as [|r rows IH]; simpl; congruence.
    + intros; cbn; eapply E; eassumption.
Qed.

(** * Languages as keys *)

Lemma same_language_eq a b : same_language a b = true <-> a = b.
Proof.
  unfold same_language; rewrite andb_true_iff, !String.eqb_eq.
  destruct a, b; cbn; split; [intros [-> ->]; reflexivity|].
  intros [= -> ->]; auto.
Qed.

Lemma language_stats_unfold ls rows :
  language_stats ls rows
  = sort (fun a b => LanguageStat.total_count b <=? LanguageStat.total_count a)
      (map (fun k =>
              let group := language_group ls k rows in
              LanguageStat.mk (fst k) (snd k)
                (count (has_status "new") group)
                (count (has_status "learning") group)
                (count (has_status "learned") group)
                (count (has_status "mastered") group)
                (count (fun _ => true) group))
         (language_keys ls rows)).
Proof.
  unfold language_stats, language_keys, language_group, language_key.
  f_equal.
  assert (K : forall r,
             match target_language_of ls r with
             | Some l => [(Language.code l, Language.name_english l)]
             | None => []
             end
             = match match target_language_of ls r with
                     | Some l =>
                         Some (Language.code l, Language.name_english l)
                     | None => None
                     end with
               | Some k => [k]
               | None => []
               end)
    by (intros r; destruct (target_language_of ls r); reflexivity).
  rewrite (flat_map_ext _ _ K).
  apply map_ext; intros k.
  assert (G : forall r,
             existsb (same_language k)
               match target_language_of ls r with
               | Some l => [(Language.code l, Language.name_english l)]
               | None => []
               end
             = option_eqb_with same_language (Some k)
                 match target_language_of ls r with
                 | Some l => Some (Language.code l, Language.name_english l)
                 | None => None
                 end).
  { intros r; destruct (target_language_of ls r); cbn;
      [apply orb_false_r|reflexivity]. }
  rewrite (filter_ext _ _ G); reflexivity.
Qed.

Lemma language_keys_In ls rows k :
  In k (language_keys ls rows)
  <-> exists r, In r rows /\ language_key ls r = Some k.
Proof.
  unfold language_keys.
  rewrite (distinct_In _ same_language_eq), in_flat_map.
  split; intros (r & I & H); exists r; split; auto.
  - destruct (language_key ls r); [|contradiction].
    destruct H as [->|[]]; reflexivity.
  - rewrite H; left; reflexivity.
Qed.

Lemma language_keys_NoDup ls rows : NoDup (language_keys ls rows).
Proof. apply (distinct_NoDup _ same_language_eq). Qed.

Lemma language_stats_entry ls rows s :
  In s (language_stats ls rows)
  <-> exists k,
        In k (language_keys ls rows)
        /\ s = let group := language_group ls k rows in
               LanguageStat.mk (fst k) (snd k)
                 (count (has_status "new") group)
                 (count (has_status "learning") group)
                 (count (has_status "learned") group)
                 (count (has_status "mastered") group)
                 (count (fun _ => true) group).
Proof.
  rewrite language_stats_unfold, sort_in, in_map_iff.
  split; intros (k & H1 & H2); exists k; auto.
Qed.

Lemma language_stats_keys ls rows :
  Permutation (map LanguageStat_key (language_stats ls rows))
    (language_keys ls rows).
Proof.
  rewrite language_stats_unfold, sort_permutation, map_map.
  unfold LanguageStat_key; cbn.
  rewrite (map_ext _ (fun k => k)) by (intros [a b]; reflexivity).
  rewrite map_id; reflexivity.
Qed.

Lemma language_stats_sorted ls rows :
  StronglySorted more_rows (language_stats ls rows).
Proof.
  rewrite language_stats_unfold.
  eapply StronglySorted_weaken;
    [|apply (sort_sorted
               (fun a b => LanguageStat.total_count b
                           <=? LanguageStat.total_count a))].
  - intros a b H; apply Z.leb_le, H.
  - intros a b H; apply Z.leb_gt in H; apply Z.leb_le; lia.
  - intros a b c H1 H2; apply Z.leb_le in H1, H2; apply Z.leb_le; lia.
Qed.

Lemma language_stats_count ls (p : WordsProgress.t -> bool) rows :
  (forall r, In r rows -> target_language_of ls r <> None) ->
  total (fun k => count p (language_group ls k rows)) (language_keys ls rows)
  = count p rows.
Proof.
  intros H.
  rewrite <- (total_of_groups (option_eqb_with same_language)
                (language_key ls) p (map Some (language_keys ls rows)) rows
                (option_eqb_with_eq _ same_language_eq)).
  - rewrite total_map; apply total_ext; intros k _.
    unfold language_group; rewrite count_filter; reflexivity.
  - apply NoDup_map_Some, language_keys_NoDup.
  - intros r I; specialize (H r I); unfold language_key.
    destruct (target_language_of ls r) as [l|] eqn:E; [|congruence].
    apply in_map, language_keys_In; exists r; split; [exact I|].
    unfold language_key; rewrite E; reflexivity.
Qed.

Lemma language_stats_entry_positive ls rows s :
  In s (language_stats ls rows) -> 0 < LanguageStat.total_count s.
Proof.
  intros I; apply language_stats_entry in I; destruct I as (k & Ik & ->).
  cbn; apply language_keys_In in Ik; destruct Ik as (r & Ir & Kr).
  unfold count.
  assert (In r (filter (fun _ => true) (language_group ls k rows))).
  { apply filter_In; split; [|reflexivity].
    apply filter_In; split; [exact Ir|].
    rewrite Kr; apply (option_eqb_with_eq _ same_language_eq); reflexivity. }
  destruct (filter _ (language_group ls k rows)); [contradiction|].
  cbn [List.length]; lia.
Qed.

(** The test [total_count > 0] of the views drops no entry. *)
Lemma language_breakdown_all ls rows :
  filter (fun s => 0 <? LanguageStat.total_count s) (language_stats ls rows)
  = language_stats ls rows.
Proof.
  assert (H : forall l : list LanguageStat.t,
             (forall s, In s l -> 0 < LanguageStat.total_count s) ->
             filter (fun s => 0 <? LanguageStat.total_count s) l = l).
  { induction l as [|s l IH]; intros P; [reflexivity|]; simpl.
    replace (0 <? LanguageStat.total_count s) with true
      by (symmetry; apply Z.ltb_lt, P; left; reflexivity).
    rewrite IH; [reflexivity|]; intros; apply P; right; assumption. }
  apply H; intros s; apply language_stats_entry_positive.
Qed.

Lemma language_stats_totals ls rows :
  (forall r, In r rows -> target_language_of ls r <> None) ->
  total LanguageStat.new_count (language_stats ls rows)
  = count (has_status "new") rows
  /\ total LanguageStat.learning_count (language_stats ls rows)
     = count (has_status "learning") rows
  /\ total LanguageStat.learned_count (language_stats ls rows)
     = count (has_status "learned") rows
  /\ total LanguageStat.mastered_count (language_stats ls rows)
     = count (has_status "mastered") rows
  /\ total LanguageStat.total_count (language_stats ls rows)
     = Z.of_nat (List.length rows).
Proof.
  intros H.
  assert (T : forall (f : LanguageStat.t -> Z) p,
             (forall k,
                f (let group := language_group ls k rows in
                   LanguageStat.mk (fst k) (snd k)
                     (count (has_status "new") group)
                     (count (has_status "learning") group)
                     (count (has_status "learned") group)
                     (count (has_status "mastered") group)
                     (count (fun _ => true) group))
                = count p (language_group ls k rows)) ->
             total f (language_stats ls rows) = count p rows).
  { intros f p Hf; rewrite <- (language_stats_count ls p rows H).
    rewrite language_stats_unfold.
    rewrite (total_permutation _ _ _ (sort_permutation _ _)), total_map.
    apply total_ext; intros k _; apply Hf. }
  repeat split; try (apply T; intros; reflexivity).
  rewrite (T LanguageStat.total_count (fun _ => true));
    try (intros; reflexivity).
  unfold count; f_equal; f_equal.
  clear; induction rows as [|r rows IH]; simpl; congruence.
Qed.

(** * The statistics of today and of a period *)

Lemma stats_response_body today user period language_filter start_date
  end_date w :
  date_range today period w = (Ok (Some (start_date, end_date)), w) ->
  let queryset := stats_queryset user start_date end_date language_filter w in
  stats_response no_fault today user period language_filter w
  = (Ok (Stats_200
           (Stats.mk period start_date end_date
              (count (has_status "new") queryset)
              (count (has_status "learning") queryset)
              (count (has_status "learned") queryset)
              (count (has_status "mastered") queryset)
              (count (has_status "learned") queryset
               + count (has_status "mastered") queryset)
              (if in_strings period ["today"; "week"; "month"]
                  || (String.eqb period "year" && is_some start_date)
               then daily_stats queryset
               else [])
              (language_stats (languages w) queryset))),
     w).
Proof.
  intros H; cbn zeta; unfold stats_response, try_except, bind; rewrite H.
  unfold orm, no_fault; cbn zeta.
  rewrite language_breakdown_all; reflexivity.
Qed.

Lemma today_response_body today user w :
  let queryset := learned_today_queryset today user w in
  WordsLearnedTodayView_get no_fault today user w
  = (Ok (Today_200
           (TodayStats.mk (isoformat today)
              (count (has_status "learned") queryset)
              (count (has_status "mastered") queryset)
              (count (has_status "learned") queryset
               + count (has_status "mastered") queryset)
              (language_stats (languages w) queryset))),
     w).
Proof.
  cbn zeta; unfold WordsLearnedTodayView_get, try_except, orm, no_fault.
  rewrite language_breakdown_all; reflexivity.
Qed.

Lemma stats_queryset_today today user w :
  stats_queryset user (Some today) today None w
  = filter (fun r => (WordsProgress.user r =? user)%positive
                     && date_learned_is today r) (words_progress w).
Proof.
  unfold stats_queryset; cbn [nonempty].
  rewrite !filter_filter; apply filter_ext; intros r.
  unfold date_learned_gte, date_learned_lte, date_learned_is.
  destruct (WordsProgress.date_learned r) as [x|]; cbn [is_some].
  - rewrite <- (PyDate_leb_antisym x today).
    btauto.
  - btauto.
Qed.

(** X7.  The two views of what was learned today agree: the words
    learned, the words mastered and their total in the answer of
    [WordsLearnedTodayView] are the figures [words_learned],
    [words_mastered] and [total_words] of [WordsLearnedStatsView] for
    the period ['today'] without language; both answer 200 and change
    nothing. *)
Theorem today_view_agrees_with_statistics (today : PyDate.date)
  (user : positive) (w : World) :
  exists t s,
    WordsLearnedTodayView_get no_fault today user w = (Ok (Today_200 t), w)
    /\ stats_response no_fault today user "today" None w
       = (Ok (Stats_200 s), w)
    /\ TodayStats.words_learned_today t = Stats.words_learned s
    /\ TodayStats.words_mastered_today t = Stats.words_mastered s
    /\ TodayStats.total_learned_today t = Stats.total_words s
    /\ Stats.start_date s = Some today /\ Stats.end_date s = today.
Proof.
  do 2 eexists; split; [apply today_response_body|].
  split; [apply (stats_response_body today user "today" None (Some today)
                   today w eq_refl)|].
  cbn [TodayStats.words_learned_today TodayStats.words_mastered_today
         TodayStats.total_learned_today Stats.words_learned
         Stats.words_mastered Stats.total_words Stats.start_date
         Stats.end_date].
  assert (C : forall s, In s ["learned"; "mastered"] ->
                count (has_status s) (learned_today_queryset today user w)
                = count (has_status s)
                    (stats_queryset user (Some today) today None w)).
  { intros s Hs; rewrite stats_queryset_today.
    unfold learned_today_queryset; rewrite !count_filter.
    apply count_ext; intros r; unfold has_status, in_strings; cbn [existsb].
    destruct Hs as [<-|[<-|[]]];
      destruct (String.eqb_spec (WordsProgress.status r) "learned") as [->|];
      destruct (String.eqb_spec (WordsProgress.status r) "mastered")
        as [E|]; try rewrite E; cbn; btauto. }
  rewrite (C "learned"), (C "mastered") by (cbn; auto).
  repeat split.
Qed.

Lemma count_none {A} (p : A -> bool) l :
  (forall x, In x l -> p x = false) -> count p l = 0.
Proof.
  intros H; unfold count.
  replace (filter p l) with (@nil A); [reflexivity|].
  symmetry; induction l as [|x l IH]; simpl; [reflexivity|].
  rewrite H by (left; reflexivity); apply IH; intros; apply H; right.
  assumption.
Qed.

Lemma count_split {A} (p q : A -> bool) l :
  (forall x, In x l -> xorb (p x) (q x) = true) ->
  count (fun _ => true) l = count p l + count q l.
Proof.
  induction l as [|x l IH]; intros H; [reflexivity|].
  rewrite !count_cons, IH by (intros; apply H; right; assumption).
  specialize (H x (or_introl eq_refl)).
  destruct (p x), (q x); cbn [b2z xorb] in *; try discriminate; lia.
Qed.

Lemma learned_today_status today user w r :
  In r (learned_today_queryset today user w) ->
  In r (words_progress w)
  /\ (WordsProgress.status r = "learned"
      \/ WordsProgress.status r = "mastered").
Proof.
  unfold learned_today_queryset; rewrite filter_In, !andb_true_iff.
  unfold in_strings; cbn [existsb]; rewrite orb_false_r, orb_true_iff.
  rewrite !String.eqb_eq; tauto.
Qed.

(** X8.  The breakdown by language of [WordsLearnedTodayView], when
    every row joins to a language: it holds one entry for each language
    in which a word was learned or mastered today, the entries with
    more rows first; in every entry [new_count] and [learning_count]
    are 0 and [total_count] is positive and the sum of [learned_count]
    and [mastered_count]; and over the entries [learned_count],
    [mastered_count] and [total_count] add up to the three figures of
    the answer. *)
Theorem today_breakdown_adds_up (today : PyDate.date) (user : positive)
  (w : World) (Hjoined : languages_joined w) :
  exists t,
    WordsLearnedTodayView_get no_fault today user w = (Ok (Today_200 t), w)
    /\ Forall (fun s =>
                 LanguageStat.new_count s = 0
                 /\ LanguageStat.learning_count s = 0
                 /\ LanguageStat.total_count s
                    = LanguageStat.learned_count s
                      + LanguageStat.mastered_count s
                 /\ 0 < LanguageStat.total_count s)
         (TodayStats.breakdown_by_language t)
    /\ total LanguageStat.learned_count (TodayStats.breakdown_by_language t)
       = TodayStats.words_learned_today t
    /\ total LanguageStat.mastered_count (TodayStats.breakdown_by_language t)
       = TodayStats.words_mastered_today t
    /\ total LanguageStat.total_count (TodayStats.breakdown_by_language t)
       = TodayStats.total_learned_today t
    /\ StronglySorted more_rows (TodayStats.breakdown_by_language t)
    /\ NoDup (map LanguageStat_key (TodayStats.breakdown_by_language t)).
Proof.
  eexists; split; [apply today_response_body|].
  cbn [TodayStats.breakdown_by_language TodayStats.words_learned_today
         TodayStats.words_mastered_today TodayStats.total_learned_today].
  set (q := learned_today_queryset today user w).
  assert (J : forall r, In r q -> target_language_of (languages w) r <> None).
  { intros r I; apply Hjoined; eapply learned_today_status; exact I. }
  assert (S : forall r, In r q ->
                xorb (has_status "learned" r) (has_status "mastered" r)
                = true).
  { intros r I; apply learned_today_status in I; unfold has_status.
    destruct I as [_ [-> | ->]]; reflexivity. }
  destruct (language_stats_totals (languages w) q J)
    as (_ & _ & Tl & Tm & Tt).
  split; [|split; [exact Tl|split; [exact Tm|split; [|split]]]].
  - apply Forall_forall; intros s I.
    pose proof (language_stats_entry_positive _ _ _ I) as P.
    apply language_stats_entry in I; destruct I as (k & _ & ->).
    cbn in P |- *.
    assert (G : forall r, In r (language_group (languages w) k q) -> In r q)
      by (intros r I; apply filter_In in I; tauto).
    repeat split; auto.
    + apply count_none; intros r I; apply G, learned_today_status in I.
      unfold has_status; destruct I as [_ [-> | ->]]; reflexivity.
    + apply count_none; intros r I; apply G, learned_today_status in I.
      unfold has_status; destruct I as [_ [-> | ->]]; reflexivity.
    + apply count_split; intros r I; apply S, G, I.
  - rewrite Tt.
    rewrite <- (count_split (has_status "learned") (has_status "mastered")
                  q S).
    unfold count; f_equal; f_equal.
    clear; induction q as [|r q IH]; simpl; congruence.
  - apply language_stats_sorted.
  - eapply Permutation_NoDup;
      [apply Permutation_sym, language_stats_keys|apply language_keys_NoDup].
Qed.

Lemma today_breakdown_adds_up_witness :
  languages_joined Scenario.world
  /\ exists t,
       WordsLearnedTodayView_get no_fault Scenario.today 7 Scenario.world
       = (Ok (Today_200 t), Scenario.world)
       /\ total LanguageStat.total_count (TodayStats.breakdown_by_language t)
          = TodayStats.total_learned_today t.
Proof.
  assert (J : languages_joined Scenario.world).
  { intros r [<-|[<-|[<-|[]]]]; discriminate. }
  split; [exact J|].
  destruct (today_breakdown_adds_up Scenario.today 7 Scenario.world J)
    as (t & E & _ & _ & _ & T & _).
  exists t; split; [exact E|exact T].
Defined.

Lemma stats_queryset_rows user start_date end_date language_filter w r :
  In r (stats_queryset user start_date end_date language_filter w) ->
  In r (words_progress w)
  /\ exists d, WordsProgress.date_learned r = Some d
               /\ in_window start_date end_date d = true.
Proof.
  unfold stats_queryset, in_window.
  intros I.
  assert (I' : In r (filter (date_learned_lte end_date)
                       match start_date with
                       | Some d =>
                           filter (date_learned_gte d)
                             (filter (fun r => (WordsProgress.user r =? user)%positive
                                               && is_some (WordsProgress.date_learned r))
                                (words_progress w))
                       | None =>
                           filter (fun r => (WordsProgress.user r =? user)%positive
                                            && is_some (WordsProgress.date_learned r))
                             (words_progress w)
                       end)).
  { destruct (nonempty language_filter); [apply filter_In in I; tauto|exact I]. }
  clear I; apply filter_In in I'; destruct I' as [I L].
  unfold date_learned_lte in L.
  destruct (WordsProgress.date_learned r) as [d|] eqn:D; [|discriminate].
  destruct start_date as [s|].
  - apply filter_In in I; destruct I as [I G].
    apply filter_In in I; destruct I as [I _].
    unfold date_learned_gte in G; rewrite D in G.
    split; [exact I|]. exists d; rewrite G, L; auto.
  - apply filter_In in I; destruct I as [I _].
    split; [exact I|]. exists d; rewrite L; auto.
Qed.

Lemma date_range_with_start today period w :
  PyDate.valid today -> In period ["today"; "week"; "month"; "year"] ->
  exists start_date,
    date_range today period w = (Ok (Some (Some start_date, today)), w).
Proof.
  intros V [<-|[<-|[<-|[<-|[]]]]]; unfold date_range; cbn;
    try (eexists; reflexivity).
  destruct (week_start today V) as (monday & -> & _); eexists; reflexivity.
Qed.

(** X9.  The daily breakdown of [WordsLearnedStatsView] for the periods
    today, week, month and year, on a valid date: the answer is 200;
    the days are in strictly ascending order, each within the window
    and with at least one row; and over the days the figures [new],
    [learning], [learned] and [mastered] add up to [words_new],
    [words_learning], [words_learned] and [words_mastered] of the
    answer.  For the period all the daily breakdown is empty. *)
Theorem daily_breakdown_adds_up (today : PyDate.date) (user : positive)
  (w : World) (period : string) (language_filter : option string)
  (Hvalid : PyDate.valid today)
  (Hperiod : In period ["today"; "week"; "month"; "year"]) :
  (exists body start_date,
     stats_response no_fault today user period language_filter w
     = (Ok (Stats_200 body), w)
     /\ Stats.start_date body = Some start_date
     /\ StronglySorted date_before
          (map DailyStat.date (Stats.daily_breakdown body))
     /\ Forall (fun s =>
                  in_window (Some start_date) today (DailyStat.date s) = true
                  /\ 0 < DailyStat.total s)
          (Stats.daily_breakdown body)
     /\ total DailyStat.new (Stats.daily_breakdown body)
        = Stats.words_new body
     /\ total DailyStat.learning (Stats.daily_breakdown body)
        = Stats.words_learning body
     /\ total DailyStat.learned (Stats.daily_breakdown body)
        = Stats.words_learned body
     /\ total DailyStat.mastered (Stats.daily_breakdown body)
        = Stats.words_mastered body)
  /\ exists body,
       stats_response no_fault today user "all" language_filter w
       = (Ok (Stats_200 body), w)
       /\ Stats.daily_breakdown body = [].
Proof.
  split.
  - destruct (date_range_with_start today period w Hvalid Hperiod)
      as (start_date & R).
    do 2 eexists; split; [apply (stats_response_body _ _ _ _ _ _ _ R)|].
    cbn [Stats.start_date Stats.daily_breakdown Stats.words_new
           Stats.words_learning Stats.words_learned Stats.words_mastered].
    set (q := stats_queryset user (Some start_date) today language_filter w).
    replace (in_strings period ["today"; "week"; "month"]
             || (String.eqb period "year" && is_some (Some start_date)))
      with true
      by (destruct Hperiod as [<-|[<-|[<-|[<-|[]]]]]; reflexivity).
    assert (D : forall r, In r q -> WordsProgress.date_learned r <> None).
    { intros r I; apply stats_queryset_rows in I.
      destruct I as (_ & d & -> & _); discriminate. }
    destruct (daily_stats_totals q D) as (Tn & Tl & Td & Tm & _).
    split; [reflexivity|].
    split; [rewrite daily_stats_dates; apply days_of_sorted|].
    split; [|auto].
    apply Forall_forall; intros s I.
    apply daily_stats_entry in I; destruct I as (d & Id & ->).
    cbn [DailyStat.date DailyStat.total].
    apply days_of_In in Id; destruct Id as (r & Ir & Dr).
    split.
    + apply stats_queryset_rows in Ir; destruct Ir as (_ & d' & E & W).
      congruence.
    + unfold count.
      assert (In r (filter (fun _ => true) (filter (date_learned_is d) q))).
      { apply filter_In; split; [|reflexivity].
        apply filter_In; split; [exact Ir|].
        unfold date_learned_is; rewrite Dr; apply PyDate_eqb_eq.
        reflexivity. }
      destruct (filter _ (filter _ q)); [contradiction|].
      cbn [List.length]; lia.
  - eexists; split;
      [apply (stats_response_body today user "all" language_filter None
                today w eq_refl)|reflexivity].
Qed.

Lemma daily_breakdown_adds_up_witness :
  PyDate.valid Scenario.today
  /\ exists body,
       stats_response no_fault Scenario.today 7 "week" None Scenario.world
       = (Ok (Stats_200 body), Scenario.world)
       /\ map DailyStat.date (Stats.daily_breakdown body)
          = [PyDate.mkdate 2025 4 28; PyDate.mkdate 2025 5 1]
       /\ total DailyStat.learned (Stats.daily_breakdown body)
          = Stats.words_learned body.
Proof.
  assert (V : PyDate.valid Scenario.today) by (cbv; intuition discriminate).
  split; [exact V|].
  destruct (proj1 (daily_breakdown_adds_up Scenario.today 7 Scenario.world
                     "week" None V (or_intror (or_introl eq_refl))))
    as (body & start_date & E & _ & _ & _ & _ & _ & T & _).
  exists body; split; [exact E|]. split; [|exact T].
  vm_compute in E; injection E as <-; reflexivity.
Defined.

(** X10.  The breakdown by language of [WordsLearnedStatsView] for a
    supported period, on a valid date and when every row joins to a
    language: the answer is 200; there is one entry for each language
    with a row in the window, each with at least one row, those with
    more rows first; and over the entries the figures [new_count],
    [learning_count], [learned_count] and [mastered_count] add up to
    [words_new], [words_learning], [words_learned] and
    [words_mastered], so [learned_count] and [mastered_count] together
    to [total_words]. *)
Theorem language_breakdown_adds_up (today : PyDate.date) (user : positive)
  (w : World) (period : string) (language_filter : option string)
  (Hvalid : PyDate.valid today) (Hperiod : In period PERIODS)
  (Hjoined : languages_joined w) :
  exists body,
    stats_response no_fault today user period language_filter w
    = (Ok (Stats_200 body), w)
    /\ StronglySorted more_rows (Stats.language_breakdown body)
    /\ NoDup (map LanguageStat_key (Stats.language_breakdown body))
    /\ Forall (fun s => 0 < LanguageStat.total_count s)
         (Stats.language_breakdown body)
    /\ total LanguageStat.new_count (Stats.language_breakdown body)
       = Stats.words_new body
    /\ total LanguageStat.learning_count (Stats.language_breakdown body)
       = Stats.words_learning body
    /\ total LanguageStat.learned_count (Stats.language_breakdown body)
       = Stats.words_learned body
    /\ total LanguageStat.mastered_count (Stats.language_breakdown body)
       = Stats.words_mastered body
    /\ total (fun s => LanguageStat.learned_count s
                       + LanguageStat.mastered_count s)
         (Stats.language_breakdown body)
       = Stats.total_words body.
Proof.
  destruct (date_range_periods today period w Hvalid Hperiod)
    as (start_date & R).
  eexists; split; [apply (stats_response_body _ _ _ _ _ _ _ R)|].
  cbn [Stats.language_breakdown Stats.words_new Stats.words_learning
         Stats.words_learned Stats.words_mastered Stats.total_words].
  set (q := stats_queryset user start_date today language_filter w).
  assert (J : forall r, In r q -> target_language_of (languages w) r <> None).
  { intros r I; apply Hjoined; eapply stats_queryset_rows; exact I. }
  destruct (language_stats_totals (languages w) q J)
    as (Tn & Tl & Td & Tm & _).
  split; [apply language_stats_sorted|].
  split; [eapply Permutation_NoDup;
          [apply Permutation_sym, language_stats_keys
          |apply language_keys_NoDup]|].
  split; [apply Forall_forall; intros s;
          apply language_stats_entry_positive|].
  repeat split; auto.
  rewrite <- Td, <- Tm.
  generalize (language_stats (languages w) q); intros l.
  induction l as [|s l IH]; simpl; lia.
Qed.

Lemma language_breakdown_adds_up_witness :
  PyDate.valid Scenario.today /\ In "month" PERIODS
  /\ languages_joined Scenario.world
  /\ exists body,
       stats_response no_fault Scenario.today 7 "month" None Scenario.world
       = (Ok (Stats_200 body), Scenario.world)
       /\ total LanguageStat.learned_count (Stats.language_breakdown body)
          = Stats.words_learned body.
Proof.
  assert (V : PyDate.valid Scenario.today) by (cbv; intuition discriminate).
  assert (P : In "month" PERIODS) by (cbn; auto).
  assert (J : languages_joined Scenario.world).
  { intros r [<-|[<-|[<-|[]]]]; discriminate. }
  split; [exact V|]. split; [exact P|]. split; [exact J|].
  destruct (language_breakdown_adds_up Scenario.today 7 Scenario.world
              "month" None V P J) as (body & E & _ & _ & _ & _ & _ & T & _).
  exists body; split; [exact E|exact T].
Defined.

(** * Quizzes *)

Lemma quiz_validate_language_id_cases fault n w :
  (exists e, QuizProgressSerializer.validate_language_id fault n w
             = (Raise e, w))
  \/ (QuizProgressSerializer.validate_language_id fault n w = (Ok n, w)
      /\ exists l, find (fun x => language_has_id n x && Language.enabled x)
                     (languages w) = Some l).
Proof.
  unfold QuizProgressSerializer.validate_language_id, try_except, orm, raise.
  destruct (fault Q_catalog) as [[]|]; eauto.
  destruct (find _ (languages w)) as [l|]; eauto.
Qed.

Lemma quiz_post_cases fault user data quizzes w :
  (exists e, QuizProgressListCreateView_post fault user data quizzes w
             = (Raise e, w))
  \/ exists n l t c,
       let row :=
         QuizProgress.mk (next_pk (map QuizProgress.id quizzes)) user
           (Language.id l) t c in
       QuizProgressListCreateView_post fault user data quizzes w
       = (Ok (row, (quizzes ++ [row])%list), w)
       /\ data = QuizAttrs.mk (Some n) (Some t) (Some c)
       /\ find (language_has_id n) (languages w) = Some l
       /\ quiz_row_ok row.
Proof.
  unfold QuizProgressListCreateView_post, QuizProgressSerializer.is_valid,
    QuizProgressSerializer.validate_fields, bind.
  destruct data as [[n|] [t|] [c|]]; cbn [QuizAttrs.language_id
    QuizAttrs.total_questions QuizAttrs.correct_answers];
    try (left; unfold raise; eauto; fail).
  destruct (negb _) eqn:N; [left; unfold raise; eauto|].
  destruct (quiz_validate_language_id_cases fault n w)
    as [(e & ->)|(-> & l0 & F)]; [left; eauto|].
  unfold ret, QuizProgressSerializer.validate.
  cbn [QuizAttrs.total_questions QuizAttrs.correct_answers override].
  destruct (Z.leb_spec t 0); [left; unfold raise; eauto|].
  destruct (Z.ltb_spec c 0); [left; unfold raise; eauto|].
  destruct (Z.ltb_spec t c); [left; unfold raise; eauto|].
  unfold QuizProgressSerializer.create, bind, Language_get, orm, ret.
  cbn [QuizAttrs.language_id QuizAttrs.total_questions
         QuizAttrs.correct_answers override].
  destruct (fault Q_catalog); [left; eauto|].
  destruct (find (language_has_id n) (languages w)) as [l|] eqn:L;
    [|left; eauto].
  right; exists n, l, t, c; cbn zeta.
  repeat split; cbn; auto; lia.
Qed.

Lemma quiz_post_step fault w qs u d :
  quiz_post fault w qs (u, d) = qs
  \/ exists row, quiz_post fault w qs (u, d) = (qs ++ [row])%list
                 /\ quiz_row_ok row.
Proof.
  unfold quiz_post; cbn [fst snd].
  destruct (quiz_post_cases fault u d qs w)
    as [(e & ->)|(n & l & t & c & -> & _ & _ & R)]; cbn [fst]; eauto.
Qed.

Lemma quiz_accuracy_nonneg q :
  quiz_row_ok q ->
  PyFloat.leb PyFloat.zero (QuizProgress.accuracy_percentage q) = true.
Proof.
  intros (T & C & _); unfold QuizProgress.accuracy_percentage.
  destruct (QuizProgress.total_questions q =? 0); [reflexivity|].
  apply leb_zero_nonneg, round_nonneg, mul_hundred_nonneg,
    int_truediv_nonneg; assumption.
Qed.

(** X11.  Every quiz that a post has stored was checked: a post is
    refused and leaves the table as it is, or appends one row under a
    new key, of the requester, for a language of the catalog, with the
    figures of the payload, where there is at least one question and
    the correct answers are between 0 and the number of questions.  So
    a table of such rows stays one after any sequence of posts, no row
    of it is changed or removed, and the accuracy of every row is the
    rounded quotient, never below [0.0]. *)
Theorem quiz_posts_keep_scores_consistent (fault : faults) (w : World)
  (requests : list (positive * QuizAttrs.t)) (quizzes : list QuizProgress.t)
  (Hok : Forall quiz_row_ok quizzes) :
  (exists added,
     quiz_posts fault w requests quizzes = (quizzes ++ added)%list
     /\ (List.length added <= List.length requests)%nat)
  /\ Forall quiz_row_ok (quiz_posts fault w requests quizzes)
  /\ Forall (fun q =>
               QuizProgress.accuracy_percentage q
               = PyFloat.round
                   (PyFloat.mul
                      (PyFloat.int_truediv (QuizProgress.correct_answers q)
                         (QuizProgress.total_questions q))
                      PyFloat.hundred) 2
               /\ PyFloat.leb PyFloat.zero
                    (QuizProgress.accuracy_percentage q) = true)
       (quiz_posts fault w requests quizzes)
  /\ forall user data,
       (exists e,
          QuizProgressListCreateView_post fault user data quizzes w
          = (Raise e, w))
       \/ exists row l,
            QuizProgressListCreateView_post fault user data quizzes w
            = (Ok (row, (quizzes ++ [row])%list), w)
            /\ quiz_row_ok row
            /\ QuizProgress.user row = user
            /\ ~ In (QuizProgress.id row) (map QuizProgress.id quizzes)
            /\ In l (languages w)
            /\ Language.id l = QuizProgress.language row
            /\ QuizAttrs.total_questions data
               = Some (QuizProgress.total_questions row)
            /\ QuizAttrs.correct_answers data
               = Some (QuizProgress.correct_answers row).
Proof.
  assert (S : forall reqs qs,
             Forall quiz_row_ok qs ->
             Forall quiz_row_ok (quiz_posts fault w reqs qs)
             /\ exists added,
                  quiz_posts fault w reqs qs = (qs ++ added)%list
                  /\ (List.length added <= List.length reqs)%nat).
  { induction reqs as [|[u d] reqs IH]; intros qs H.
    - split; [exact H|]. exists []; rewrite app_nil_r; split; [reflexivity|].
      cbn; lia.
    - unfold quiz_posts in *; cbn [fold_left].
      destruct (quiz_post_step fault w qs u d) as [->|(row & -> & R)].
      + destruct (IH qs H) as (F & added & E & L).
        split; [exact F|]. exists added; split; [exact E|]. cbn; lia.
      + destruct (IH (qs ++ [row])%list) as (F & added & E & L).
        * apply Forall_app; split; [exact H|]. constructor; [exact R|].
          constructor.
        * split; [exact F|]. exists (row :: added).
          rewrite E, <- app_assoc; split; [reflexivity|]. cbn; lia. }
  destruct (S requests quizzes Hok) as (F & A).
  split; [exact A|]. split; [exact F|]. split.
  - eapply Forall_impl; [|exact F].
    intros q Hq; split; [|apply quiz_accuracy_nonneg, Hq].
    unfold QuizProgress.accuracy_percentage.
    destruct Hq as (T & _).
    destruct (Z.eqb_spec (QuizProgress.total_questions q) 0); [lia|].
    reflexivity.
  - intros user data.
    destruct (quiz_post_cases fault user data quizzes w)
      as [(e & E)|(n & l & t & c & E & -> & L & R)]; [left; eauto|].
    right; do 2 eexists; split; [exact E|].
    split; [exact R|]. cbn.
    repeat split; auto.
    + apply next_pk_fresh.
    + apply find_some in L; destruct L as [L _]; exact L.
Qed.

Lemma quiz_posts_keep_scores_consistent_witness :
  Forall quiz_row_ok [QuizProgress.mk 1 7 1 10 7]
  /\ Forall quiz_row_ok
       (quiz_posts no_fault Example.empty
          [(7%positive, QuizAttrs.mk (Some 1) (Some 20) (Some 20));
           (7%positive, QuizAttrs.mk (Some 1) (Some 20) (Some 21))]
          [QuizProgress.mk 1 7 1 10 7]).
Proof.
  assert (H : Forall quiz_row_ok [QuizProgress.mk 1 7 1 10 7]).
  { repeat constructor; cbn; lia. }
  split; [exact H|].
  exact (proj1 (proj2 (quiz_posts_keep_scores_consistent no_fault
                         Example.empty _ _ H))).
Defined.

Lemma Sum_cons {A} (f : A -> Z) x l : Sum f (x :: l) = f x + Sum f l.
Proof. reflexivity. Qed.

Lemma total_cons {A} (f : A -> Z) x l : total f (x :: l) = f x + total f l.
Proof. reflexivity. Qed.

(** Each row weighs in the group of its key, and in no other. *)
Lemma total_of_weighted_groups {A K} (eqb : K -> K -> bool) (key : A -> K)
  (f : A -> Z) (keys : list K) (rows : list A) :
  (forall a b, eqb a b = true <-> a = b) ->
  NoDup keys -> (forall r, In r rows -> In (key r) keys) ->
  total (fun k => total f (filter (fun r => eqb (key r) k) rows)) keys
  = total f rows.
Proof.
  intros E N; induction rows as [|r rows IH]; intros H.
  - clear; induction keys as [|k keys IH]; [reflexivity|].
    rewrite total_cons, IH; reflexivity.
  - rewrite total_cons, <- IH by (intros; apply H; right; assumption).
    assert (S : forall ks,
               total (fun k => total f (filter (fun r => eqb (key r) k)
                                          (r :: rows))) ks
               = total (fun k => if eqb (key r) k then f r else 0) ks
                 + total (fun k => total f (filter (fun r => eqb (key r) k)
                                              rows)) ks).
    { induction ks as [|k ks IHk]; [reflexivity|].
      rewrite !total_cons, IHk; cbn [filter].
      destruct (eqb (key r) k); rewrite ?total_cons; lia. }
    rewrite S; f_equal.
    assert (I : In (key r) keys) by (apply H; left; reflexivity).
    clear - E N I; induction keys as [|k keys IH]; [contradiction|].
    inversion N as [|k' ks Nk Nks]; subst; rewrite total_cons.
    destruct I as [->|I].
    + rewrite (proj2 (E (key r) (key r)) eq_refl).
      replace (total _ keys) with 0; [lia|].
      symmetry; clear - E Nk; induction keys as [|k keys IH];
        [reflexivity|].
      rewrite total_cons, IH by (intros I; apply Nk; right; exact I).
      destruct (eqb (key r) k) eqn:X; [|reflexivity].
      apply E in X; subst; exfalso; apply Nk; left; reflexivity.
    + rewrite (IH Nks I).
      destruct (eqb (key r) k) eqn:X; [|lia].
      apply E in X; subst; contradiction.
Qed.

Lemma count_true_total {A} (l : list A) :
  count (fun _ => true) l = total (fun _ => 1) l.
Proof.
  induction l as [|x l IH]; [reflexivity|].
  rewrite count_cons, IH; reflexivity.
Qed.

Lemma quiz_groups_entry rows g :
  In g (quiz_groups rows)
  <-> exists k,
        In k (map QuizProgress.language rows)
        /\ g = let group :=
                 filter (fun q => (QuizProgress.language q =? k)%positive)
                   rows in
               QuizGroup.mk k (Sum QuizProgress.total_questions group)
                 (Sum QuizProgress.correct_answers group)
                 (count (fun _ => true) group).
Proof.
  unfold quiz_groups; rewrite sort_in, in_map_iff.
  split; intros (k & H1 & H2); exists k.
  - apply (proj1 (distinct_In _ Pos.eqb_eq _ _)) in H2; split; [exact H2|].
    symmetry; exact H1.
  - split; [symmetry; exact H2|apply (distinct_In _ Pos.eqb_eq), H1].
Qed.

Lemma quiz_groups_languages rows :
  Permutation (map QuizGroup.language (quiz_groups rows))
    (distinct Pos.eqb (map QuizProgress.language rows)).
Proof.
  unfold quiz_groups; rewrite sort_permutation, map_map.
  cbn [QuizGroup.language]; rewrite map_id; reflexivity.
Qed.

Lemma quiz_groups_sorted rows :
  StronglySorted
    (fun a b => QuizGroup.total_questions b <= QuizGroup.total_questions a)
    (quiz_groups rows).
Proof.
  unfold quiz_groups.
  eapply StronglySorted_weaken;
    [|apply (sort_sorted
               (fun a b => QuizGroup.total_questions b
                           <=? QuizGroup.total_questions a))].
  - intros a b H; apply Z.leb_le, H.
  - intros a b H; apply Z.leb_gt in H; apply Z.leb_le; lia.
  - intros a b c H1 H2; apply Z.leb_le in H1, H2; apply Z.leb_le; lia.
Qed.

Lemma quiz_groups_totals rows :
  total QuizGroup.total_questions (quiz_groups rows)
  = Sum QuizProgress.total_questions rows
  /\ total QuizGroup.total_correct (quiz_groups rows)
     = Sum QuizProgress.correct_answers rows
  /\ total QuizGroup.quiz_count (quiz_groups rows)
     = Z.of_nat (List.length rows).
Proof.
  assert (T : forall (g : QuizGroup.t -> Z) (f : QuizProgress.t -> Z),
             (forall k,
                g (let group :=
                     filter (fun q => (QuizProgress.language q =? k)%positive)
                       rows in
                   QuizGroup.mk k (Sum QuizProgress.total_questions group)
                     (Sum QuizProgress.correct_answers group)
                     (count (fun _ => true) group))
                = total f (filter (fun q => (QuizProgress.language q
                                             =? k)%positive) rows)) ->
             total g (quiz_groups rows) = total f rows).
  { intros g f Hg.
    rewrite <- (total_of_weighted_groups Pos.eqb QuizProgress.language f
                  (distinct Pos.eqb (map QuizProgress.language rows)) rows
                  Pos.eqb_eq (distinct_NoDup _ Pos.eqb_eq _)).
    - unfold quiz_groups.
      rewrite (total_permutation _ _ _ (sort_permutation _ _)), total_map.
      apply total_ext; intros k _; apply Hg.
    - intros r I; apply (distinct_In _ Pos.eqb_eq), in_map, I. }
  repeat split.
  - apply T; intros; reflexivity.
  - apply T; intros; reflexivity.
  - rewrite (T QuizGroup.quiz_count (fun _ => 1)).
    + clear; induction rows as [|r rows IH]; [reflexivity|].
      rewrite total_cons, IH; cbn [List.length]; lia.
    + intros; cbn; apply count_true_total.
Qed.

Lemma quiz_stats_entries w stats :
  (forall g, In g stats ->
             exists l, find (language_has_id (Zpos (QuizGroup.language g)))
                         (languages w) = Some l) ->
  forall response_data,
  exists data,
    quiz_stats no_fault stats response_data w
    = (Ok (response_data ++ data)%list, w)
    /\ Forall2 quiz_entry_of stats data.
Proof.
  induction stats as [|g stats IH]; intros H acc.
  - exists []; rewrite app_nil_r; split; [reflexivity|constructor].
  - destruct (H g (or_introl eq_refl)) as (l & L).
    cbn [quiz_stats]; unfold bind at 1, quiz_stat, bind, Language_get, orm,
      no_fault, ret.
    rewrite L.
    edestruct IH as (data & E & F);
      [intros g' I; apply H; right; exact I|].
    rewrite E; eexists (_ :: data); rewrite <- app_assoc.
    split; [reflexivity|].
    constructor; [|exact F].
    apply find_some in L; destruct L as [_ L].
    unfold language_has_id in L; apply Z.eqb_eq in L.
    repeat split; cbn; congruence.
Qed.

Lemma Forall2_total {A B} (R : A -> B -> Prop) (f : A -> Z) (g : B -> Z) l l' :
  (forall a b, R a b -> f a = g b) -> Forall2 R l l' ->
  total f l = total g l'.
Proof.
  intros H; induction 1 as [|a b l l' Hab _ IH]; [reflexivity|].
  rewrite !total_cons, IH, (H a b Hab); reflexivity.
Qed.

Lemma Forall2_map_eq {A B C} (R : A -> B -> Prop) (f : A -> C) (g : B -> C)
  l l' :
  (forall a b, R a b -> f a = g b) -> Forall2 R l l' ->
  map f l = map g l'.
Proof.
  intros H; induction 1 as [|a b l l' Hab _ IH]; [reflexivity|].
  cbn; rewrite IH, (H a b Hab); reflexivity.
Qed.

Lemma Forall2_In_r {A B} (R : A -> B -> Prop) l l' b :
  Forall2 R l l' -> In b l' -> exists a, In a l /\ R a b.
Proof.
  induction 1 as [|a0 b0 l l' Hab _ IH]; [contradiction|].
  intros [<-|I]; [exists a0; split; [left; reflexivity|exact Hab]|].
  destruct (IH I) as (a & Ia & Ra); exists a; split; [right|]; assumption.
Qed.

Lemma StronglySorted_map_inv {A C} (R : C -> C -> Prop) (f : A -> C) l :
  StronglySorted R (map f l) -> StronglySorted (fun a b => R (f a) (f b)) l.
Proof.
  induction l as [|x l IH]; cbn; intros S; [constructor|].
  inversion S as [|y ys S' F]; subst; constructor; [auto|].
  apply (proj1 (Forall_map f (R (f x)) l)), F.
Qed.

Lemma quiz_queryset_rows user language_filter w quizzes q :
  In q (quiz_queryset user language_filter w quizzes) ->
  In q quizzes /\ QuizProgress.user q = user.
Proof.
  unfold quiz_queryset; intros I.
  assert (I' : In q (filter (fun q => (QuizProgress.user q =? user)%positive)
                       quizzes))
    by (destruct (nonempty language_filter);
        [apply filter_In in I; tauto|exact I]).
  apply filter_In in I'; rewrite Pos.eqb_eq in I'; exact I'.
Qed.

(** X12.  [QuizStatsView], when every quiz refers to a language of the
    catalog: the answer is 200 with one entry for each language in
    which the user has a quiz (of the language asked for, if one is),
    the entries with more questions first; over the entries
    [quiz_count] adds up to the number of those quizzes and
    [total_questions] to the sum of their questions; and when every
    quiz has at least one question and no more correct answers than
    questions, every entry has a quiz and a question and an
    [average_accuracy] that is the rounded quotient and not below
    [0.0]. *)
Theorem quiz_statistics_add_up (user : positive)
  (language_filter : option string) (w : World)
  (quizzes : list QuizProgress.t) (Hjoined : quizzes_joined w quizzes) :
  exists data,
    QuizStatsView_get no_fault user language_filter quizzes w
    = (Ok (QuizStats_200 data), w)
    /\ StronglySorted more_questions data
    /\ NoDup (map (fun s => Language.id (QuizStat.language s)) data)
    /\ (forall k,
          In k (map (fun s => Language.id (QuizStat.language s)) data)
          <-> In k (map QuizProgress.language
                      (quiz_queryset user language_filter w quizzes)))
    /\ total QuizStat.quiz_count data
       = Z.of_nat (List.length
                     (quiz_queryset user language_filter w quizzes))
    /\ total QuizStat.total_questions data
       = Sum QuizProgress.total_questions
           (quiz_queryset user language_filter w quizzes)
    /\ (Forall quiz_row_ok quizzes ->
        Forall (fun s =>
                  0 < QuizStat.quiz_count s
                  /\ 0 < QuizStat.total_questions s
                  /\ PyFloat.leb PyFloat.zero (QuizStat.average_accuracy s)
                     = true)
          data).
Proof.
  set (q := quiz_queryset user language_filter w quizzes).
  destruct (quiz_stats_entries w (quiz_groups q)) with (response_data := @nil QuizStat.t)
    as (data & E & F).
  { intros g I; apply quiz_groups_entry in I; destruct I as (k & Ik & ->).
    cbn [QuizGroup.language].
    apply in_map_iff in Ik; destruct Ik as (r & <- & Ir).
    apply Hjoined; eapply quiz_queryset_rows; exact Ir. }
  exists data; split.
  { unfold QuizStatsView_get, try_except, bind at 1, get_world.
    fold (quiz_queryset user language_filter w quizzes); fold q.
    unfold bind; rewrite E; reflexivity. }
  assert (Ml : map (fun s => Language.id (QuizStat.language s)) data
               = map QuizGroup.language (quiz_groups q)).
  { symmetry; eapply Forall2_map_eq; [|exact F].
    intros a b (H & _); symmetry; exact H. }
  destruct (quiz_groups_totals q) as (Tq & Tc & Tn).
  split; [|split; [|split; [|split; [|split]]]].
  - apply StronglySorted_map_inv with (f := QuizStat.total_questions)
      (R := fun a b => b <= a).
    rewrite <- (Forall2_map_eq _ QuizGroup.total_questions
                  QuizStat.total_questions _ _
                  (fun a b (H : quiz_entry_of a b) =>
                     eq_sym (proj1 (proj2 H))) F).
    apply StronglySorted_map, quiz_groups_sorted.
  - rewrite Ml.
    eapply Permutation_NoDup;
      [apply Permutation_sym, quiz_groups_languages
      |apply (distinct_NoDup _ Pos.eqb_eq)].
  - intros k; rewrite Ml; split; intros I.
    + apply (distinct_In _ Pos.eqb_eq).
      eapply Permutation_in; [apply quiz_groups_languages|exact I].
    + eapply Permutation_in;
        [apply Permutation_sym, quiz_groups_languages|].
      apply (distinct_In _ Pos.eqb_eq), I.
  - rewrite <- Tn; symmetry; eapply Forall2_total; [|exact F].
    intros a b (_ & _ & H & _); symmetry; exact H.
  - rewrite <- Tq; symmetry; eapply Forall2_total; [|exact F].
    intros a b (_ & H & _); symmetry; exact H.
  - intros Hok; apply Forall_forall; intros s Is.
    destruct (Forall2_In_r _ _ _ _ F Is) as (g & Ig & Hl & Ht & Hn & Ha).
    apply quiz_groups_entry in Ig; destruct Ig as (k & Ik & ->).
    cbn [QuizGroup.total_questions QuizGroup.total_correct
           QuizGroup.quiz_count QuizGroup.language] in *.
    set (group := filter (fun x => (QuizProgress.language x =? k)%positive) q)
      in *.
    assert (G : forall r, In r group -> quiz_row_ok r).
    { intros r Ir; apply filter_In in Ir; destruct Ir as [Ir _].
      apply quiz_queryset_rows in Ir; destruct Ir as [Ir _].
      eapply Forall_forall in Hok; eassumption. }
    assert (N : exists r rest, group = r :: rest).
    { apply in_map_iff in Ik; destruct Ik as (r & Er & Ir).
      assert (In r group)
        by (apply filter_In; split; [exact Ir|apply Pos.eqb_eq, Er]).
      destruct group as [|r0 rest]; [contradiction|eauto]. }
    assert (P : 0 < Sum QuizProgress.total_questions group
                /\ 0 <= Sum QuizProgress.correct_answers group).
    { destruct N as (r & rest & ->).
      assert (A : forall l, (forall x, In x l -> quiz_row_ok x) ->
                            0 <= Sum QuizProgress.total_questions l
                            /\ 0 <= Sum QuizProgress.correct_answers l).
      { induction l as [|x l IH]; intros Hl'; [cbn; lia|].
        destruct IH as [I1 I2]; [intros; apply Hl'; right; assumption|].
        destruct (Hl' x (or_introl eq_refl)) as (X1 & X2 & X3).
        rewrite !Sum_cons; lia. }
      destruct (A rest) as [A1 A2];
        [intros; apply G; right; assumption|].
      destruct (G r (or_introl eq_refl)) as (X1 & X2 & X3).
      rewrite !Sum_cons; lia. }
    rewrite Ht, Hn, Ha; split; [|split; [tauto|]].
    + destruct N as (r & rest & ->); rewrite count_cons; cbn [b2z].
      pose proof (count_nonneg (fun _ : QuizProgress.t => true) rest); lia.
    + replace (0 <? Sum QuizProgress.total_questions group) with true
        by (symmetry; apply Z.ltb_lt; tauto).
      apply leb_zero_nonneg, round_nonneg, mul_hundred_nonneg,
        int_truediv_nonneg; tauto.
Qed.

Lemma quiz_statistics_add_up_witness :
  quizzes_joined Example.empty
    [QuizProgress.mk 1 7 1 10 7; QuizProgress.mk 2 7 2 30 3;
     QuizProgress.mk 3 7 1 10 9; QuizProgress.mk 4 8 1 5 5]
  /\ exists data,
       QuizStatsView_get no_fault 7 None
         [QuizProgress.mk 1 7 1 10 7; QuizProgress.mk 2 7 2 30 3;
          QuizProgress.mk 3 7 1 10 9; QuizProgress.mk 4 8 1 5 5]
         Example.empty
       = (Ok (QuizStats_200 data), Example.empty)
       /\ total QuizStat.quiz_count data = 3
       /\ total QuizStat.total_questions data = 50.
Proof.
  assert (J : quizzes_joined Example.empty
                [QuizProgress.mk 1 7 1 10 7; QuizProgress.mk 2 7 2 30 3;
                 QuizProgress.mk 3 7 1 10 9; QuizProgress.mk 4 8 1 5 5]).
  { intros q [<-|[<-|[<-|[<-|[]]]]]; eexists; reflexivity. }
  split; [exact J|].
  destruct (quiz_statistics_add_up 7 None Example.empty _ J)
    as (data & E & _ & _ & _ & Tn & Tq & _).
  exists data; split; [exact E|]. split; [exact Tn|exact Tq].
Defined.

(** * Activation links *)

Lemma find_first {A} (p : A -> bool) l x :
  In x l -> p x = true -> exists y, find p l = Some y.
Proof.
  intros I P; destruct (find p l) as [y|] eqn:F; [eauto|].
  rewrite (find_none _ _ F x I) in P; discriminate.
Qed.

Lemma find_nothing {A} (p : A -> bool) l :
  (forall x, In x l -> p x = false) -> find p l = None.
Proof.
  intros H; destruct (find p l) as [y|] eqn:F; [|reflexivity].
  apply find_some in F; destruct F as [I P].
  rewrite (H y I) in P; discriminate.
Qed.

Lemma find_unique {A B} (p : A -> bool) (key : A -> B) l x :
  NoDup (map key l) -> In x l -> p x = true ->
  (forall y, p y = true -> key y = key x) ->
  find p l = Some x.
Proof.
  intros N I P K; destruct (find_first p l x I P) as (y & F).
  rewrite F; f_equal.
  pose proof (find_some _ _ F) as [Iy Py].
  eapply NoDup_map_injective; eauto.
Qed.

Lemma use_token_fields pk t :
  EmailActivationToken.id (use_token pk t) = EmailActivationToken.id t
  /\ EmailActivationToken.user (use_token pk t) = EmailActivationToken.user t
  /\ EmailActivationToken.token (use_token pk t)
     = EmailActivationToken.token t
  /\ EmailActivationToken.created_at (use_token pk t)
     = EmailActivationToken.created_at t.
Proof.
  unfold use_token; destruct (_ =? _)%positive; repeat split.
Qed.

(** A good link activates its account. *)
Lemma activation_succeeds (hours : option Z) (now : datetime)
  (db : AuthDB) (t : EmailActivationToken.t) (a : Account.t) :
  auth_keys_unique db ->
  In t (activation_tokens db) ->
  EmailActivationToken.is_used t = false ->
  EmailActivationToken.is_expired hours now t = false ->
  In a (accounts db) ->
  Account.id a = EmailActivationToken.user t ->
  exists db',
    activate_email hours now (EmailActivationToken.token t) db
    = (Ok (Activation_200 "Email activated successfully. You can now login."),
       db')
    /\ In (Account.mk (Account.id a) (Account.email a) true true)
         (accounts db').
Proof.
  intros (Na & Nt & Nv) Ht Hunused Hfresh Ha Hid.
  assert (F : find (unused_token (EmailActivationToken.token t))
                (activation_tokens db) = Some t).
  { apply find_unique with (key := EmailActivationToken.token); auto.
    - unfold unused_token; rewrite Z.eqb_refl, Hunused; reflexivity.
    - intros y Py; apply andb_true_iff in Py; destruct Py as [Py _].
      apply Z.eqb_eq, Py. }
  assert (G : find (fun x => (Account.id x =? EmailActivationToken.user t)
                             %positive) (accounts db) = Some a).
  { apply find_unique with (key := Account.id); auto.
    - apply Pos.eqb_eq, Hid.
    - intros y Py; apply Pos.eqb_eq in Py; congruence. }
  unfold activate_email; rewrite F, Hfresh, G.
  eexists; split; [reflexivity|].
  cbn [accounts]; apply in_map_iff; exists a; split; [|exact Ha].
  unfold activate_account; rewrite Pos.eqb_refl; reflexivity.
Qed.

(** X13.  An activation link works once.  With primary keys and
    tokens unique: an unused token that has not expired, whose user
    exists, is answered with 200; the user is then active and verified
    and no other user is changed; the token is then used and no other
    token is changed, the other tokens of the same user neither; and
    the same link, at any later time and with any expiry, is answered
    with 400 and changes nothing. *)
Theorem activation_link_works_once (hours : option Z) (now : datetime)
  (db : AuthDB) (t : EmailActivationToken.t) (a : Account.t)
  (Hkeys : auth_keys_unique db)
  (Ht : In t (activation_tokens db))
  (Hunused : EmailActivationToken.is_used t = false)
  (Hfresh : EmailActivationToken.is_expired hours now t = false)
  (Ha : In a (accounts db))
  (Hid : Account.id a = EmailActivationToken.user t) :
  exists db',
    activate_email hours now (EmailActivationToken.token t) db
    = (Ok (Activation_200 "Email activated successfully. You can now login."),
       db')
    /\ In (Account.mk (Account.id a) (Account.email a) true true)
         (accounts db')
    /\ (forall x, Account.id x <> Account.id a ->
                  (In x (accounts db') <-> In x (accounts db)))
    /\ In (EmailActivationToken.mk (EmailActivationToken.id t)
             (EmailActivationToken.user t) (EmailActivationToken.token t)
             (EmailActivationToken.created_at t) true)
         (activation_tokens db')
    /\ (forall x, EmailActivationToken.id x <> EmailActivationToken.id t ->
                  (In x (activation_tokens db')
                   <-> In x (activation_tokens db)))
    /\ forall hours' now',
         activate_email hours' now' (EmailActivationToken.token t) db'
         = (Ok (Activation_400 "Invalid or expired activation token"), db').
Proof.
  destruct Hkeys as (Na & Nt & Nv).
  assert (F : find (unused_token (EmailActivationToken.token t))
                (activation_tokens db) = Some t).
  { apply find_unique with (key := EmailActivationToken.token); auto.
    - unfold unused_token; rewrite Z.eqb_refl, Hunused; reflexivity.
    - intros y Py; apply andb_true_iff in Py; destruct Py as [Py _].
      apply Z.eqb_eq, Py. }
  assert (G : find (fun x => (Account.id x =? EmailActivationToken.user t)
                             %positive) (accounts db) = Some a).
  { apply find_unique with (key := Account.id); auto.
    - apply Pos.eqb_eq, Hid.
    - intros y Py; apply Pos.eqb_eq in Py; congruence. }
  unfold activate_email; rewrite F, Hfresh, G.
  eexists; split; [reflexivity|].
  cbn [accounts activation_tokens].
  split; [|split; [|split; [|split]]].
  - apply in_map_iff; exists a; split; [|exact Ha].
    unfold activate_account; rewrite Pos.eqb_refl; reflexivity.
  - intros x Nx; rewrite in_map_iff; split.
    + intros (o & <- & Io); unfold activate_account in *.
      destruct (Account.id o =? Account.id a)%positive eqn:E; [|exact Io].
      exfalso; apply Nx; cbn; apply Pos.eqb_eq, E.
    + intros Ix; exists x; split; [|exact Ix].
      unfold activate_account.
      destruct (Account.id x =? Account.id a)%positive eqn:E; [|reflexivity].
      apply Pos.eqb_eq in E; contradiction.
  - apply in_map_iff; exists t; split; [|exact Ht].
    unfold use_token; rewrite Pos.eqb_refl; reflexivity.
  - intros x Nx; rewrite in_map_iff; split.
    + intros (o & <- & Io); unfold use_token in *.
      destruct (EmailActivationToken.id o =? EmailActivationToken.id t)
        %positive eqn:E; [|exact Io].
      exfalso; apply Nx; cbn; apply Pos.eqb_eq, E.
    + intros Ix; exists x; split; [|exact Ix].
      unfold use_token.
      destruct (EmailActivationToken.id x =? EmailActivationToken.id t)
        %positive eqn:E; [|reflexivity].
      apply Pos.eqb_eq in E; contradiction.
  - intros hours' now'; unfold activate_email; cbn [activation_tokens].
    rewrite find_nothing; [reflexivity|].
    intros x Ix; apply in_map_iff in Ix; destruct Ix as (o & <- & Io).
    unfold unused_token.
    destruct (use_token_fields (EmailActivationToken.id t) o)
      as (_ & _ & Ev & _); rewrite Ev.
    destruct (Z.eqb_spec (EmailActivationToken.token o)
                (EmailActivationToken.token t)) as [E|]; [|reflexivity].
    assert (o = t) by (eapply NoDup_map_injective; eauto).
    subst o; unfold use_token; rewrite Pos.eqb_refl; reflexivity.
Qed.

Lemma activation_link_works_once_witness :
  auth_keys_unique Pending.db
  /\ exists db',
       activate_email None (timedelta_hours 24) 1234 Pending.db
       = (Ok (Activation_200
                "Email activated successfully. You can now login."), db')
       /\ activate_email None (timedelta_hours 24) 1234 db'
          = (Ok (Activation_400 "Invalid or expired activation token"), db').
Proof.
  assert (K : auth_keys_unique Pending.db).
  { repeat split; repeat constructor; cbn; tauto. }
  split; [exact K|].
  destruct (activation_link_works_once None (timedelta_hours 24) Pending.db
              Pending.sent Pending.account K (or_introl eq_refl) eq_refl
              eq_refl (or_introl eq_refl) eq_refl)
    as (db' & E & _ & _ & _ & _ & Again).
  exists db'; split; [exact E|apply Again].
Defined.

(** X14.  Expiry of an activation link.  A token expires strictly after
    its creation time plus the expiry hours (24 when the settings give
    none): at that very instant it is still good, one microsecond later
    it has expired, and once expired it is expired at every later time.
    A link whose unused token has expired is answered with 400
    ['Activation token has expired'] now and at every later time, and
    the tables are unchanged: the token is not marked as used. *)
Theorem expired_link_stays_refused (hours : option Z) (now later : datetime)
  (token : UUID) (db : AuthDB) (t : EmailActivationToken.t)
  (Hfind : find (unused_token token) (activation_tokens db) = Some t)
  (Hexpired : EmailActivationToken.is_expired hours now t = true)
  (Hlater : now <= later) :
  activate_email hours later token db
  = (Ok (Activation_400 "Activation token has expired"), db)
  /\ EmailActivationToken.is_expired hours later t = true
  /\ EmailActivationToken.is_expired hours
       (EmailActivationToken.created_at t
        + timedelta_hours (override hours 24)) t = false
  /\ EmailActivationToken.is_expired hours
       (EmailActivationToken.created_at t
        + timedelta_hours (override hours 24) + 1) t = true.
Proof.
  assert (L : EmailActivationToken.is_expired hours later t = true).
  { unfold EmailActivationToken.is_expired in *.
    apply Z.ltb_lt in Hexpired; apply Z.ltb_lt; lia. }
  unfold activate_email; rewrite Hfind, L.
  repeat split; unfold EmailActivationToken.is_expired.
  - apply Z.ltb_irrefl.
  - apply Z.ltb_lt; lia.
Qed.

Lemma expired_link_stays_refused_witness :
  EmailActivationToken.is_expired None (timedelta_hours 24 + 1) Pending.sent
  = true
  /\ activate_email None (timedelta_hours 48) 1234 Pending.db
     = (Ok (Activation_400 "Activation token has expired"), Pending.db).
Proof.
  assert (X : EmailActivationToken.is_expired None (timedelta_hours 24 + 1)
                Pending.sent = true) by reflexivity.
  split; [exact X|].
  refine (proj1 (expired_link_stays_refused None (timedelta_hours 24 + 1)
                   (timedelta_hours 48) 1234 Pending.db Pending.sent
                   eq_refl X _)).
  vm_compute; discriminate.
Defined.

Lemma NoDup_app_one {A} (l : list A) x :
  NoDup l -> ~ In x l -> NoDup (l ++ [x]).
Proof.
  intros N I; apply NoDup_app; [exact N|repeat constructor; tauto|].
  intros y Iy [<-|[]]; contradiction.
Qed.

(** X15.  Sending the activation link again.  For the address of an
    account that is not verified, and a UUID that no token has: the
    answer is 200, one unused token of that account, created now, is
    appended under a key that no token has, and accounts and earlier
    tokens are unchanged, so that
    earlier links stay as good as they were; the constraints of the
    tables still hold; and the new link activates the account at any
    time up to the expiry hours later.  For the address of a verified
    account the answer is 400 and nothing changes. *)
Theorem resend_adds_a_token (EmailField_valid : string -> bool)
  (uuid4 : UUID) (now : datetime) (email : string) (db : AuthDB)
  (a : Account.t)
  (Hkeys : auth_keys_unique db)
  (Haddress : EmailField_valid email = true)
  (Hfind : find (fun a => String.eqb (Account.email a) email) (accounts db)
           = Some a) :
  (Account.is_email_verified a = false ->
   (forall t, In t (activation_tokens db) ->
              EmailActivationToken.token t <> uuid4) ->
   exists k,
     let t := EmailActivationToken.mk k (Account.id a) uuid4 now false in
     let db' := mkAuthDB (accounts db) (activation_tokens db ++ [t]) in
     ~ In k (map EmailActivationToken.id (activation_tokens db))
     /\ ResendActivationView_post EmailField_valid uuid4 now (Some email) db
        = (Ok (Resend_200 "Activation email sent successfully"), db')
     /\ auth_keys_unique db'
     /\ forall hours later,
          later <= now + timedelta_hours (override hours 24) ->
          exists db'',
            activate_email hours later uuid4 db'
            = (Ok (Activation_200
                     "Email activated successfully. You can now login."),
               db'')
            /\ In (Account.mk (Account.id a) (Account.email a) true true)
                 (accounts db''))
  /\ (Account.is_email_verified a = true ->
      ResendActivationView_post EmailField_valid uuid4 now (Some email) db
      = (Ok (Resend_400 "Email is already verified"), db)).
Proof.
  pose proof (find_some _ _ Hfind) as [Ia Ea].
  split.
  - intros V Fresh.
    exists (next_pk (map EmailActivationToken.id (activation_tokens db))).
    intros t db'; split; [apply next_pk_fresh|].
    assert (X : existsb (fun t => EmailActivationToken.token t =? uuid4)
                  (activation_tokens db) = false).
    { apply existsb_false; intros x Ix; apply Z.eqb_neq, Fresh, Ix. }
    assert (K' : auth_keys_unique db').
    { destruct Hkeys as (Na & Nt & Nv); unfold db'; repeat split;
        cbn [accounts activation_tokens]; [exact Na| |];
        rewrite map_app; cbn [map]; apply NoDup_app_one; auto.
      - apply next_pk_fresh.
      - rewrite in_map_iff; intros (x & Ex & Ix); exact (Fresh x Ix Ex). }
    split; [|split; [exact K'|]].
    + unfold ResendActivationView_post, ResendActivationSerializer_is_valid,
        validate_email, EmailActivationToken_create.
      rewrite Haddress, Hfind, V, Hfind, X; reflexivity.
    + intros hours later Hl.
      destruct (activation_succeeds hours later db' t a K')
        as (db'' & E & A); try reflexivity.
      * unfold db'; cbn [activation_tokens]; apply in_or_app; right; left.
        reflexivity.
      * unfold EmailActivationToken.is_expired, t; cbn.
        apply Z.ltb_ge; lia.
      * exact Ia.
      * exists db''; split; [exact E|exact A].
  - intros V.
    unfold ResendActivationView_post, ResendActivationSerializer_is_valid,
      validate_email.
    rewrite Haddress, Hfind, V; reflexivity.
Qed.

Lemma resend_adds_a_token_witness :
  auth_keys_unique Pending.db
  /\ exists db',
       ResendActivationView_post Pending.any_address 5678
         (timedelta_hours 30) (Some "learner@example.org") Pending.db
       = (Ok (Resend_200 "Activation email sent successfully"), db')
       /\ List.length (activation_tokens db') = 2%nat.
Proof.
  assert (K : auth_keys_unique Pending.db).
  { repeat split; repeat constructor; cbn; tauto. }
  split; [exact K|].
  destruct (proj1 (resend_adds_a_token Pending.any_address 5678
                     (timedelta_hours 30) "learner@example.org" Pending.db
                     Pending.account K eq_refl eq_refl) eq_refl)
    as (k & _ & E & _).
  - intros t [<-|[]]; discriminate.
  - eexists; split; [exact E|reflexivity].
Defined.

(** * Stripping and the client address *)

Lemma lstrip_spec s :
  exists l, s = l ++ lstrip s /\ all_space l = true
            /\ no_space (first_char (lstrip s)).
Proof.
  induction s as [|c s (l & E & A & N)]; cbn [lstrip].
  - exists ""; repeat split; intros x; discriminate.
  - destruct (isspace c) eqn:C.
    + exists (String c l); cbn; rewrite <- E, C, A; auto.
    + exists ""; repeat split; intros x [= <-]; exact C.
Qed.

Lemma rstrip_spec s :
  exists r, s = rstrip s ++ r /\ all_space r = true
            /\ no_space (last_char (rstrip s)).
Proof.
  induction s as [|c s (r & E & A & N)]; cbn [rstrip].
  - exists ""; repeat split; intros x; discriminate.
  - destruct (rstrip s) as [|k kept] eqn:R.
    + cbn [append] in E; subst r.
      destruct (isspace c) eqn:C.
      * exists (String c s); cbn; rewrite C, A.
        repeat split; intros x; discriminate.
      * exists s; cbn; repeat split; auto.
        intros x [= <-]; exact C.
    + exists r; cbn [append] in *; rewrite <- E; repeat split; auto.
Qed.

Lemma last_char_append l s :
  s <> "" -> last_char (l ++ s) = last_char s.
Proof.
  intros N; induction l as [|c l IH]; [reflexivity|].
  cbn [append last_char]; rewrite IH.
  destruct (l ++ s) eqn:E; [|reflexivity].
  destruct l; cbn in E; [contradiction|discriminate].
Qed.

Lemma has_char_append c l s :
  has_char c (l ++ s) = has_char c l || has_char c s.
Proof.
  induction l as [|x l IH]; [reflexivity|].
  cbn; rewrite IH; apply orb_assoc.
Qed.

Lemma before_comma_no_comma s : has_char "," (before_comma s) = false.
Proof.
  induction s as [|c s IH]; [reflexivity|]; cbn.
  destruct (Ascii.eqb c ",") eqn:E; [reflexivity|].
  cbn; rewrite E, IH; reflexivity.
Qed.

Lemma strip_spec s :
  exists l r,
    s = l ++ strip s ++ r /\ all_space l = true /\ all_space r = true
    /\ no_space (first_char (strip s)) /\ no_space (last_char (strip s)).
Proof.
  unfold strip.
  destruct (rstrip_spec s) as (r & Er & Ar & Nr).
  destruct (lstrip_spec (rstrip s)) as (l & El & Al & Nl).
  exists l, r; repeat split; auto.
  - rewrite Er at 1; rewrite El at 1.
    clear; induction l as [|c l IH]; [reflexivity|]; cbn; congruence.
  - destruct (lstrip (rstrip s)) as [|c k] eqn:K;
      [intros x; discriminate|].
    rewrite El in Nr; rewrite last_char_append in Nr by discriminate.
    exact Nr.
Qed.

(** X16.  The address that the views log for a request.  When the
    header [X-Forwarded-For] is present and not empty, the address is
    taken from it and [REMOTE_ADDR] is not looked at: it is the text
    before the first comma without the white space around it, so it
    holds no comma and neither starts nor ends with white space.
    Otherwise it is [REMOTE_ADDR], or ['Unknown'] when that is
    missing. *)
Theorem client_ip_prefers_forwarded_header (x_forwarded_for remote_addr
  : option string) :
  (forall value,
     given x_forwarded_for value ->
     let ip := get_client_ip x_forwarded_for remote_addr in
     (forall other, get_client_ip x_forwarded_for other = ip)
     /\ (exists l r,
           before_comma value = l ++ ip ++ r
           /\ all_space l = true /\ all_space r = true)
     /\ has_char "," ip = false
     /\ no_space (first_char ip) /\ no_space (last_char ip))
  /\ (nonempty x_forwarded_for = false ->
      get_client_ip x_forwarded_for remote_addr
      = override remote_addr "Unknown").
Proof.
  split.
  - intros value G.
    assert (N : nonempty x_forwarded_for = true)
      by (apply nonempty_given; eauto).
    destruct G as [-> _]; cbn zeta.
    unfold get_client_ip; rewrite N; cbn [override].
    destruct (strip_spec (before_comma value))
      as (l & r & E & Al & Ar & Nf & Nl).
    split; [reflexivity|]. split; [eauto|]. split; [|auto].
    pose proof (before_comma_no_comma value) as C.
    rewrite E, !has_char_append in C.
    apply orb_false_iff in C; destruct C as [_ C].
    apply orb_false_iff in C; tauto.
  - intros N; unfold get_client_ip; rewrite N; reflexivity.
Qed.

Lemma client_ip_prefers_forwarded_header_witness :
  given (Some " 10.0.0.1 , 10.0.0.2") " 10.0.0.1 , 10.0.0.2"
  /\ has_char ","
       (get_client_ip (Some " 10.0.0.1 , 10.0.0.2") (Some "127.0.0.1"))
     = false.
Proof.
  assert (G : given (Some " 10.0.0.1 , 10.0.0.2") " 10.0.0.1 , 10.0.0.2")
    by (split; [reflexivity|discriminate]).
  split; [exact G|].
  exact (proj1 (proj2 (proj2
           (proj1 (client_ip_prefers_forwarded_header
                     (Some " 10.0.0.1 , 10.0.0.2") (Some "127.0.0.1"))
              _ G)))).
Defined.

(** * What the profile log shows *)




(** * The admin actions and the counters *)

Lemma log_word_milestone_no_fault instance created w :
  log_word_milestone no_fault instance created w = (Ok tt, w).
Proof.
  unfold log_word_milestone, try_except, bind, orm, no_fault, ret.
  destruct (_ && _); reflexivity.
Qed.

Lemma words_progress_updated_no_fault instance created w :
  words_progress_updated no_fault instance created w
  = update_language_progress no_fault (WordsProgress.user instance)
      (WordsProgress.target_language instance) w.
Proof.
  destruct (update_language_progress_no_fault (WordsProgress.user instance)
              (WordsProgress.target_language instance) w) as (r & _ & E).
  unfold words_progress_updated, try_except; rewrite E; reflexivity.
Qed.

(** The save of a row that is in the table, when no query fails. *)
Lemma save_no_fault today instance k w :
  WordsProgress.pk instance = Some k ->
  positive_fields_ok instance = true ->
  unique_together_ok k (with_date_learned instance (Some today))
    (words_progress w) = true ->
  existsb (has_pk k) (words_progress w) = true ->
  WordsProgress_save no_fault today instance w
  = (Ok (with_date_learned instance (Some today)),
     snd (update_language_progress no_fault (WordsProgress.user instance)
            (WordsProgress.target_language instance)
            (set_words_progress w
               (map (replace_row k (with_date_learned instance (Some today)))
                  (words_progress w))))).
Proof.
  intros K P U X.
  unfold WordsProgress_save, bind.
  rewrite set_date_learned_no_fault.
  set (row := with_date_learned instance (Some today)) in *.
  assert (Kr : WordsProgress.pk row = Some k) by exact K.
  assert (W : WordsProgress_write no_fault row w
              = (Ok (row, false),
                 set_words_progress w
                   (map (replace_row k row) (words_progress w)))).
  { unfold WordsProgress_write, mark_for_rollback_on_error, orm, no_fault; rewrite Kr.
    rewrite (with_pk_same _ _ Kr).
    replace (positive_fields_ok row) with true by (symmetry; exact P).
    cbn [negb]; rewrite U, X; reflexivity. }
  rewrite W; cbn [fst snd].
  rewrite words_progress_updated_no_fault.
  destruct (update_language_progress_no_fault (WordsProgress.user row)
              (WordsProgress.target_language row)
              (set_words_progress w
                 (map (replace_row k row) (words_progress w))))
    as (r & _ & E).
  change (WordsProgress.user instance) with (WordsProgress.user row).
  change (WordsProgress.target_language instance)
    with (WordsProgress.target_language row).
  rewrite E; cbn [snd].
  rewrite log_word_milestone_no_fault; reflexivity.
Qed.

Lemma find_app_some {A} (p : A -> bool) l l' x :
  find p l = Some x -> find p (l ++ l') = Some x.
Proof.
  induction l as [|y l IH]; simpl; [discriminate|].
  destruct (p y); auto.
Qed.

Lemma recalculation_tables u l w :
  let w1 := snd (update_language_progress no_fault u l w) in
  words_progress w1 = words_progress w /\ words w1 = words w
  /\ languages w1 = languages w /\ error_log w1 = error_log w.
Proof.
  cbn zeta.
  destruct (update_language_progress_no_fault u l w) as (r & _ & E).
  rewrite E; cbn; auto.
Qed.

(** A recalculation leaves the counters of its pair current. *)
Lemma recalculation_current u l w :
  counters_current (snd (update_language_progress no_fault u l w)) u l.
Proof.
  destruct (recalculated_row u l w) as (lp & F & P & C & Lv).
  destruct (recalculation_tables u l w) as (T & W & _).
  set (w1 := snd (update_language_progress no_fault u l w)) in *.
  assert (Cn : learned_mastered_count w1 u l = learned_mastered_count w u l).
  { unfold learned_mastered_count; rewrite T; reflexivity. }
  assert (Tn : total_available_words w1 u l = total_available_words w u l).
  { unfold total_available_words, current_level; rewrite F, W, Lv.
    reflexivity. }
  exists lp; rewrite Cn, Tn; auto.
Qed.

Lemma lp_matches_pair u l u' l' r :
  lp_matches u l r = true -> lp_matches u' l' r = true -> u' = u /\ l' = l.
Proof.
  unfold lp_matches; rewrite !andb_true_iff, !Pos.eqb_eq.
  intros [<- <-] [<- <-]; auto.
Qed.

(** A recalculation for one pair leaves the row of another pair as it
    was, and so its counters as current as they were. *)
Lemma recalculation_keeps_other u l u' l' w :
  NoDup (map LanguageProgress.id (language_progress w)) ->
  ~ (u' = u /\ l' = l) ->
  counters_current w u' l' ->
  counters_current (snd (update_language_progress no_fault u l w)) u' l'.
Proof.
  intros N D (lp & F & C & P).
  destruct (recalculation_tables u l w) as (T & W & _).
  destruct (update_language_progress_no_fault u l w) as (r & Hr & E).
  set (w1 := snd (update_language_progress no_fault u l w)) in *.
  assert (F1 : find (lp_matches u' l') (language_progress w1) = Some lp).
  { unfold w1; rewrite E; cbn [snd language_progress set_language_progress].
    rewrite find_map_preserved by (intros; apply lp_matches_update_stats).
    assert (Fx : find (lp_matches u' l')
                   match find (lp_matches u l) (language_progress w) with
                   | Some _ => language_progress w
                   | None => (language_progress w ++ [r])%list
                   end = Some lp).
    { destruct (find (lp_matches u l) (language_progress w));
        [exact F|apply find_app_some, F]. }
    rewrite Fx; cbn [option_map]; f_equal.
    unfold lp_update_stats.
    destruct (LanguageProgress.id lp =? LanguageProgress.id r)%positive
      eqn:I; [|reflexivity].
    exfalso; apply Pos.eqb_eq in I.
    pose proof (find_some _ _ F) as [Il Ml].
    destruct Hr as [G|[_ ->]].
    - pose proof (find_some _ _ G) as [Ir Mr].
      assert (lp = r) by (eapply NoDup_map_injective; eassumption).
      subst lp; apply D; eapply lp_matches_pair; eassumption.
    - cbn [LanguageProgress.id] in I.
      apply (next_pk_fresh (map LanguageProgress.id (language_progress w))).
      rewrite <- I; apply in_map, Il. }
  assert (Cn : learned_mastered_count w1 u' l'
               = learned_mastered_count w u' l').
  { unfold learned_mastered_count; rewrite T; reflexivity. }
  assert (Tn : total_available_words w1 u' l'
               = total_available_words w u' l').
  { unfold total_available_words, current_level; rewrite F1, F, W.
    reflexivity. }
  exists lp; rewrite Cn, Tn; auto.
Qed.

Lemma recalculation_keeps_ids u l w :
  NoDup (map LanguageProgress.id (language_progress w)) ->
  NoDup (map LanguageProgress.id
           (language_progress (snd (update_language_progress no_fault u l w)))).
Proof.
  intros N.
  destruct (update_language_progress_no_fault u l w) as (r & Hr & E).
  rewrite E; cbn [snd language_progress set_language_progress].
  rewrite map_map.
  rewrite (map_ext _ LanguageProgress.id)
    by (intros; apply lp_update_stats_id).
  destruct Hr as [F|[F ->]]; rewrite F; [exact N|].
  rewrite map_app; cbn [map LanguageProgress.id].
  apply NoDup_app_one; [exact N|apply next_pk_fresh].
Qed.

Lemma count_map_same {A} (p : A -> bool) (f : A -> A) l :
  (forall x, In x l -> p (f x) = p x) -> count p (map f l) = count p l.
Proof.
  induction l as [|x l IH]; intros H; [reflexivity|].
  cbn [map]; rewrite !count_cons, (H x) by (left; reflexivity).
  rewrite IH by (intros y I; apply H; right; exact I); reflexivity.
Qed.

(** A change of rows that no count of the pair sees leaves its
    counters as current as they were. *)
Lemma rows_change_keeps_current u l w rows :
  count (learned_or_mastered u l) rows
  = count (learned_or_mastered u l) (words_progress w) ->
  counters_current w u l ->
  counters_current (set_words_progress w rows) u l.
Proof.
  intros E (lp & F & C & P); exists lp.
  unfold learned_mastered_count, total_available_words, current_level in *.
  cbn [words_progress set_words_progress language_progress words].
  rewrite E; auto.
Qed.

Lemma ticked_iff selected r :
  ticked selected r = true
  <-> exists k, In k selected /\ WordsProgress.pk r = Some k.
Proof.
  unfold ticked; rewrite existsb_exists.
  split; intros (k & I & H); exists k; (split; [exact I|]);
    apply has_pk_iff; exact H.
Qed.

Lemma marked_pk today status r :
  WordsProgress.pk (marked today status r) = WordsProgress.pk r.
Proof. reflexivity. Qed.

Lemma mark_ticked_pk today status done r :
  WordsProgress.pk (mark_ticked today status done r) = WordsProgress.pk r.
Proof. unfold mark_ticked; destruct (ticked done r); reflexivity. Qed.

Lemma mark_ticked_user today status done r :
  WordsProgress.user (mark_ticked today status done r)
  = WordsProgress.user r
  /\ WordsProgress.word (mark_ticked today status done r)
     = WordsProgress.word r
  /\ WordsProgress.target_language (mark_ticked today status done r)
     = WordsProgress.target_language r.
Proof. unfold mark_ticked; destruct (ticked done r); cbn; auto. Qed.

Lemma has_pk_mark_ticked today status done k r :
  has_pk k (mark_ticked today status done r) = has_pk k r.
Proof. unfold has_pk; rewrite mark_ticked_pk; reflexivity. Qed.

Lemma learned_or_mastered_pair u l r :
  learned_or_mastered u l r = true ->
  WordsProgress.user r = u /\ WordsProgress.target_language r = l.
Proof.
  unfold learned_or_mastered; rewrite !andb_true_iff, !Pos.eqb_eq; tauto.
Qed.
Lemma learned_or_mastered_other u l r :
  ~ (u = WordsProgress.user r /\ l = WordsProgress.target_language r) ->
  learned_or_mastered u l r = false.
Proof.
  intros D; destruct (learned_or_mastered u l r) eqn:E; [|reflexivity].
  apply learned_or_mastered_pair in E; destruct E as [<- <-].
  exfalso; apply D; auto.
Qed.

Lemma count_map_ext_in {A} (p : A -> bool) (f g : A -> A) l :
  (forall x, In x l -> p (f x) = p (g x)) ->
  count p (map f l) = count p (map g l).
Proof.
  induction l as [|x l IH]; intros H; [reflexivity|].
  cbn [map]; rewrite !count_cons, (H x) by (left; reflexivity).
  rewrite IH by (intros y I; apply H; right; exact I); reflexivity.
Qed.

Lemma in_pks rows k :
  In k (pks rows) -> exists x, In x rows /\ WordsProgress.pk x = Some k.
Proof.
  unfold pks; rewrite in_flat_map; intros (x & I & H).
  exists x; split; [exact I|].
  destruct (WordsProgress.pk x); [destruct H as [->|[]]; reflexivity|].
  destruct H.
Qed.

Lemma positive_fields_mark_ticked today status done r :
  positive_fields_ok (mark_ticked today status done r)
  = positive_fields_ok r.
Proof. unfold mark_ticked; destruct (ticked done r); reflexivity. Qed.

Lemma same_triple_mark_ticked today status d1 d2 a b :
  same_triple (mark_ticked today status d1 a) (mark_ticked today status d2 b)
  = same_triple a b.
Proof.
  unfold same_triple.
  destruct (mark_ticked_user today status d1 a) as (-> & -> & ->).
  destruct (mark_ticked_user today status d2 b) as (-> & -> & ->).
  reflexivity.
Qed.

Section Marking.

Variable today : PyDate.date.
Variable status : string.
Variable rows0 : list WordsProgress.t.
Hypothesis Hpk : pk_unique rows0.
Hypothesis Htriple : triple_unique rows0.
Hypothesis Hpos : Forall (fun r => positive_fields_ok r = true) rows0.

(** One turn of the loop: the row is written as marked, and the
    counters of its pair are recalculated. *)
Lemma mark_one x k done w :
  In x rows0 -> WordsProgress.pk x = Some k ->
  words_progress w = map (mark_ticked today status done) rows0 ->
  WordsProgress_save no_fault today
    match WordsProgress.date_learned (with_status x status) with
    | None => with_date_learned (with_status x status) (Some today)
    | Some _ => with_status x status
    end w
  = (Ok (marked today status x),
     snd (update_language_progress no_fault (WordsProgress.user x)
            (WordsProgress.target_language x)
            (set_words_progress w
               (map (mark_ticked today status (k :: done)) rows0)))).
Proof.
  intros Ix Kx Hw.
  set (inst := match WordsProgress.date_learned (with_status x status) with
               | None => with_date_learned (with_status x status) (Some today)
               | Some _ => with_status x status
               end).
  assert (R : with_date_learned inst (Some today) = marked today status x).
  { unfold inst, marked; destruct x as [a b c e f g h i j [dl|]]; reflexivity. }
  assert (Ki : WordsProgress.pk inst = Some k).
  { rewrite <- Kx; unfold inst; destruct x as [a b c e f g h i j [dl|]];
      reflexivity. }
  assert (Ui : WordsProgress.user inst = WordsProgress.user x
               /\ WordsProgress.target_language inst
                  = WordsProgress.target_language x).
  { unfold inst; destruct x as [a b c e f g h i j [dl|]]; split; reflexivity. }
  assert (Pi : positive_fields_ok inst = true).
  { rewrite Forall_forall in Hpos; rewrite <- (Hpos x Ix).
    unfold inst; destruct x as [a b c e f g h i j [dl|]]; reflexivity. }
  assert (U : unique_together_ok k (with_date_learned inst (Some today))
                (words_progress w) = true).
  { rewrite R, Hw; unfold unique_together_ok.
    apply negb_true_iff, existsb_false.
    intros o Io; apply in_map_iff in Io; destruct Io as (o0 & <- & Io0).
    rewrite has_pk_mark_ticked.
    destruct (same_triple (mark_ticked today status done o0)
                (marked today status x)) eqn:S; [|reflexivity].
    assert (S0 : same_triple o0 x = true).
    { rewrite <- S; unfold same_triple.
      destruct (mark_ticked_user today status done o0) as (-> & -> & ->).
      reflexivity. }
    rewrite (Htriple o0 x Io0 Ix S0).
    apply has_pk_iff in Kx; rewrite Kx; reflexivity. }
  assert (X : existsb (has_pk k) (words_progress w) = true).
  { rewrite Hw; apply existsb_exists.
    exists (mark_ticked today status done x); split; [apply in_map, Ix|].
    rewrite has_pk_mark_ticked; apply has_pk_iff, Kx. }
  assert (T : map (replace_row k (marked today status x)) (words_progress w)
              = map (mark_ticked today status (k :: done)) rows0).
  { rewrite Hw, map_map; apply map_ext_in; intros r Ir.
    unfold replace_row; rewrite has_pk_mark_ticked.
    unfold mark_ticked, ticked; cbn [existsb].
    destruct (has_pk k r) eqn:H; [|reflexivity].
    apply has_pk_iff in H; rewrite (Hpk r x k Ir Ix H Kx); reflexivity. }
  rewrite (save_no_fault today inst k w Ki Pi U X), R, T.
  destruct Ui as [-> ->]; reflexivity.
Qed.

(** The count of another pair does not see the row marked. *)
Lemma mark_one_count x k done u l :
  In x rows0 -> WordsProgress.pk x = Some k ->
  ~ (u = WordsProgress.user x /\ l = WordsProgress.target_language x) ->
  count (learned_or_mastered u l)
    (map (mark_ticked today status (k :: done)) rows0)
  = count (learned_or_mastered u l)
      (map (mark_ticked today status done) rows0).
Proof.
  intros Ix Kx D; apply count_map_ext_in; intros r Ir.
  destruct (has_pk k r) eqn:H.
  - apply has_pk_iff in H; rewrite (Hpk r x k Ir Ix H Kx).
    destruct (mark_ticked_user today status done x) as (E1 & _ & E2).
    destruct (mark_ticked_user today status (k :: done) x) as (E3 & _ & E4).
    rewrite !learned_or_mastered_other; [reflexivity| |];
      rewrite ?E1, ?E2, ?E3, ?E4; exact D.
  - unfold mark_ticked, ticked; cbn [existsb]; rewrite H; reflexivity.
Qed.

Lemma mark_each_spec q :
  forall done w updated (P : positive -> positive -> Prop),
    (forall x, In x q ->
               In x rows0 /\ exists k, WordsProgress.pk x = Some k) ->
    words_progress w = map (mark_ticked today status done) rows0 ->
    NoDup (map LanguageProgress.id (language_progress w)) ->
    (forall u l, P u l -> counters_current w u l) ->
    exists w',
      mark_each no_fault today status q updated w
      = (Ok (updated + Z.of_nat (List.length q)), w')
      /\ words_progress w'
         = map (mark_ticked today status (rev (pks q) ++ done)) rows0
      /\ NoDup (map LanguageProgress.id (language_progress w'))
      /\ languages w' = languages w /\ words w' = words w
      /\ error_log w' = error_log w
      /\ (forall u l,
            P u l
            \/ (exists x, In x q /\ WordsProgress.user x = u
                          /\ WordsProgress.target_language x = l) ->
            counters_current w' u l).
Proof.
  induction q as [|x q IH]; intros done w updated P Hq Hw N HP.
  - exists w; cbn [mark_each List.length pks flat_map rev app].
    unfold ret; repeat split; auto.
    + do 2 f_equal; lia.
    + intros u l [Pu|(x & [] & _)]; auto.
  - destruct (Hq x (or_introl eq_refl)) as (Ix & k & Kx).
    cbn [mark_each]; unfold bind; rewrite (mark_one x k done w Ix Kx Hw).
    set (w2 := set_words_progress w
                 (map (mark_ticked today status (k :: done)) rows0)).
    destruct (recalculation_tables (WordsProgress.user x)
                (WordsProgress.target_language x) w2) as (T1 & W1 & L1 & E1).
    set (w1 := snd (update_language_progress no_fault (WordsProgress.user x)
                      (WordsProgress.target_language x) w2)) in *.
    assert (Other : forall u l,
               ~ (u = WordsProgress.user x
                  /\ l = WordsProgress.target_language x) ->
               counters_current w u l -> counters_current w1 u l).
    { intros u l D C; apply recalculation_keeps_other; [exact N|exact D|].
      apply rows_change_keeps_current; [|exact C].
      rewrite Hw; apply (mark_one_count x k done u l Ix Kx D). }
    destruct (IH (k :: done) w1 (updated + 1)
                (fun u l => P u l
                            \/ (u = WordsProgress.user x
                                /\ l = WordsProgress.target_language x)))
      as (w' & R & T & N' & L & W & E & C).
    + intros y Iy; apply Hq; right; exact Iy.
    + rewrite T1; reflexivity.
    + apply recalculation_keeps_ids; exact N.
    + intros u l [Pu|[-> ->]]; [|apply recalculation_current].
      destruct (Pos.eq_dec u (WordsProgress.user x)) as [->|Du].
      * destruct (Pos.eq_dec l (WordsProgress.target_language x))
          as [->|Dl]; [apply recalculation_current|].
        apply Other; [tauto|apply HP, Pu].
      * apply Other; [tauto|apply HP, Pu].
    + exists w'; split; [|split; [|split; [exact N'|repeat split]]].
      * rewrite R; do 2 f_equal; cbn [List.length]; lia.
      * rewrite T; unfold pks; cbn [flat_map]; rewrite Kx; cbn [app rev].
        rewrite <- app_assoc; reflexivity.
      * rewrite L, L1; reflexivity.
      * rewrite W, W1; reflexivity.
      * rewrite E, E1; reflexivity.
      * intros u l [Pu|(y & [<-|Iy] & <- & <-)]; apply C; auto.
        right; exists y; auto.
Qed.

End Marking.

Lemma mark_ticked_none today status rows :
  map (mark_ticked today status []) rows = rows.
Proof. rewrite <- (map_id rows) at 2; apply map_ext; reflexivity. Qed.

(** The whole action, for either status. *)
Lemma marking_spec today status selected w :
  tables_consistent w ->
  exists w',
    mark_each no_fault today status
      (filter (ticked selected) (words_progress w)) 0 w
    = (Ok (count (ticked selected) (words_progress w)), w')
    /\ words_progress w'
       = map (mark_ticked today status selected) (words_progress w)
    /\ (forall r, In r (words_progress w) -> ticked selected r = true ->
                  counters_current w' (WordsProgress.user r)
                    (WordsProgress.target_language r))
    /\ tables_consistent w'
    /\ languages w' = languages w /\ words w' = words w
    /\ error_log w' = error_log w.
Proof.
  intros (Hpk & Htriple & Hpos & N).
  set (rows := words_progress w) in *.
  set (q := filter (ticked selected) rows).
  destruct (mark_each_spec today status rows Hpk Htriple Hpos q [] w 0
              (fun _ _ => False))
    as (w' & R & T & N' & L & W & E & C).
  - intros x Ix; apply filter_In in Ix; destruct Ix as [Ix Tx].
    split; [exact Ix|].
    apply ticked_iff in Tx; destruct Tx as (k & _ & K); eauto.
  - symmetry; apply mark_ticked_none.
  - exact N.
  - intros u l [].
  - assert (T' : words_progress w'
                 = map (mark_ticked today status selected) rows).
    { rewrite T; apply map_ext_in; intros r Ir; unfold mark_ticked.
      replace (ticked (rev (pks q) ++ []) r) with (ticked selected r);
        [reflexivity|].
      apply eq_iff_eq_true; rewrite !ticked_iff; split.
      - intros (k & Ik & Kr); exists k; split; [|exact Kr].
        rewrite app_nil_r; apply -> in_rev.
        apply pk_in_pks with (r := r); [|exact Kr].
        apply filter_In; split; [exact Ir|].
        apply ticked_iff; eauto.
      - intros (k & Ik & Kr).
        rewrite app_nil_r in Ik; apply in_rev in Ik.
        apply in_pks in Ik; destruct Ik as (x & Ix & Kx).
        apply filter_In in Ix; destruct Ix as [Ix Tx].
        rewrite (Hpk r x k Ir Ix Kr Kx); apply ticked_iff, Tx. }
    exists w'; split; [|split; [exact T'|split; [|split; [|auto]]]].
    + rewrite R; reflexivity.
    + intros r Ir Tr; apply C; right; exists r; split; [|auto].
      apply filter_In; auto.
    + unfold tables_consistent; rewrite T'; repeat split; [| | |exact N'].
      * intros r1 r2 k I1 I2 K1 K2.
        apply in_map_iff in I1; destruct I1 as (o1 & <- & I1).
        apply in_map_iff in I2; destruct I2 as (o2 & <- & I2).
        rewrite mark_ticked_pk in K1, K2.
        rewrite (Hpk o1 o2 k I1 I2 K1 K2); reflexivity.
      * intros r1 r2 I1 I2 S.
        apply in_map_iff in I1; destruct I1 as (o1 & <- & I1).
        apply in_map_iff in I2; destruct I2 as (o2 & <- & I2).
        rewrite same_triple_mark_ticked in S.
        rewrite (Htriple o1 o2 I1 I2 S); reflexivity.
      * apply Forall_forall; intros r Ir.
        apply in_map_iff in Ir; destruct Ir as (o & <- & Io).
        rewrite positive_fields_mark_ticked.
        rewrite Forall_forall in Hpos; apply Hpos, Io.
Qed.

(** X18.  [mark_as_learned] and [mark_as_mastered] of the admin save
    the ticked rows one by one, so the receivers run: when the tables
    meet their constraints and no query fails, every ticked row ends
    with the new status and with [date_learned] of today, no other row
    changes, the action counts the ticked rows, and for the user and
    the target language of every ticked row the [LanguageProgress] row
    exists and holds the count and the percentage of the table as the
    action leaves it.  The constraints hold again afterwards. *)
Theorem admin_marking_recalculates (today : PyDate.date)
  (selected : list positive) (w : World) (H : tables_consistent w) :
  forall action status,
    (action = mark_as_learned no_fault today /\ status = "learned")
    \/ (action = mark_as_mastered no_fault today /\ status = "mastered") ->
    exists w',
      action selected w
      = (Ok (count (ticked selected) (words_progress w)), w')
      /\ words_progress w'
         = map (mark_ticked today status selected) (words_progress w)
      /\ (forall r, In r (words_progress w) -> ticked selected r = true ->
                    counters_current w' (WordsProgress.user r)
                      (WordsProgress.target_language r))
      /\ tables_consistent w'
      /\ languages w' = languages w /\ words w' = words w
      /\ error_log w' = error_log w.
Proof.
  intros action status [[-> ->]|[-> ->]];
    [apply (marking_spec today "learned" selected w H)
    |apply (marking_spec today "mastered" selected w H)].
Qed.

Lemma one_row_consistent : tables_consistent Example.one_row.
Proof.
  repeat split.
  - intros r1 r2 k [<-|[]] [<-|[]] _ _; reflexivity.
  - intros r1 r2 [<-|[]] [<-|[]] _; reflexivity.
  - repeat constructor.
  - constructor.
Qed.

Lemma admin_marking_recalculates_witness :
  tables_consistent Example.one_row
  /\ exists w',
       mark_as_learned no_fault Example.today [1%positive] Example.one_row
       = (Ok 1, w')
       /\ counters_current w' 7 1.
Proof.
  split; [exact one_row_consistent|].
  destruct (admin_marking_recalculates Example.today [1%positive]
              Example.one_row one_row_consistent
              (mark_as_learned no_fault Example.today) "learned"
              (or_introl (conj eq_refl eq_refl)))
    as (w' & R & _ & C & _).
  exists w'; split; [exact R|].
  apply (C Example.row1); [left; reflexivity|reflexivity].
Defined.

(** * The admin actions that send no signal *)

Lemma count_map_le {A} (p : A -> bool) (f : A -> A) l :
  (forall x, In x l -> p (f x) = true -> p x = true) ->
  count p (map f l) <= count p l.
Proof.
  induction l as [|x l IH]; intros H; [reflexivity|].
  cbn [map]; rewrite !count_cons.
  specialize (IH (fun y I => H y (or_intror I))).
  specialize (H x (or_introl eq_refl)).
  destruct (p (f x)); destruct (p x); cbn [b2z];
    try lia; specialize (H eq_refl); discriminate.
Qed.

Lemma count_map_drop {A} (p : A -> bool) (f : A -> A) l r :
  (forall x, In x l -> p (f x) = true -> p x = true) ->
  In r l -> p r = true -> p (f r) = false ->
  count p (map f l) < count p l.
Proof.
  induction l as [|x l IH]; intros H I Pr Pf; [destruct I|].
  destruct I as [<-|I].
  - cbn [map]; rewrite !count_cons, Pr, Pf; cbn [b2z].
    pose proof (count_map_le p f l (fun y I => H y (or_intror I))); lia.
  - cbn [map]; rewrite !count_cons.
    specialize (IH (fun y J => H y (or_intror J)) I Pr Pf).
    specialize (H x (or_introl eq_refl)).
    destruct (p (f x)); destruct (p x); cbn [b2z];
      try lia; specialize (H eq_refl); discriminate.
Qed.

Lemma queryset_update_stale selected assign w user language r :
  (forall x, learned_or_mastered user language (assign x) = false) ->
  In r (words_progress w) -> ticked selected r = true ->
  learned_or_mastered user language r = true ->
  counters_current w user language ->
  exists w',
    queryset_update selected assign w
    = (Ok (count (ticked selected) (words_progress w)), w')
    /\ language_progress w' = language_progress w
    /\ error_log w' = error_log w
    /\ learned_mastered_count w' user language
       < learned_mastered_count w user language
    /\ ~ counters_current w' user language.
Proof.
  intros A Ir Tr Lr (lp & F & C & _).
  eexists; split; [reflexivity|].
  cbn [language_progress error_log set_words_progress].
  assert (D : learned_mastered_count
                (set_words_progress w
                   (map (fun r0 => if ticked selected r0 then assign r0
                                   else r0) (words_progress w)))
                user language
              < learned_mastered_count w user language).
  { unfold learned_mastered_count; cbn [words_progress set_words_progress].
    apply count_map_drop with (r := r); auto.
    - intros x _; destruct (ticked selected x); [rewrite A|]; auto.
      discriminate.
    - rewrite Tr; apply A. }
  repeat split; auto.
  intros (lp' & F' & C' & _).
  cbn [language_progress set_words_progress] in F'.
  rewrite F in F'; injection F' as <-; lia.
Qed.

(** X19.  [mark_as_new], [mark_as_learning] and [reset_progress] of the
    admin change the ticked rows with one [UPDATE], which sends no
    signal: the [LanguageProgress] table stays as it was.  So when a
    ticked row was learned or mastered and the counters of its user
    and language were current, the number of learned rows is smaller
    afterwards and the counters no longer agree with the table. *)
Theorem admin_update_leaves_counters_stale (selected : list positive)
  (w : World) (user language : positive) (r : WordsProgress.t)
  (action : list positive -> M Z)
  (Haction : In action [mark_as_new; mark_as_learning; reset_progress])
  (Hr : In r (words_progress w))
  (Hticked : ticked selected r = true)
  (Hlearned : learned_or_mastered user language r = true)
  (Hcurrent : counters_current w user language) :
  exists w',
    action selected w
    = (Ok (count (ticked selected) (words_progress w)), w')
    /\ language_progress w' = language_progress w
    /\ error_log w' = error_log w
    /\ learned_mastered_count w' user language
       < learned_mastered_count w user language
    /\ ~ counters_current w' user language.
Proof.
  destruct Haction as [<-|[<-|[<-|[]]]];
    apply queryset_update_stale with (r := r); auto;
    intros x; unfold learned_or_mastered; cbn;
    rewrite !andb_false_r; reflexivity.
Qed.

Lemma admin_update_leaves_counters_stale_witness :
  let w := snd (update_language_progress no_fault 7 1 Persons.two_learned) in
  let r := WordsProgress.mk (Some 1%positive) 7 2 1 "learned" 1 None 1 1 None in
  counters_current w 7 1
  /\ exists w',
       reset_progress [1%positive] w = (Ok 1, w')
       /\ ~ counters_current w' 7 1.
Proof.
  cbn zeta.
  assert (C : counters_current
                (snd (update_language_progress no_fault 7 1
                        Persons.two_learned)) 7 1)
    by apply recalculation_current.
  split; [exact C|].
  destruct (admin_update_leaves_counters_stale [1%positive]
              (snd (update_language_progress no_fault 7 1
                      Persons.two_learned)) 7 1
              (WordsProgress.mk (Some 1%positive) 7 2 1 "learned" 1 None 1 1
                 None)
              reset_progress (or_intror (or_intror (or_introl eq_refl)))
              (or_introl eq_refl) eq_refl eq_refl C)
    as (w' & R & _ & _ & _ & S).
  exists w'; split; [exact R|exact S].
Defined.

(** * Saving a [LanguageProgress] row *)

Lemma find_replaced {A} (p has : A -> bool) (x : A) l :
  (forall o, In o l -> p o = true -> has o = true) ->
  existsb has l = true -> p x = true ->
  find p (map (fun o => if has o then x else o) l) = Some x.
Proof.
  intros H E P; induction l as [|o l IH]; [discriminate|].
  cbn [map find]; destruct (has o) eqn:Ho; [rewrite P; reflexivity|].
  destruct (p o) eqn:Po.
  - rewrite (H o (or_introl eq_refl) Po) in Ho; discriminate.
  - apply IH; [intros y I; apply H; right; exact I|].
    cbn [existsb] in E; rewrite Ho in E; exact E.
Qed.

Lemma language_progress_level_updated_no_fault instance w :
  language_progress_level_updated no_fault instance false false w
  = update_language_progress no_fault (LanguageProgress.user instance)
      (LanguageProgress.language instance) w.
Proof.
  destruct (update_language_progress_no_fault
              (LanguageProgress.user instance)
              (LanguageProgress.language instance) w) as (r & _ & E).
  unfold language_progress_level_updated, try_except; cbn [negb].
  rewrite E; reflexivity.
Qed.

Lemma lp_matches_own instance :
  lp_matches (LanguageProgress.user instance)
    (LanguageProgress.language instance) instance = true.
Proof. unfold lp_matches; rewrite !Pos.eqb_refl; reflexivity. Qed.

(** X20.  [save] of a [LanguageProgress] instance that the database
    accepts, when no query fails and no other row is of its user and
    language.  If a row has its key, the receiver recalculates: the
    row ends with the user, the language and the level of the
    instance, and with the count of learned rows and the percentage
    against the tiers of that level, whatever counters the instance
    carried.  If no row has its key, the instance is inserted as it is
    and nothing is recalculated. *)
Theorem language_progress_save_recalculates
  (refused : LanguageProgress.t -> list LanguageProgress.t -> option exn)
  (instance : LanguageProgress.t) (w : World)
  (Hok : refused instance (language_progress w) = None)
  (Hunique : forall o, In o (language_progress w) ->
               lp_matches (LanguageProgress.user instance)
                 (LanguageProgress.language instance) o = true ->
               LanguageProgress.id o = LanguageProgress.id instance) :
  let user := LanguageProgress.user instance in
  let language := LanguageProgress.language instance in
  let c := learned_mastered_count w user language in
  let t := count (available_word language
                    (eligible_tiers (LanguageProgress.level instance)))
             (words w) in
  (existsb (lp_has_id (LanguageProgress.id instance)) (language_progress w)
   = true ->
   exists w',
     LanguageProgress_save no_fault refused instance w = (Ok tt, w')
     /\ find (lp_matches user language) (language_progress w')
        = Some (LanguageProgress.mk (LanguageProgress.id instance) user
                  language (LanguageProgress.level instance)
                  (learned_percentage_of c t) c)
     /\ words_progress w' = words_progress w /\ words w' = words w
     /\ error_log w' = error_log w)
  /\ (existsb (lp_has_id (LanguageProgress.id instance))
        (language_progress w) = false ->
      LanguageProgress_save no_fault refused instance w
      = (Ok tt,
         set_language_progress w (language_progress w ++ [instance]))).
Proof.
  cbn zeta; split; intros X.
  - set (u := LanguageProgress.user instance).
    set (l := LanguageProgress.language instance).
    set (rows2 := map (fun o =>
                         if lp_has_id (LanguageProgress.id instance) o
                         then instance else o) (language_progress w)).
    set (w2 := set_language_progress w rows2).
    assert (S : LanguageProgress_save no_fault refused instance w
                = update_language_progress no_fault u l w2).
    { unfold LanguageProgress_save, bind, LanguageProgress_write,
      mark_for_rollback_on_error, orm,
        no_fault; rewrite Hok, X.
      apply language_progress_level_updated_no_fault. }
    assert (F : find (lp_matches u l) (language_progress w2)
                = Some instance).
    { apply find_replaced; [|exact X|apply lp_matches_own].
      intros o Io Mo; unfold lp_has_id; apply Pos.eqb_eq.
      apply Hunique; assumption. }
    destruct (update_language_progress_no_fault u l w2) as (r & Hr & E).
    destruct Hr as [G|[G _]]; [|congruence].
    rewrite F in G; injection G as <-.
    rewrite S, E, F; eexists; split; [reflexivity|].
    cbn [language_progress set_language_progress words_progress words
           error_log].
    split; [|auto].
    rewrite find_map_preserved by (intros; apply lp_matches_update_stats).
    fold rows2; change rows2 with (language_progress w2); rewrite F.
    cbn [option_map]; f_equal.
    unfold lp_update_stats; rewrite Pos.eqb_refl.
    unfold total_available_words, current_level; rewrite F; reflexivity.
  - unfold LanguageProgress_save, bind, LanguageProgress_write,
      mark_for_rollback_on_error, orm,
      no_fault; rewrite Hok, X.
    unfold language_progress_level_updated, try_except; reflexivity.
Qed.

Lemma language_progress_save_recalculates_witness :
  accepts_all Levels.sent (language_progress Levels.recalculated) = None
  /\ exists w',
       LanguageProgress_save no_fault accepts_all Levels.sent
         Levels.recalculated
       = (Ok tt, w')
       /\ option_map LanguageProgress.learned_words_count
            (find (lp_matches 7 1) (language_progress w'))
          = Some 2.
Proof.
  assert (U : forall o, In o (language_progress Levels.recalculated) ->
                lp_matches 7 1 o = true ->
                LanguageProgress.id o = 1%positive).
  { intros o [<-|[]] _; reflexivity. }
  split; [reflexivity|].
  destruct (proj1 (language_progress_save_recalculates accepts_all
                     Levels.sent Levels.recalculated eq_refl U) eq_refl)
    as (w' & S & F & _).
  exists w'; split; [exact S|].
  exact (f_equal (option_map LanguageProgress.learned_words_count) F).
Defined.

(** * Translations and their reverses *)

Lemma existsb_ext_in {A} (f g : A -> bool) l :
  (forall x, In x l -> f x = g x) -> existsb f l = existsb g l.
Proof.
  induction l as [|x l IH]; intros H; [reflexivity|].
  cbn [existsb]; rewrite (H x) by (left; reflexivity).
  rewrite IH by (intros y I; apply H; right; exact I); reflexivity.
Qed.

Lemma translation_key_fresh rows o :
  In o rows ->
  translation_has_pk (next_pk (translation_pks rows)) o = false.
Proof.
  intros I; unfold translation_has_pk.
  destruct (WordTranslation.pk o) as [k|] eqn:K; [|reflexivity].
  apply Pos.eqb_neq; intros ->.
  apply (next_pk_fresh (translation_pks rows)).
  unfold translation_pks; apply in_flat_map.
  exists o; split; [exact I|rewrite K; left; reflexivity].
Qed.

(** The write of a new instance: refused when the pair is there,
    appended under a fresh key when it is not. *)
Lemma WordTranslation_write_new instance rows :
  WordTranslation.pk instance = None ->
  WordTranslation_write instance rows
  = if has_translation (WordTranslation.source_word instance)
         (WordTranslation.target_word instance) rows
    then (Raise (IntegrityError "UNIQUE constraint failed"), rows)
    else
      (Ok (translation_with_pk instance (next_pk (translation_pks rows))),
       (rows
        ++ [translation_with_pk instance
              (next_pk (translation_pks rows))])%list).
Proof.
  intros N; unfold WordTranslation_write; rewrite N.
  cbn [translation_with_pk WordTranslation.source_word
         WordTranslation.target_word].
  rewrite (existsb_ext_in _
             (translates (WordTranslation.source_word instance)
                (WordTranslation.target_word instance)) rows).
  - fold (has_translation (WordTranslation.source_word instance)
            (WordTranslation.target_word instance) rows).
    destruct (has_translation _ _ rows); [reflexivity|].
    rewrite existsb_false; [reflexivity|].
    intros o; apply translation_key_fresh.
  - intros o I; rewrite (translation_key_fresh rows o I).
    apply andb_true_r.
Qed.

Lemma has_translation_app s t l l' :
  has_translation s t (l ++ l')
  = has_translation s t l || has_translation s t l'.
Proof. apply existsb_app. Qed.

Lemma has_translation_own r l :
  In r l ->
  has_translation (WordTranslation.source_word r)
    (WordTranslation.target_word r) l = true.
Proof.
  intros I; apply existsb_exists; exists r; split; [exact I|].
  unfold translates; rewrite !Pos.eqb_refl; reflexivity.
Qed.

Lemma pairs_unique_app x l :
  pairs_unique l ->
  has_translation (WordTranslation.source_word x)
    (WordTranslation.target_word x) l = false ->
  pairs_unique (l ++ [x]).
Proof.
  intros U H a b Ia Ib S T.
  assert (No : forall o, In o l ->
                 WordTranslation.source_word o
                 = WordTranslation.source_word x ->
                 WordTranslation.target_word o
                 = WordTranslation.target_word x -> False).
  { intros o Io So To.
    pose proof (has_translation_own o l Io) as Ho.
    rewrite So, To, H in Ho; discriminate. }
  apply in_app_or in Ia; apply in_app_or in Ib.
  destruct Ia as [Ia|[<-|[]]]; destruct Ib as [Ib|[<-|[]]].
  - apply U; assumption.
  - exfalso; eapply No; eassumption.
  - exfalso; eapply No; [exact Ib| |]; congruence.
  - reflexivity.
Qed.

(** X21.  [save] of a new translation into a table in which no two
    rows hold the same pair of words.  If the pair is there, the save
    is refused and the table stays as it was.  If not, the row is
    appended under a key that no row of the table has, and its reverse
    after it when the table held none, with
    the confidence and the notes of the row; no row that was there
    changes, so a reverse that existed keeps its own confidence and
    notes.  Afterwards both directions are in the table, pairs are
    still unique, and if every row had its reverse before, every row
    has it after. *)
Theorem translation_save_adds_reverse (self : WordTranslation.t)
  (rows : list WordTranslation.t)
  (Hnew : WordTranslation.pk self = None)
  (Hunique : pairs_unique rows) :
  let s := WordTranslation.source_word self in
  let t := WordTranslation.target_word self in
  (has_translation s t rows = true ->
   exists e, WordTranslation_save true self rows = (Raise e, rows))
  /\ (has_translation s t rows = false ->
      exists saved added,
        WordTranslation_save true self rows
        = (Ok saved, (rows ++ saved :: added)%list)
        /\ (exists k, ~ In k (translation_pks rows)
                      /\ saved = translation_with_pk self k)
        /\ (added = []
            \/ exists k,
                 added = [WordTranslation.mk (Some k) t s
                            (WordTranslation.confidence self)
                            (WordTranslation.notes self)])
        /\ (has_translation t s rows = true -> added = [])
        /\ has_translation s t (rows ++ saved :: added) = true
        /\ has_translation t s (rows ++ saved :: added) = true
        /\ pairs_unique (rows ++ saved :: added)
        /\ (both_ways rows -> both_ways (rows ++ saved :: added))).
Proof.
  cbn zeta; split; intros H.
  - unfold WordTranslation_save.
    rewrite (WordTranslation_write_new self rows Hnew), H; eauto.
  - set (s := WordTranslation.source_word self) in *.
    set (t := WordTranslation.target_word self) in *.
    set (saved := translation_with_pk self (next_pk (translation_pks rows))).
    set (rows1 := (rows ++ [saved])%list).
    assert (Ss : WordTranslation.source_word saved = s) by reflexivity.
    assert (St : WordTranslation.target_word saved = t) by reflexivity.
    assert (U1 : pairs_unique rows1).
    { apply pairs_unique_app; [exact Hunique|rewrite Ss, St; exact H]. }
    assert (H1 : has_translation s t rows1 = true).
    { rewrite <- Ss, <- St; apply has_translation_own.
      apply in_or_app; right; left; reflexivity. }
    assert (W : WordTranslation_write self rows = (Ok saved, rows1)).
    { rewrite (WordTranslation_write_new self rows Hnew).
      fold s t; rewrite H; reflexivity. }
    unfold WordTranslation_save; rewrite W; rewrite Ss, St.
    destruct (has_translation t s rows1) eqn:R; cbn [negb].
    + exists saved, []; fold rows1.
      split; [reflexivity|].
      split; [eexists; split; [apply next_pk_fresh|reflexivity]|].
      split; [left; reflexivity|]. split; [reflexivity|].
      split; [exact H1|]. split; [exact R|]. split; [exact U1|].
      intros B r Ir; apply in_app_or in Ir.
      destruct Ir as [Ir|[<-|[]]]; [|rewrite Ss, St; exact R].
      unfold rows1; rewrite has_translation_app, (B r Ir); reflexivity.
    + set (reverse_translation :=
             WordTranslation.mk None t s (WordTranslation.confidence saved)
               (WordTranslation.notes saved)).
      rewrite (WordTranslation_write_new reverse_translation rows1 eq_refl).
      cbn [reverse_translation WordTranslation.source_word
             WordTranslation.target_word]; rewrite R.
      set (added := translation_with_pk _ _).
      assert (E : ((rows ++ [saved]) ++ [added] = rows ++ saved :: [added])
                  %list) by (rewrite <- app_assoc; reflexivity).
      assert (As : WordTranslation.source_word added = t) by reflexivity.
      assert (At : WordTranslation.target_word added = s) by reflexivity.
      assert (U2 : pairs_unique (rows1 ++ [added])).
      { apply pairs_unique_app; [exact U1|rewrite As, At; exact R]. }
      assert (H2 : has_translation t s (rows1 ++ [added]) = true).
      { rewrite <- As, <- At; apply has_translation_own.
        apply in_or_app; right; left; reflexivity. }
      assert (H3 : has_translation s t (rows1 ++ [added]) = true).
      { rewrite has_translation_app, H1; reflexivity. }
      exists saved, [added]; unfold rows1 in *; rewrite E in *.
      split; [reflexivity|].
      split; [eexists; split; [apply next_pk_fresh|reflexivity]|].
      split; [right; eexists; reflexivity|].
      split.
      { intros Rt; rewrite has_translation_app, Rt in R; discriminate. }
      split; [exact H3|]. split; [exact H2|]. split; [exact U2|].
      intros B r Ir; apply in_app_or in Ir.
      destruct Ir as [Ir|[<-|[<-|[]]]].
      * rewrite has_translation_app, (B r Ir); reflexivity.
      * rewrite Ss, St; exact H2.
      * rewrite As, At; exact H3.
Qed.

Lemma translation_save_adds_reverse_witness :
  pairs_unique [Translations.cat_kot; Translations.kot_cat]
  /\ exists saved added,
       WordTranslation_save true Translations.theorem_kot
         [Translations.cat_kot; Translations.kot_cat]
       = (Ok saved,
          ([Translations.cat_kot; Translations.kot_cat] ++ saved :: added)
          %list)
       /\ has_translation 3 2
            ([Translations.cat_kot; Translations.kot_cat] ++ saved :: added)
          = true.
Proof.
  assert (U : pairs_unique [Translations.cat_kot; Translations.kot_cat]).
  { intros a b [<-|[<-|[]]] [<-|[<-|[]]] S T;
      try reflexivity; discriminate. }
  split; [exact U|].
  destruct (proj2 (translation_save_adds_reverse Translations.theorem_kot
                     [Translations.cat_kot; Translations.kot_cat]
                     eq_refl U) eq_refl)
    as (saved & added & S & _ & _ & _ & _ & R & _).
  exists saved, added; split; [exact S|exact R].
Defined.
